(** * AutoGLM-GUI: the agent execution loop and its action protocol

    A shallow embedding of
    - [AutoGLM_GUI/agents/gemini/action_mapper.py] (tool call to action),
    - [AutoGLM_GUI/agents/glm/async_agent.py] (DSL agent step, raw response
      parsing),
    - [AutoGLM_GUI/agents/gemini/async_agent.py] (tool-call agent step),
    - [AutoGLM_GUI/agents/base/async_agent_base.py] (the cancellable run
      loop [stream], [cancel], [reset]),
    - [AutoGLM_GUI/dual_model/dual_agent.py] (decision/vision coordinator),
    - [AutoGLM_GUI/agents/gemini/tools.py] (the tool schemas),
    - [AutoGLM_GUI/scheduler_manager.py] and the models it stores (scheduled
      runs),
    - [AutoGLM_GUI/api/agents.py] (the chat routes),
    followed by the properties of the specification, each proved or refuted
    on these definitions, and by further properties of the code. *)

From Stdlib Require Import ZArith String Ascii Bool Lia.
From Stdlib Require Import Floats.SpecFloat.
From stdpp Require Import gmap strings list fin_maps pretty.

#[local] Set Warnings "-register-all".
#[local] Open Scope string_scope.

(** ** Python values and exceptions *)

Module Py.

(** The values that [json.loads] can put into a tool-call argument dict,
    and that the action dicts are built from.  A Python [float] is an IEEE
    binary64 number, kept here as its sign, mantissa and exponent. *)
Inductive pyval :=
| PNone
| PBool (b : bool)
| PInt (z : Z)
| PFloat (f : spec_float)
| PStr (s : string)
| PList (l : list pyval)
| PDict (d : gmap string pyval).

(** [type(val).__name__] *)
Definition type_name (v : pyval) : string :=
  match v with
  | PNone => "NoneType"
  | PBool _ => "bool"
  | PInt _ => "int"
  | PFloat _ => "float"
  | PStr _ => "str"
  | PList _ => "list"
  | PDict _ => "dict"
  end.

(** The exception classes the modelled code raises or catches.
    [CancelledError] derives from [BaseException] only, so an
    [except Exception] clause lets it through. *)
Inductive exn_class :=
| ValueError | KeyError | OverflowError | CancelledError | OtherError.

Record exn := Exn { exn_cls : exn_class; exn_msg : string }.

Definition is_Exception (e : exn) : bool :=
  match exn_cls e with CancelledError => false | _ => true end.

(** A call either returns or raises. *)
Inductive res (A : Type) :=
| Ok (a : A)
| Raise (e : exn).
Arguments Ok {A} a.
Arguments Raise {A} e.

Definition rbind {A B} (r : res A) (k : A -> res B) : res B :=
  match r with
  | Ok a => k a
  | Raise e => Raise e
  end.

(** [int(f)] on a float: truncation toward zero; NaN and the infinities
    raise ([ValueError] and [OverflowError]). *)
Definition trunc_finite (s : bool) (m : positive) (e : Z) : Z :=
  let a := if (0 <=? e)%Z then Z.shiftl (Z.pos m) e
           else Z.shiftr (Z.pos m) (- e) in
  if s then (- a)%Z else a.

Definition int_of_float (f : spec_float) : res Z :=
  match f with
  | S754_zero _ => Ok 0%Z
  | S754_finite s m e => Ok (trunc_finite s m e)
  | S754_nan => Raise (Exn ValueError "cannot convert float NaN to integer")
  | S754_infinity _ =>
      Raise (Exn OverflowError "cannot convert float infinity to integer")
  end.

(** The binary64 numbers nearest to 500.7, 300.2, 500.5 and 300.7:
    mantissa * 2^-44. *)
Definition f500_7 : spec_float := S754_finite false 8808407552439091 (-44).
Definition f300_2 : spec_float := S754_finite false 5281174250533683 (-44).
Definition f500_5 : spec_float := S754_finite false 8804889115230208 (-44).
Definition f300_7 : spec_float := S754_finite false 5289970343555891 (-44).
Definition f_inf : spec_float := S754_infinity false.

End Py.
Export Py.

(** [needle in haystack], [s.startswith(p)] *)
Fixpoint starts_with (p s : string) : bool :=
  match p, s with
  | EmptyString, _ => true
  | String a p', String b s' => Ascii.eqb a b && starts_with p' s'
  | String _ _, EmptyString => false
  end.

Fixpoint contains (needle s : string) : bool :=
  starts_with needle s ||
  match s with
  | EmptyString => false
  | String _ s' => contains needle s'
  end.

(** ** agents/gemini/action_mapper.py *)

Module ActionMapper.
Section Mapper.

(** [repr(val)] is Python's builtin; the mapper only pastes it into the
    text of an error message. *)
Variable repr : pyval -> string.

Definition _require_int (args : gmap string pyval) (key : string) : res Z :=
  match args !! key with
  | None | Some PNone =>
      Raise (Exn ValueError ("Missing required argument: '" ++ key ++ "'"))
  | Some (PInt z) => Ok z
  | Some (PBool b) => Ok (if b then 1 else 0)%Z
  | Some (PFloat f) => int_of_float f
  | Some val =>
      Raise (Exn ValueError
        ("Expected number for '" ++ key ++ "', got " ++ type_name val
           ++ ": " ++ repr val))
  end.

Definition _require_str (args : gmap string pyval) (key : string)
  : res string :=
  match args !! key with
  | None | Some PNone =>
      Raise (Exn ValueError ("Missing required argument: '" ++ key ++ "'"))
  | Some (PStr s) => Ok s
  | Some val =>
      Raise (Exn ValueError
        ("Expected string for '" ++ key ++ "', got " ++ type_name val
           ++ ": " ++ repr val))
  end.

(** [args.get(key, default)] *)
Definition get_default (args : gmap string pyval) (key : string)
    (default : pyval) : pyval :=
  match args !! key with
  | Some v => v
  | None => default
  end.

(** The two shapes of action dict. *)
Definition do_action (action : string) (fields : list (string * pyval))
  : gmap string pyval :=
  <["_metadata" := PStr "do"]> (<["action" := PStr action]> (list_to_map fields)).

Definition finish_action (message : pyval) : gmap string pyval :=
  <["_metadata" := PStr "finish"]> (<["message" := message]> ∅).

(** A pair of coordinates, evaluated left to right. *)
Definition point (args : gmap string pyval) (kx ky : string) : res pyval :=
  rbind (_require_int args kx) (fun x =>
  rbind (_require_int args ky) (fun y =>
  Ok (PList [PInt x; PInt y]))).

Definition _build_action (tool_name : string) (args : gmap string pyval)
  : res (gmap string pyval) :=
  if String.eqb tool_name "tap" then
    rbind (point args "x" "y") (fun el => Ok (do_action "Tap" [("element", el)]))
  else if String.eqb tool_name "double_tap" then
    rbind (point args "x" "y") (fun el =>
      Ok (do_action "Double Tap" [("element", el)]))
  else if String.eqb tool_name "long_press" then
    rbind (point args "x" "y") (fun el =>
      Ok (do_action "Long Press" [("element", el)]))
  else if String.eqb tool_name "swipe" then
    rbind (point args "start_x" "start_y") (fun st =>
    rbind (point args "end_x" "end_y") (fun en =>
      Ok (do_action "Swipe" [("start", st); ("end", en)])))
  else if String.eqb tool_name "type_text" then
    rbind (_require_str args "text") (fun t =>
      Ok (do_action "Type" [("text", PStr t)]))
  else if String.eqb tool_name "launch_app" then
    rbind (_require_str args "app_name") (fun a =>
      Ok (do_action "Launch" [("app", PStr a)]))
  else if String.eqb tool_name "back" then Ok (do_action "Back" [])
  else if String.eqb tool_name "home" then Ok (do_action "Home" [])
  else if String.eqb tool_name "wait" then
    Ok (do_action "Wait"
          [("duration", get_default args "duration" (PStr "1 seconds"))])
  else Ok (finish_action (PStr ("Unknown tool: " ++ tool_name))).

(** [except (ValueError, KeyError) as e] *)
Definition caught_by_mapper (e : exn) : bool :=
  match exn_cls e with
  | ValueError | KeyError => true
  | _ => false
  end.

Definition tool_call_to_action (tool_name : string)
    (arguments : gmap string pyval) : res (gmap string pyval) :=
  if String.eqb tool_name "finish" then
    Ok (finish_action (get_default arguments "message" (PStr "Task completed")))
  else
    match _build_action tool_name arguments with
    | Ok a => Ok a
    | Raise e =>
        if caught_by_mapper e
        then Ok (finish_action (PStr ("Invalid tool call: " ++ exn_msg e)))
        else Raise e
    end.

End Mapper.

(** [action.get("_metadata") == "finish"] *)
Definition is_finish (action : gmap string pyval) : bool :=
  match action !! "_metadata" with
  | Some (PStr s) => String.eqb s "finish"
  | _ => false
  end.

(** The message of an action holds the given text. *)
Definition message_contains (text : string) (action : gmap string pyval)
  : bool :=
  match action !! "message" with
  | Some (PStr m) => contains text m
  | _ => false
  end.

(** The tools of [DEVICE_TOOLS] other than [finish], as [_build_action]
    dispatches on them. *)
Definition known_tools : list string :=
  ["tap"; "double_tap"; "long_press"; "swipe"; "type_text"; "launch_app";
   "back"; "home"; "wait"].

End ActionMapper.

(** ** Python string operations used by the DSL agent *)

Module Text.

(** [s[n:]] *)
Fixpoint drop_str (n : nat) (s : string) : string :=
  match n, s with
  | O, _ => s
  | S _, EmptyString => EmptyString
  | S n', String _ s' => drop_str n' s'
  end.

(** [marker[:n]], for the markers, whose characters are one byte each *)
Fixpoint take_str (n : nat) (s : string) : string :=
  match n, s with
  | O, _ => EmptyString
  | S _, EmptyString => EmptyString
  | S n', String c s' => String c (take_str n' s')
  end.

(** [s.split(marker, 1)] for a marker that occurs in [s]: the text before
    its first occurrence and the text after it; [None] when it is absent
    (the source tests [marker in s] first). *)
Fixpoint split_once (marker s : string) : option (string * string) :=
  if starts_with marker s then
    Some (EmptyString, drop_str (String.length marker) s)
  else
    match s with
    | EmptyString => None
    | String c s' =>
        match split_once marker s' with
        | Some (before, after) => Some (String c before, after)
        | None => None
        end
    end.

(** [s.endswith(p)] *)
Definition ends_with (p s : string) : bool :=
  let n := String.length s in
  let m := String.length p in
  (m <=? n)%nat && String.eqb (drop_str (n - m) s) p.

(** [s.replace(old, "")]: occurrences are removed left to right, without
    overlap; [skip] counts the characters of a match still to drop. *)
Fixpoint remove_go (old : string) (skip : nat) (s : string) : string :=
  match s with
  | EmptyString => EmptyString
  | String c s' =>
      match skip with
      | S k => remove_go old k s'
      | O =>
          if starts_with old s
          then remove_go old (String.length old - 1) s'
          else String c (remove_go old 0 s')
      end
  end.

Definition remove_all (old s : string) : string :=
  match old with
  | EmptyString => s
  | _ => remove_go old 0 s
  end.

(** A text is kept as its UTF-8 bytes.  [chars] cuts it into its
    characters: a byte that is no continuation byte ([10xxxxxx]) with the
    continuation bytes that follow it. *)
Definition is_continuation (c : ascii) : bool :=
  let n := nat_of_ascii c in
  ((128 <=? n) && (n <? 192))%nat.

Definition starts_with_continuation (s : string) : bool :=
  match s with
  | String c _ => is_continuation c
  | EmptyString => false
  end.

Fixpoint chars (s : string) : list string :=
  match s with
  | EmptyString => []
  | String c s' =>
      if starts_with_continuation s' then
        match chars s' with
        | t :: ts => String c t :: ts
        | [] => [String c EmptyString]
        end
      else String c EmptyString :: chars s'
  end.

(** The characters put back together. *)
Fixpoint join (l : list string) : string :=
  match l with
  | [] => EmptyString
  | t :: ts => t ++ join ts
  end.

(** [len(s)] and [s[:n]], which count characters. *)
Definition char_length (s : string) : nat := length (chars s).

Definition take_chars (n : nat) (s : string) : string :=
  join (firstn n (chars s)).

(** The white space of [str.strip()], [str.split()] and [str.isspace()]:
    U+0009-000D, U+001C-0020, U+0085, U+00A0, U+1680, U+2000-200A, U+2028,
    U+2029, U+202F, U+205F and U+3000, each in its UTF-8 encoding. *)
Definition is_space (ch : string) : bool :=
  match ch with
  | String a EmptyString =>
      let a := nat_of_ascii a in
      ((9 <=? a) && (a <=? 13) || (28 <=? a) && (a <=? 32))%nat
  | String a (String b EmptyString) =>
      let a := nat_of_ascii a in
      let b := nat_of_ascii b in
      ((a =? 194) && ((b =? 133) || (b =? 160)))%nat
  | String a (String b (String c EmptyString)) =>
      let a := nat_of_ascii a in
      let b := nat_of_ascii b in
      let c := nat_of_ascii c in
      ((a =? 225) && (b =? 154) && (c =? 128)
       || (a =? 226) && (b =? 128)
          && ((128 <=? c) && (c <=? 138) || (c =? 168) || (c =? 169)
              || (c =? 175))
       || (a =? 226) && (b =? 129) && (c =? 159)
       || (a =? 227) && (b =? 128) && (c =? 128))%nat
  | _ => false
  end.

Fixpoint lstrip (l : list string) : list string :=
  match l with
  | [] => []
  | ch :: rest => if is_space ch then lstrip rest else l
  end.

Fixpoint rstrip (l : list string) : list string :=
  match l with
  | [] => []
  | ch :: rest =>
      match rstrip rest with
      | [] => if is_space ch then [] else [ch]
      | r => ch :: r
      end
  end.

(** [s.strip()] *)
Definition strip (s : string) : string := join (rstrip (lstrip (chars s))).

End Text.

(** ** DSL agent: splitting a raw response (agents/glm/async_agent.py) *)

Module GLMParse.
Import Text.

Definition finish_marker : string := "finish(message=".
Definition do_marker : string := "do(action=".
Definition answer_tag : string := "<answer>".

(** [AsyncGLMAgent._parse_raw_response]: the pair (thinking, action). *)
Definition _parse_raw_response (content : string) : string * string :=
  if contains finish_marker content then
    match split_once finish_marker content with
    | Some (p0, p1) => (strip p0, finish_marker ++ p1)
    | None => (EmptyString, content)
    end
  else if contains do_marker content then
    match split_once do_marker content with
    | Some (p0, p1) => (strip p0, do_marker ++ p1)
    | None => (EmptyString, content)
    end
  else if contains answer_tag content then
    match split_once answer_tag content with
    | Some (p0, p1) =>
        (strip (remove_all "</think>" (remove_all "<think>" p0)),
         strip (remove_all "</answer>" p1))
    | None => (EmptyString, content)
    end
  else (EmptyString, content).

End GLMParse.

(** ** The agent's data: screenshots, conversation turns, events, state *)

Module Agent.

Record Screenshot := { base64_data : string; width : Z; height : Z }.

(** [ActionResult] of the action executor. *)
Record ActionResult :=
  { success : bool; should_finish : bool; message : option string }.

Inductive role := System | User | Assistant | Tool.

Record ToolCall :=
  { call_id : string; fn_name : string; fn_arguments : string }.

(** One message of the conversation: role, text, optional image, and the
    tool-call metadata of the tool-call agent. *)
Record turn := {
  turn_role : role;
  content : string;
  image : option string;
  tool_calls : list ToolCall;
  tool_call_id : option string
}.

(** Modelled from the spec: [MessageBuilder] (module [AutoGLM_GUI.model])
    is not among the sources.  Section 4.2 gives its operations:
    [createSystem(text)], [createUser(text, optionalImage)],
    [createAssistant(text, optionalToolCalls)] and [stripImage(turn)],
    which drops the image attachment and keeps the text. *)
Definition create_system_message (text : string) : turn :=
  {| turn_role := System; content := text; image := None;
     tool_calls := []; tool_call_id := None |}.

Definition create_user_message (text : string) (image_base64 : string) : turn :=
  {| turn_role := User; content := text; image := Some image_base64;
     tool_calls := []; tool_call_id := None |}.

Definition create_assistant_message (text : string) : turn :=
  {| turn_role := Assistant; content := text; image := None;
     tool_calls := []; tool_call_id := None |}.

Definition remove_images_from_message (t : turn) : turn :=
  {| turn_role := turn_role t; content := content t; image := None;
     tool_calls := tool_calls t; tool_call_id := tool_call_id t |}.

(** The events a run produces: [{"type": ..., "data": {...}}]. *)
Record step_data := {
  ev_step : nat;
  ev_thinking : string;
  ev_action : option (gmap string pyval);
  ev_success : bool;
  ev_finished : bool;
  ev_message : pyval
}.

Inductive event :=
| EvThinking (chunk : string)
| EvStep (d : step_data)
| EvDone (msg : pyval) (steps : nat) (ok : bool)
| EvError (msg : string)
| EvCancelled (msg : string).

(** The mutable state of one agent instance. *)
Record agent := {
  _context : list turn;
  _step_count : nat;
  _is_running : bool;
  _cancel_event : bool
}.

Definition set_context (c : list turn) (s : agent) : agent :=
  {| _context := c; _step_count := _step_count s;
     _is_running := _is_running s; _cancel_event := _cancel_event s |}.
Definition set_step_count (n : nat) (s : agent) : agent :=
  {| _context := _context s; _step_count := n;
     _is_running := _is_running s; _cancel_event := _cancel_event s |}.
Definition set_is_running (b : bool) (s : agent) : agent :=
  {| _context := _context s; _step_count := _step_count s;
     _is_running := b; _cancel_event := _cancel_event s |}.
Definition set_cancel_event (b : bool) (s : agent) : agent :=
  {| _context := _context s; _step_count := _step_count s;
     _is_running := _is_running s; _cancel_event := b |}.

(** [AsyncAgentBase.__init__]: the context holds the system message. *)
Definition init_agent (system_prompt : string) : agent :=
  {| _context := [create_system_message system_prompt];
     _step_count := 0; _is_running := false; _cancel_event := false |}.

(** [AsyncAgentBase.cancel] *)
Definition cancel (s : agent) : agent :=
  set_is_running false (set_cancel_event true s).

(** [AsyncAgentBase.reset] *)
Definition reset (system_prompt : string) (s : agent) : agent :=
  set_cancel_event false
    (set_is_running false
       (set_step_count 0
          (set_context [create_system_message system_prompt] s))).

End Agent.
Export Agent.

(** ** Asynchronous generators

    An [async def ... yield] body is a finite tree of its effects: it
    yields a value and is resumed, awaits a call that runs elsewhere, reads
    or writes the agent's state, returns or raises.  [Diverge] stands for a
    loop that was given too little fuel. *)

Module Generator.

Inductive Gen (Y A : Type) : Type :=
| Ret (a : A)
| Throw (e : exn)
| Yield (y : Y) (k : Gen Y A)
| Await (k : Gen Y A)
| Get (k : agent -> Gen Y A)
| Put (s : agent) (k : Gen Y A)
| Diverge.
Arguments Ret {Y A} a.
Arguments Throw {Y A} e.
Arguments Yield {Y A} y k.
Arguments Await {Y A} k.
Arguments Get {Y A} k.
Arguments Put {Y A} s k.
Arguments Diverge {Y A}.

Fixpoint gbind {Y A B} (g : Gen Y A) (f : A -> Gen Y B) : Gen Y B :=
  match g with
  | Ret a => f a
  | Throw e => Throw e
  | Yield y k => Yield y (gbind k f)
  | Await k => Await (gbind k f)
  | Get k => Get (fun s => gbind (k s) f)
  | Put s k => Put s (gbind k f)
  | Diverge => Diverge
  end.

#[global] Instance gen_ret {Y} : MRet (Gen Y) := fun _ a => Ret a.
#[global] Instance gen_bind {Y} : MBind (Gen Y) := fun _ _ f g => gbind g f.

Definition get {Y} : Gen Y agent := Get (fun s => Ret s).
Definition modify {Y} (f : agent -> agent) : Gen Y unit :=
  Get (fun s => Put (f s) (Ret tt)).
Definition yield {Y} (y : Y) : Gen Y unit := Yield y (Ret tt).

(** [await asyncio.to_thread(call)] and awaited client calls: the
    generator is suspended, then the call's result or exception comes
    back. *)
Definition await {Y A} (r : res A) : Gen Y A :=
  Await (match r with Ok a => Ret a | Raise e => Throw e end).

(** The result of a [try] body, handed to the [except] clauses. *)
Fixpoint attempt {Y A} (g : Gen Y A) : Gen Y (res A) :=
  match g with
  | Ret a => Ret (Ok a)
  | Throw e => Ret (Raise e)
  | Yield y k => Yield y (attempt k)
  | Await k => Await (attempt k)
  | Get k => Get (fun s => attempt (k s))
  | Put s k => Put s (attempt k)
  | Diverge => Diverge
  end.

(** [try: g finally: fin] *)
Definition try_finally {Y A} (g : Gen Y A) (fin : Gen Y unit) : Gen Y A :=
  r ← attempt g;
  fin ;;
  match r with
  | Ok a => Ret a
  | Raise e => Throw e
  end.

(** [async for y in g: acc = body(acc, y)], the loop variables of the body
    threaded through [acc]. *)
Fixpoint for_each {Y1 Y2 B} (g : Gen Y1 unit) (acc : B)
    (body : B -> Y1 -> Gen Y2 B) : Gen Y2 B :=
  match g with
  | Ret _ => Ret acc
  | Throw e => Throw e
  | Yield y k =>
      gbind (body acc y) (fun acc' => for_each k acc' body)
  | Await k => Await (for_each k acc body)
  | Get k => Get (fun s => for_each (k s) acc body)
  | Put s k => Put s (for_each k acc body)
  | Diverge => Diverge
  end.

(** *** Running a generator against its consumer

    The consumer of [stream] (and any other task of the event loop) runs
    while the generator is suspended, at a [yield] or at an [await]; that
    is when it may call [cancel()].  [client n p] tells whether it does so
    at the [n]-th suspension [p] of the run. *)

Inductive suspension :=
| AtYield (ev : event)
| AtAwait.

Record world := { agent_of : agent; trace : list event; clock : nat }.

Inductive outcome (A : Type) :=
| Returned (a : A)
| Raised (e : exn)
| OutOfFuel.
Arguments Returned {A} a.
Arguments Raised {A} e.
Arguments OutOfFuel {A}.

Definition suspend (client : nat -> suspension -> bool) (p : suspension)
    (w : world) : world :=
  {| agent_of := if client (clock w) p then cancel (agent_of w) else agent_of w;
     trace := match p with
              | AtYield ev => trace w ++ [ev]
              | AtAwait => trace w
              end;
     clock := S (clock w) |}.

Fixpoint run {A} (client : nat -> suspension -> bool) (g : Gen event A)
    (w : world) : outcome A * world :=
  match g with
  | Ret a => (Returned a, w)
  | Throw e => (Raised e, w)
  | Yield ev k => run client k (suspend client (AtYield ev) w)
  | Await k => run client k (suspend client AtAwait w)
  | Get k => run client (k (agent_of w)) w
  | Put s k =>
      run client k {| agent_of := s; trace := trace w; clock := clock w |}
  | Diverge => (OutOfFuel, w)
  end.

Definition start (s : agent) : world :=
  {| agent_of := s; trace := []; clock := 0 |}.

End Generator.
Export Generator.

(** ** The collaborators of an agent *)

Module World.

(** One chunk of a streamed chat completion. *)
Inductive chunk :=
| NoChoices
| Delta (delta_content : option string).

(** A non-streamed completion: [message.content] and the tool calls, whose
    [arguments] text [json.loads] turns into a dict, or fails on ([None]). *)
Record tool_call_msg :=
  { tc_name : string; tc_arguments : option (gmap string pyval) }.
Record choice :=
  { msg_content : option string; msg_tool_calls : list tool_call_msg }.

(** The device, the model endpoint, the action executor and the helpers
    that are not among the sources.  Calls made once per step are indexed
    by the step they are made in ([0]: before the first step). *)
Record Env := {
  get_screenshot : nat -> res Screenshot;
  get_current_app : nat -> res string;
  (** the second screenshot of the tool-call agent, in its execute phase *)
  exec_screenshot : nat -> res Screenshot;
  (** [ActionHandler.execute(action, width, height)] *)
  execute : nat -> gmap string pyval -> Z -> Z -> res ActionResult;
  (** [chat.completions.create(stream=True)]: the chunks, and the
      exception that ends the stream if it breaks off *)
  openai_stream : nat -> list turn -> res (list chunk * option exn);
  (** [chat.completions.create(tools=...)]: [response.choices] *)
  openai_complete : nat -> list turn -> res (list choice);
  (** [GLMParser.parse] *)
  parse : string -> res (gmap string pyval);
  (** [MessageBuilder.build_screen_info] *)
  build_screen_info : string -> string;
  json_dumps : pyval -> string;
  repr : pyval -> string
}.

End World.
Export World.

(** ** agents/base/async_agent_base.py *)

Module AsyncAgentBase.

(** The abstract methods a variant implements. *)
Class AsyncAgentImpl := {
  _prepare_initial_context : string -> string -> string -> Gen event unit;
  _execute_step : Gen event unit
}.

Definition cancelled_error : exn := Exn CancelledError EmptyString.

(** [event["type"] == "step" and event["data"].get("finished")] *)
Definition finished_step (ev : event) : bool :=
  match ev with
  | EvStep d => ev_finished d
  | _ => false
  end.

(** The [done] event built from a finished step event. *)
Definition done_of (ev : event) (steps : nat) : event :=
  match ev with
  | EvStep d => EvDone (ev_message d) steps (ev_success d)
  | _ => EvDone (PStr "Task completed") steps true
  end.

(** [async for event in self._execute_step(): yield event; if ...: yield
    done; return].  The result tells whether [stream] returned. *)
Fixpoint forward_events (g : Gen event unit) : Gen event bool :=
  match g with
  | Ret _ => Ret false
  | Throw e => Throw e
  | Yield ev k =>
      Yield ev
        (if finished_step ev
         then Get (fun s => Yield (done_of ev (_step_count s)) (Ret true))
         else forward_events k)
  | Await k => Await (forward_events k)
  | Get k => Get (fun s => forward_events (k s))
  | Put s k => Put s (forward_events k)
  | Diverge => Diverge
  end.

Section Stream.

Context (env : Env) (max_steps : Z) {impl : AsyncAgentImpl}.

(** The [while] loop of [stream]. *)
Fixpoint step_loop (fuel : nat) : Gen event unit :=
  s ← get;
  if (Z.of_nat (_step_count s) <? max_steps)%Z && _is_running s then
    match fuel with
    | O => Diverge
    | S fuel' =>
        if _cancel_event s then Throw cancelled_error
        else
          returned ← forward_events _execute_step;
          if returned : bool then Ret tt else step_loop fuel'
    end
  else
    s' ← get;
    yield (EvDone (PStr "Max steps reached") (_step_count s') false).

Definition observe (k : nat) : Gen event (Screenshot * string) :=
  screenshot ← await (get_screenshot env k);
  current_app ← await (get_current_app env k);
  mret (screenshot, current_app).

Definition stream (fuel : nat) (task : string) : Gen event unit :=
  try_finally
    (modify (fun s => set_cancel_event false (set_is_running true s)) ;;
     r ← attempt
           (o ← attempt (observe 0);
            match o with
            | Raise e =>
                if is_Exception e then
                  yield (EvError ("Device error: " ++ exn_msg e)) ;;
                  yield (EvDone (PStr ("Device error: " ++ exn_msg e)) 0 false)
                else Throw e
            | Ok (screenshot, current_app) =>
                _prepare_initial_context task (base64_data screenshot)
                  current_app ;;
                step_loop fuel
            end);
     match r with
     | Raise e =>
         match exn_cls e with
         | CancelledError =>
             yield (EvCancelled "Task cancelled by user") ;; Throw e
         | _ => Throw e
         end
     | Ok _ => Ret tt
     end)
    (modify (set_is_running false)).

(** Fuel that lets the loop run to its end when every step counts one up. *)
Definition enough_fuel : nat := Z.to_nat max_steps.

End Stream.

End AsyncAgentBase.
Export AsyncAgentBase.

(** ** agents/glm/async_agent.py: the DSL agent *)

Module GLM.
Import Text GLMParse.

(** What [_stream_openai] yields: [{"type": "raw" | "thinking", ...}]. *)
Inductive chunk_data :=
| Raw (text : string)
| Thinking (text : string).

Definition action_markers : list string := [finish_marker; do_marker].

(** [for marker in action_markers: if marker in buffer: ...; break] *)
Definition find_marker (buffer : string) : option string :=
  List.find (fun marker => contains marker buffer) action_markers.

(** [buffer.endswith(marker[:i])] for some [i] in [range(1, len(marker))] *)
Definition is_potential_marker (buffer : string) : bool :=
  existsb
    (fun marker =>
       existsb (fun i => ends_with (take_str i marker) buffer)
         (seq 1 (String.length marker - 1)))
    action_markers.

Section Step.

Context (env : Env).

(** The body of [async for chunk in stream] in [_stream_openai], over the
    chunks still to come, with the locals [buffer] and [in_action_phase]. *)
Fixpoint stream_chunks (chunks : list chunk) (ending : option exn)
    (buffer : string) (in_action_phase : bool) : Gen chunk_data unit :=
  match chunks with
  | [] =>
      Await (match ending with None => Ret tt | Some e => Throw e end)
  | c :: rest =>
      Await
        (s ← get;
         if _cancel_event s then
           Await (Throw cancelled_error)
         else
           match c with
           | NoChoices => stream_chunks rest ending buffer in_action_phase
           | Delta None => stream_chunks rest ending buffer in_action_phase
           | Delta (Some text) =>
               yield (Raw text) ;;
               if in_action_phase then
                 stream_chunks rest ending buffer in_action_phase
               else
                 let buffer := buffer ++ text in
                 match find_marker buffer with
                 | Some marker =>
                     let thinking_part :=
                       match split_once marker buffer with
                       | Some (before, _) => before
                       | None => buffer
                       end in
                     yield (Thinking thinking_part) ;;
                     stream_chunks rest ending buffer true
                 | None =>
                     if negb (is_potential_marker buffer)
                        && (0 <? String.length buffer)%nat
                     then
                       yield (Thinking buffer) ;;
                       stream_chunks rest ending EmptyString false
                     else stream_chunks rest ending buffer false
                 end
           end)
  end.

(** [AsyncGLMAgent._stream_openai] *)
Definition _stream_openai (k : nat) (messages : list turn)
  : Gen chunk_data unit :=
  '(chunks, ending) ← await (openai_stream env k messages);
  try_finally (stream_chunks chunks ending EmptyString false) (Await (Ret tt)).

(** The terminal step event of a failed observe or decide phase. *)
Definition failed_step (k : nat) (msg : string) : event :=
  EvStep {| ev_step := k; ev_thinking := EmptyString; ev_action := None;
            ev_success := false; ev_finished := true;
            ev_message := PStr msg |}.

(** [x or y] on an optional text and a dict entry. *)
Definition message_or (m : option string) (fallback : option pyval) : pyval :=
  match m with
  | Some s =>
      if String.eqb s EmptyString
      then match fallback with Some v => v | None => PNone end
      else PStr s
  | None => match fallback with Some v => v | None => PNone end
  end.

(** [self._context[-1] = remove_images_from_message(self._context[-1])];
    an empty list has no last element. *)
Definition strip_last_image {Y} : Gen Y unit :=
  s ← get;
  match _context s with
  | [] => Throw (Exn OtherError "list index out of range")
  | ctx =>
      Put (set_context
             (alter remove_images_from_message (length ctx - 1)%nat ctx) s)
          (Ret tt)
  end.

Definition append_turn {Y} (t : turn) : Gen Y unit :=
  modify (fun s => set_context (_context s ++ [t]) s).

(** [AsyncGLMAgent._prepare_initial_context] *)
Definition prepare_initial_context (task screenshot_base64 current_app : string)
  : Gen event unit :=
  let screen_info := build_screen_info env current_app in
  let initial_message :=
    task ++ String "010" (String "010" "** Screen Info **")
         ++ String "010" (String "010" screen_info) in
  append_turn (create_user_message initial_message screenshot_base64).

(** The body of [async for chunk_data in self._stream_openai(..)], on the
    locals [thinking_parts] and [raw_content]. *)
Definition collect_chunk (acc : list string * string)
    (chunk_data : chunk_data) : Gen event (list string * string) :=
  let '(thinking_parts, raw_content) := acc in
  s ← get;
  if _cancel_event s then Throw cancelled_error
  else
    match chunk_data with
    | Thinking text =>
        yield (EvThinking text) ;;
        mret ((thinking_parts ++ [text])%list, raw_content)
    | Raw text =>
        mret (thinking_parts, raw_content ++ text)
    end.

(** [AsyncGLMAgent._execute_step] *)
Definition execute_step : Gen event unit :=
  modify (fun s => set_step_count (S (_step_count s)) s) ;;
  s ← get;
  let k := _step_count s in
  (* 1. the current screen *)
  o ← attempt (observe env k);
  match o with
  | Raise e =>
      if is_Exception e then
        yield (EvError ("Device error: " ++ exn_msg e)) ;;
        yield (failed_step k ("Device error: " ++ exn_msg e))
      else Throw e
  | Ok (screenshot, current_app) =>
      (* 2. the observation message *)
      let screen_info := build_screen_info env current_app in
      let text_content :=
        "** Screen Info **" ++ String "010" (String "010" screen_info) in
      append_turn (create_user_message text_content (base64_data screenshot)) ;;
      (* 3. the streamed model call *)
      s ← get;
      m ← attempt
            (for_each (_stream_openai k (_context s))
               (@nil string, EmptyString) collect_chunk);
      match m with
      | Raise e =>
          if is_Exception e then
            yield (EvError ("Model error: " ++ exn_msg e)) ;;
            yield (failed_step k ("Model error: " ++ exn_msg e))
          else Throw e
      | Ok (thinking_parts, raw_content) =>
          let thinking := String.concat EmptyString thinking_parts in
          (* 4. the action *)
          let action_str := snd (_parse_raw_response raw_content) in
          action ←
            match parse env action_str with
            | Ok a => mret a
            | Raise e =>
                match exn_cls e with
                | ValueError =>
                    mret (ActionMapper.finish_action (PStr action_str))
                | _ => Throw e
                end
            end;
          (* 5. its execution *)
          x ← attempt
                (await (execute env k action (width screenshot)
                          (height screenshot)));
          result ←
            match x with
            | Ok r => mret r
            | Raise e =>
                if is_Exception e then
                  mret {| success := false; should_finish := true;
                          message := Some (exn_msg e) |}
                else Throw e
            end;
          (* 6. the context *)
          strip_last_image ;;
          append_turn
            (create_assistant_message
               ("<think>" ++ thinking ++ "</think><answer>" ++ action_str
                  ++ "</answer>")) ;;
          (* 7, 8. the step result *)
          let finished := ActionMapper.is_finish action || should_finish result in
          yield
            (EvStep {| ev_step := k; ev_thinking := thinking;
                       ev_action := Some action;
                       ev_success := success result;
                       ev_finished := finished;
                       ev_message :=
                         message_or (message result) (action !! "message") |})
      end
  end.

#[global] Instance glm_agent : AsyncAgentImpl :=
  {| _prepare_initial_context := prepare_initial_context;
     _execute_step := execute_step |}.

End Step.
End GLM.

(** ** agents/gemini/async_agent.py: the tool-call agent *)

Module Gemini.
Import ActionMapper.

Section Step.

Context (env : Env).

(** [x or default] on an optional text *)
Definition text_or (m : option string) (default : string) : string :=
  match m with
  | Some s => if String.eqb s EmptyString then default else s
  | None => default
  end.

(** What [_call_llm_with_tools] reads off [response.choices[0]]: the
    text, and the first tool call or, without one, a [finish] call. *)
Definition read_choice (c : choice) : string * string * gmap string pyval :=
  let thinking := text_or (msg_content c) EmptyString in
  match msg_tool_calls c with
  | tool_call :: _ =>
      let tool_args :=
        match tc_arguments tool_call with
        | Some d => d
        | None => ∅
        end in
      (thinking, tc_name tool_call, tool_args)
  | [] =>
      (thinking, "finish",
       {[ "message" := PStr (text_or (Some thinking) "No action returned") ]})
  end.

(** [AsyncGeminiAgent._call_llm_with_tools]: (thinking, tool_name,
    tool_args). *)
Definition _call_llm_with_tools (k : nat)
  : Gen event (string * string * gmap string pyval) :=
  s ← get;
  if _cancel_event s then Throw cancelled_error
  else
    choices ← await (openai_complete env k (_context s));
    match choices with
    | [] => Throw (Exn OtherError "list index out of range")
    | c :: _ => mret (read_choice c)
    end.

(** [AsyncGeminiAgent._prepare_initial_context] *)
Definition prepare_initial_context (task screenshot_base64 current_app : string)
  : Gen event unit :=
  GLM.append_turn
    (create_user_message
       (task ++ String "010" (String "010" ("Current app: " ++ current_app)))
       screenshot_base64).

Definition call_name (k : nat) : string := "call_" ++ pretty k.

(** [AsyncGeminiAgent._execute_step] *)
Definition execute_step : Gen event unit :=
  modify (fun s => set_step_count (S (_step_count s)) s) ;;
  s ← get;
  let k := _step_count s in
  (* 1. a screenshot, except in the first step *)
  observed ←
    (if (1 <? k)%nat then
       o ← attempt (observe env k);
       match o with
       | Raise e =>
           if is_Exception e then
             yield (EvError ("Device error: " ++ exn_msg e)) ;;
             yield (GLM.failed_step k ("Device error: " ++ exn_msg e)) ;;
             mret false
           else Throw e
       | Ok (screenshot, current_app) =>
           GLM.append_turn
             (create_user_message ("Current app: " ++ current_app)
                (base64_data screenshot)) ;;
           mret true
       end
     else mret true);
  if negb observed then Ret tt
  else
    (* 2. the model call *)
    m ← attempt (_call_llm_with_tools k);
    match m with
    | Raise e =>
        if is_Exception e then
          yield (EvError ("Model error: " ++ exn_msg e)) ;;
          yield (GLM.failed_step k ("Model error: " ++ exn_msg e))
        else Throw e
    | Ok (thinking, tool_name, tool_args) =>
        (if negb (String.eqb thinking EmptyString)
         then yield (EvThinking thinking) else Ret tt) ;;
        (* 3. tool call to action *)
        action ←
          match tool_call_to_action (repr env) tool_name tool_args with
          | Ok a => mret a
          | Raise e => Throw e
          end;
        (* 4. its execution *)
        x ← attempt
              (screenshot ← await (exec_screenshot env k);
               await (execute env k action (width screenshot)
                        (height screenshot)));
        result ←
          match x with
          | Ok r => mret r
          | Raise e =>
              if is_Exception e then
                mret {| success := false; should_finish := true;
                        message := Some (exn_msg e) |}
              else Throw e
          end;
        (* 5. the context *)
        s ← get;
        (if (1 <? length (_context s))%nat
         then GLM.strip_last_image else Ret tt) ;;
        GLM.append_turn
          {| turn_role := Assistant; content := thinking; image := None;
             tool_calls :=
               [ {| call_id := call_name k; fn_name := tool_name;
                    fn_arguments := json_dumps env (PDict tool_args) |} ];
             tool_call_id := None |} ;;
        GLM.append_turn
          {| turn_role := Tool;
             content :=
               json_dumps env
                 (PDict {[ "success" := PBool (success result);
                           "message" := PStr (text_or (message result) "OK") ]});
             image := None; tool_calls := [];
             tool_call_id := Some (call_name k) |} ;;
        (* 6. the step result *)
        let finished := is_finish action || should_finish result in
        yield
          (EvStep {| ev_step := k; ev_thinking := thinking;
                     ev_action := Some action;
                     ev_success := success result;
                     ev_finished := finished;
                     ev_message :=
                       GLM.message_or (message result) (action !! "message") |})
    end.

#[global] Instance gemini_agent : AsyncAgentImpl :=
  {| _prepare_initial_context := prepare_initial_context;
     _execute_step := execute_step |}.

End Step.
End Gemini.

(** ** dual_model/dual_agent.py: the decision/vision coordinator *)

Module DualModel.

(** [ModelRole], [ModelStage], [DualModelEventType] of protocols.py *)
Inductive ModelRole := DECISION | VISION.

Inductive ModelStage :=
| IDLE | ANALYZING | DECIDING | GENERATING | CAPTURING | RECOGNIZING
| EXECUTING | WAITING.

Inductive DualModelEventType :=
| DECISION_START | DECISION_THINKING | DECISION_RESULT | CONTENT_GENERATION
| TASK_PLAN | VISION_START | VISION_RECOGNITION | ACTION_START
| ACTION_RESULT | STEP_COMPLETE | TASK_COMPLETE | ERROR | ABORTED.

#[global] Instance event_type_eq_dec : EqDecision DualModelEventType.
Proof. solve_decision. Defined.

(** [DualModelState] *)
Record DualModelState := {
  decision_active : bool;
  decision_stage : ModelStage;
  decision_thinking : string;
  decision_result : string;
  vision_active : bool;
  vision_stage : ModelStage;
  vision_description : string;
  vision_action : string;
  current_step : nat;
  total_steps : Z;
  task_plan : list pyval
}.

Definition initial_state : DualModelState :=
  {| decision_active := false; decision_stage := IDLE;
     decision_thinking := EmptyString; decision_result := EmptyString;
     vision_active := false; vision_stage := IDLE;
     vision_description := EmptyString; vision_action := EmptyString;
     current_step := 0; total_steps := 0; task_plan := [] |}.

(** [DualModelEvent], without its wall-clock [timestamp]. *)
Record DualModelEvent := {
  type : DualModelEventType;
  data : gmap string pyval;
  model : option ModelRole;
  step : nat
}.

(** Modelled from the spec: the payload classes of [decision_model.py] and
    [vision_model.py] are not among the sources.  Section 3 lists their
    fields: Decision carries action, target, content, reasoning, finished;
    ScreenDescription carries description, current_app, elements;
    ExecutionResult carries action_type, target, position, success,
    finished, message.  [TaskPlan] is known by its uses: [to_dict()],
    [steps] and [estimated_actions]. *)
Record Decision := {
  action : string;
  target : string;
  content : string;
  reasoning : string;
  finished : bool
}.

Definition decision_to_dict (d : Decision) : pyval :=
  PDict {[ "action" := PStr (action d); "target" := PStr (target d);
           "content" := PStr (content d); "reasoning" := PStr (reasoning d);
           "finished" := PBool (finished d) ]}.

Record ScreenDescription := {
  description : string;
  current_app : string;
  elements : list pyval
}.

Record ExecutionResult := {
  action_type : string;
  exec_target : string;
  position : pyval;
  success : bool;
  exec_finished : bool;
  message : string
}.

Record TaskPlan := {
  plan_dict : pyval;
  steps : list pyval;
  estimated_actions : Z
}.

(** [StepResult] of dual_agent.py *)
Record StepResult := {
  sr_step : nat;
  sr_success : bool;
  sr_finished : bool;
  sr_decision : option Decision;
  sr_screen_desc : option ScreenDescription;
  sr_execution : option ExecutionResult;
  sr_error : option string
}.

(** [DualModelCallbacks]: each one is optional, and being code of the
    caller it may raise. *)
Record DualModelCallbacks := {
  on_decision_start : option (unit -> res unit);
  on_decision_thinking : option (string -> res unit);
  on_decision_result : option (Decision -> res unit);
  on_task_plan : option (TaskPlan -> res unit);
  on_vision_start : option (unit -> res unit);
  on_vision_recognition : option (ScreenDescription -> res unit);
  on_action_start : option (gmap string pyval -> res unit);
  on_action_result : option (ExecutionResult -> res unit);
  on_step_complete : option (nat * bool -> res unit);
  on_task_complete : option (bool * string -> res unit);
  on_error : option (string -> res unit)
}.

Definition no_callbacks : DualModelCallbacks :=
  {| on_decision_start := None; on_decision_thinking := None;
     on_decision_result := None; on_task_plan := None;
     on_vision_start := None; on_vision_recognition := None;
     on_action_start := None; on_action_result := None;
     on_step_complete := None; on_task_complete := None;
     on_error := None |}.

(** The calls the vision model receives. *)
Inductive vision_call :=
| CaptureScreenshot
| DescribeScreen (screenshot_base64 : string)
| ExecuteDecision (decision : gmap string pyval) (screenshot_base64 : string).

Definition is_execute (c : vision_call) : bool :=
  match c with ExecuteDecision _ _ => true | _ => false end.

(** The two models, the stop flag as another thread sets it, and the
    callbacks.  Calls are indexed by the step they are made in; a decision
    call hands its thinking chunks to [on_thinking] before it returns. *)
Record DualEnv := {
  analyze_task : string -> list string * res TaskPlan;
  capture_screenshot : nat -> res (string * Z * Z);
  describe_screen : nat -> string -> res ScreenDescription;
  make_decision : nat -> string -> string -> list string * res Decision;
  execute_decision : nat -> gmap string pyval -> string -> res ExecutionResult;
  (** [self.stop_event.is_set()] at the top of the iteration that follows
      the given number of steps *)
  stop_is_set : nat -> bool;
  callbacks : DualModelCallbacks
}.

(** The coordinator's state, its event queue, and the log of calls the
    vision model has received. *)
Record dworld := {
  step_count : nat;
  state : DualModelState;
  event_queue : list DualModelEvent;
  vision_log : list vision_call
}.

(** State and exceptions: what was done before a raise stays done. *)
Definition D (A : Type) : Type := dworld -> res A * dworld.

#[global] Instance D_ret : MRet D := fun _ a w => (Ok a, w).
#[global] Instance D_bind : MBind D := fun _ _ f m w =>
  match m w with
  | (Ok a, w') => f a w'
  | (Raise e, w') => (Raise e, w')
  end.

Definition lift {A} (r : res A) : D A := fun w => (r, w).

Definition read : D dworld := fun w => (Ok w, w).

Definition set_state (st : DualModelState) (w : dworld) : dworld :=
  {| step_count := step_count w; state := st;
     event_queue := event_queue w; vision_log := vision_log w |}.

Definition set_count (n : nat) (w : dworld) : dworld :=
  {| step_count := n; state := state w;
     event_queue := event_queue w; vision_log := vision_log w |}.

(** [_update_state]: the fields given as keywords, then [current_step]. *)
Definition _update_state (f : DualModelState -> DualModelState) : D unit :=
  fun w =>
    let st := f (state w) in
    (Ok tt,
     set_state
       {| decision_active := decision_active st;
          decision_stage := decision_stage st;
          decision_thinking := decision_thinking st;
          decision_result := decision_result st;
          vision_active := vision_active st;
          vision_stage := vision_stage st;
          vision_description := vision_description st;
          vision_action := vision_action st;
          current_step := step_count w;
          total_steps := total_steps st;
          task_plan := task_plan st |} w).

(** [_emit_event] *)
Definition _emit_event (t : DualModelEventType) (d : gmap string pyval)
    (m : option ModelRole) : D unit :=
  fun w =>
    (Ok tt,
     {| step_count := step_count w; state := state w;
        event_queue :=
          event_queue w ++
            [ {| type := t; data := d; model := m; step := step_count w |} ];
        vision_log := vision_log w |}).

(** A call to the vision model, logged. *)
Definition vision {A} (c : vision_call) (r : res A) : D A :=
  fun w =>
    (r,
     {| step_count := step_count w; state := state w;
        event_queue := event_queue w;
        vision_log := vision_log w ++ [c] |}).

(** [if self.callbacks.cb: self.callbacks.cb(arg)] *)
Definition callback {A} (cb : option (A -> res unit)) (a : A) : D unit :=
  match cb with
  | Some f => lift (f a)
  | None => mret tt
  end.

(** Keyword updates of [DualModelState]. *)
Definition with_decision (active : option bool) (stage : option ModelStage)
    (thinking result : option string) (st : DualModelState) : DualModelState :=
  {| decision_active := default (decision_active st) active;
     decision_stage := default (decision_stage st) stage;
     decision_thinking := default (decision_thinking st) thinking;
     decision_result := default (decision_result st) result;
     vision_active := vision_active st;
     vision_stage := vision_stage st;
     vision_description := vision_description st;
     vision_action := vision_action st;
     current_step := current_step st;
     total_steps := total_steps st;
     task_plan := task_plan st |}.

Definition with_vision (active : option bool) (stage : option ModelStage)
    (descr act : option string) (st : DualModelState) : DualModelState :=
  {| decision_active := decision_active st;
     decision_stage := decision_stage st;
     decision_thinking := decision_thinking st;
     decision_result := decision_result st;
     vision_active := default (vision_active st) active;
     vision_stage := default (vision_stage st) stage;
     vision_description := default (vision_description st) descr;
     vision_action := default (vision_action st) act;
     current_step := current_step st;
     total_steps := total_steps st;
     task_plan := task_plan st |}.

Definition with_plan (plan : list pyval) (total : Z) (st : DualModelState)
  : DualModelState :=
  {| decision_active := decision_active st;
     decision_stage := decision_stage st;
     decision_thinking := decision_thinking st;
     decision_result := decision_result st;
     vision_active := vision_active st;
     vision_stage := vision_stage st;
     vision_description := vision_description st;
     vision_action := vision_action st;
     current_step := current_step st;
     total_steps := total;
     task_plan := plan |}.

(** The outcome of [run]: [{"success": .., "message": .., "steps": ..}] *)
Record RunResult := {
  rr_success : bool;
  rr_message : string;
  rr_steps : nat
}.

Inductive loop_end :=
| LoopDone (finished : bool) (last_message : string)
| EarlyReturn (r : RunResult)
| NoFuel.

Section Coordinator.

Context (env : DualEnv) (max_steps : Z).

(** [_on_decision_thinking], once per chunk the decision model thinks. *)
Fixpoint thinking_chunks (chunks : list string) : D unit :=
  match chunks with
  | [] => mret tt
  | chunk :: rest =>
      _emit_event DECISION_THINKING {[ "chunk" := PStr chunk ]} (Some DECISION) ;;
      callback (on_decision_thinking (callbacks env)) chunk ;;
      thinking_chunks rest
  end.

(** A call to the decision model with [on_thinking] wired in. *)
Definition deciding {A} (call : list string * res A) : D A :=
  thinking_chunks (fst call) ;; lift (snd call).

(** [_execute_step], 2.1 and 2.2: the vision model describes the screen,
    the decision model decides. *)
Definition perceive_and_decide : D (string * ScreenDescription * Decision) :=
  _update_state
    (fun st => with_decision (Some false) None None None
                 (with_vision (Some true) (Some RECOGNIZING) None None st)) ;;
  _emit_event VISION_START {[ "stage" := PStr "recognizing" ]} (Some VISION) ;;
  callback (on_vision_start (callbacks env)) tt ;;
  w ← read;
  let k := step_count w in
  '(screenshot_base64, _, _) ←
     vision CaptureScreenshot (capture_screenshot env k);
  screen_desc ←
     vision (DescribeScreen screenshot_base64)
       (describe_screen env k screenshot_base64);
  _update_state
    (with_vision None (Some IDLE)
       (Some (Text.take_chars 200 (description screen_desc))) None) ;;
  _emit_event VISION_RECOGNITION
    {[ "description" := PStr (description screen_desc);
       "current_app" := PStr (current_app screen_desc);
       "elements" := PList (elements screen_desc) ]} (Some VISION) ;;
  callback (on_vision_recognition (callbacks env)) screen_desc ;;
  _update_state
    (fun st => with_vision (Some false) None None None
                 (with_decision (Some true) (Some DECIDING) None None st)) ;;
  _emit_event DECISION_START {[ "stage" := PStr "deciding" ]} (Some DECISION) ;;
  callback (on_decision_start (callbacks env)) tt ;;
  decision ←
     deciding
       (make_decision env k (description screen_desc)
          ("当前应用: " ++ current_app screen_desc));
  _update_state
    (with_decision None (Some IDLE) (Some (reasoning decision))
       (Some (action decision ++ ": " ++ target decision))) ;;
  _emit_event DECISION_RESULT
    {[ "decision" := decision_to_dict decision;
       "reasoning" := PStr (reasoning decision) ]} (Some DECISION) ;;
  callback (on_decision_result (callbacks env)) decision ;;
  mret (screenshot_base64, screen_desc, decision).

(** [_execute_step], 2.3: the vision model carries the decision out. *)
Definition act (screenshot_base64 : string) (screen_desc : ScreenDescription)
    (decision : Decision) : D StepResult :=
  _update_state
    (fun st => with_decision (Some false) None None None
                 (with_vision (Some true) (Some EXECUTING) None None st)) ;;
  let action_dict : gmap string pyval :=
    {[ "action" := PStr (action decision);
       "target" := PStr (target decision);
       "content" := PStr (content decision) ]} in
  _emit_event ACTION_START {[ "action" := PDict action_dict ]} (Some VISION) ;;
  callback (on_action_start (callbacks env)) action_dict ;;
  w ← read;
  execution ←
     vision (ExecuteDecision action_dict screenshot_base64)
       (execute_decision env (step_count w) action_dict screenshot_base64);
  _update_state
    (with_vision (Some false) (Some IDLE) None
       (Some (action_type execution ++ ": " ++ exec_target execution))) ;;
  _emit_event ACTION_RESULT
    {[ "success" := PBool (success execution);
       "action_type" := PStr (action_type execution);
       "target" := PStr (exec_target execution);
       "position" := position execution;
       "message" := PStr (message execution) ]} (Some VISION) ;;
  callback (on_action_result (callbacks env)) execution ;;
  w ← read;
  _emit_event STEP_COMPLETE
    {[ "step" := PInt (Z.of_nat (step_count w));
       "success" := PBool (success execution);
       "finished" := PBool (exec_finished execution) ]} None ;;
  mret {| sr_step := step_count w; sr_success := success execution;
          sr_finished := exec_finished execution;
          sr_decision := Some decision; sr_screen_desc := Some screen_desc;
          sr_execution := Some execution; sr_error := None |}.

(** The [try] body of [_execute_step]. *)
Definition step_body : D StepResult :=
  '(screenshot_base64, screen_desc, decision) ← perceive_and_decide;
  if finished decision then
    w ← read;
    mret {| sr_step := step_count w; sr_success := true; sr_finished := true;
            sr_decision := Some decision; sr_screen_desc := Some screen_desc;
            sr_execution := None; sr_error := None |}
  else act screenshot_base64 screen_desc decision.

(** [DualModelAgent._execute_step]: [except Exception as e] turns a raise
    into a failed step result. *)
Definition _execute_step : D StepResult :=
  fun w =>
    match step_body w with
    | (Ok r, w') => (Ok r, w')
    | (Raise e, w') =>
        if is_Exception e then
          (Ok {| sr_step := step_count w'; sr_success := false;
                 sr_finished := false; sr_decision := None;
                 sr_screen_desc := None; sr_execution := None;
                 sr_error := Some (exn_msg e) |}, w')
        else (Raise e, w')
    end.

(** [if step_result.error:] *)
Definition error_set (err : option string) : bool :=
  match err with
  | Some msg => negb (String.eqb msg EmptyString)
  | None => false
  end.

(** The [while] loop of [run]; the pause between steps has no effect on
    the state. *)
Fixpoint run_loop (fuel : nat) (finished : bool) (last_message : string)
  : D loop_end :=
  w ← read;
  if negb finished && (Z.of_nat (step_count w) <? max_steps)%Z then
    match fuel with
    | O => mret NoFuel
    | S fuel' =>
        if stop_is_set env (step_count w) then
          mret (EarlyReturn {| rr_success := false;
                               rr_message := "任务被用户中断";
                               rr_steps := step_count w |})
        else
          (fun w => (Ok tt, set_count (S (step_count w)) w)) ;;
          step_result ← _execute_step;
          if error_set (sr_error step_result) then
            callback (on_error (callbacks env))
              (default EmptyString (sr_error step_result)) ;;
            run_loop fuel' finished last_message
          else
            let finished' := if sr_finished step_result then true else finished in
            let last_message' :=
              if sr_finished step_result then
                match sr_decision step_result with
                | Some d => reasoning d
                | None => "任务完成"
                end
              else last_message in
            w ← read;
            callback (on_step_complete (callbacks env))
              (step_count w, sr_success step_result) ;;
            run_loop fuel' finished' last_message'
    end
  else mret (LoopDone finished last_message).

(** The [try] body of [run]; [None] when the fuel ran out. *)
Definition run_body (fuel : nat) (task : string) : D (option RunResult) :=
  _update_state (with_decision (Some true) (Some ANALYZING) None None) ;;
  _emit_event DECISION_START
    {[ "stage" := PStr "analyzing"; "task" := PStr task ]} (Some DECISION) ;;
  callback (on_decision_start (callbacks env)) tt ;;
  plan ← deciding (analyze_task env task);
  _emit_event TASK_PLAN {[ "plan" := plan_dict plan ]} (Some DECISION) ;;
  callback (on_task_plan (callbacks env)) plan ;;
  (fun w => (Ok tt, set_state (with_plan (steps plan) (estimated_actions plan)
                                 (state w)) w)) ;;
  l ← run_loop fuel false EmptyString;
  match l with
  | NoFuel => mret None
  | EarlyReturn r => mret (Some r)
  | LoopDone finished last_message =>
      let message :=
        if finished then last_message
        else "达到最大步数限制(" ++ pretty max_steps ++ ")" in
      w ← read;
      _emit_event TASK_COMPLETE
        {[ "success" := PBool finished; "message" := PStr message;
           "steps" := PInt (Z.of_nat (step_count w)) ]} None ;;
      callback (on_task_complete (callbacks env)) (finished, message) ;;
      mret (Some {| rr_success := finished; rr_message := message;
                    rr_steps := step_count w |})
  end.

(** [DualModelAgent.run] *)
Definition run (fuel : nat) (task : string) : D (option RunResult) :=
  fun w0 =>
    match run_body fuel task (set_count 0 w0) with
    | (Ok r, w) => (Ok r, w)
    | (Raise e, w) =>
        if is_Exception e then
          (_emit_event ERROR {[ "message" := PStr (exn_msg e) ]} None ;;
           mret (Some {| rr_success := false;
                         rr_message := "执行异常: " ++ exn_msg e;
                         rr_steps := step_count w |})) w
        else (Raise e, w)
    end.

End Coordinator.

Definition fresh : dworld :=
  {| step_count := 0; state := initial_state; event_queue := [];
     vision_log := [] |}.

End DualModel.

(** ** Scenarios: a device, two scripted models and two consumers *)

Module Scenario.

(** The [type] tag of an event. *)
Definition event_type (ev : event) : string :=
  match ev with
  | EvThinking _ => "thinking"
  | EvStep _ => "step"
  | EvDone _ _ _ => "done"
  | EvError _ => "error"
  | EvCancelled _ => "cancelled"
  end.

(** The screenshot taken in step [k] is told apart by its data. *)
Definition shot (k : nat) : Screenshot :=
  {| base64_data := "shot-" ++ pretty k; width := 1080; height := 1920 |}.

Definition back_call : choice :=
  {| msg_content := Some "go back";
     msg_tool_calls := [ {| tc_name := "back"; tc_arguments := Some ∅ |} ] |}.

(** A stand-in for [GLMParser.parse] that knows two actions. *)
Definition toy_parse (s : string) : res (gmap string pyval) :=
  if String.eqb s "do(action=Back)" then Ok (ActionMapper.do_action "Back" [])
  else if starts_with GLMParse.finish_marker s
  then Ok (ActionMapper.finish_action (PStr s))
  else Raise (Exn ValueError "Failed to parse action").

(** A reachable device, an executor that succeeds without finishing, and
    models that go back at every step and never finish. *)
Definition never_finishing : Env := {|
  get_screenshot := fun k => Ok (shot k);
  get_current_app := fun _ => Ok "launcher";
  exec_screenshot := fun k => Ok (shot k);
  execute := fun _ _ _ _ =>
    Ok {| Agent.success := true; should_finish := false;
          Agent.message := None |};
  openai_stream := fun _ _ =>
    Ok ([Delta (Some "go back"); Delta (Some "do(act");
         Delta (Some "ion=Back)")], None);
  openai_complete := fun _ _ => Ok [back_call];
  parse := toy_parse;
  build_screen_info := fun app => app;
  json_dumps := fun _ => "{}";
  repr := fun _ => "?"
|}.

(** The same, with a device that is unreachable from step [k] on. *)
Definition unreachable_from (k : nat) : Env := {|
  get_screenshot := fun i =>
    if (k <=? i)%nat then Raise (Exn OtherError "device offline")
    else Ok (shot i);
  get_current_app := fun _ => Ok "launcher";
  exec_screenshot := fun i => Ok (shot i);
  execute := execute never_finishing;
  openai_stream := openai_stream never_finishing;
  openai_complete := openai_complete never_finishing;
  parse := toy_parse;
  build_screen_info := fun app => app;
  json_dumps := fun _ => "{}";
  repr := fun _ => "?"
|}.

(** A consumer that never cancels, and one that calls [cancel()] while
    the run is suspended at the step event of step 2. *)
Definition passive : nat -> suspension -> bool := fun _ _ => false.

Definition cancel_after_step_2 : nat -> suspension -> bool :=
  fun _ p =>
    match p with
    | AtYield (EvStep d) => (ev_step d =? 2)%nat
    | _ => false
    end.

(** A consumer that calls [cancel()] on the first thinking chunk. *)
Definition cancel_on_thinking : nat -> suspension -> bool :=
  fun _ p =>
    match p with
    | AtYield (EvThinking _) => true
    | _ => false
    end.

(** A run of [stream] on a fresh agent. *)
Definition run_stream (env : Env) (impl : Env -> AsyncAgentImpl)
    (max_steps : Z) (client : nat -> suspension -> bool)
  : outcome unit * world :=
  run client
    (stream env max_steps (impl := impl env) (enough_fuel max_steps)
       "open settings")
    (start (init_agent "system prompt")).

End Scenario.

(** ** Reasoning about generators *)

Module GenLogic.

(** Every value the generator yields satisfies [P] and every value it
    returns satisfies [Q], whatever states it reads. *)
Fixpoint gen_spec {Y A} (P : Y -> Prop) (Q : A -> Prop) (g : Gen Y A) : Prop :=
  match g with
  | Ret a => Q a
  | Throw _ => True
  | Yield y k => P y /\ gen_spec P Q k
  | Await k => gen_spec P Q k
  | Get k => forall s, gen_spec P Q (k s)
  | Put _ k => gen_spec P Q k
  | Diverge => True
  end.

(** The events a generator adds to the trace of [w]. *)
Definition emitted {A} (client : nat -> suspension -> bool)
    (g : Gen event A) (w : world) : list event :=
  drop (length (trace w)) (trace (snd (run client g w))).

(** What the two device calls of an observe phase amount to. *)
Definition device_observation (env : Env) (k : nat)
  : res (Screenshot * string) :=
  rbind (get_screenshot env k) (fun screenshot =>
  rbind (get_current_app env k) (fun current_app =>
  Ok (screenshot, current_app))).

(** The result the executor leaves in [result]: its own, or the synthetic
    failure that stands for an exception. *)
Definition effective_result (x : res ActionResult) : option ActionResult :=
  match x with
  | Ok r => Some r
  | Raise e =>
      if is_Exception e then
        Some {| Agent.success := false; should_finish := true;
                Agent.message := Some (exn_msg e) |}
      else None
  end.

(** The text of a streamed response: its deltas, joined. *)
Fixpoint raw_text (chunks : list chunk) : string :=
  match chunks with
  | [] => EmptyString
  | Delta (Some text) :: rest => text ++ raw_text rest
  | _ :: rest => raw_text rest
  end.

(** The step numbers of the step events of a trace, in order. *)
Fixpoint step_numbers (evs : list event) : list nat :=
  match evs with
  | [] => []
  | EvStep d :: rest => ev_step d :: step_numbers rest
  | _ :: rest => step_numbers rest
  end.

Definition is_done (ev : event) : bool :=
  match ev with EvDone _ _ _ => true | _ => false end.

Definition is_cancelled (ev : event) : bool :=
  match ev with EvCancelled _ => true | _ => false end.

(** The finish check, read off a step event that carries an action: the
    executor was called on that action, with the size of the step's
    screenshot, and [finished] is the disjunction of the source. *)
Definition glm_finish_rule (env : Env) (ev : event) : Prop :=
  forall d a, ev = EvStep d -> ev_action d = Some a ->
    exists screenshot result,
      get_screenshot env (ev_step d) = Ok screenshot /\
      effective_result
        (execute env (ev_step d) a (width screenshot) (height screenshot))
      = Some result /\
      ev_finished d = ActionMapper.is_finish a || should_finish result.

Definition gemini_finish_rule (env : Env) (ev : event) : Prop :=
  forall d a, ev = EvStep d -> ev_action d = Some a ->
    exists result,
      effective_result
        (rbind (exec_screenshot env (ev_step d)) (fun screenshot =>
           execute env (ev_step d) a (width screenshot) (height screenshot)))
      = Some result /\
      ev_finished d = ActionMapper.is_finish a || should_finish result.

(** Assumptions on a run: a consumer that never cancels, a reachable
    device, models whose every answer maps to an action that is not a
    finish action, and an executor that returns without [should_finish]. *)
Definition never_cancels (client : nat -> suspension -> bool) : Prop :=
  forall n p, client n p = false.

Definition device_ok (env : Env) : Prop :=
  forall k, exists o, device_observation env k = Ok o.

Definition glm_never_finishes (env : Env) : Prop :=
  forall k ctx, exists chunks a,
    openai_stream env k ctx = Ok (chunks, None) /\
    parse env (snd (GLMParse._parse_raw_response (raw_text chunks))) = Ok a /\
    ActionMapper.is_finish a = false.

Definition glm_executor_never_finishes (env : Env) : Prop :=
  forall k a w h, exists r,
    execute env k a w h = Ok r /\ should_finish r = false.

Definition gemini_never_finishes (env : Env) : Prop :=
  forall k ctx, exists c cs a,
    openai_complete env k ctx = Ok (c :: cs) /\
    ActionMapper.tool_call_to_action (repr env)
      (snd (fst (Gemini.read_choice c))) (snd (Gemini.read_choice c)) = Ok a /\
    ActionMapper.is_finish a = false.

Definition gemini_executor_never_finishes (env : Env) : Prop :=
  forall k a, exists r,
    rbind (exec_screenshot env k) (fun screenshot =>
      execute env k a (width screenshot) (height screenshot)) = Ok r /\
    should_finish r = false.

(** Events that are thinking chunks only. *)
Definition quiet (evs : list event) : Prop :=
  Forall (fun ev => exists chunk, ev = EvThinking chunk) evs.

(** What a failed observe phase of step [k] leaves in the trace. *)
Definition device_failure (k : nat) (e : exn) : list event :=
  [EvError ("Device error: " ++ exn_msg e);
   GLM.failed_step k ("Device error: " ++ exn_msg e);
   EvDone (PStr ("Device error: " ++ exn_msg e)) k false].

(** A step that goes through without finishing: thinking events, then one
    step event that is not finished, one more step counted, the flags
    untouched. *)
Definition step_continues (client : nat -> suspension -> bool)
    (g : Gen event unit) : Prop :=
  forall w, _cancel_event (agent_of w) = false ->
    exists w' evs d,
      run client g w = (Returned tt, w') /\
      trace w' = (trace w ++ evs ++ [EvStep d])%list /\ quiet evs /\
      ev_step d = S (_step_count (agent_of w)) /\ ev_finished d = false /\
      _step_count (agent_of w') = S (_step_count (agent_of w)) /\
      _is_running (agent_of w') = _is_running (agent_of w) /\
      _cancel_event (agent_of w') = false.

(** Neither [done] nor [cancelled]. *)
Definition ordinary (ev : event) : Prop :=
  is_done ev = false /\ is_cancelled ev = false.

End GenLogic.
Export GenLogic.

(** ** Reasoning about the coordinator *)

Module DualLogic.
Import DualModel.

Definition is_action_start (ev : DualModelEvent) : bool :=
  bool_decide (type ev = ACTION_START).

(** A callback that is absent, or returns normally on every argument. *)
Definition callback_ok {A} (cb : option (A -> res unit)) : Prop :=
  forall a, match cb with Some f => f a = Ok tt | None => True end.

(** Between two states the vision model received no [execute_decision]
    call and no [action_start] event was queued. *)
Definition nothing_dispatched (w w' : dworld) : Prop :=
  List.filter is_execute (vision_log w') = List.filter is_execute (vision_log w) /\
  List.filter is_action_start (event_queue w')
  = List.filter is_action_start (event_queue w).

Definition same_step (w w' : dworld) : Prop := step_count w' = step_count w.

(** A computation relates the state it starts in to the one it ends in. *)
Definition preserves (I : dworld -> dworld -> Prop) {A} (m : D A) : Prop :=
  forall w, I w (snd (m w)).

End DualLogic.
Export DualLogic.

(** ** Scenarios for the coordinator *)

Module DualScenario.
Import DualModel.

Definition screen : ScreenDescription :=
  {| description := "settings list"; current_app := "settings";
     elements := [] |}.

Definition done_decision : Decision :=
  {| action := "finish"; target := EmptyString; content := EmptyString;
     reasoning := "the task is complete"; finished := true |}.

(** The decision model declares the task finished at once. *)
Definition finishing : DualEnv := {|
  analyze_task := fun _ =>
    ([], Ok {| plan_dict := PDict ∅; steps := []; estimated_actions := 1 |});
  capture_screenshot := fun _ => Ok ("IMG", 1080%Z, 1920%Z);
  describe_screen := fun _ _ => Ok screen;
  make_decision := fun _ _ _ => (["thinking"], Ok done_decision);
  execute_decision := fun _ _ _ =>
    Ok {| action_type := "tap"; exec_target := "button"; position := PNone;
          success := true; exec_finished := false; message := "ok" |};
  stop_is_set := fun _ => false;
  callbacks := no_callbacks
|}.

(** The device cannot be captured: every step raises. *)
Definition offline : DualEnv := {|
  analyze_task := analyze_task finishing;
  capture_screenshot := fun _ => Raise (Exn OtherError "device offline");
  describe_screen := describe_screen finishing;
  make_decision := make_decision finishing;
  execute_decision := execute_decision finishing;
  stop_is_set := fun _ => false;
  callbacks := no_callbacks
|}.

End DualScenario.

(** ** Scenarios for single steps *)

Module StepScenario.
Import Scenario.

(** As [never_finishing], with an executor that asks to finish. *)
Definition executor_finishing : Env := {|
  get_screenshot := get_screenshot never_finishing;
  get_current_app := get_current_app never_finishing;
  exec_screenshot := exec_screenshot never_finishing;
  execute := fun _ _ _ _ =>
    Ok {| Agent.success := true; should_finish := true;
          Agent.message := Some "stop here" |};
  openai_stream := openai_stream never_finishing;
  openai_complete := openai_complete never_finishing;
  parse := toy_parse;
  build_screen_info := fun app => app;
  json_dumps := fun _ => "{}";
  repr := fun _ => "?"
|}.

(** The step event both agents emit in their first step against it. *)
Definition first_step : step_data :=
  {| ev_step := 1; ev_thinking := "go back";
     ev_action := Some (ActionMapper.do_action "Back" []);
     ev_success := true; ev_finished := true;
     ev_message := PStr "stop here" |}.

(** An agent that is running, about to enter the step after step [k]. *)
Definition running_after (k : nat) : world :=
  start (set_is_running true (set_step_count k (init_agent "system prompt"))).

End StepScenario.

(** ** The characters of a text *)

Module TextLogic.
Import Text.

Fixpoint all_continuation (s : string) : bool :=
  match s with
  | EmptyString => true
  | String c r => is_continuation c && all_continuation r
  end.

(** A byte with continuation bytes after it, and such a piece that
    begins a character. *)
Definition piece (t : string) : Prop :=
  match t with
  | String _ r => all_continuation r = true
  | EmptyString => False
  end.

Definition character (t : string) : Prop :=
  match t with
  | String c r => is_continuation c = false /\ all_continuation r = true
  | EmptyString => False
  end.

(** A list of pieces as [chars] makes it: only the first piece may begin
    in the middle of a character. *)
Definition well_cut (l : list string) : Prop :=
  match l with
  | [] => True
  | t :: ts => piece t /\ Forall character ts
  end.

End TextLogic.

(** ** agents/gemini/tools.py: the tool schemas offered to the model *)

Module Tools.

(** One entry of a schema's [properties]. *)
Record property_schema := {
  prop_type : string;
  prop_description : string;
  minimum : option Z;
  maximum : option Z
}.

(** One entry of [DEVICE_TOOLS]: the [function] object, with the
    [properties] and the [required] list of its [parameters]; [back] and
    [home] carry no [required] entry. *)
Record tool := {
  name : string;
  description : string;
  properties : list (string * property_schema);
  required : option (list string)
}.

Definition DEVICE_TOOLS : list tool := [
  {| name := "tap";
     description :=
       "Tap at a point on the screen. Coordinates are relative (0-1000 scale).";
     properties :=
       [("x", {| prop_type := "integer";
                 prop_description := "X coordinate (0-1000)";
                 minimum := Some 0%Z; maximum := Some 1000%Z |});
        ("y", {| prop_type := "integer";
                 prop_description := "Y coordinate (0-1000)";
                 minimum := Some 0%Z; maximum := Some 1000%Z |})];
     required := Some ["x"; "y"] |};
  {| name := "double_tap";
     description := "Double tap at a point on the screen.";
     properties :=
       [("x", {| prop_type := "integer";
                 prop_description := "X coordinate (0-1000)";
                 minimum := Some 0%Z; maximum := Some 1000%Z |});
        ("y", {| prop_type := "integer";
                 prop_description := "Y coordinate (0-1000)";
                 minimum := Some 0%Z; maximum := Some 1000%Z |})];
     required := Some ["x"; "y"] |};
  {| name := "long_press";
     description := "Long press at a point on the screen.";
     properties :=
       [("x", {| prop_type := "integer";
                 prop_description := "X coordinate (0-1000)";
                 minimum := Some 0%Z; maximum := Some 1000%Z |});
        ("y", {| prop_type := "integer";
                 prop_description := "Y coordinate (0-1000)";
                 minimum := Some 0%Z; maximum := Some 1000%Z |})];
     required := Some ["x"; "y"] |};
  {| name := "swipe";
     description := "Swipe from one point to another.";
     properties :=
       [("start_x", {| prop_type := "integer";
                       prop_description := "Start X (0-1000)";
                       minimum := Some 0%Z; maximum := Some 1000%Z |});
        ("start_y", {| prop_type := "integer";
                       prop_description := "Start Y (0-1000)";
                       minimum := Some 0%Z; maximum := Some 1000%Z |});
        ("end_x", {| prop_type := "integer";
                     prop_description := "End X (0-1000)";
                     minimum := Some 0%Z; maximum := Some 1000%Z |});
        ("end_y", {| prop_type := "integer";
                     prop_description := "End Y (0-1000)";
                     minimum := Some 0%Z; maximum := Some 1000%Z |})];
     required := Some ["start_x"; "start_y"; "end_x"; "end_y"] |};
  {| name := "type_text";
     description := "Type text into the currently focused input field.";
     properties :=
       [("text", {| prop_type := "string"; prop_description := "Text to type";
                    minimum := None; maximum := None |})];
     required := Some ["text"] |};
  {| name := "launch_app";
     description := "Launch an app by name.";
     properties :=
       [("app_name", {| prop_type := "string"; prop_description := "App name";
                        minimum := None; maximum := None |})];
     required := Some ["app_name"] |};
  {| name := "back"; description := "Press the Back button.";
     properties := []; required := None |};
  {| name := "home"; description := "Press the Home button.";
     properties := []; required := None |};
  {| name := "wait";
     description := "Wait for a duration before next action.";
     properties :=
       [("duration", {| prop_type := "string";
                        prop_description := "e.g. '2 seconds'";
                        minimum := None; maximum := None |})];
     required := Some ["duration"] |};
  {| name := "finish";
     description := "Task completed. Call when the user's goal is achieved.";
     properties :=
       [("message", {| prop_type := "string";
                       prop_description := "Summary of result";
                       minimum := None; maximum := None |})];
     required := Some ["message"] |}
].

End Tools.

(** ** Reasoning about tool calls *)

Module MapperLogic.

(** The argument [key] is an infinite float. *)
Definition infinite_at (args : gmap string pyval) (key : string) : Prop :=
  exists s, args !! key = Some (PFloat (S754_infinity s)).

(** What the helpers of the mapper may raise: a [ValueError], or an
    [OverflowError] when some argument is infinite. *)
Definition raises_well {A} (args : gmap string pyval) (r : res A) : Prop :=
  match r with
  | Ok _ => True
  | Raise e =>
      exn_cls e = ValueError \/
      (exn_cls e = OverflowError /\ exists key, infinite_at args key)
  end.

Definition built_well (args : gmap string pyval) (r : res (gmap string pyval))
  : Prop :=
  match r with
  | Ok a =>
      ActionMapper.is_finish a = true \/ a !! "_metadata" = Some (PStr "do")
  | Raise _ => raises_well args r
  end.

(** A JSON value has the type a schema names. *)
Definition value_has_type (ty : string) (v : pyval) : bool :=
  match v with
  | PInt _ => String.eqb ty "integer"
  | PStr _ => String.eqb ty "string"
  | _ => false
  end.

(** The arguments supply every required parameter of the tool, and every
    declared parameter they supply has its declared type.  The bounds of
    the schema are not part of it. *)
Definition well_typed_call (t : Tools.tool) (args : gmap string pyval) : Prop :=
  (forall key, key ∈ default [] (Tools.required t) -> is_Some (args !! key)) /\
  (forall key p v, (key, p) ∈ Tools.properties t -> args !! key = Some v ->
     value_has_type (Tools.prop_type p) v = true).

(** The tools that take no required argument in [_build_action]. *)
Definition argument_free : list string := ["back"; "home"; "wait"].

End MapperLogic.

(** ** The value of a finite float *)

Module FloatLogic.

(** The magnitude of the finite float with mantissa [m] and exponent [e],
    that is [m * 2^e], as a fraction (numerator, denominator). *)
Definition magnitude (m : positive) (e : Z) : Z * Z :=
  (Z.pos m * 2 ^ Z.max 0 e, 2 ^ Z.max 0 (- e))%Z.

End FloatLogic.

(** ** Reasoning about the streamed response *)

Module StreamLogic.
Import GLMParse GLM.

(** The text begins with one of the action markers. *)
Definition starts_with_marker (rest : string) : bool :=
  existsb (fun marker => starts_with marker rest) action_markers.

(** A tail of the response that [_stream_openai] keeps in its buffer: it
    holds no marker, and it is empty or ends like the start of one. *)
Definition withheld (rest : string) : Prop :=
  find_marker rest = None /\
  (rest = EmptyString \/ is_potential_marker rest = true).

(** The marker [_parse_raw_response] splits [content] at. *)
Definition splits_at (marker content : string) : Prop :=
  (marker = finish_marker /\ contains finish_marker content = true) \/
  (marker = do_marker /\ contains finish_marker content = false /\
   contains do_marker content = true).

End StreamLogic.

Module StreamInvariant.
Import StreamLogic.

(** The locals of [_stream_openai] and of the loop that consumes it, at
    the top of an iteration: before a marker was seen the raw text is the
    thinking so far followed by the buffer; afterwards it is the thinking
    followed by a text that begins with a marker. *)
Definition tracks (in_action_phase : bool) (thinking_parts : list string)
    (buffer raw_content : string) : Prop :=
  if in_action_phase then
    exists rest,
      raw_content = String.concat EmptyString thinking_parts ++ rest /\
      starts_with_marker rest = true
  else
    raw_content = String.concat EmptyString thinking_parts ++ buffer /\
    withheld buffer.

End StreamInvariant.

(** ** Reasoning about the events of a whole run *)

Module StepLogic.

(** As [gen_spec], with an invariant of the agent's state: the generator
    may rely on it whenever it reads the state and has to restore it
    whenever it writes the state. *)
Fixpoint keeps {Y A} (Inv : agent -> Prop) (P : Y -> Prop) (Q : A -> Prop)
    (g : Gen Y A) : Prop :=
  match g with
  | Ret a => Q a
  | Throw _ => True
  | Yield y k => P y /\ keeps Inv P Q k
  | Await k => keeps Inv P Q k
  | Get k => forall s, Inv s -> keeps Inv P Q (k s)
  | Put s k => Inv s /\ keeps Inv P Q k
  | Diverge => True
  end.

(** The step count is [k]. *)
Definition at_step (k : nat) (s : agent) : Prop := _step_count s = k.

(** Thinking chunks and error reports. *)
Definition silent (ev : event) : Prop :=
  match ev with
  | EvThinking _ | EvError _ => True
  | _ => False
  end.

(** A generator that runs inside step [k]: it keeps the step count at
    [k], yields neither [done] nor [cancelled], and yields at most one step
    event, numbered [k].  [stepped] tells whether the step event has been
    yielded already; [Q] relates a returned value to the final [stepped]. *)
Fixpoint numbered {A} (k : nat) (Q : A -> bool -> Prop) (stepped : bool)
    (g : Gen event A) : Prop :=
  match g with
  | Ret a => Q a stepped
  | Throw _ => True
  | Yield ev c =>
      match ev with
      | EvStep d => ev_step d = k /\ stepped = false /\ numbered k Q true c
      | EvDone _ _ _ => False
      | EvCancelled _ => False
      | _ => numbered k Q stepped c
      end
  | Await c => numbered k Q stepped c
  | Get f => forall s, at_step k s -> numbered k Q stepped (f s)
  | Put s c => at_step k s /\ numbered k Q stepped c
  | Diverge => True
  end.

(** A step generator: it first counts the step, and from there on runs
    inside that step, with its step event yielded when it returns. *)
Definition enters_step (g : Gen event unit) : Prop :=
  match g with
  | Get f =>
      forall s,
        match f s with
        | Put s' c =>
            _step_count s' = S (_step_count s) /\
            numbered (S (_step_count s)) (fun _ stepped => stepped = true)
              false c
        | _ => False
        end
  | _ => False
  end.

(** An exception is [asyncio.CancelledError]. *)
Definition is_cancel (e : exn) : bool :=
  match exn_cls e with CancelledError => true | _ => false end.

(** How the trace of a run ends, by the outcome of the run: a run that
    returns ends with [done]; a run that raises [CancelledError] ends with
    [cancelled]; any other run has no closing event. *)
Definition closing (o : outcome unit) (tail : list event) : Prop :=
  match o with
  | Returned _ => exists msg steps ok, tail = [EvDone msg steps ok]
  | Raised e =>
      tail = if is_cancel e then [EvCancelled "Task cancelled by user"] else []
  | OutOfFuel => tail = []
  end.

(** A [done] event that reports success answers a step event that was
    finished and successful, and repeats its message and number. *)
Definition success_is_earned (evs tail : list event) : Prop :=
  forall msg steps, tail = [EvDone msg steps true] ->
    exists evs0 d,
      evs = (evs0 ++ [EvStep d])%list /\ ev_finished d = true /\
      ev_success d = true /\ ev_message d = msg /\ ev_step d = steps.

End StepLogic.

(** ** More about single runs *)

Module RunLogic.

(** What a failed model call of step [k] leaves in the trace. *)
Definition model_failure (k : nat) (e : exn) : list event :=
  [EvError ("Model error: " ++ exn_msg e);
   GLM.failed_step k ("Model error: " ++ exn_msg e);
   EvDone (PStr ("Model error: " ++ exn_msg e)) k false].

(** The answer the tool-call agent reads: [response.choices[0]] of the
    completion, with the [IndexError] of an empty list of choices. *)
Definition model_answer (env : Env) (k : nat) (messages : list turn)
  : res choice :=
  rbind (openai_complete env k messages) (fun choices =>
    match choices with
    | [] => Raise (Exn OtherError "list index out of range")
    | c :: _ => Ok c
    end).

(** The model answers every call, and never with a tool call. *)
Definition never_calls_a_tool (env : Env) : Prop :=
  forall k messages choices,
    openai_complete env k messages = Ok choices ->
    exists c rest, choices = c :: rest /\ msg_tool_calls c = [].

(** The step events of the tool-call agent when the model calls no tool:
    finished, and with an action only if it is the finish action that
    carries the model's text, or "No action returned" for an empty text. *)
Definition finishes_with_text (ev : event) : Prop :=
  forall d, ev = EvStep d ->
    ev_finished d = true /\
    forall a, ev_action d = Some a ->
      a = ActionMapper.finish_action
            (PStr (Gemini.text_or (Some (ev_thinking d)) "No action returned")).

End RunLogic.

(** ** More scenarios *)

Module MoreScenarios.
Import Scenario.

(** As [never_finishing], with a model endpoint that refuses every call. *)
Definition model_down : Env := {|
  get_screenshot := get_screenshot never_finishing;
  get_current_app := get_current_app never_finishing;
  exec_screenshot := exec_screenshot never_finishing;
  execute := execute never_finishing;
  openai_stream := fun _ _ => Raise (Exn OtherError "connection refused");
  openai_complete := fun _ _ => Raise (Exn OtherError "connection refused");
  parse := toy_parse;
  build_screen_info := fun app => app;
  json_dumps := fun _ => "{}";
  repr := fun _ => "?"
|}.

(** As [never_finishing], with a model that answers in plain text and
    calls no tool. *)
Definition chatty : Env := {|
  get_screenshot := get_screenshot never_finishing;
  get_current_app := get_current_app never_finishing;
  exec_screenshot := exec_screenshot never_finishing;
  execute := execute never_finishing;
  openai_stream := openai_stream never_finishing;
  openai_complete := fun _ _ =>
    Ok [ {| msg_content := Some "all done"; msg_tool_calls := [] |} ];
  parse := toy_parse;
  build_screen_info := fun app => app;
  json_dumps := fun _ => "{}";
  repr := fun _ => "?"
|}.

(** An agent that has run [k] steps and was not reset. *)
Definition used_agent (k : nat) : agent :=
  set_step_count k (init_agent "system prompt").

(** A consumer that calls [cancel()] whenever the run is suspended. *)
Definition always_cancelling : nat -> suspension -> bool := fun _ _ => true.

End MoreScenarios.

Module ChattyScenario.

(** The step event of the tool-call agent's first step against [chatty]. *)
Definition first_step : step_data :=
  {| ev_step := 1; ev_thinking := "all done";
     ev_action := Some (ActionMapper.finish_action (PStr "all done"));
     ev_success := true; ev_finished := true;
     ev_message := PStr "all done" |}.

End ChattyScenario.

(** ** The consumers of [stream] *)

Module AgentRun.
Section Run.

Context (env : Env) (max_steps : Z) {impl : AsyncAgentImpl}.

(** [AsyncAgentBase.run]: it consumes [stream] to its end and returns the
    message of the last [done] event, or the empty text. *)
Definition run (fuel : nat) (task : string) : Gen event pyval :=
  for_each (stream env max_steps fuel task) (PStr EmptyString)
    (fun final_message event =>
       mret (match event with
             | EvDone msg _ _ => msg
             | _ => final_message
             end)).

End Run.

(** The assignment in the loop of [run]. *)
Definition keep_done (final_message : pyval) (event : event) : pyval :=
  match event with
  | EvDone msg _ _ => msg
  | _ => final_message
  end.

End AgentRun.

(** ** scheduler_manager.py: the scheduled run of one device *)

Module Scheduler.
Section RunAsync.

(** [MessageRecord] (module [AutoGLM_GUI.models.history]) is not among
    the sources; the record the scheduler builds from the thinking, the
    action and the number of a step event is a parameter. *)
Context {MessageRecord : Type}
  (assistant_record :
     string -> option (gmap string pyval) -> nat -> MessageRecord).

(** The locals of [_execute_single_device] that [run_async] writes. *)
Record locals := {
  messages : list MessageRecord;
  result_message : pyval;
  task_success : bool
}.

(** The body of the loop of [run_async] on one event; [true] stands for
    [break]. *)
Definition on_event (l : locals) (event : event) : locals * bool :=
  match event with
  | EvStep d =>
      ({| messages :=
            (messages l ++
               [assistant_record (ev_thinking d) (ev_action d) (ev_step d)])%list;
          result_message := result_message l;
          task_success := task_success l |}, false)
  | EvDone msg _ ok =>
      ({| messages := messages l; result_message := msg;
          task_success := ok |}, true)
  | EvError msg =>
      ({| messages := messages l; result_message := PStr msg;
          task_success := false |}, true)
  | _ => (l, false)
  end.

(** [run_async]: [async for event in stream_gen: ...], left at the first
    [done] or [error] event. *)
Fixpoint run_async (stream_gen : Gen event unit) (l : locals)
  : Gen event locals :=
  match stream_gen with
  | Ret _ => Ret l
  | Throw e => Throw e
  | Yield event k =>
      let '(l', stop) := on_event l event in
      if stop : bool then Ret l' else run_async k l'
  | Await k => Await (run_async k l)
  | Get k => Get (fun s => run_async (k s) l)
  | Put s k => Put s (run_async k l)
  | Diverge => Diverge
  end.

(** The same loop over the events of a finished trace. *)
Fixpoint scan (evs : list event) (l : locals) : locals * bool :=
  match evs with
  | [] => (l, false)
  | event :: rest =>
      let '(l', stop) := on_event l event in
      if stop : bool then (l', true) else scan rest l'
  end.

(** The records of the step events of a trace. *)
Fixpoint step_records (evs : list event) : list MessageRecord :=
  match evs with
  | [] => []
  | EvStep d :: rest =>
      assistant_record (ev_thinking d) (ev_action d) (ev_step d)
        :: step_records rest
  | _ :: rest => step_records rest
  end.

End RunAsync.
End Scheduler.

(** ** More about the coordinator *)

Module DualRunLogic.
Import DualModel.

Definition is_task_complete (ev : DualModelEvent) : bool :=
  bool_decide (type ev = TASK_COMPLETE).

(** From one state to a later one of the same step: the events queued in
    between carry the number of the step. *)
Definition tagged (w w' : dworld) : Prop :=
  step_count w' = step_count w /\
  exists evs,
    event_queue w' = (event_queue w ++ evs)%list /\
    Forall (fun ev => step ev = step_count w) evs.

(** No [task_complete] event was queued, no call reached the vision
    model, and the step count stayed. *)
Definition untouched (w w' : dworld) : Prop :=
  step_count w' = step_count w /\
  vision_log w' = vision_log w /\
  List.filter is_task_complete (event_queue w')
  = List.filter is_task_complete (event_queue w).

(** The step count stays within the bound. *)
Definition within (max_steps : Z) (w : dworld) : Prop :=
  (Z.of_nat (step_count w) <= max_steps)%Z.

End DualRunLogic.

Module DualScenario2.
Import DualModel DualScenario.

(** The decision model cannot analyse the task. *)
Definition no_plan : DualEnv := {|
  analyze_task := fun _ => (["hm"], Raise (Exn OtherError "model offline"));
  capture_screenshot := capture_screenshot finishing;
  describe_screen := describe_screen finishing;
  make_decision := make_decision finishing;
  execute_decision := execute_decision finishing;
  stop_is_set := fun _ => false;
  callbacks := no_callbacks
|}.

(** The user stops the task while it is being analysed. *)
Definition stopped_early : DualEnv := {|
  analyze_task := analyze_task finishing;
  capture_screenshot := capture_screenshot finishing;
  describe_screen := describe_screen finishing;
  make_decision := make_decision finishing;
  execute_decision := execute_decision finishing;
  stop_is_set := fun _ => true;
  callbacks := no_callbacks
|}.

End DualScenario2.

Module DualInvariant.
Import DualModel.

(** A computation keeps the invariant [I], whether it returns or raises,
    and a value it returns meets [Q] in the state it leaves. *)
Definition maintains (I : dworld -> Prop) {A} (Q : A -> dworld -> Prop)
    (m : D A) : Prop :=
  forall w, I w ->
    I (snd (m w)) /\ forall a, fst (m w) = Ok a -> Q a (snd (m w)).

(** What the loop of [run] hands back when it returns early. *)
Definition early_steps (l : loop_end) (w : dworld) : Prop :=
  forall r, l = EarlyReturn r -> rr_steps r = step_count w.

(** The [steps] entry of a result is the step count. *)
Definition reports_steps (r : option RunResult) (w : dworld) : Prop :=
  forall x, r = Some x -> rr_steps x = step_count w.

End DualInvariant.

(** ** models/scheduled_task.py: scheduled tasks and their devices *)

Module ScheduledTasks.
Import Text.

(** The loop of [_normalize_device_serialnos], on the entries still to
    come, with the locals [normalized] and [seen]. *)
Fixpoint normalize_loop (serialnos : list pyval) (normalized : list string)
    (seen : gset string) : list string :=
  match serialnos with
  | [] => normalized
  | raw :: rest =>
      match raw with
      | PStr raw =>
          let s := strip raw in
          if String.eqb s EmptyString || bool_decide (s ∈ seen)
          then normalize_loop rest normalized seen
          else normalize_loop rest (normalized ++ [s])%list (seen ∪ {[ s ]})
      | _ => normalize_loop rest normalized seen
      end
  end.

Definition _normalize_device_serialnos (serialnos : pyval) : list string :=
  let serialnos :=
    match serialnos with
    | PStr s => PList [PStr s]
    | v => v
    end in
  match serialnos with
  | PList l => normalize_loop l [] ∅
  | _ => []
  end.

(** The strings among the entries the loop goes through. *)
Definition candidates (serialnos : pyval) : list string :=
  match serialnos with
  | PStr s => [s]
  | PList l => omap (fun v => match v with PStr s => Some s | _ => None end) l
  | _ => []
  end.

(** [ScheduledTask] without its wall-clock fields [created_at],
    [updated_at] and [last_run_time]. *)
Record ScheduledTask := {
  id : string;
  name : string;
  workflow_uuid : string;
  device_serialnos : list string;
  device_group_id : option string;
  cron_expression : string;
  enabled : bool;
  last_run_success : option bool;
  last_run_status : option string;
  last_run_success_count : option Z;
  last_run_total_count : option Z;
  last_run_message : option string
}.

(** An optional field as a JSON value. *)
Definition or_none {A : Type} (f : A -> pyval) (o : option A) : pyval :=
  match o with
  | Some a => f a
  | None => PNone
  end.

(** [to_dict], without the entries of the wall-clock fields. *)
Definition to_dict (t : ScheduledTask) : gmap string pyval :=
  {[ "id" := PStr (id t);
     "name" := PStr (name t);
     "workflow_uuid" := PStr (workflow_uuid t);
     "device_serialnos" := PList (PStr <$> device_serialnos t);
     "device_group_id" := or_none PStr (device_group_id t);
     "cron_expression" := PStr (cron_expression t);
     "enabled" := PBool (enabled t);
     "last_run_success" := or_none PBool (last_run_success t);
     "last_run_status" := or_none PStr (last_run_status t);
     "last_run_success_count" := or_none PInt (last_run_success_count t);
     "last_run_total_count" := or_none PInt (last_run_total_count t);
     "last_run_message" := or_none PStr (last_run_message t) ]}.

(** [data.get(key, fallback)] *)
Definition get (data : gmap string pyval) (key : string) (fallback : pyval)
  : pyval :=
  default fallback (data !! key).

(** A loaded value as the value of a field of the declared type; [None]
    for a value of another type, which the dataclass would store as it is
    and which this record cannot hold. *)
Definition as_str (v : pyval) : option string :=
  match v with PStr s => Some s | _ => None end.
Definition as_bool (v : pyval) : option bool :=
  match v with PBool b => Some b | _ => None end.
Definition as_opt_str (v : pyval) : option (option string) :=
  match v with PNone => Some None | PStr s => Some (Some s) | _ => None end.
Definition as_opt_bool (v : pyval) : option (option bool) :=
  match v with PNone => Some None | PBool b => Some (Some b) | _ => None end.
Definition as_opt_int (v : pyval) : option (option Z) :=
  match v with PNone => Some None | PInt z => Some (Some z) | _ => None end.

(** [from_dict], without the wall-clock fields; [uuid] is the text of the
    [uuid4()] drawn for a dict without [id]. *)
Definition from_dict (uuid : string) (data : gmap string pyval)
  : option ScheduledTask :=
  let device_serialnos :=
    _normalize_device_serialnos (get data "device_serialnos" (PList [])) in
  let device_serialnos :=
    match device_serialnos with
    | [] => _normalize_device_serialnos
              (get data "device_serialno" (PStr EmptyString))
    | _ => device_serialnos
    end in
  id ← as_str (get data "id" (PStr uuid));
  name ← as_str (get data "name" (PStr EmptyString));
  workflow_uuid ← as_str (get data "workflow_uuid" (PStr EmptyString));
  device_group_id ← as_opt_str (get data "device_group_id" PNone);
  cron_expression ← as_str (get data "cron_expression" (PStr EmptyString));
  enabled ← as_bool (get data "enabled" (PBool true));
  last_run_success ← as_opt_bool (get data "last_run_success" PNone);
  last_run_status ← as_opt_str (get data "last_run_status" PNone);
  last_run_success_count ←
    as_opt_int (get data "last_run_success_count" PNone);
  last_run_total_count ← as_opt_int (get data "last_run_total_count" PNone);
  last_run_message ← as_opt_str (get data "last_run_message" PNone);
  Some {| id := id; name := name; workflow_uuid := workflow_uuid;
          device_serialnos := device_serialnos;
          device_group_id := device_group_id;
          cron_expression := cron_expression; enabled := enabled;
          last_run_success := last_run_success;
          last_run_status := last_run_status;
          last_run_success_count := last_run_success_count;
          last_run_total_count := last_run_total_count;
          last_run_message := last_run_message |}.

(** A task with other devices. *)
Definition with_devices (l : list string) (t : ScheduledTask) : ScheduledTask :=
  {| id := id t; name := name t; workflow_uuid := workflow_uuid t;
     device_serialnos := l; device_group_id := device_group_id t;
     cron_expression := cron_expression t; enabled := enabled t;
     last_run_success := last_run_success t;
     last_run_status := last_run_status t;
     last_run_success_count := last_run_success_count t;
     last_run_total_count := last_run_total_count t;
     last_run_message := last_run_message t |}.

(** Devices as [_normalize_device_serialnos] leaves them: stripped, not
    empty, each once. *)
Definition clean (l : list string) : Prop :=
  NoDup l /\ Forall (fun s => s <> EmptyString /\ strip s = s) l.

End ScheduledTasks.

(** ** scheduler_manager.py: tasks, their jobs and their runs *)

Module SchedulerManager.
Import Text.
Export ScheduledTasks.

(** [message] is annotated [str], but [_execute_single_device] stores what
    the [done] event of the run carried, which may be any value. *)
Record DeviceExecutionResult := {
  serialno : string;
  success : bool;
  message : pyval;
  device_model : string
}.

(** The keyword arguments of [update_task] that name a field of the task,
    each with a value of the field's type; [None] is an argument that is
    absent or [None].  Other keywords are skipped by [hasattr]. *)
Record task_update := {
  new_id : option string;
  new_name : option string;
  new_workflow_uuid : option string;
  new_device_serialnos : option (list string);
  new_device_group_id : option string;
  new_cron_expression : option string;
  new_enabled : option bool;
  new_last_run_success : option bool;
  new_last_run_status : option string;
  new_last_run_success_count : option Z;
  new_last_run_total_count : option Z;
  new_last_run_message : option string
}.

(** The manager: its tasks by key, and the job store of its
    [BackgroundScheduler], which holds at most one job per job id; a job is
    kept as the five fields of its cron trigger.  [add_job] with
    [replace_existing=True] inserts, [remove_job] deletes. *)
Record manager := {
  _tasks : gmap string ScheduledTask;
  jobs : gmap string (list string)
}.

Definition set_tasks (t : gmap string ScheduledTask) (m : manager) : manager :=
  {| _tasks := t; jobs := jobs m |}.
Definition set_jobs (j : gmap string (list string)) (m : manager) : manager :=
  {| _tasks := _tasks m; jobs := j |}.

Definition set_enabled_field (b : bool) (t : ScheduledTask) : ScheduledTask :=
  {| id := id t; name := name t; workflow_uuid := workflow_uuid t;
     device_serialnos := device_serialnos t;
     device_group_id := device_group_id t;
     cron_expression := cron_expression t; enabled := b;
     last_run_success := last_run_success t;
     last_run_status := last_run_status t;
     last_run_success_count := last_run_success_count t;
     last_run_total_count := last_run_total_count t;
     last_run_message := last_run_message t |}.

(** An optional field after [setattr] with a value that is not [None]. *)
Definition or_old {A : Type} (new old : option A) : option A :=
  match new with
  | Some a => Some a
  | None => old
  end.

(** [for key, value in kwargs.items(): if value is not None and
    hasattr(task, key): setattr(task, key, value)] *)
Definition apply_update (u : task_update) (t : ScheduledTask) : ScheduledTask :=
  {| id := default (id t) (new_id u);
     name := default (name t) (new_name u);
     workflow_uuid := default (workflow_uuid t) (new_workflow_uuid u);
     device_serialnos := default (device_serialnos t) (new_device_serialnos u);
     device_group_id := or_old (new_device_group_id u) (device_group_id t);
     cron_expression := default (cron_expression t) (new_cron_expression u);
     enabled := default (enabled t) (new_enabled u);
     last_run_success := or_old (new_last_run_success u) (last_run_success t);
     last_run_status := or_old (new_last_run_status u) (last_run_status t);
     last_run_success_count :=
       or_old (new_last_run_success_count u) (last_run_success_count t);
     last_run_total_count :=
       or_old (new_last_run_total_count u) (last_run_total_count t);
     last_run_message := or_old (new_last_run_message u) (last_run_message t) |}.

(** [s.split()]: the maximal runs of characters that are not white space;
    [word] is the run being read. *)
Fixpoint split_chars (l : list string) (word : string) : list string :=
  match l with
  | [] =>
      match word with
      | EmptyString => []
      | _ => [word]
      end
  | ch :: rest =>
      if is_space ch then
        match word with
        | EmptyString => split_chars rest EmptyString
        | _ => word :: split_chars rest EmptyString
        end
      else split_chars rest (word ++ ch)
  end.

Definition split (s : string) : list string :=
  split_chars (chars s) EmptyString.

Section Manager.

(** Whether [CronTrigger] and [add_job] accept the five fields without
    raising. *)
Context (trigger_ok : list string -> bool).

(** [str(v)] for a value that is no text, as an f-string renders it, and
    the exception of [d[:n]] on a dict ([TypeError] up to Python 3.11,
    [KeyError] from 3.12 on). *)
Context (str : pyval -> string) (dict_slice_error : exn).

(** [v[:n]]: a text and a list are cut, any other value raises. *)
Definition slice (n : nat) (v : pyval) : res pyval :=
  match v with
  | PStr s => Ok (PStr (take_chars n s))
  | PList l => Ok (PList (firstn n l))
  | PDict _ => Raise dict_slice_error
  | v =>
      Raise (Exn OtherError
               ("'" ++ type_name v ++ "' object is not subscriptable"))
  end.

(** A value inside an f-string. *)
Definition format (v : pyval) : string :=
  match v with
  | PStr s => s
  | v => str v
  end.

Definition _add_job (task : ScheduledTask) (m : manager) : manager :=
  let parts := split (cron_expression task) in
  if negb (length parts =? 5)%nat then m
  else if trigger_ok parts then set_jobs (<[id task := parts]> (jobs m)) m
  else m.

Definition _remove_job (task_id : string) (m : manager) : manager :=
  set_jobs (delete task_id (jobs m)) m.

(** [start], after [_load_tasks]; [values] is [self._tasks.values()], the
    tasks in the order of the dict. *)
Definition start (values : list ScheduledTask) (m : manager) : manager :=
  foldl (fun m task => if enabled task then _add_job task m else m) m values.

(** [create_task]; [uuid] is the id the new task is given. *)
Definition create_task (uuid : string) (name workflow_uuid : string)
    (device_serialnos : list string) (cron_expression : string)
    (enabled : bool) (m : manager) : ScheduledTask * manager :=
  let task :=
    {| id := uuid; name := name; workflow_uuid := workflow_uuid;
       device_serialnos := device_serialnos; device_group_id := None;
       cron_expression := cron_expression; enabled := enabled;
       last_run_success := None; last_run_status := None;
       last_run_success_count := None; last_run_total_count := None;
       last_run_message := None |} in
  let m := set_tasks (<[id task := task]> (_tasks m)) m in
  (task, if enabled then _add_job task m else m).

Definition update_task (task_id : string) (kwargs : task_update) (m : manager)
  : option ScheduledTask * manager :=
  match _tasks m !! task_id with
  | None => (None, m)
  | Some old =>
      let old_enabled := enabled old in
      let old_cron := cron_expression old in
      let task := apply_update kwargs old in
      let m := set_tasks (<[task_id := task]> (_tasks m)) m in
      let m :=
        if old_enabled && negb (enabled task) then _remove_job task_id m
        else if negb old_enabled && enabled task then _add_job task m
        else if enabled task
                && negb (String.eqb old_cron (cron_expression task))
        then _add_job task (_remove_job task_id m)
        else m in
      (Some task, m)
  end.

Definition delete_task (task_id : string) (m : manager) : bool * manager :=
  match _tasks m !! task_id with
  | None => (false, m)
  | Some _ =>
      (true, _remove_job task_id (set_tasks (delete task_id (_tasks m)) m))
  end.

Definition set_enabled (task_id : string) (enabled' : bool) (m : manager)
  : bool * manager :=
  match _tasks m !! task_id with
  | None => (false, m)
  | Some task =>
      if Bool.eqb (enabled task) enabled' then (true, m)
      else
        let task := set_enabled_field enabled' task in
        let m := set_tasks (<[task_id := task]> (_tasks m)) m in
        (true, if enabled' then _add_job task m else _remove_job task_id m)
  end.

(** The task after [_record_run]. *)
Definition recorded (status message : string) (success_count total_count : Z)
    (t : ScheduledTask) : ScheduledTask :=
  {| id := id t; name := name t; workflow_uuid := workflow_uuid t;
     device_serialnos := device_serialnos t;
     device_group_id := device_group_id t;
     cron_expression := cron_expression t; enabled := enabled t;
     last_run_success := Some (String.eqb status "success");
     last_run_status := Some status;
     last_run_success_count := Some success_count;
     last_run_total_count := Some total_count;
     last_run_message :=
       Some (if String.eqb message EmptyString then EmptyString
             else take_chars 500 message) |}.

(** [_record_run], on the task stored under [task_id]. *)
Definition _record_run (task_id : string) (status message : string)
    (success_count total_count : Z) (m : manager) : manager :=
  match _tasks m !! task_id with
  | None => m
  | Some t =>
      set_tasks
        (<[task_id := recorded status message success_count total_count t]>
           (_tasks m)) m
  end.

(** One entry of the summary of a run; the slice of the message raises
    when the message is no text and no list. *)
Definition summary_part (r : DeviceExecutionResult) : res string :=
  let status := if success r then "✓" else "✗" in
  let short_serial :=
    if (8 <? char_length (serialno r))%nat
    then take_chars 8 (serialno r) ++ "..."
    else serialno r in
  let display_name :=
    if String.eqb (device_model r) EmptyString then short_serial
    else device_model r in
  rbind (slice 30 (message r)) (fun cut =>
  Ok (status ++ " " ++ display_name ++ ": " ++ format cut)).

(** [for r in results: summary_parts.append(...)] *)
Fixpoint summary_parts (results : list DeviceExecutionResult)
  : res (list string) :=
  match results with
  | [] => Ok []
  | r :: rest =>
      rbind (summary_part r) (fun part =>
      rbind (summary_parts rest) (fun parts =>
      Ok (part :: parts)))
  end.

(** [sum(1 for r in results if r.success)] *)
Definition success_count_of (results : list DeviceExecutionResult) : nat :=
  length (List.filter success results).

(** One round of the loop of [_execute_task] after the call of
    [_execute_single_device]: the result is kept, and the line that is
    logged for it slices its message. *)
Definition logged (o : res DeviceExecutionResult) : res DeviceExecutionResult :=
  rbind o (fun result =>
  rbind (slice 50 (message result)) (fun _ =>
  Ok result)).

(** The loop of [_execute_task] over the devices still to run, the first
    of them the [k]-th of the task; [execute_single_device k serialno] is
    the outcome of the call of [_execute_single_device] for it. *)
Fixpoint run_devices
    (execute_single_device : nat -> string -> res DeviceExecutionResult)
    (k : nat) (serialnos : list string) (results : list DeviceExecutionResult)
  : res (list DeviceExecutionResult) :=
  match serialnos with
  | [] => Ok results
  | serialno :: rest =>
      match logged (execute_single_device k serialno) with
      | Ok result =>
          run_devices execute_single_device (S k) rest
            (results ++ [result])%list
      | Raise e => Raise e
      end
  end.

(** [_execute_task]; [get_workflow] is the workflow manager. *)
Definition _execute_task {Workflow : Type}
    (get_workflow : string -> option Workflow)
    (execute_single_device :
       Workflow -> nat -> string -> res DeviceExecutionResult)
    (task_id : string) (m : manager) : res unit * manager :=
  match _tasks m !! task_id with
  | None => (Ok tt, m)
  | Some task =>
      match get_workflow (workflow_uuid task) with
      | None =>
          (Ok tt,
           _record_run task_id "failure" "Workflow not found" 0
             (Z.of_nat (length (device_serialnos task))) m)
      | Some workflow =>
          let total_count := length (device_serialnos task) in
          if (total_count =? 0)%nat then
            (Ok tt, _record_run task_id "failure" "No devices selected" 0 0 m)
          else
            match run_devices (execute_single_device workflow) 0
                    (device_serialnos task) [] with
            | Raise e => (Raise e, m)
            | Ok results =>
                let success_count := success_count_of results in
                let any_success := (0 <? success_count)%nat in
                let all_success := (success_count =? total_count)%nat in
                match summary_parts results with
                | Raise e => (Raise e, m)
                | Ok parts =>
                    let summary_message := String.concat " | " parts in
                    let status :=
                      if all_success then "success"
                      else if any_success then "partial"
                      else "failure" in
                    (Ok tt,
                     _record_run task_id status summary_message
                       (Z.of_nat success_count) (Z.of_nat total_count) m)
                end
            end
      end
  end.

(** The job of a task: the fields of its cron expression, when the task
    is enabled and [_add_job] makes a job of them. *)
Definition job_of (t : ScheduledTask) : option (list string) :=
  let parts := split (cron_expression t) in
  if enabled t && (length parts =? 5)%nat && trigger_ok parts
  then Some parts else None.

(** Every task is stored under its own id. *)
Definition keyed_by_id (m : manager) : Prop :=
  forall i t, _tasks m !! i = Some t -> id t = i.

(** The jobs follow the tasks: every task is stored under its own id, and
    under each id the scheduler holds the job of the task stored there, and
    no job where no task is stored. *)
Definition jobs_follow_tasks (m : manager) : Prop :=
  keyed_by_id m /\
  forall i, jobs m !! i = _tasks m !! i ≫= job_of.

End Manager.

Definition empty_manager : manager := {| _tasks := ∅; jobs := ∅ |}.

(** A call of [_execute_single_device] that returned a success, and one
    that returned a failure. *)
Definition succeeded (o : res DeviceExecutionResult) : Prop :=
  exists r, o = Ok r /\ success r = true.
Definition failed (o : res DeviceExecutionResult) : Prop :=
  exists r, o = Ok r /\ success r = false.

(** Two tasks that differ at most in what is recorded of the last run. *)
Definition same_definition (t t' : ScheduledTask) : Prop :=
  id t' = id t /\ name t' = name t /\ workflow_uuid t' = workflow_uuid t /\
  device_serialnos t' = device_serialnos t /\
  device_group_id t' = device_group_id t /\
  cron_expression t' = cron_expression t /\ enabled t' = enabled t.

(** The outcome of a run as [_record_run] stores it. *)
Definition status_of (t : ScheduledTask) : string :=
  default EmptyString (last_run_status t).

End SchedulerManager.

(** ** A scheduler with one task *)

Module SchedulerScenario.
Import SchedulerManager.

(** Every five fields make a trigger. *)
Definition any_trigger (parts : list string) : bool := true.

Definition morning_task : ScheduledTask :=
  {| id := "task-1"; name := "morning check"; workflow_uuid := "wf-1";
     device_serialnos := ["emulator-5554"; "emulator-5556"];
     device_group_id := None;
     cron_expression := "0 8 * * *"; enabled := true;
     last_run_success := None; last_run_status := None;
     last_run_success_count := None; last_run_total_count := None;
     last_run_message := None |}.

(** The manager once [_load_tasks] has read this task, before [start]. *)
Definition loaded : manager :=
  {| _tasks := {[ "task-1" := morning_task ]}; jobs := ∅ |}.

(** The manager after [start]. *)
Definition started : manager := start any_trigger [morning_task] loaded.

(** A stand-in for [str] and for the exception of a sliced dict. *)
Definition plain_str (v : pyval) : string := type_name v.
Definition slice_error : exn := Exn KeyError "slice(None, 50, None)".

(** A workflow manager that knows every workflow, and devices of which
    the first finishes its run and the others are offline. *)
Definition get_workflow (uuid : string) : option string := Some "open settings".

Definition first_device_only (workflow : string) (k : nat) (serialno : string)
  : res DeviceExecutionResult :=
  Ok (match k with
      | O => {| serialno := serialno; success := true;
                message := PStr "Task completed"; device_model := "Pixel" |}
      | S _ => {| serialno := serialno; success := false;
                  message := PStr "Device offline"; device_model := EmptyString |}
      end).

(** Devices whose runs end with a [done] event that carries no message:
    the result holds [None]. *)
Definition no_message (workflow : string) (k : nat) (serialno : string)
  : res DeviceExecutionResult :=
  Ok {| serialno := serialno; success := true; message := PNone;
        device_model := "Pixel" |}.

End SchedulerScenario.

(** ** api/agents.py: the chat route *)

Module ChatApi.
Section Chat.

Context (env : Env) (max_steps : Z) {impl : AsyncAgentImpl}.

(** [ChatResponse] (module [AutoGLM_GUI.schemas]) is not among the
    sources; the response made of a result, a number of steps and a
    success flag is a parameter. *)
Context {ChatResponse : Type} (response : pyval -> nat -> bool -> ChatResponse).

(** [chat], once the device is acquired and the agent obtained: the
    [try] block from [result = await agent.run(request.message)] on, and
    its [except Exception] clause.  [AgentInitializationError] and
    [DeviceBusyError] come from the calls before; the [finally] clause
    releases the device. *)
Definition chat (fuel : nat) (message : string) : Gen event ChatResponse :=
  r ← attempt
        (result ← AgentRun.run env max_steps fuel message;
         s ← get;
         mret (response result (_step_count s) true));
  match r with
  | Ok answer => Ret answer
  | Raise e =>
      if is_Exception e
      then Ret (response (PStr (exn_msg e)) 0 false)
      else Throw e
  end.

End Chat.
End ChatApi.

(** ** api/agents.py: the streaming chat route *)

Module ChatStream.

(** [bool(v)] *)
Definition truthy (v : pyval) : bool :=
  match v with
  | PNone => false
  | PBool b => b
  | PInt z => negb (z =? 0)%Z
  | PFloat (S754_zero _) => false
  | PFloat _ => true
  | PStr s => negb (String.eqb s EmptyString)
  | PList l => match l with [] => false | _ => true end
  | PDict d => negb (bool_decide (d = ∅))
  end.

(** The dict under [data] of an event, as [stream] and the steps build
    it. *)
Definition event_data (ev : event) : gmap string pyval :=
  match ev with
  | EvThinking chunk => {[ "chunk" := PStr chunk ]}
  | EvStep d =>
      {[ "step" := PInt (Z.of_nat (ev_step d));
         "thinking" := PStr (ev_thinking d);
         "action" := match ev_action d with
                     | Some a => PDict a
                     | None => PNone
                     end;
         "success" := PBool (ev_success d);
         "finished" := PBool (ev_finished d);
         "message" := ev_message d ]}
  | EvDone msg steps ok =>
      {[ "message" := msg; "steps" := PInt (Z.of_nat steps);
         "success" := PBool ok ]}
  | EvError msg => {[ "message" := PStr msg ]}
  | EvCancelled msg => {[ "message" := PStr msg ]}
  end.

(** [_create_sse_event]: the entries of [data] come last and win. *)
Definition _create_sse_event (event_type : string) (data : gmap string pyval)
    (role : string) : gmap string pyval :=
  data ∪ {[ "type" := PStr event_type; "role" := PStr role ]}.

Definition newline : string := String (ascii_of_nat 10) EmptyString.

(** The two lines of a server-sent event. *)
Definition event_line (event_type : string) : string :=
  "event: " ++ event_type ++ newline.
Definition data_line (json : string) : string :=
  "data: " ++ json ++ newline ++ newline.

Section EventGenerator.

Context (env : Env) (max_steps : Z) {impl : AsyncAgentImpl}.

(** [MessageRecord] and [ConversationRecord] (module
    [AutoGLM_GUI.models.history]) are not among the sources; the records
    the route builds are parameters: the user's message, the record of a
    step event, and the conversation with its task text, final message,
    success, steps, error message and messages (its wall-clock fields left
    out). *)
Context {MessageRecord ConversationRecord : Type}
  (user_record : string -> MessageRecord)
  (assistant_record :
     string -> option (gmap string pyval) -> nat -> MessageRecord)
  (conversation_record :
     string -> pyval -> bool -> nat -> option pyval -> list MessageRecord ->
     ConversationRecord).

(** [json.dumps(d, ensure_ascii=False)] and [json.dumps(d)]. *)
Context (dumps dumps_ascii : gmap string pyval -> string).

(** The outcome of [manager.get_agent_with_context] and of
    [manager.register_abort_handler], whether an exception is an
    [AgentInitializationError], and what
    [device_manager.get_serial_by_device_id] returns. *)
Context (get_agent_with_context register_abort_handler : res unit)
  (is_initialization_error : exn -> bool)
  (serialno : option string).

(** The locals of [event_generator] that the loop writes. *)
Record locals := {
  final_message : pyval;
  final_success : bool;
  final_steps : nat;
  messages : list MessageRecord
}.

(** The body of the loop up to its two [yield]s. *)
Definition note (l : locals) (event : event) : locals :=
  let l :=
    match event with
    | EvStep d =>
        {| final_message := final_message l;
           final_success := final_success l;
           final_steps := final_steps l;
           messages :=
             (messages l ++
                [assistant_record (ev_thinking d) (ev_action d) (ev_step d)])%list |}
    | _ => l
    end in
  match event with
  | EvDone msg steps ok =>
      {| final_message := msg; final_success := ok; final_steps := steps;
         messages := messages l |}
  | _ => l
  end.

(** The frame sent for an event of the agent. *)
Definition frame (event : event) : list string :=
  [event_line (Scenario.event_type event);
   data_line (dumps (_create_sse_event (Scenario.event_type event)
                       (event_data event) "assistant"))].

(** [async for event in agent.stream(request.message): ...] inside the
    [try]: the locals as the loop leaves them, and the exception that
    ended it, if any. *)
Fixpoint forward (stream_gen : Gen event unit) (l : locals)
  : Gen string (locals * res unit) :=
  match stream_gen with
  | Ret _ => Ret (l, Ok tt)
  | Throw e => Ret (l, Raise e)
  | Yield event k =>
      let l' := note l event in
      Yield (event_line (Scenario.event_type event))
        (Yield (data_line (dumps (_create_sse_event (Scenario.event_type event)
                                    (event_data event) "assistant")))
           (forward k l'))
  | Await k => Await (forward k l)
  | Get k => Get (fun s => forward (k s) l)
  | Put s k => Put s (forward k l)
  | Diverge => Diverge
  end.

(** The frames of the [except] clauses. *)
Definition cancelled_frame : list string :=
  [event_line "cancelled";
   data_line (dumps_ascii {[ "message" := PStr "Task cancelled by user" ]})].

Definition initialization_error_frame (e : exn) : list string :=
  [event_line "error";
   data_line
     (dumps (_create_sse_event "error"
               {[ "message" := PStr ("初始化失败: " ++ exn_msg e);
                  "hint" :=
                    PStr "请检查全局配置 (base_url, api_key, model_name)" ]}
               "assistant"))].

Definition error_frame (e : exn) : list string :=
  [event_line "error";
   data_line
     (dumps (_create_sse_event "error" {[ "message" := PStr (exn_msg e) ]}
               "assistant"))].

Definition except_frame (e : exn) : list string :=
  match exn_cls e with
  | CancelledError => cancelled_frame
  | _ => if is_initialization_error e then initialization_error_frame e
         else error_frame e
  end.

Fixpoint yield_all (lines : list string) : Gen string unit :=
  match lines with
  | [] => Ret tt
  | line :: rest => Yield line (yield_all rest)
  end.

(** [serialno and final_message] *)
Definition known (serialno : option string) : bool :=
  match serialno with
  | Some s => negb (String.eqb s EmptyString)
  | None => false
  end.

Definition to_be_saved (l : locals) : bool :=
  known serialno && truthy (final_message l).

(** The record handed to [history_manager.add_record]. *)
Definition record_of (message : string) (l : locals) : ConversationRecord :=
  conversation_record message (final_message l) (final_success l)
    (final_steps l)
    (if final_success l then None else Some (final_message l))
    (messages l).

(** The [try] block of [event_generator]. *)
Definition try_block (fuel : nat) (message : string) (l : locals)
  : Gen string (locals * res unit) :=
  a ← attempt (await get_agent_with_context ;;
               await register_abort_handler);
  match a with
  | Raise e => Ret (l, Raise e)
  | Ok _ => forward (stream env max_steps fuel message) l
  end.

(** [event_generator]; it returns the record it hands to
    [history_manager.add_record], if any. *)
Definition event_generator (fuel : nat) (message : string)
  : Gen string (option ConversationRecord) :=
  let l :=
    {| final_message := PStr EmptyString; final_success := false;
       final_steps := 0; messages := [user_record message] |} in
  '(l, r) ← try_block fuel message l;
  match r with
  | Ok _ => Ret tt
  | Raise e => yield_all (except_frame e)
  end ;;
  if to_be_saved l then Ret (Some (record_of message l)) else Ret None.

End EventGenerator.

(** *** Running the generator against the response that sends its lines

    Another task may call [cancel()] on the agent while the generator is
    suspended, at a [yield] or at an [await]; [client n] tells whether
    one does so at the [n]-th suspension. *)

Record channel := { agent_at : agent; sent : list string; ticks : nat }.

Definition pause (client : nat -> bool) (lines : list string) (c : channel)
  : channel :=
  {| agent_at := if client (ticks c) then cancel (agent_at c) else agent_at c;
     sent := sent c ++ lines;
     ticks := S (ticks c) |}.

Fixpoint drive {A} (client : nat -> bool) (g : Gen string A) (c : channel)
  : outcome A * channel :=
  match g with
  | Ret a => (Returned a, c)
  | Throw e => (Raised e, c)
  | Yield line k => drive client k (pause client [line] c)
  | Await k => drive client k (pause client [] c)
  | Get k => drive client (k (agent_at c)) c
  | Put s k =>
      drive client k {| agent_at := s; sent := sent c; ticks := ticks c |}
  | Diverge => (OutOfFuel, c)
  end.

Definition connect (s : agent) : channel :=
  {| agent_at := s; sent := []; ticks := 0 |}.

(** The records of the step events among the events of a run. *)
Fixpoint step_records {MessageRecord : Type}
    (assistant_record :
       string -> option (gmap string pyval) -> nat -> MessageRecord)
    (evs : list event) : list MessageRecord :=
  match evs with
  | [] => []
  | EvStep d :: rest =>
      assistant_record (ev_thinking d) (ev_action d) (ev_step d)
        :: step_records assistant_record rest
  | _ :: rest => step_records assistant_record rest
  end.

End ChatStream.

(** ** A streaming chat that is aborted *)

Module ChatScenario.

(** Another task calls [cancel()] at the [k]-th suspension of the route. *)
Definition cancel_at (k : nat) : nat -> bool := fun n => (n =? k)%nat.

(** A stand-in for [json.dumps]: the [type] and the [message] of the
    dict. *)
Definition text_of (d : gmap string pyval) (key : string) : string :=
  match d !! key with
  | Some (PStr s) => s
  | _ => EmptyString
  end.

Definition dumps (d : gmap string pyval) : string :=
  text_of d "type" ++ ":" ++ text_of d "message".

End ChatScenario.

(** ** What a step that reaches its finish check leaves behind *)

Module StepOutcome.
Import ActionMapper.

(** The environment with another device behind the observe phase. *)
Definition with_device (get_screenshot' : nat -> res Screenshot)
    (get_current_app' : nat -> res string) (env : Env) : Env :=
  {| get_screenshot := get_screenshot';
     get_current_app := get_current_app';
     exec_screenshot := exec_screenshot env;
     execute := execute env;
     openai_stream := openai_stream env;
     openai_complete := openai_complete env;
     parse := parse env;
     build_screen_info := build_screen_info env;
     json_dumps := json_dumps env;
     repr := repr env |}.

(** What the capture before the first step leaves in the trace when it
    fails. *)
Definition initial_failure (e : exn) : list event :=
  [EvError ("Device error: " ++ exn_msg e);
   EvDone (PStr ("Device error: " ++ exn_msg e)) 0 false].

Definition is_step (ev : event) : bool :=
  match ev with EvStep _ => true | _ => false end.

(** The action a step of the DSL agent takes from the text of the
    response: the parser's, and a finish action that carries the action
    text when the parser raises [ValueError]. *)
Definition glm_action (env : Env) (raw_content : string)
  : res (gmap string pyval) :=
  let action_str := snd (GLMParse._parse_raw_response raw_content) in
  match parse env action_str with
  | Ok a => Ok a
  | Raise e =>
      match exn_cls e with
      | ValueError => Ok (finish_action (PStr action_str))
      | _ => Raise e
      end
  end.

(** Step [k] of the DSL agent gets as far as its finish check, with
    [action] and with [result] from the executor: the device is observed,
    the model streams its chunks to their end, the text gives the action,
    and the executor returns or raises an [Exception]. *)
Definition glm_reaches_check (env : Env) (k : nat)
    (action : gmap string pyval) (result : ActionResult) : Prop :=
  exists screenshot current_app chunks,
    device_observation env k = Ok (screenshot, current_app) /\
    (forall messages, openai_stream env k messages = Ok (chunks, None)) /\
    glm_action env (raw_text chunks) = Ok action /\
    effective_result
      (execute env k action (width screenshot) (height screenshot))
    = Some result.

(** The same of the tool-call agent, which observes the device in every
    step but the first. *)
Definition gemini_reaches_check (env : Env) (k : nat)
    (action : gmap string pyval) (result : ActionResult) : Prop :=
  ((1 < k)%nat -> exists o, device_observation env k = Ok o) /\
  exists c cs,
    (forall messages, openai_complete env k messages = Ok (c :: cs)) /\
    tool_call_to_action (repr env) (snd (fst (Gemini.read_choice c)))
      (snd (Gemini.read_choice c)) = Ok action /\
    effective_result
      (rbind (exec_screenshot env k) (fun screenshot =>
         execute env k action (width screenshot) (height screenshot)))
    = Some result.

(** The step event of step [k] for [action] and [result]. *)
Definition checked_step (k : nat) (action : gmap string pyval)
    (result : ActionResult) (d : step_data) : Prop :=
  ev_step d = k /\ ev_action d = Some action /\
  ev_success d = Agent.success result /\
  ev_finished d = is_finish action || should_finish result /\
  ev_message d = GLM.message_or (Agent.message result) (action !! "message").

(** A step of the run loop that reaches its finish check: the step emits
    thinking chunks and then its step event; when [finished] is set the
    loop adds the [done] event that repeats the step's message and success
    and returns, and otherwise it goes on from the state the step left. *)
Definition loop_obeys_check (max_steps : Z) (impl : AsyncAgentImpl)
    (client : nat -> suspension -> bool) (fuel : nat) (w : world)
    (action : gmap string pyval) (result : ActionResult) : Prop :=
  exists evs d w1,
    quiet evs /\
    checked_step (S (_step_count (agent_of w))) action result d /\
    run client (@_execute_step impl) w = (Returned tt, w1) /\
    trace w1 = (trace w ++ evs ++ [EvStep d])%list /\
    if is_finish action || should_finish result then
      exists w',
        run client (step_loop max_steps (impl := impl) (S fuel)) w
        = (Returned tt, w') /\
        trace w'
        = (trace w ++ evs ++
           [EvStep d;
            EvDone (ev_message d) (S (_step_count (agent_of w)))
              (ev_success d)])%list
    else
      run client (step_loop max_steps (impl := impl) (S fuel)) w
      = run client (step_loop max_steps (impl := impl) fuel) w1.

End StepOutcome.

(** ** Scenarios for the coordinator: steps that fail *)

Module DualRecovery.
Import DualModel.





End DualRecovery.

(** * Properties *)

(** ** The tool-call mapper *)

Section MapperFacts.
Import ActionMapper.

Variable repr : pyval -> string.

Lemma starts_with_app (p s : string) : starts_with p (p ++ s) = true.
Proof.
  induction p as [|c p IH]; simpl; [reflexivity|].
  rewrite Ascii.eqb_refl. exact IH.
Qed.

Lemma contains_prefix (p s : string) : contains p (p ++ s) = true.
Proof.
  destruct (p ++ s) eqn:E; simpl; rewrite <- E, starts_with_app; reflexivity.
Qed.

Lemma finish_action_is_finish (m : pyval) : is_finish (finish_action m) = true.
Proof. reflexivity. Qed.

Lemma finish_action_message (text rest : string) :
  message_contains text (finish_action (PStr (text ++ rest))) = true.
Proof.
  unfold message_contains, finish_action.
  rewrite lookup_insert_ne by discriminate.
  rewrite lookup_insert_eq. apply contains_prefix.
Qed.

(** A name outside the tool set degrades to a finish action that names
    it, whatever the arguments. *)
Lemma unknown_tool_finish (tool_name : string) (args : gmap string pyval) :
  tool_name <> "finish" -> tool_name ∉ known_tools ->
  tool_call_to_action repr tool_name args
  = Ok (finish_action (PStr ("Unknown tool: " ++ tool_name))).
Proof.
  intros Hfin Hknown. unfold tool_call_to_action, _build_action.
  assert (Hne : forall t, t ∈ known_tools -> String.eqb tool_name t = false).
  { intros t Ht. apply String.eqb_neq. intros ->. contradiction. }
  apply String.eqb_neq in Hfin. rewrite Hfin.
  rewrite !Hne by (unfold known_tools; set_solver).
  reflexivity.
Qed.

(** A required number that is absent makes [tap] a finish action with the
    mapper's explanation. *)
Lemma tap_missing_x_finish (args : gmap string pyval) :
  args !! "x" = None ->
  exists detail,
    tool_call_to_action repr "tap" args
    = Ok (finish_action (PStr ("Invalid tool call: " ++ detail))).
Proof.
  intros Hx. unfold tool_call_to_action, _build_action, point, _require_int.
  simpl. rewrite Hx. simpl. eexists. reflexivity.
Qed.

End MapperFacts.

(** C9. Float coercion: the tool call [tap] with x = 500.7 and y = 300.2
    maps to the [Do] action of kind Tap whose element is [500, 300]; the
    floats are truncated, not rounded and not rejected. *)
Theorem tap_float_coords_truncated (repr : pyval -> string) :
  ActionMapper.tool_call_to_action repr "tap"
    (<["x" := PFloat f500_7]> (<["y" := PFloat f300_2]> ∅))
  = Ok (ActionMapper.do_action "Tap"
          [("element", PList [PInt 500; PInt 300])]).
Proof. vm_compute. reflexivity. Qed.

(** The same on the coordinates of the repository's own test, 500.5 and
    300.7: rounding to nearest would give 301. *)
Lemma tap_float_coords_not_rounded (repr : pyval -> string) :
  ActionMapper.tool_call_to_action repr "tap"
    (<["x" := PFloat f500_5]> (<["y" := PFloat f300_7]> ∅))
  = Ok (ActionMapper.do_action "Tap"
          [("element", PList [PInt 500; PInt 300])]).
Proof. vm_compute. reflexivity. Qed.

(** C4. Totality of the tool-call mapper fails on an infinite coordinate:
    [int(val)] raises [OverflowError], which the mapper's
    [except (ValueError, KeyError)] does not catch, so
    [tool_call_to_action("tap", {"x": inf, "y": 0})] raises instead of
    returning a finish action. *)
Theorem tap_infinite_coord_raises (repr : pyval -> string) :
  ActionMapper.tool_call_to_action repr "tap"
    (<["x" := PFloat f_inf]> (<["y" := PInt 0]> ∅))
  = Raise (Exn OverflowError "cannot convert float infinity to integer").
Proof. vm_compute. reflexivity. Qed.

(** ** Splitting a raw response *)

(** [split(marker, 1)] has two parts whenever the marker occurs. *)
Lemma split_once_contains (marker s : string) :
  contains marker s = true ->
  exists before after, Text.split_once marker s = Some (before, after).
Proof.
  induction s as [|c s IH]; simpl; intros H.
  - rewrite orb_false_r in H. rewrite H. eauto.
  - destruct (starts_with marker (String c s)) eqn:E; [eauto|].
    simpl in H. destruct (IH H) as (b & a & ->). eauto.
Qed.

(** C3, as the code has it. A response with neither action marker nor
    answer tag comes back with an empty thinking text and the whole
    response as the action string. *)
Theorem parse_no_marker_is_all_action (content : string) :
  contains GLMParse.finish_marker content = false ->
  contains GLMParse.do_marker content = false ->
  contains GLMParse.answer_tag content = false ->
  GLMParse._parse_raw_response content = (EmptyString, content).
Proof.
  intros Hf Hd Ha. unfold GLMParse._parse_raw_response.
  rewrite Hf, Hd, Ha. reflexivity.
Qed.

(** On the response [hello]. *)
Lemma parse_no_marker_is_all_action_witness :
  GLMParse._parse_raw_response "hello" = (EmptyString, "hello").
Proof.
  apply (parse_no_marker_is_all_action "hello"); reflexivity.
Defined.

(** C3, as the claim states it, fails on the response [hello]: it holds no
    marker and no tag, yet its thinking is not the whole text and its
    action string is not empty. *)
Lemma parse_no_marker_not_all_thinking :
  contains GLMParse.finish_marker "hello" = false /\
  contains GLMParse.do_marker "hello" = false /\
  contains GLMParse.answer_tag "hello" = false /\
  fst (GLMParse._parse_raw_response "hello") <> "hello" /\
  snd (GLMParse._parse_raw_response "hello") <> EmptyString.
Proof. repeat split; try reflexivity; vm_compute; discriminate. Qed.

(** ** The run loop: cancellation between two steps *)

Section CancelFacts.
Import Scenario.

(** [cancel()] also clears [_is_running], and the loop tests that flag
    before it looks at the cancel event: once the flag is down the loop is
    left through its exit, whose only event is [done] with the text
    "Max steps reached". *)
Lemma stopped_loop_reports_max_steps (max_steps : Z) (impl : AsyncAgentImpl)
    (client : nat -> suspension -> bool) (fuel : nat) (w : world) :
  _is_running (agent_of w) = false ->
  run client (step_loop max_steps fuel) w
  = (Returned tt,
     suspend client
       (AtYield (EvDone (PStr "Max steps reached")
                   (_step_count (agent_of w)) false)) w).
Proof.
  intros Hstop. destruct fuel; simpl; rewrite Hstop, andb_false_r; reflexivity.
Qed.

(** The cancel check of the loop does its work when it is reached: with
    the event set and [_is_running] still up, the loop raises
    [CancelledError] and starts no step. *)
Lemma cancel_event_alone_is_observed (max_steps : Z) (impl : AsyncAgentImpl)
    (client : nat -> suspension -> bool) (fuel : nat) (w : world) :
  (Z.of_nat (_step_count (agent_of w)) < max_steps)%Z ->
  _is_running (agent_of w) = true ->
  _cancel_event (agent_of w) = true ->
  run client (step_loop max_steps (S fuel)) w = (Raised cancelled_error, w).
Proof.
  intros Hlt Hrun Hc. apply Z.ltb_lt in Hlt.
  cbn [step_loop mbind gen_bind gbind get run]. rewrite Hlt, Hrun, Hc.
  reflexivity.
Qed.

(** A [cancel()] that arrives while the model streams is observed at the
    next chunk: the run of the DSL agent emits [cancelled], no [done], and
    re-raises. *)
Lemma cancel_during_stream_emits_cancelled :
  let r := Scenario.run_stream Scenario.never_finishing GLM.glm_agent 5
             Scenario.cancel_on_thinking in
  fst r = Raised cancelled_error /\
  map Scenario.event_type (trace (snd r)) = ["thinking"; "cancelled"] /\
  _step_count (agent_of (snd r)) = 1.
Proof. vm_compute. repeat split. Qed.

Lemma cancel_clears_running (s : agent) :
  _is_running (cancel s) = false /\ _cancel_event (cancel s) = true.
Proof. split; reflexivity. Qed.

End CancelFacts.

(** C1. Cancellation between step 2 and step 3 of a 5-step run, with
    models that never finish: the code ends the run with a [done] event
    ("Max steps reached", 2 steps, no success) and emits no [cancelled]
    event, for the DSL agent and for the tool-call agent alike; the step
    count does stay at 2. *)
Theorem cancel_between_steps_emits_done :
  let glm := Scenario.run_stream Scenario.never_finishing GLM.glm_agent 5
               Scenario.cancel_after_step_2 in
  let gem := Scenario.run_stream Scenario.never_finishing Gemini.gemini_agent
               5 Scenario.cancel_after_step_2 in
  fst glm = Returned tt /\
  map Scenario.event_type (trace (snd glm))
    = ["thinking"; "thinking"; "step"; "thinking"; "thinking"; "step"; "done"] /\
  last (trace (snd glm)) = Some (EvDone (PStr "Max steps reached") 2 false) /\
  _step_count (agent_of (snd glm)) = 2 /\
  fst gem = Returned tt /\
  map Scenario.event_type (trace (snd gem))
    = ["thinking"; "step"; "thinking"; "step"; "done"] /\
  last (trace (snd gem)) = Some (EvDone (PStr "Max steps reached") 2 false) /\
  _step_count (agent_of (snd gem)) = 2.
Proof. vm_compute. repeat split. Qed.

(** ** The context of the DSL agent *)

(** C2. After step 1, and still after step 3, of a run of the DSL agent
    the one image in the context sits in the first user turn, the one
    [_prepare_initial_context] appended; the user turns of the steps,
    the most recent one among them, hold none. *)
Theorem glm_initial_image_never_stripped :
  let ctx n :=
    _context (agent_of (snd (Scenario.run_stream Scenario.never_finishing
                               GLM.glm_agent n Scenario.passive))) in
  map (fun t => (turn_role t, image t)) (ctx 1%Z)
    = [(System, None); (User, Some "shot-0"); (User, None); (Assistant, None)]
  /\
  map (fun t => (turn_role t, image t)) (ctx 3%Z)
    = [(System, None); (User, Some "shot-0"); (User, None); (Assistant, None);
       (User, None); (Assistant, None); (User, None); (Assistant, None)].
Proof. vm_compute. split; reflexivity. Qed.

(** The tool-call agent takes no screenshot in its first step, so there
    the first user turn is the last turn and loses its image. *)
Lemma gemini_initial_image_stripped :
  map (fun t => (turn_role t, image t))
    (_context (agent_of (snd (Scenario.run_stream Scenario.never_finishing
                                Gemini.gemini_agent 2 Scenario.passive))))
  = [(System, None); (User, None); (Assistant, None); (Tool, None);
     (User, None); (Assistant, None); (Tool, None)].
Proof. vm_compute. reflexivity. Qed.

(** ** Generators: running, sequencing, catching *)

#[local] Open Scope list_scope.

Section GeneratorFacts.

Context (client : nat -> suspension -> bool).

Lemma run_gbind {A B} (g : Gen event A) (f : A -> Gen event B) (w : world) :
  run client (gbind g f) w
  = match run client g w with
    | (Returned a, w') => run client (f a) w'
    | (Raised e, w') => (Raised e, w')
    | (OutOfFuel, w') => (OutOfFuel, w')
    end.
Proof.
  revert w. induction g as [a|e|y k IH|k IH|k IH|s k IH|]; intros w; simpl;
    try reflexivity; auto.
Qed.

Lemma run_mbind {A B} (g : Gen event A) (f : A -> Gen event B) (w : world) :
  run client (g ≫= f) w
  = match run client g w with
    | (Returned a, w') => run client (f a) w'
    | (Raised e, w') => (Raised e, w')
    | (OutOfFuel, w') => (OutOfFuel, w')
    end.
Proof. apply run_gbind. Qed.

Lemma run_attempt {A} (g : Gen event A) (w : world) :
  run client (attempt g) w
  = match run client g w with
    | (Returned a, w') => (Returned (Ok a), w')
    | (Raised e, w') => (Returned (Raise e), w')
    | (OutOfFuel, w') => (OutOfFuel, w')
    end.
Proof.
  revert w. induction g as [a|e|y k IH|k IH|k IH|s k IH|]; intros w; simpl;
    try reflexivity; auto.
Qed.

Lemma trace_suspend (p : suspension) (w : world) :
  trace (suspend client p w)
  = trace w ++ match p with AtYield ev => [ev] | AtAwait => [] end.
Proof. destruct p; simpl; [reflexivity | now rewrite app_nil_r]. Qed.

Lemma step_count_suspend (p : suspension) (w : world) :
  _step_count (agent_of (suspend client p w)) = _step_count (agent_of w).
Proof. simpl. destruct (client (clock w) p); reflexivity. Qed.

Lemma context_suspend (p : suspension) (w : world) :
  _context (agent_of (suspend client p w)) = _context (agent_of w).
Proof. simpl. destruct (client (clock w) p); reflexivity. Qed.

(** A generator only ever extends the trace, by events that meet its
    specification; a value it returns meets the postcondition. *)
Lemma run_gen_spec {A} (P : event -> Prop) (Q : A -> Prop) (g : Gen event A) :
  gen_spec P Q g ->
  forall w,
    exists evs,
      trace (snd (run client g w)) = trace w ++ evs /\ Forall P evs /\
      forall a, fst (run client g w) = Returned a -> Q a.
Proof.
  induction g as [a|e|y k IH|k IH|k IH|s k IH|]; simpl; intros Hg w.
  - exists []. rewrite app_nil_r. repeat split; auto. intros ? [= <-]. exact Hg.
  - exists []. rewrite app_nil_r. repeat split; auto. discriminate.
  - destruct Hg as [Hy Hk].
    destruct (IH Hk (suspend client (AtYield y) w)) as (evs & Ht & Hall & Hret).
    exists (y :: evs). rewrite Ht, trace_suspend, <- app_assoc. auto.
  - destruct (IH Hg (suspend client AtAwait w)) as (evs & Ht & Hall & Hret).
    exists evs. rewrite Ht, trace_suspend, app_nil_r. auto.
  - apply (IH _ (Hg _)).
  - apply (IH Hg {| agent_of := s; trace := trace w; clock := clock w |}).
  - exists []. rewrite app_nil_r. repeat split; auto. discriminate.
Qed.

Lemma emitted_gen_spec {A} (P : event -> Prop) (Q : A -> Prop)
    (g : Gen event A) (w : world) :
  gen_spec P Q g -> Forall P (emitted client g w).
Proof.
  intros Hg. destruct (run_gen_spec P Q g Hg w) as (evs & Ht & Hall & _).
  unfold emitted. rewrite Ht, drop_app_length. exact Hall.
Qed.

End GeneratorFacts.

(** The rules of [gen_spec]. *)
Section SpecRules.

Context {Y : Type}.

Lemma gen_spec_bind {A B} (P : Y -> Prop) (Q : A -> Prop) (R : B -> Prop)
    (g : Gen Y A) (f : A -> Gen Y B) :
  gen_spec P Q g -> (forall a, Q a -> gen_spec P R (f a)) ->
  gen_spec P R (g ≫= f).
Proof.
  intros Hg Hf. unfold mbind, gen_bind.
  induction g as [a|e|y k IH|k IH|k IH|s k IH|]; simpl in *; auto.
  destruct Hg. split; auto.
Qed.

Lemma gen_spec_weaken {A} (P : Y -> Prop) (Q Q' : A -> Prop) (g : Gen Y A) :
  gen_spec P Q g -> (forall a, Q a -> Q' a) -> gen_spec P Q' g.
Proof.
  intros Hg HQ. induction g as [a|e|y k IH|k IH|k IH|s k IH|]; simpl in *; auto.
  destruct Hg. split; auto.
Qed.

Lemma gen_spec_attempt {A} (P : Y -> Prop) (Q : A -> Prop) (g : Gen Y A) :
  gen_spec P Q g ->
  gen_spec P (fun r => match r with Ok a => Q a | Raise _ => True end)
    (attempt g).
Proof.
  intros Hg. induction g as [a|e|y k IH|k IH|k IH|s k IH|]; simpl in *; auto.
  destruct Hg. split; auto.
Qed.

(** Whatever the inner generator yields, the loop over it yields what its
    body yields. *)
Lemma gen_spec_for_each {Y1 B} (P : Y -> Prop) (g : Gen Y1 unit) (acc : B)
    (body : B -> Y1 -> Gen Y B) :
  (forall acc y, gen_spec P (fun _ => True) (body acc y)) ->
  gen_spec P (fun _ => True) (for_each g acc body).
Proof.
  intros Hbody. revert acc.
  induction g as [a|e|y k IH|k IH|k IH|s k IH|]; intros acc; simpl; auto.
  apply (gen_spec_bind P (fun _ => True)); auto.
Qed.

End SpecRules.

Section MoreRules.

Context {Y : Type} (P : Y -> Prop).

Lemma gen_spec_modify (f : agent -> agent) :
  gen_spec P (fun _ => True) (modify f).
Proof. simpl. auto. Qed.

Lemma gen_spec_get : gen_spec P (fun _ => True) get.
Proof. simpl. auto. Qed.

Lemma gen_spec_yield (y : Y) : P y -> gen_spec P (fun _ => True) (yield y).
Proof. simpl. auto. Qed.

Lemma gen_spec_append_turn (t : turn) :
  gen_spec P (fun _ => True) (GLM.append_turn t).
Proof. simpl. auto. Qed.

Lemma gen_spec_strip_last_image :
  gen_spec P (fun _ => True) GLM.strip_last_image.
Proof. simpl. intros s. destruct (_context s); simpl; auto. Qed.

Lemma gen_spec_await_result {A} (r : res A) :
  gen_spec P (fun x => x = r) (attempt (await r)).
Proof. destruct r; simpl; reflexivity. Qed.

Lemma gen_spec_await2_result {A B} (r1 : res A) (r2 : A -> res B) :
  gen_spec P (fun x => x = rbind r1 r2)
    (attempt (a ← await r1; await (r2 a))).
Proof.
  destruct r1 as [a|e]; simpl; [|reflexivity].
  destruct (r2 a); simpl; reflexivity.
Qed.

End MoreRules.

(** ** The finish check of a step *)

Section FinishFacts.

Context (env : Env).

Lemma gen_spec_observe (P : event -> Prop) (k : nat) :
  gen_spec P (fun o => get_screenshot env k = Ok (fst o)) (observe env k).
Proof.
  unfold observe, mbind, gen_bind, await.
  destruct (get_screenshot env k) as [shot|e]; simpl; [|exact I].
  destruct (get_current_app env k) as [app|e]; simpl; [reflexivity|exact I].
Qed.

Lemma gen_spec_failure (P : event -> Prop) (k : nat) (what : string) (e : exn) :
  P (EvError (what +:+ exn_msg e)) ->
  P (GLM.failed_step k (what +:+ exn_msg e)) ->
  gen_spec P (fun _ : unit => True)
    (if is_Exception e
     then yield (EvError (what +:+ exn_msg e)) ;;
          yield (GLM.failed_step k (what +:+ exn_msg e))
     else Throw e).
Proof. intros H1 H2. destruct (is_Exception e); simpl; auto. Qed.

Lemma glm_rule_failed (k : nat) (msg : string) :
  glm_finish_rule env (GLM.failed_step k msg).
Proof. intros d a [= <-]. discriminate. Qed.

Lemma glm_rule_other (ev : event) :
  (forall d, ev <> EvStep d) -> glm_finish_rule env ev.
Proof. intros H d a ->. now destruct (H d). Qed.

Lemma gemini_rule_failed (k : nat) (msg : string) :
  gemini_finish_rule env (GLM.failed_step k msg).
Proof. intros d a [= <-]. discriminate. Qed.

Lemma gemini_rule_other (ev : event) :
  (forall d, ev <> EvStep d) -> gemini_finish_rule env ev.
Proof. intros H d a ->. now destruct (H d). Qed.

Lemma glm_step_finish_rule :
  gen_spec (glm_finish_rule env) (fun _ => True) (GLM.execute_step env).
Proof.
  unfold GLM.execute_step.
  eapply gen_spec_bind; [apply gen_spec_modify|]; intros _ _.
  eapply gen_spec_bind; [apply gen_spec_get|]; intros s _.
  eapply gen_spec_bind; [apply gen_spec_attempt, gen_spec_observe|].
  intros [[shot app]|e] Ho.
  2:{ apply gen_spec_failure;
        [apply glm_rule_other; discriminate|apply glm_rule_failed]. }
  simpl in Ho.
  eapply gen_spec_bind; [apply gen_spec_append_turn|]; intros _ _.
  eapply gen_spec_bind; [apply gen_spec_get|]; intros s1 _.
  eapply gen_spec_bind.
  { apply gen_spec_attempt. apply gen_spec_for_each.
    intros [parts raw] cd. unfold GLM.collect_chunk.
    eapply gen_spec_bind; [apply gen_spec_get|]; intros s2 _.
    destruct (_cancel_event _); [exact I|].
    destruct cd; simpl; auto. split; auto. apply glm_rule_other; discriminate. }
  intros [[parts raw]|e] _.
  2:{ apply gen_spec_failure;
        [apply glm_rule_other; discriminate|apply glm_rule_failed]. }
  eapply gen_spec_bind with (Q := fun _ => True).
  { destruct (parse env _) as [a0|e]; [exact I|]. destruct (exn_cls e); exact I. }
  intros action _.
  eapply gen_spec_bind; [apply gen_spec_await_result|].
  intros x ->.
  eapply gen_spec_bind with
    (Q := fun r =>
            effective_result
              (execute env (_step_count s) action (width shot) (height shot))
            = Some r).
  { destruct (execute env _ _ _ _) as [r|e]; simpl; [reflexivity|].
    destruct (is_Exception e); simpl; auto. }
  intros result Hres.
  eapply gen_spec_bind; [apply gen_spec_strip_last_image|]; intros _ _.
  eapply gen_spec_bind; [apply gen_spec_append_turn|]; intros _ _.
  apply gen_spec_yield.
  intros d a [= <-] [= <-]. simpl. eauto.
Qed.

Lemma gemini_step_finish_rule :
  gen_spec (gemini_finish_rule env) (fun _ => True) (Gemini.execute_step env).
Proof.
  unfold Gemini.execute_step.
  eapply gen_spec_bind; [apply gen_spec_modify|]; intros _ _.
  eapply gen_spec_bind; [apply gen_spec_get|]; intros s _.
  eapply gen_spec_bind with (Q := fun _ => True).
  { destruct (1 <? _step_count s)%nat; [|exact I].
    eapply gen_spec_bind; [apply gen_spec_attempt, gen_spec_observe|].
    intros [[shot app]|e] Ho; [simpl; auto|].
    destruct (is_Exception e); simpl; auto.
    split; [apply gemini_rule_other; discriminate|].
    split; [apply gemini_rule_failed|exact I]. }
  intros observed _. destruct observed; simpl negb; cbv iota; [|exact I].
  eapply gen_spec_bind.
  { apply gen_spec_attempt with (Q := fun _ => True).
    unfold Gemini._call_llm_with_tools.
    eapply gen_spec_bind; [apply gen_spec_get|]; intros s1 _.
    destruct (_cancel_event s1); [exact I|].
    destruct (openai_complete env _ _) as [[|c cs]|e]; simpl; exact I. }
  intros [[[thinking tool_name] tool_args]|e] _.
  2:{ apply gen_spec_failure;
        [apply gemini_rule_other; discriminate|apply gemini_rule_failed]. }
  eapply gen_spec_bind with (Q := fun _ => True).
  { destruct (negb _); simpl; auto. split; auto.
    apply gemini_rule_other; discriminate. }
  intros _ _.
  eapply gen_spec_bind with (Q := fun _ => True).
  { destruct (ActionMapper.tool_call_to_action _ _ _); exact I. }
  intros action _.
  eapply gen_spec_bind; [apply gen_spec_await2_result|].
  intros x ->.
  eapply gen_spec_bind with
    (Q := fun r =>
            effective_result
              (rbind (exec_screenshot env (_step_count s)) (fun screenshot =>
                 execute env (_step_count s) action (width screenshot)
                   (height screenshot)))
            = Some r).
  { destruct (rbind _ _) as [r|e]; simpl; [reflexivity|].
    destruct (is_Exception e); simpl; auto. }
  intros result Hres.
  eapply gen_spec_bind; [apply gen_spec_get|]; intros s1 _.
  eapply gen_spec_bind with (Q := fun _ => True).
  { destruct (1 <? _)%nat; [apply gen_spec_strip_last_image|exact I]. }
  intros _ _.
  eapply gen_spec_bind; [apply gen_spec_append_turn|]; intros _ _.
  eapply gen_spec_bind; [apply gen_spec_append_turn|]; intros _ _.
  apply gen_spec_yield.
  intros d a [= <-] [= <-]. simpl. eauto.
Qed.

End FinishFacts.

(** ** A consumer that never cancels *)

Section Passive.
Context (client : nat -> suspension -> bool) (Hpassive : never_cancels client).

Lemma agent_suspend_passive (p : suspension) (w : world) :
  agent_of (suspend client p w) = agent_of w.
Proof. unfold suspend. simpl. now rewrite Hpassive. Qed.
End Passive.

#[local] Opaque suspend.

(** ** What [stream] makes of a step's events *)

Section ForwardFacts.
Context (client : nat -> suspension -> bool).

Lemma gen_spec_top {Y A} (g : Gen Y A) :
  gen_spec (fun _ => True) (fun _ => True) g.
Proof. induction g; simpl; auto. Qed.

Lemma trace_extends {A} (g : Gen event A) (w : world) :
  trace (snd (run client g w)) = trace w ++ emitted client g w.
Proof.
  destruct (run_gen_spec client _ _ g (gen_spec_top g) w) as (evs & Ht & _).
  unfold emitted. now rewrite Ht, drop_app_length.
Qed.

Lemma emitted_yield {A} (ev : event) (k : Gen event A) (w : world) :
  emitted client (Yield ev k) w
  = ev :: emitted client k (suspend client (AtYield ev) w).
Proof.
  unfold emitted at 1. simpl. rewrite trace_extends, trace_suspend.
  rewrite <- app_assoc. now rewrite drop_app_length.
Qed.

Lemma emitted_await {A} (k : Gen event A) (w : world) :
  emitted client (Await k) w = emitted client k (suspend client AtAwait w).
Proof.
  unfold emitted. simpl. now rewrite trace_suspend, app_nil_r.
Qed.

Lemma run_forward_unfinished (g : Gen event unit) :
  forall w,
    Forall (fun ev => finished_step ev = false) (emitted client g w) ->
    run client (forward_events g) w
    = (match fst (run client g w) with
       | Returned _ => Returned false
       | Raised e => Raised e
       | OutOfFuel => OutOfFuel
       end, snd (run client g w)).
Proof.
  induction g as [a|e|y k IH|k IH|k IH|s k IH|]; intros w Hall;
    try reflexivity.
  - rewrite emitted_yield in Hall. inversion Hall as [|? ? Hy Hk]; subst.
    simpl. rewrite Hy. apply IH, Hk.
  - rewrite emitted_await in Hall. simpl. apply IH, Hall.
  - simpl. apply IH. exact Hall.
  - simpl. apply IH. exact Hall.
Qed.

End ForwardFacts.

(** ** One turn of the run loop *)

Section LoopFacts.
Context (max_steps : Z) {impl : AsyncAgentImpl} (client : nat -> suspension -> bool).

Lemma run_step_loop_S (fuel : nat) (w : world) :
  (Z.of_nat (_step_count (agent_of w)) < max_steps)%Z ->
  _is_running (agent_of w) = true ->
  _cancel_event (agent_of w) = false ->
  run client (step_loop max_steps (S fuel)) w
  = match run client (forward_events _execute_step) w with
    | (Returned true, w') => (Returned tt, w')
    | (Returned false, w') => run client (step_loop max_steps fuel) w'
    | (Raised e, w') => (Raised e, w')
    | (OutOfFuel, w') => (OutOfFuel, w')
    end.
Proof.
  intros Hlt Hrun Hcancel.
  change (step_loop max_steps (S fuel)) with
    (s ← get;
     if (Z.of_nat (_step_count s) <? max_steps)%Z && _is_running s then
       if _cancel_event s then Throw cancelled_error
       else
         returned ← forward_events _execute_step;
         if returned : bool then Ret tt else step_loop max_steps fuel
     else
       s' ← get;
       yield (EvDone (PStr "Max steps reached") (_step_count s') false)).
  rewrite run_mbind.
  change (run client get w) with (Returned (agent_of w), w). cbv beta iota.
  apply Z.ltb_lt in Hlt. rewrite Hlt, Hrun, Hcancel. cbv beta iota. simpl andb. cbv iota.
  rewrite run_mbind.
  destruct (run client (forward_events _execute_step) w) as [[[|]|e|] w']; reflexivity.
Qed.

Lemma run_step_loop_exit (fuel : nat) (w : world) :
  (max_steps <= Z.of_nat (_step_count (agent_of w)))%Z ->
  run client (step_loop max_steps fuel) w
  = (Returned tt,
     suspend client
       (AtYield (EvDone (PStr "Max steps reached")
                   (_step_count (agent_of w)) false)) w).
Proof.
  intros Hge. apply Z.ltb_ge in Hge.
  destruct fuel; simpl; rewrite Hge; reflexivity.
Qed.

End LoopFacts.

(** ** A device that fails in the observe phase *)

Section DeviceFailure.
Context (env : Env) (client : nat -> suspension -> bool).

Ltac settle :=
  eexists; split; [reflexivity|];
  rewrite ?trace_suspend, ?step_count_suspend; simpl;
  rewrite ?trace_suspend, ?step_count_suspend; simpl;
  rewrite <- ?app_assoc; reflexivity.

Lemma glm_step_device_failure (w : world) (e : exn) :
  device_observation env (S (_step_count (agent_of w))) = Raise e ->
  is_Exception e = true ->
  exists w',
    run client (forward_events (GLM.execute_step env)) w = (Returned true, w') /\
    trace w' = trace w ++ device_failure (S (_step_count (agent_of w))) e.
Proof.
  intros Hdev He. unfold device_observation in Hdev.
  unfold GLM.execute_step. simpl.
  destruct (get_screenshot env _) as [shot|e1] eqn:E1; simpl in *.
  - destruct (get_current_app env _) as [app|e2] eqn:E2; simpl in *; [discriminate|].
    injection Hdev as ->. rewrite He. simpl. settle.
  - injection Hdev as ->. rewrite He. simpl. settle.
Qed.

Lemma gemini_step_device_failure (w : world) (e : exn) :
  (1 <= _step_count (agent_of w))%nat ->
  device_observation env (S (_step_count (agent_of w))) = Raise e ->
  is_Exception e = true ->
  exists w',
    run client (forward_events (Gemini.execute_step env)) w = (Returned true, w') /\
    trace w' = trace w ++ device_failure (S (_step_count (agent_of w))) e.
Proof.
  intros Hk Hdev He. unfold device_observation in Hdev.
  unfold Gemini.execute_step.
  destruct (_step_count (agent_of w)) as [|n] eqn:En; [lia|].
  simpl. rewrite En. simpl.
  destruct (get_screenshot env _) as [shot|e1] eqn:E1; simpl in *.
  - destruct (get_current_app env _) as [app|e2] eqn:E2; simpl in *; [discriminate|].
    injection Hdev as ->. rewrite He. simpl. settle.
  - injection Hdev as ->. rewrite He. simpl. settle.
Qed.
End DeviceFailure.

(** ** Steps that go through *)

Section StepRuns.
Context (env : Env) (client : nat -> suspension -> bool)
  (Hpassive : never_cancels client).

Lemma quiet_app (a b : list event) : quiet a -> quiet b -> quiet (a ++ b).
Proof. apply Forall_app_2. Qed.

Lemma str_app_nil_r (s : string) : s +:+ EmptyString = s.
Proof.
  induction s as [|c s IH]; [reflexivity|].
  change (String c (s +:+ EmptyString) = String c s). now rewrite IH.
Qed.

Lemma str_app_assoc (a b c : string) : (a +:+ b) +:+ c = a +:+ (b +:+ c).
Proof.
  induction a as [|x a IH]; [reflexivity|].
  change (String x ((a +:+ b) +:+ c) = String x (a +:+ (b +:+ c))).
  now rewrite IH.
Qed.

Lemma run_glm_chunks (chunks : list chunk) :
  forall (buffer : string) (phase : bool) (parts : list string) (raw : string)
         (w : world),
    _cancel_event (agent_of w) = false ->
    exists parts' w' evs,
      run client
        (for_each
           (try_finally (GLM.stream_chunks chunks None buffer phase)
              (Await (Ret tt)))
           (parts, raw) GLM.collect_chunk) w
      = (Returned (parts', raw +:+ raw_text chunks), w') /\
      agent_of w' = agent_of w /\
      trace w' = trace w ++ evs /\ quiet evs.
Proof.
  induction chunks as [|c rest IH]; intros buffer phase parts raw w Hc.
  - simpl. rewrite str_app_nil_r.
    exists parts, (suspend client AtAwait (suspend client AtAwait w)), [].
    split; [reflexivity|].
    rewrite !agent_suspend_passive by assumption.
    rewrite !trace_suspend. simpl. rewrite !app_nil_r.
    repeat split. constructor.
  - assert (Hnext : forall buffer phase parts raw0 w0 evs0,
              agent_of w0 = agent_of w -> trace w0 = trace w ++ evs0 ->
              quiet evs0 ->
              raw0 +:+ raw_text rest = raw +:+ raw_text (c :: rest) ->
              exists parts' w' evs,
                run client
                  (for_each
                     (try_finally (GLM.stream_chunks rest None buffer phase)
                        (Await (Ret tt)))
                     (parts, raw0) GLM.collect_chunk) w0
                = (Returned (parts', raw +:+ raw_text (c :: rest)), w') /\
                agent_of w' = agent_of w /\
                trace w' = trace w ++ evs /\ quiet evs).
    { intros b ph ps raw0 w0 evs0 Ha Ht Hq Hraw.
      destruct (IH b ph ps raw0 w0) as (p' & w' & evs & Hr & Ha' & Ht' & Hq').
      { now rewrite Ha. }
      exists p', w', (evs0 ++ evs). rewrite <- Hraw. split; [exact Hr|].
      split; [congruence|]. split; [|now apply quiet_app].
      rewrite Ht', Ht. now rewrite app_assoc. }
    simpl. rewrite agent_suspend_passive by assumption. rewrite Hc.
    destruct c as [|[text|]].
    + eapply (Hnext _ _ _ _ _ []);
        [ now rewrite ?agent_suspend_passive by assumption
        | now rewrite ?trace_suspend, ?app_nil_r
        | constructor | reflexivity ].
    + simpl. rewrite ?agent_suspend_passive by assumption. rewrite Hc.
      destruct phase.
      * eapply (Hnext _ _ _ _ _ []);
        [ now rewrite ?agent_suspend_passive by assumption
        | now rewrite ?trace_suspend, ?app_nil_r
        | constructor | simpl; apply str_app_assoc ].
      * destruct (GLM.find_marker (buffer +:+ text)) as [marker|].
        -- simpl. rewrite ?agent_suspend_passive by assumption. rewrite Hc.
           simpl.
           eapply (Hnext _ _ _ _ _ [EvThinking _]);
             [ now rewrite ?agent_suspend_passive by assumption
             | now rewrite ?trace_suspend, ?app_nil_r
             | repeat constructor; eexists; reflexivity
             | simpl; apply str_app_assoc ].
        -- destruct (negb _ && _).
           ++ simpl. rewrite ?agent_suspend_passive by assumption. rewrite Hc.
              simpl.
              eapply (Hnext _ _ _ _ _ [EvThinking _]);
                [ now rewrite ?agent_suspend_passive by assumption
                | now rewrite ?trace_suspend, ?app_nil_r
                | repeat constructor; eexists; reflexivity
                | simpl; apply str_app_assoc ].
           ++ simpl.
              eapply (Hnext _ _ _ _ _ []);
                [ now rewrite ?agent_suspend_passive by assumption
                | now rewrite ?trace_suspend, ?app_nil_r
                | constructor | simpl; apply str_app_assoc ].
    + eapply (Hnext _ _ _ _ _ []);
        [ now rewrite ?agent_suspend_passive by assumption
        | now rewrite ?trace_suspend, ?app_nil_r
        | constructor | reflexivity ].
Qed.

Lemma run_observe_ok (k : nat) (o : Screenshot * string) (w : world) :
  device_observation env k = Ok o ->
  run client (attempt (observe env k)) w
  = (Returned (Ok o), suspend client AtAwait (suspend client AtAwait w)).
Proof.
  unfold device_observation, observe. intros H.
  destruct (get_screenshot env k) as [shot|]; [|discriminate]. simpl in H.
  destruct (get_current_app env k) as [app|]; [|discriminate]. simpl in H.
  injection H as <-. reflexivity.
Qed.

Lemma run_strip_last_image (w : world) :
  _context (agent_of w) <> [] ->
  run client GLM.strip_last_image w
  = (Returned tt,
     {| agent_of :=
          set_context
            (alter remove_images_from_message
               (length (_context (agent_of w)) - 1)%nat (_context (agent_of w)))
            (agent_of w);
        trace := trace w; clock := clock w |}).
Proof.
  intros Hne. unfold GLM.strip_last_image. simpl.
  destruct (_context (agent_of w)) as [|t l]; [congruence|reflexivity].
Qed.

Lemma glm_step_runs (w : world) :
  device_ok env -> glm_never_finishes env -> glm_executor_never_finishes env ->
  _cancel_event (agent_of w) = false ->
  exists w' evs d,
    run client (GLM.execute_step env) w = (Returned tt, w') /\
    trace w' = trace w ++ evs ++ [EvStep d] /\ quiet evs /\
    ev_step d = S (_step_count (agent_of w)) /\ ev_finished d = false /\
    _step_count (agent_of w') = S (_step_count (agent_of w)) /\
    _is_running (agent_of w') = _is_running (agent_of w) /\
    _cancel_event (agent_of w') = false.
Proof.
  intros Hdev Hmodel Hexec Hc.
  unfold GLM.execute_step.
  rewrite run_mbind. simpl (run client (modify _) w). cbv beta iota.
  rewrite run_mbind. simpl (run client get _). cbv beta iota zeta.
  set (k := S (_step_count (agent_of w))).
  destruct (Hdev k) as [[shot app] Hobs].
  rewrite run_mbind, (run_observe_ok k _ _ Hobs). cbv beta iota.
  rewrite run_mbind. simpl (run client (GLM.append_turn _) _). cbv beta iota.
  rewrite run_mbind. simpl (run client get _). cbv beta iota.
  rewrite !agent_suspend_passive by assumption.
  cbn [agent_of trace clock _step_count set_step_count set_context _context].
  match goal with |- context [run client _ ?W] => set (w2 := W) end.
  assert (Hw2 : agent_of w2
                = set_context
                    (_context (agent_of w) ++
                     [create_user_message
                        ("** Screen Info **" +:+
                           String "010" (String "010" (build_screen_info env app)))
                        (base64_data shot)])
                    (set_step_count k (agent_of w))) by reflexivity.
  assert (Ht2 : trace w2 = trace w).
  { subst w2. cbn [trace]. now rewrite !trace_suspend, !app_nil_r. }
  clearbody w2.
  destruct (Hmodel k (_context (agent_of w2))) as (chunks & a & Hstream & Hparse & Hfin).
  rewrite run_mbind, run_attempt.
  unfold GLM._stream_openai. rewrite Hw2 in *.
  cbn [agent_of trace clock _step_count set_step_count set_context _context] in *.
  rewrite Hstream.
  destruct (run_glm_chunks chunks EmptyString false [] EmptyString
              (suspend client AtAwait w2))
    as (parts' & w3 & evs & Hr & Ha3 & Ht3 & Hq).
  { rewrite agent_suspend_passive by assumption. now rewrite Hw2. }
  match goal with
  | |- context [run client (for_each ?g ?acc ?b) w2] =>
      change (run client (for_each g acc b) w2)
        with (run client
                (for_each
                   (try_finally (GLM.stream_chunks chunks None EmptyString false)
                      (Await (Ret tt))) acc b)
                (suspend client AtAwait w2))
  end.
  rewrite Hr. cbv beta iota.
  change (EmptyString +:+ raw_text chunks) with (raw_text chunks).
  rewrite Hparse.
  rewrite agent_suspend_passive in Ha3 by assumption.
  rewrite trace_suspend, app_nil_r, Ht2 in Ht3.
  rewrite Hw2 in Ha3. clear Hr Hw2 Ht2 w2.
  destruct (Hexec k a (width shot) (height shot)) as (r & Hex & Hsf).
  rewrite run_mbind. simpl (run client (mret a) w3). cbv beta iota.
  rewrite run_mbind. rewrite Hex. simpl (run client (attempt _) w3). cbv beta iota.
  rewrite run_mbind. simpl (run client (mret r) _). cbv beta iota.
  rewrite run_mbind, run_strip_last_image.
  2:{ rewrite agent_suspend_passive by assumption. rewrite Ha3. simpl.
      destruct (_context (agent_of w)); discriminate. }
  cbv beta iota.
  rewrite run_mbind. simpl (run client (GLM.append_turn _) _). cbv beta iota.
  simpl (run client (yield _) _).
  do 3 eexists. split; [reflexivity|].
  rewrite trace_suspend. cbn [trace agent_of].
  rewrite !step_count_suspend, !trace_suspend, app_nil_r, Ht3.
  rewrite !agent_suspend_passive by assumption.
  cbn [agent_of trace clock _step_count set_step_count set_context _context
       _is_running _cancel_event set_is_running ev_step ev_finished].
  rewrite Ha3, Hfin, Hsf, <- app_assoc. simpl.
  split; [reflexivity|]. split; [exact Hq|]. repeat split; exact Hc.
Qed.

Lemma run_await2_ok {A B} (r1 : res A) (r2 : A -> res B) (b : B) (w : world) :
  rbind r1 r2 = Ok b ->
  run client (attempt (a ← await r1; await (r2 a))) w
  = (Returned (Ok b), suspend client AtAwait (suspend client AtAwait w)).
Proof.
  intros H. destruct r1 as [a|]; [|discriminate]. simpl in H.
  simpl. rewrite H. reflexivity.
Qed.

Lemma gemini_step_runs (w : world) :
  device_ok env -> gemini_never_finishes env ->
  gemini_executor_never_finishes env ->
  _cancel_event (agent_of w) = false ->
  exists w' evs d,
    run client (Gemini.execute_step env) w = (Returned tt, w') /\
    trace w' = trace w ++ evs ++ [EvStep d] /\ quiet evs /\
    ev_step d = S (_step_count (agent_of w)) /\ ev_finished d = false /\
    _step_count (agent_of w') = S (_step_count (agent_of w)) /\
    _is_running (agent_of w') = _is_running (agent_of w) /\
    _cancel_event (agent_of w') = false.
Proof.
  intros Hdev Hmodel Hexec Hc.
  unfold Gemini.execute_step.
  rewrite run_mbind. simpl (run client (modify _) w). cbv beta iota.
  rewrite run_mbind. simpl (run client get _). cbv beta iota zeta.
  cbn [agent_of trace clock _step_count set_step_count].
  set (k := S (_step_count (agent_of w))).
  rewrite run_mbind.
  assert (Hobs : exists w2,
    run client
      (if (1 <? k)%nat
       then
         o ← attempt (observe env k);
         match o with
         | Ok (screenshot, current_app) =>
             GLM.append_turn
               (create_user_message ("Current app: " +:+ current_app)
                  (base64_data screenshot)) ;; mret true
         | Raise e =>
             if is_Exception e
             then
               yield (EvError ("Device error: " +:+ exn_msg e)) ;;
               yield (GLM.failed_step k ("Device error: " +:+ exn_msg e)) ;;
               mret false
             else Throw e
         end
       else mret true)
      {| agent_of := set_step_count k (agent_of w); trace := trace w;
         clock := clock w |}
    = (Returned true, w2) /\
    trace w2 = trace w /\
    _step_count (agent_of w2) = k /\
    _is_running (agent_of w2) = _is_running (agent_of w) /\
    _cancel_event (agent_of w2) = false).
  { destruct (1 <? k)%nat.
    - destruct (Hdev k) as [[shot app] Hobs].
      rewrite run_mbind, (run_observe_ok k _ _ Hobs). cbv beta iota.
      simpl. eexists. split; [reflexivity|]. cbn [agent_of trace].
      rewrite !trace_suspend, !app_nil_r.
      rewrite !agent_suspend_passive by assumption. simpl. auto.
    - eexists. split; [reflexivity|]. simpl. auto. }
  destruct Hobs as (w2 & Hr2 & Ht2 & Hk2 & Hrun2 & Hc2).
  rewrite Hr2. clear Hr2. cbv beta iota. simpl negb. cbv iota.
  rewrite run_mbind, run_attempt. unfold Gemini._call_llm_with_tools.
  rewrite run_mbind. simpl (run client get _). cbv beta iota. rewrite Hc2.
  destruct (Hmodel k (_context (agent_of w2))) as (c & cs & a & Hcomplete & Hmap & Hfin).
  rewrite Hcomplete. simpl (run client (await _ ≫= _) _). cbv beta iota.
  destruct (Gemini.read_choice c) as [[thinking tool_name] tool_args] eqn:Hchoice.
  simpl in Hmap.
  rewrite run_mbind.
  assert (Hthink : exists w3 evs,
    run client
      (if negb (String.eqb thinking EmptyString)
       then yield (EvThinking thinking) else Ret tt)
      (suspend client AtAwait w2) = (Returned tt, w3) /\
    agent_of w3 = agent_of w2 /\ trace w3 = trace w ++ evs /\ quiet evs).
  { destruct (negb _).
    - simpl. do 2 eexists. split; [reflexivity|].
      rewrite !agent_suspend_passive by assumption.
      rewrite !trace_suspend, app_nil_r, Ht2. repeat split.
      repeat constructor. eexists; reflexivity.
    - exists (suspend client AtAwait w2), []. split; [reflexivity|].
      rewrite !agent_suspend_passive by assumption.
      rewrite !trace_suspend, !app_nil_r, Ht2. repeat split. constructor. }
  destruct Hthink as (w3 & evs & Hr3 & Ha3 & Ht3 & Hq).
  rewrite Hr3. clear Hr3. cbv beta iota.
  rewrite run_mbind, Hmap. simpl (run client (mret a) w3). cbv beta iota.
  destruct (Hexec k a) as (r & Hex & Hsf).
  rewrite run_mbind, (run_await2_ok _ _ r _ Hex). cbv beta iota.
  rewrite run_mbind. simpl (run client (mret r) _). cbv beta iota.
  rewrite run_mbind. simpl (run client get _). cbv beta iota.
  rewrite run_mbind.
  set (w4 := suspend client AtAwait (suspend client AtAwait w3)).
  assert (Ha4 : agent_of w4 = agent_of w2).
  { subst w4. now rewrite !agent_suspend_passive by assumption. }
  assert (Ht4 : trace w4 = trace w ++ evs).
  { subst w4. now rewrite !trace_suspend, !app_nil_r. }
  clearbody w4.
  assert (Hstrip : exists s5,
    run client
      (if (1 <? length (_context (agent_of w4)))%nat
       then GLM.strip_last_image else Ret tt) w4
    = (Returned tt,
       {| agent_of := s5; trace := trace w4; clock := clock w4 |}) /\
    _step_count s5 = k /\ _is_running s5 = _is_running (agent_of w) /\
    _cancel_event s5 = false).
  { destruct (1 <? length (_context (agent_of w4)))%nat eqn:Hlen.
    - rewrite run_strip_last_image.
      + eexists. split; [reflexivity|]. simpl. rewrite Ha4. auto.
      + intros Hnil. rewrite Hnil in Hlen. discriminate.
    - exists (agent_of w4). split; [now destruct w4|]. rewrite Ha4. auto. }
  destruct Hstrip as (s5 & Hr5 & Hk5 & Hrun5 & Hc5).
  rewrite Hr5. clear Hr5. cbv beta iota.
  simpl. do 3 eexists. split; [reflexivity|].
  rewrite trace_suspend. cbn [trace agent_of].
  rewrite Ht4, <- app_assoc.
  split; [reflexivity|]. split; [exact Hq|].
  rewrite !agent_suspend_passive by assumption. simpl.
  rewrite Hfin, Hsf. auto.
Qed.
End StepRuns.

(** ** Runs that exhaust their steps *)

Section StreamRuns.
Context (max_steps : Z) {impl : AsyncAgentImpl}
  (client : nat -> suspension -> bool).
Hypothesis Hstep : step_continues client _execute_step.

Lemma step_numbers_app (a b : list event) :
  step_numbers (a ++ b) = step_numbers a ++ step_numbers b.
Proof.
  induction a as [|ev a IH]; [reflexivity|].
  destruct ev; simpl; rewrite IH; reflexivity.
Qed.

Lemma step_numbers_quiet (evs : list event) : quiet evs -> step_numbers evs = [].
Proof.
  induction 1 as [|ev evs [c ->] _ IH]; [reflexivity|exact IH].
Qed.

Lemma ordinary_quiet (evs : list event) : quiet evs -> Forall ordinary evs.
Proof.
  intros H. eapply Forall_impl; [exact H|]. intros ev [c ->]. split; reflexivity.
Qed.

Lemma unfinished_quiet (evs : list event) :
  quiet evs -> Forall (fun ev => finished_step ev = false) evs.
Proof.
  intros H. eapply Forall_impl; [exact H|]. intros ev [c ->]. reflexivity.
Qed.

Lemma step_loop_runs (n : nat) :
  forall w,
    (Z.of_nat (_step_count (agent_of w)) + Z.of_nat n = max_steps)%Z ->
    _is_running (agent_of w) = true ->
    _cancel_event (agent_of w) = false ->
    exists w' evs,
      run client (step_loop max_steps n) w = (Returned tt, w') /\
      _step_count (agent_of w') = (_step_count (agent_of w) + n)%nat /\
      trace w'
      = trace w ++ evs ++
          [EvDone (PStr "Max steps reached") (_step_count (agent_of w) + n)
             false] /\
      step_numbers evs = seq (S (_step_count (agent_of w))) n /\
      Forall ordinary evs.
Proof.
  induction n as [|n IH]; intros w Hmax Hrun Hc.
  - rewrite run_step_loop_exit by lia.
    eexists _, []. split; [reflexivity|].
    rewrite step_count_suspend, trace_suspend, Nat.add_0_r.
    repeat split. constructor.
  - rewrite run_step_loop_S by (assumption || lia).
    destruct (Hstep w Hc) as (w1 & evs & d & Hr & Ht & Hq & Hd & Hf & Hk & Hrun1 & Hc1).
    rewrite run_forward_unfinished.
    2:{ unfold emitted. rewrite Hr. simpl snd. rewrite Ht, drop_app_length.
        apply Forall_app_2; [now apply unfinished_quiet|].
        repeat constructor. exact Hf. }
    rewrite Hr. simpl fst. simpl snd. cbv iota.
    destruct (IH w1) as (w2 & evs2 & Hr2 & Hk2 & Ht2 & Hn2 & Ho2);
      [lia|congruence|assumption|].
    exists w2, (evs ++ [EvStep d] ++ evs2). split; [exact Hr2|].
    rewrite Hk2, Hk, Ht2, Ht, Hk.
    replace (S (_step_count (agent_of w)) + n)%nat
      with (_step_count (agent_of w) + S n)%nat by lia.
    split; [reflexivity|]. split; [rewrite <- !app_assoc; reflexivity|].
    split.
    + rewrite !step_numbers_app, step_numbers_quiet by assumption.
      rewrite Hk in Hn2. simpl. now rewrite Hd, Hn2.
    + apply Forall_app_2; [now apply ordinary_quiet|].
      apply Forall_app_2; [|assumption]. repeat constructor.
Qed.

Context (env : Env).
Hypothesis Hpassive : never_cancels client.
Hypothesis Hprep :
  forall task b64 app w,
    exists s',
      run client (_prepare_initial_context task b64 app) w
      = (Returned tt, {| agent_of := s'; trace := trace w; clock := clock w |}) /\
      _step_count s' = _step_count (agent_of w) /\
      _is_running s' = _is_running (agent_of w) /\
      _cancel_event s' = _cancel_event (agent_of w).

Lemma stream_runs (n : nat) (task : string) (s0 : agent) :
  device_ok env -> max_steps = Z.of_nat n -> _step_count s0 = 0%nat ->
  exists w' evs,
    run client (stream env max_steps n task) (start s0) = (Returned tt, w') /\
    _step_count (agent_of w') = n /\
    _is_running (agent_of w') = false /\
    trace w' = evs ++ [EvDone (PStr "Max steps reached") n false] /\
    step_numbers evs = seq 1 n /\
    Forall ordinary evs.
Proof.
  intros Hdev Hmax Hzero. unfold stream, try_finally.
  rewrite run_mbind, run_attempt.
  rewrite run_mbind. simpl (run client (modify _) _). cbv beta iota.
  rewrite run_mbind, run_attempt.
  destruct (Hdev 0%nat) as [[shot app] Hobs].
  rewrite run_mbind, (run_observe_ok env client 0 _ _ Hobs). cbv beta iota.
  rewrite run_mbind.
  match goal with
  | |- context [run client (_prepare_initial_context ?t ?b ?a) ?W] =>
      destruct (Hprep t b a W) as (s1 & Hr1 & Hk1 & Hrun1 & Hc1); rewrite Hr1;
      clear Hr1
  end.
  cbv beta iota.
  rewrite !agent_suspend_passive in * by assumption.
  rewrite !trace_suspend, !app_nil_r. cbn [agent_of trace clock] in *.
  simpl in Hk1, Hrun1, Hc1.
  match goal with
  | |- context [run client (step_loop max_steps n) ?W] =>
      destruct (step_loop_runs n W) as (w2 & evs & Hr2 & Hk2 & Ht2 & Hn2 & Ho2)
  end.
  { cbn [agent_of]. lia. }
  { exact Hrun1. }
  { exact Hc1. }
  rewrite Hr2. cbv beta iota. cbn [agent_of trace] in *.
  simpl. exists {| agent_of := set_is_running false (agent_of w2);
                   trace := trace w2; clock := clock w2 |}, evs.
  split; [reflexivity|]. simpl.
  rewrite Ht2, Hk2, Hk1, Hzero. simpl. rewrite Hn2, Hk1, Hzero. auto.
Qed.

End StreamRuns.

Section BoundaryFacts.

Context (env : Env) (client : nat -> suspension -> bool).

Lemma glm_prepare_runs (task b64 app : string) (w : world) :
  exists s',
    run client (GLM.prepare_initial_context env task b64 app) w
    = (Returned tt, {| agent_of := s'; trace := trace w; clock := clock w |}) /\
    _step_count s' = _step_count (agent_of w) /\
    _is_running s' = _is_running (agent_of w) /\
    _cancel_event s' = _cancel_event (agent_of w).
Proof. eexists. split; [reflexivity|]. simpl. auto. Qed.

Lemma gemini_prepare_runs (task b64 app : string) (w : world) :
  exists s',
    run client (Gemini.prepare_initial_context task b64 app) w
    = (Returned tt, {| agent_of := s'; trace := trace w; clock := clock w |}) /\
    _step_count s' = _step_count (agent_of w) /\
    _is_running s' = _is_running (agent_of w) /\
    _cancel_event s' = _cancel_event (agent_of w).
Proof. eexists. split; [reflexivity|]. simpl. auto. Qed.

End BoundaryFacts.

(** Before the first step the same failure ends the run at once, with an
    [error] and a [done] event and no step event. *)
Lemma initial_device_failure (env : Env) (max_steps : Z) (impl : AsyncAgentImpl)
    (client : nat -> suspension -> bool) (fuel : nat) (task : string)
    (s0 : agent) (e : exn) :
  get_screenshot env 0%nat = Raise e -> is_Exception e = true ->
  exists w',
    run client (stream env max_steps fuel task) (start s0) = (Returned tt, w') /\
    trace w' = [EvError ("Device error: " +:+ exn_msg e);
                EvDone (PStr ("Device error: " +:+ exn_msg e)) 0 false].
Proof.
  intros Hdev He. unfold stream, try_finally, observe. rewrite Hdev.
  simpl. rewrite He. simpl. eexists. split; [reflexivity|].
  simpl. now rewrite !trace_suspend.
Qed.

(** C5. Max-steps boundary. With [max_steps = 3], a consumer that never
    cancels, a reachable device, a model whose every answer maps to an
    action that is not a finish action and an executor that never sets
    [should_finish], a run on a fresh agent returns after the step events
    of steps 1, 2 and 3, with [done] ("Max steps reached", 3 steps, no
    success) as its last event and its only [done] or [cancelled] event,
    and a step count of 3; so for the DSL agent and for the tool-call
    agent. *)
Theorem max_steps_boundary (env : Env) (client : nat -> suspension -> bool)
    (system_prompt task : string) :
  never_cancels client -> device_ok env ->
  (glm_never_finishes env -> glm_executor_never_finishes env ->
   exists w' evs,
     run client (stream env 3 (impl := GLM.glm_agent env) 3 task)
       (start (init_agent system_prompt)) = (Returned tt, w') /\
     _step_count (agent_of w') = 3%nat /\
     _is_running (agent_of w') = false /\
     trace w' = evs ++ [EvDone (PStr "Max steps reached") 3 false] /\
     step_numbers evs = [1; 2; 3]%nat /\
     Forall ordinary evs) /\
  (gemini_never_finishes env -> gemini_executor_never_finishes env ->
   exists w' evs,
     run client (stream env 3 (impl := Gemini.gemini_agent env) 3 task)
       (start (init_agent system_prompt)) = (Returned tt, w') /\
     _step_count (agent_of w') = 3%nat /\
     _is_running (agent_of w') = false /\
     trace w' = evs ++ [EvDone (PStr "Max steps reached") 3 false] /\
     step_numbers evs = [1; 2; 3]%nat /\
     Forall ordinary evs).
Proof.
  intros Hpassive Hdev. split; intros Hmodel Hexec.
  - apply (stream_runs 3 (impl := GLM.glm_agent env) client); auto.
    + intros w Hc. now apply glm_step_runs.
    + intros. apply glm_prepare_runs.
  - apply (stream_runs 3 (impl := Gemini.gemini_agent env) client); auto.
    + intros w Hc. now apply gemini_step_runs.
    + intros. apply gemini_prepare_runs.
Qed.

(** ** The coordinator: what a step leaves untouched *)

Section DualProofs.
Import DualModel.

Section Preservation.
Context (I : dworld -> dworld -> Prop).
Hypothesis I_refl : forall w, I w w.
Hypothesis I_trans : forall a b c, I a b -> I b c -> I a c.

Lemma preserves_bind {A B} (m : D A) (f : A -> D B) :
  preserves I m -> (forall a, preserves I (f a)) -> preserves I (m ≫= f).
Proof.
  intros Hm Hf w. unfold mbind, D_bind. specialize (Hm w).
  destruct (m w) as [[a|e] w1]; simpl in *; [|exact Hm].
  eapply I_trans; [exact Hm|apply Hf].
Qed.

Lemma preserves_ret {A} (a : A) : preserves I (mret a).
Proof. intros w. apply I_refl. Qed.

Lemma preserves_lift {A} (r : res A) : preserves I (lift r).
Proof. intros w. apply I_refl. Qed.

Lemma preserves_read : preserves I read.
Proof. intros w. apply I_refl. Qed.

Lemma preserves_callback {A} (cb : option (A -> res unit)) (a : A) :
  preserves I (callback cb a).
Proof. destruct cb; [apply preserves_lift|apply preserves_ret]. Qed.

End Preservation.

Section Skip.
Context (env : DualEnv).

Lemma nothing_refl w : nothing_dispatched w w.
Proof. split; reflexivity. Qed.

Lemma nothing_trans a b c :
  nothing_dispatched a b -> nothing_dispatched b c -> nothing_dispatched a c.
Proof. intros [H1 H2] [H3 H4]. split; congruence. Qed.

Lemma nothing_update_state f : preserves nothing_dispatched (_update_state f).
Proof. intros w. split; reflexivity. Qed.

Lemma nothing_emit t d m :
  t <> ACTION_START -> preserves nothing_dispatched (_emit_event t d m).
Proof.
  intros Ht w. split; [reflexivity|]. simpl.
  rewrite List.filter_app. simpl. unfold is_action_start at 2. simpl.
  rewrite bool_decide_eq_false_2 by assumption. apply app_nil_r.
Qed.

Lemma nothing_vision {A} c (r : res A) :
  is_execute c = false -> preserves nothing_dispatched (vision c r).
Proof.
  intros Hc w. split; [|reflexivity]. simpl.
  rewrite List.filter_app. simpl. rewrite Hc. apply app_nil_r.
Qed.

Lemma nothing_thinking_chunks chunks :
  preserves nothing_dispatched (thinking_chunks env chunks).
Proof.
  induction chunks as [|c rest IH]; simpl.
  - apply preserves_ret, nothing_refl.
  - apply preserves_bind; [apply nothing_trans|apply nothing_emit; discriminate|].
    intros _.
    apply preserves_bind;
      [apply nothing_trans|apply preserves_callback, nothing_refl|].
    intros _. exact IH.
Qed.

Lemma nothing_deciding {A} (call : list string * res A) :
  preserves nothing_dispatched (deciding env call).
Proof.
  apply preserves_bind; [apply nothing_trans|apply nothing_thinking_chunks|].
  intros _. apply preserves_lift, nothing_refl.
Qed.

Ltac nothing_step :=
  first
    [ apply nothing_update_state
    | apply nothing_emit; discriminate
    | apply preserves_callback, nothing_refl
    | apply preserves_read, nothing_refl
    | apply nothing_vision; reflexivity
    | apply nothing_deciding
    | apply preserves_ret, nothing_refl
    | apply preserves_bind; [apply nothing_trans| |intros] ].

Lemma nothing_perceive_and_decide :
  preserves nothing_dispatched (perceive_and_decide env).
Proof.
  unfold perceive_and_decide.
  repeat (nothing_step ||
          match goal with
          | |- preserves _ (match ?p with _ => _ end) => destruct p
          end).
Qed.
End Skip.

Section SameStep.
Context (env : DualEnv).

Lemma same_refl w : same_step w w.
Proof. reflexivity. Qed.

Lemma same_trans a b c : same_step a b -> same_step b c -> same_step a c.
Proof. unfold same_step. congruence. Qed.

Lemma same_update_state f : preserves same_step (_update_state f).
Proof. intros w. reflexivity. Qed.

Lemma same_emit t d m : preserves same_step (_emit_event t d m).
Proof. intros w. reflexivity. Qed.

Lemma same_vision {A} c (r : res A) : preserves same_step (vision c r).
Proof. intros w. reflexivity. Qed.

Lemma same_thinking_chunks chunks :
  preserves same_step (thinking_chunks env chunks).
Proof.
  induction chunks as [|c rest IH]; simpl.
  - apply preserves_ret, same_refl.
  - apply preserves_bind; [apply same_trans|apply same_emit|]. intros _.
    apply preserves_bind;
      [apply same_trans|apply preserves_callback, same_refl|].
    intros _. exact IH.
Qed.

Lemma same_deciding {A} (call : list string * res A) :
  preserves same_step (deciding env call).
Proof.
  apply preserves_bind; [apply same_trans|apply same_thinking_chunks|].
  intros _. apply preserves_lift, same_refl.
Qed.

Ltac same_step_tac :=
  first
    [ apply same_update_state
    | apply same_emit
    | apply preserves_callback, same_refl
    | apply preserves_read, same_refl
    | apply same_vision
    | apply same_deciding
    | apply preserves_ret, same_refl
    | apply preserves_bind; [apply same_trans| |intros] ].

Lemma same_step_body : preserves same_step (step_body env).
Proof.
  unfold step_body, perceive_and_decide, act.
  repeat (same_step_tac ||
          match goal with
          | |- preserves _ (match ?p with _ => _ end) => destruct p
          end).
Qed.

End SameStep.

Section DualFacts.
Context (env : DualEnv) (max_steps : Z).

Lemma finished_skips (w w1 : dworld) (shot : string) (desc : ScreenDescription)
    (d : Decision) :
  perceive_and_decide env w = (Ok (shot, desc, d), w1) -> finished d = true ->
  _execute_step env w
  = (Ok {| sr_step := step_count w1; sr_success := true; sr_finished := true;
           sr_decision := Some d; sr_screen_desc := Some desc;
           sr_execution := None; sr_error := None |}, w1) /\
  nothing_dispatched w w1.
Proof.
  intros Hp Hf. split.
  - unfold _execute_step, step_body, mbind, D_bind. rewrite Hp, Hf. reflexivity.
  - pose proof (nothing_perceive_and_decide env w) as H. now rewrite Hp in H.
Qed.

Lemma step_error_captured (w w1 : dworld) (e : exn) :
  step_body env w = (Raise e, w1) -> is_Exception e = true ->
  _execute_step env w
  = (Ok {| sr_step := step_count w; sr_success := false; sr_finished := false;
           sr_decision := None; sr_screen_desc := None; sr_execution := None;
           sr_error := Some (exn_msg e) |}, w1) /\
  step_count w1 = step_count w.
Proof.
  intros Hb He.
  pose proof (same_step_body env w) as Hs. rewrite Hb in Hs. simpl in Hs.
  unfold same_step in Hs.
  split; [|exact Hs]. unfold _execute_step. rewrite Hb, He, Hs. reflexivity.
Qed.

Lemma D_bind_run {A B} (m : D A) (f : A -> D B) (w : dworld) :
  (m ≫= f) w
  = match m w with
    | (Ok a, w') => f a w'
    | (Raise e, w') => (Raise e, w')
    end.
Proof. reflexivity. Qed.

Lemma run_loop_S (fuel : nat) (finished : bool) (last_message : string) :
  run_loop env max_steps (S fuel) finished last_message
  = (w ← read;
     if negb finished && (Z.of_nat (step_count w) <? max_steps)%Z then
       if stop_is_set env (step_count w) then
         mret (EarlyReturn {| rr_success := false;
                              rr_message := "任务被用户中断";
                              rr_steps := step_count w |})
       else
         (fun w => (Ok tt, set_count (S (step_count w)) w)) ;;
         step_result ← _execute_step env;
         if error_set (sr_error step_result) then
           callback (on_error (callbacks env))
             (default EmptyString (sr_error step_result)) ;;
           run_loop env max_steps fuel finished last_message
         else
           w ← read;
           callback (on_step_complete (callbacks env))
             (step_count w, sr_success step_result) ;;
           run_loop env max_steps fuel
             (if sr_finished step_result then true else finished)
             (if sr_finished step_result then
                match sr_decision step_result with
                | Some d => reasoning d
                | None => "任务完成"
                end
              else last_message)
     else mret (LoopDone finished last_message)).
Proof. reflexivity. Qed.

Lemma run_loop_after_error (fuel : nat) (last_message : string)
    (w w1 : dworld) (e : exn) :
  (Z.of_nat (step_count w) < max_steps)%Z ->
  stop_is_set env (step_count w) = false ->
  step_body env (set_count (S (step_count w)) w) = (Raise e, w1) ->
  is_Exception e = true ->
  callback_ok (on_error (callbacks env)) ->
  callback_ok (on_step_complete (callbacks env)) ->
  run_loop env max_steps (S fuel) false last_message w
  = run_loop env max_steps fuel false last_message w1.
Proof.
  intros Hlt Hstop Hb He Hcb1 Hcb2.
  destruct (step_error_captured _ _ _ Hb He) as [Hstep Hk].
  apply Z.ltb_lt in Hlt.
  rewrite run_loop_S, D_bind_run. unfold read at 1. cbv beta iota.
  rewrite Hlt, Hstop. cbn [negb andb].
  rewrite D_bind_run. cbv beta iota.
  rewrite D_bind_run, Hstep. cbv beta iota.
  cbn [sr_error sr_finished sr_decision sr_success error_set default].
  destruct (negb (String.eqb (exn_msg e) EmptyString)).
  - rewrite D_bind_run. specialize (Hcb1 (exn_msg e)).
    destruct (on_error (callbacks env)) as [f|]; simpl;
      [unfold lift; rewrite Hcb1|]; reflexivity.
  - rewrite D_bind_run. unfold read at 1. cbv beta iota.
    rewrite D_bind_run. specialize (Hcb2 (step_count w1, false)).
    destruct (on_step_complete (callbacks env)) as [f|]; simpl;
      [unfold lift; rewrite Hcb2|]; reflexivity.
Qed.

End DualFacts.

End DualProofs.

(** A run in which every step raises goes on, one counted step after the
    other, until the step bound ends the loop. *)
Lemma dual_failing_steps_reach_bound (env : DualModel.DualEnv) (max_steps : Z)
    (last_message : string) (n : nat) :
  (forall w, exists e w1,
      DualModel.step_body env w = (Raise e, w1) /\ is_Exception e = true) ->
  (forall k, DualModel.stop_is_set env k = false) ->
  callback_ok (DualModel.on_error (DualModel.callbacks env)) ->
  callback_ok (DualModel.on_step_complete (DualModel.callbacks env)) ->
  forall w,
    (Z.of_nat (DualModel.step_count w) + Z.of_nat n = max_steps)%Z ->
    exists w',
      DualModel.run_loop env max_steps n false last_message w
      = (Ok (DualModel.LoopDone false last_message), w') /\
      DualModel.step_count w' = (DualModel.step_count w + n)%nat.
Proof.
  intros Hfail Hstop Hcb1 Hcb2.
  induction n as [|n IH]; intros w Hmax.
  - exists w. split; [|lia]. simpl.
    unfold mbind, DualModel.D_bind, DualModel.read.
    replace (Z.of_nat (DualModel.step_count w) <? max_steps)%Z with false
      by (symmetry; apply Z.ltb_ge; lia).
    reflexivity.
  - destruct (Hfail (DualModel.set_count (S (DualModel.step_count w)) w))
      as (e & w1 & Hb & He).
    rewrite (run_loop_after_error env max_steps n last_message w w1 e)
      by (auto; lia).
    destruct (step_error_captured env _ _ _ Hb He) as [_ Hk]. simpl in Hk.
    destruct (IH w1) as (w' & Hr & Hk'); [lia|].
    exists w'. split; [exact Hr|lia].
Qed.

(** C8. Dual-model finished skip. When the observe and decide phases of a
    step deliver a Decision with [finished] set, the step returns there:
    its result reports [finished] and [success], carries no execution, and
    the state is the one the decision phase left, so that the vision model
    has received no [execute_decision] call and no [action_start] event
    was queued in this step. *)
Theorem dual_finished_skips_execution (env : DualModel.DualEnv)
    (w w1 : DualModel.dworld) (screenshot_base64 : string)
    (screen_desc : DualModel.ScreenDescription) (d : DualModel.Decision) :
  DualModel.perceive_and_decide env w = (Ok (screenshot_base64, screen_desc, d), w1) ->
  DualModel.finished d = true ->
  DualModel._execute_step env w
  = (Ok {| DualModel.sr_step := DualModel.step_count w1;
           DualModel.sr_success := true; DualModel.sr_finished := true;
           DualModel.sr_decision := Some d;
           DualModel.sr_screen_desc := Some screen_desc;
           DualModel.sr_execution := None; DualModel.sr_error := None |}, w1) /\
  nothing_dispatched w w1.
Proof. apply finished_skips. Qed.

(** On a decision model that declares the task finished in step 1. *)
Lemma dual_finished_skips_execution_witness :
  DualModel._execute_step DualScenario.finishing
    (DualModel.set_count 1 DualModel.fresh)
  = (Ok {| DualModel.sr_step :=
             DualModel.step_count
               (snd (DualModel.perceive_and_decide DualScenario.finishing
                       (DualModel.set_count 1 DualModel.fresh)));
           DualModel.sr_success := true; DualModel.sr_finished := true;
           DualModel.sr_decision := Some DualScenario.done_decision;
           DualModel.sr_screen_desc := Some DualScenario.screen;
           DualModel.sr_execution := None; DualModel.sr_error := None |},
     snd (DualModel.perceive_and_decide DualScenario.finishing
            (DualModel.set_count 1 DualModel.fresh))) /\
  nothing_dispatched (DualModel.set_count 1 DualModel.fresh)
    (snd (DualModel.perceive_and_decide DualScenario.finishing
            (DualModel.set_count 1 DualModel.fresh))).
Proof.
  refine (dual_finished_skips_execution DualScenario.finishing
            (DualModel.set_count 1 DualModel.fresh)
            (snd (DualModel.perceive_and_decide DualScenario.finishing
                    (DualModel.set_count 1 DualModel.fresh)))
            "IMG" DualScenario.screen DualScenario.done_decision _ _).
  - vm_compute. reflexivity.
  - reflexivity.
Defined.

(** ** The single-agent properties on concrete runs *)

(** The boundary on the scripted models that go back at every step. *)
Lemma max_steps_boundary_witness :
  (exists w' evs,
     run Scenario.passive
       (stream Scenario.never_finishing 3
          (impl := GLM.glm_agent Scenario.never_finishing) 3 "open settings")
       (start (init_agent "system prompt")) = (Returned tt, w') /\
     _step_count (agent_of w') = 3%nat /\
     _is_running (agent_of w') = false /\
     trace w' = evs ++ [EvDone (PStr "Max steps reached") 3 false] /\
     step_numbers evs = [1; 2; 3]%nat /\
     Forall ordinary evs) /\
  (exists w' evs,
     run Scenario.passive
       (stream Scenario.never_finishing 3
          (impl := Gemini.gemini_agent Scenario.never_finishing) 3
          "open settings")
       (start (init_agent "system prompt")) = (Returned tt, w') /\
     _step_count (agent_of w') = 3%nat /\
     _is_running (agent_of w') = false /\
     trace w' = evs ++ [EvDone (PStr "Max steps reached") 3 false] /\
     step_numbers evs = [1; 2; 3]%nat /\
     Forall ordinary evs).
Proof.
  assert (Hpassive : never_cancels Scenario.passive)
    by (intros n p; reflexivity).
  assert (Hdev : device_ok Scenario.never_finishing)
    by (intros k; eexists; reflexivity).
  destruct (max_steps_boundary Scenario.never_finishing Scenario.passive
              "system prompt" "open settings" Hpassive Hdev)
    as [Hglm Hgemini].
  split.
  - apply Hglm.
    + intros k ctx.
      exists [Delta (Some "go back"); Delta (Some "do(act");
              Delta (Some "ion=Back)")], (ActionMapper.do_action "Back" []).
      split; [reflexivity|]. split; vm_compute; reflexivity.
    + intros k a w h. eexists. split; reflexivity.
  - apply Hgemini.
    + intros k ctx.
      exists Scenario.back_call, [], (ActionMapper.do_action "Back" []).
      split; [reflexivity|]. split; vm_compute; reflexivity.
    + intros k a. eexists. split; reflexivity.
Defined.

(** ** The tool-call mapper on every call *)

Section MapperTotal.
Import ActionMapper MapperLogic.

Variable repr : pyval -> string.

Lemma require_int_cases (args : gmap string pyval) (key : string) :
  (exists z, _require_int repr args key = Ok z) \/
  (exists m, _require_int repr args key = Raise (Exn ValueError m)) \/
  (infinite_at args key /\
   exists m, _require_int repr args key = Raise (Exn OverflowError m)).
Proof.
  unfold _require_int, infinite_at.
  destruct (args !! key) as [[| | |f| | |]|]; eauto.
  destruct f; simpl; eauto 8.
Qed.

Lemma require_str_cases (args : gmap string pyval) (key : string) :
  (exists z, _require_str repr args key = Ok z) \/
  (exists m, _require_str repr args key = Raise (Exn ValueError m)).
Proof.
  unfold _require_str.
  destruct (args !! key) as [[| | |f| | |]|]; eauto.
Qed.

Lemma point_raises_well (args : gmap string pyval) (kx ky : string) :
  raises_well args (point repr args kx ky).
Proof.
  unfold point.
  destruct (require_int_cases args kx) as [[x ->]|[[m ->]|[Hi [m ->]]]]; simpl;
    eauto.
  destruct (require_int_cases args ky) as [[y ->]|[[m ->]|[Hi [m ->]]]]; simpl;
    eauto.
Qed.

Lemma do_action_metadata (action : string) (fields : list (string * pyval)) :
  do_action action fields !! "_metadata" = Some (PStr "do").
Proof. unfold do_action. apply lookup_insert_eq. Qed.

Lemma do_action_not_finish (action : string) (fields : list (string * pyval)) :
  is_finish (do_action action fields) = false.
Proof. unfold is_finish. now rewrite do_action_metadata. Qed.

Lemma build_action_well (tool_name : string) (args : gmap string pyval) :
  built_well args (_build_action repr tool_name args).
Proof.
  unfold _build_action.
  repeat match goal with
         | |- context [if String.eqb tool_name ?t then _ else _] =>
             destruct (String.eqb tool_name t)
         end;
    repeat match goal with
           | |- context [point repr args ?a ?b] =>
               let H := fresh in
               pose proof (point_raises_well args a b) as H;
               destruct (point repr args a b); simpl in H |- *
           | |- context [_require_str repr args ?a] =>
               let H := fresh in
               destruct (require_str_cases args a) as [[? H]|[? H]];
               rewrite H; simpl
           end;
    simpl; auto using do_action_metadata.
Qed.

End MapperTotal.

(** X1. Away from infinite numbers the mapper is total: whatever the tool name
    and the arguments, [tool_call_to_action] returns a [do] or a [finish]
    action, and when it raises, the exception is the [OverflowError] of
    [int(inf)] and some argument is an infinite float. *)
Theorem mapper_raises_only_on_infinity (repr : pyval -> string)
    (tool_name : string) (args : gmap string pyval) :
  match ActionMapper.tool_call_to_action repr tool_name args with
  | Ok a =>
      ActionMapper.is_finish a = true \/ a !! "_metadata" = Some (PStr "do")
  | Raise e =>
      exn_cls e = OverflowError /\
      exists key, MapperLogic.infinite_at args key
  end.
Proof.
  unfold ActionMapper.tool_call_to_action.
  destruct (String.eqb tool_name "finish"); [left; reflexivity|].
  pose proof (build_action_well repr tool_name args) as H.
  destruct (ActionMapper._build_action repr tool_name args) as [a|e];
    simpl in H; [exact H|].
  unfold ActionMapper.caught_by_mapper.
  destruct H as [H|[H Hi]]; rewrite H; simpl; auto.
Qed.

(** X2. A tool call whose argument text is not valid JSON is read with empty
    arguments.  The mapper then returns a finish action, which ends the
    run, for every tool name except [back], [home] and [wait], which are
    carried out as if nothing had happened. *)
Theorem undecodable_arguments_finish (repr : pyval -> string) (c : choice)
    (tool_call : tool_call_msg) (rest : list tool_call_msg) :
  msg_tool_calls c = tool_call :: rest ->
  tc_arguments tool_call = None ->
  exists a,
    ActionMapper.tool_call_to_action repr
      (snd (fst (Gemini.read_choice c))) (snd (Gemini.read_choice c)) = Ok a /\
    ActionMapper.is_finish a
    = negb (bool_decide (tc_name tool_call ∈ MapperLogic.argument_free)).
Proof.
  intros Hcalls Hargs. unfold Gemini.read_choice. rewrite Hcalls, Hargs.
  cbn [fst snd]. generalize (tc_name tool_call). intros name.
  unfold ActionMapper.tool_call_to_action, ActionMapper._build_action.
  repeat match goal with
         | |- context [if String.eqb name ?t then _ else _] =>
             let E := fresh "E" in
             destruct (String.eqb name t) eqn:E;
             [apply String.eqb_eq in E; subst name; eexists; split;
              [vm_compute; reflexivity|vm_compute; reflexivity]|
              apply String.eqb_neq in E]
         end.
  eexists. split; [reflexivity|].
  rewrite bool_decide_eq_false_2; [reflexivity|].
  unfold MapperLogic.argument_free.
  rewrite !elem_of_cons, elem_of_nil. intros [?|[?|[?|[]]]]; congruence.
Qed.

(** On a [tap] call with broken arguments, and on a [back] call. *)
Lemma undecodable_arguments_finish_witness :
  (exists a,
     ActionMapper.tool_call_to_action (fun _ => "?") "tap" ∅ = Ok a /\
     ActionMapper.is_finish a = true) /\
  (exists a,
     ActionMapper.tool_call_to_action (fun _ => "?") "back" ∅ = Ok a /\
     ActionMapper.is_finish a = false).
Proof.
  split.
  - exact (undecodable_arguments_finish (fun _ => "?")
             {| msg_content := None;
                msg_tool_calls := [ {| tc_name := "tap"; tc_arguments := None |} ] |}
             {| tc_name := "tap"; tc_arguments := None |} [] eq_refl eq_refl).
  - exact (undecodable_arguments_finish (fun _ => "?")
             {| msg_content := None;
                msg_tool_calls := [ {| tc_name := "back"; tc_arguments := None |} ] |}
             {| tc_name := "back"; tc_arguments := None |} [] eq_refl eq_refl).
Defined.

(** ** The mapper against the schemas of [DEVICE_TOOLS] *)

Section SchemaFacts.
Import ActionMapper MapperLogic.

Variable repr : pyval -> string.

Lemma typed_int (t : Tools.tool) (args : gmap string pyval) (key : string)
 :
  well_typed_call t args ->
  key ∈ default [] (Tools.required t) ->
  (exists p, (key, p) ∈ Tools.properties t /\ Tools.prop_type p = "integer") ->
  exists z, args !! key = Some (PInt z).
Proof.
  intros [Hreq Hty] Hk (p & Hp & Hint). destruct (Hreq key Hk) as [v Hv].
  specialize (Hty key p v Hp Hv). rewrite Hint in Hty.
  destruct v; try discriminate. eauto.
Qed.

Lemma typed_str (t : Tools.tool) (args : gmap string pyval) (key : string)
 :
  well_typed_call t args ->
  key ∈ default [] (Tools.required t) ->
  (exists p, (key, p) ∈ Tools.properties t /\ Tools.prop_type p = "string") ->
  exists s, args !! key = Some (PStr s).
Proof.
  intros [Hreq Hty] Hk (p & Hp & Hstr). destruct (Hreq key Hk) as [v Hv].
  specialize (Hty key p v Hp Hv). rewrite Hstr in Hty.
  destruct v; try discriminate. eauto.
Qed.

Lemma require_int_int (args : gmap string pyval) (key : string) (z : Z) :
  args !! key = Some (PInt z) -> _require_int repr args key = Ok z.
Proof. unfold _require_int. now intros ->. Qed.

Lemma require_str_str (args : gmap string pyval) (key s : string) :
  args !! key = Some (PStr s) -> _require_str repr args key = Ok s.
Proof. unfold _require_str. now intros ->. Qed.

End SchemaFacts.

Ltac find_key :=
  repeat first [apply list_elem_of_here | apply list_elem_of_further].

(** X3. The schemas and the mapper agree.  For every tool of [DEVICE_TOOLS]
    and every argument dict that supplies the parameters the schema
    requires, with the types it declares, [tool_call_to_action] returns an
    action, and that action is a finish action for the tool [finish] only:
    no call the schema allows is turned into an "Invalid tool call" or an
    "Unknown tool".  The bounds 0 and 1000 of the schema play no part. *)
Theorem well_typed_calls_are_mapped (repr : pyval -> string) (t : Tools.tool)
    (args : gmap string pyval) :
  t ∈ Tools.DEVICE_TOOLS ->
  MapperLogic.well_typed_call t args ->
  exists a,
    ActionMapper.tool_call_to_action repr (Tools.name t) args = Ok a /\
    ActionMapper.is_finish a = String.eqb (Tools.name t) "finish".
Proof.
  intros Hin Hty. unfold Tools.DEVICE_TOOLS in Hin.
  repeat (apply elem_of_cons in Hin as [->|Hin]); [..|now apply elem_of_nil in Hin];
    cbn [Tools.name];
    unfold ActionMapper.tool_call_to_action, ActionMapper._build_action,
      ActionMapper.point;
    cbn [String.eqb Ascii.eqb Bool.eqb andb];
    repeat match goal with
           | |- context [ActionMapper._require_int repr args ?k] =>
               let z := fresh "z" in
               let H := fresh "H" in
               destruct (typed_int _ args k Hty) as [z H];
               [ cbn; find_key
               | eexists; split; [cbn; find_key|reflexivity] | ];
               rewrite (require_int_int repr args k z H); cbn [rbind]
           | |- context [ActionMapper._require_str repr args ?k] =>
               let z := fresh "z" in
               let H := fresh "H" in
               destruct (typed_str _ args k Hty) as [z H];
               [ cbn; find_key
               | eexists; split; [cbn; find_key|reflexivity] | ];
               rewrite (require_str_str repr args k z H); cbn [rbind]
           end;
    eexists; (split; [reflexivity|]);
    first [apply do_action_not_finish | reflexivity].
Qed.

(** On a tap far outside the 0-1000 scale of the schema. *)
Lemma well_typed_calls_are_mapped_witness :
  exists a,
    ActionMapper.tool_call_to_action (fun _ => "?") "tap"
      (<["x" := PInt 5000]> (<["y" := PInt (-3)]> ∅)) = Ok a /\
    ActionMapper.is_finish a = false.
Proof.
  refine (well_typed_calls_are_mapped (fun _ => "?")
            {| Tools.name := "tap";
               Tools.description :=
                 "Tap at a point on the screen. Coordinates are relative (0-1000 scale).";
               Tools.properties :=
                 [("x", {| Tools.prop_type := "integer";
                           Tools.prop_description := "X coordinate (0-1000)";
                           Tools.minimum := Some 0%Z;
                           Tools.maximum := Some 1000%Z |});
                  ("y", {| Tools.prop_type := "integer";
                           Tools.prop_description := "Y coordinate (0-1000)";
                           Tools.minimum := Some 0%Z;
                           Tools.maximum := Some 1000%Z |})];
               Tools.required := Some ["x"; "y"] |}
            (<["x" := PInt 5000]> (<["y" := PInt (-3)]> ∅)) _ _).
  - apply list_elem_of_here.
  - split.
    + intros key Hk. cbn in Hk.
      apply elem_of_cons in Hk as [->|Hk]; [eexists; reflexivity|].
      apply elem_of_cons in Hk as [->|Hk]; [eexists; reflexivity|].
      now apply elem_of_nil in Hk.
    + intros key p v Hp Hv. cbn in Hp.
      apply elem_of_cons in Hp as [[= -> ->]|Hp];
        [vm_compute in Hv; injection Hv as <-; reflexivity|].
      apply elem_of_cons in Hp as [[= -> ->]|Hp];
        [vm_compute in Hv; injection Hv as <-; reflexivity|].
      now apply elem_of_nil in Hp.
Defined.

(** ** Numbers given as floats *)

Lemma trunc_finite_floor (s : bool) (m : positive) (e : Z) :
  let z := trunc_finite s m e in
  let '(n, d) := FloatLogic.magnitude m e in
  (Z.abs z * d <= n < (Z.abs z + 1) * d)%Z /\
  (if s then z <= 0 else 0 <= z)%Z.
Proof.
  unfold trunc_finite, FloatLogic.magnitude.
  destruct (0 <=? e)%Z eqn:He.
  - apply Z.leb_le in He.
    rewrite Z.shiftl_mul_pow2 by lia.
    replace (Z.max 0 e) with e by lia. replace (Z.max 0 (- e)) with 0%Z by lia.
    assert (0 < 2 ^ e)%Z by (apply Z.pow_pos_nonneg; lia).
    destruct s; simpl Z.pow; split; try nia.
  - apply Z.leb_gt in He.
    rewrite Z.shiftr_div_pow2 by lia.
    replace (Z.max 0 e) with 0%Z by lia. replace (Z.max 0 (- e)) with (- e)%Z by lia.
    assert (Hd : (0 < 2 ^ (- e))%Z) by (apply Z.pow_pos_nonneg; lia).
    pose proof (Z.div_pos (Z.pos m) (2 ^ (- e)) ltac:(lia) Hd) as Hq.
    pose proof (Z.mul_div_le (Z.pos m) (2 ^ (- e)) Hd) as Hlo.
    pose proof (Z.mul_succ_div_gt (Z.pos m) (2 ^ (- e)) Hd) as Hhi.
    simpl Z.pow. rewrite Z.mul_1_r.
    destruct s; split; lia.
Qed.

(** X4. A coordinate given as a finite float is cut toward zero, for every
    float: the integer [_require_int] returns has the sign of the float,
    and its magnitude is the largest integer that does not exceed the
    magnitude of the float.  It is never rounded up and never rejected. *)
Theorem float_argument_truncated (repr : pyval -> string)
    (args : gmap string pyval) (key : string) (s : bool) (m : positive)
    (e : Z) :
  args !! key = Some (PFloat (S754_finite s m e)) ->
  exists z,
    ActionMapper._require_int repr args key = Ok z /\
    (Z.abs z * snd (FloatLogic.magnitude m e) <= fst (FloatLogic.magnitude m e)
     < (Z.abs z + 1) * snd (FloatLogic.magnitude m e))%Z /\
    (if s then z <= 0 else 0 <= z)%Z.
Proof.
  intros H. exists (trunc_finite s m e).
  unfold ActionMapper._require_int. rewrite H. split; [reflexivity|].
  pose proof (trunc_finite_floor s m e) as Hz.
  destruct (FloatLogic.magnitude m e) as [n d]. exact Hz.
Qed.

(** On -500.7, which is cut to -500. *)
Lemma float_argument_truncated_witness :
  exists z,
    ActionMapper._require_int (fun _ => "?")
      (<["x" := PFloat (S754_finite true 8808407552439091 (-44))]> ∅) "x"
    = Ok z /\
    (Z.abs z * snd (FloatLogic.magnitude 8808407552439091 (-44))
     <= fst (FloatLogic.magnitude 8808407552439091 (-44))
     < (Z.abs z + 1) * snd (FloatLogic.magnitude 8808407552439091 (-44)))%Z /\
    (z <= 0)%Z.
Proof.
  exact (float_argument_truncated (fun _ => "?")
           (<["x" := PFloat (S754_finite true 8808407552439091 (-44))]> ∅)
           "x" true 8808407552439091 (-44) eq_refl).
Defined.

(** ** Splitting at a marker *)

Section SplitFacts.
Import Text.

Lemma starts_with_drop (m s : string) :
  starts_with m s = true -> s = m +:+ drop_str (String.length m) s.
Proof.
  revert s. induction m as [|c m IH]; intros s H; [reflexivity|].
  destruct s as [|d s]; [discriminate|].
  simpl in H. apply andb_prop in H as [Hc Hm]. apply Ascii.eqb_eq in Hc as ->.
  change (String d s = String d (m +:+ drop_str (String.length m) s)).
  f_equal. now apply IH.
Qed.

Lemma split_once_app (marker s before after : string) :
  split_once marker s = Some (before, after) ->
  s = before +:+ marker +:+ after.
Proof.
  revert before. induction s as [|c s IH]; intros before; simpl.
  - destruct (starts_with marker EmptyString) eqn:E; [|discriminate].
    intros [= <- <-]. now apply starts_with_drop in E.
  - destruct (starts_with marker (String c s)) eqn:E.
    + intros [= <- <-]. now apply starts_with_drop in E.
    + destruct (split_once marker s) as [[b a]|]; [|discriminate].
      intros [= <- <-].
      change (String c s = String c (b +:+ marker +:+ a)).
      f_equal. now apply IH.
Qed.

(** The split is at the first occurrence: no other way of cutting the
    text around the marker has a shorter left part. *)
Lemma split_once_first (marker s before after : string) :
  split_once marker s = Some (before, after) ->
  forall b a, s = b +:+ marker +:+ a ->
    (String.length before <= String.length b)%nat.
Proof.
  revert before. induction s as [|c s IH]; intros before; simpl.
  - destruct (starts_with marker EmptyString); [|discriminate].
    intros [= <- <-] b a _. simpl. lia.
  - destruct (starts_with marker (String c s)) eqn:E.
    + intros [= <- <-] b a _. simpl. lia.
    + destruct (split_once marker s) as [[b0 a0]|] eqn:Es; [|discriminate].
      intros [= <- <-] b a Hs.
      destruct b as [|d b].
      * change (String c s = marker +:+ a) in Hs.
        rewrite Hs, starts_with_app in E. discriminate.
      * change (String c s = String d (b +:+ marker +:+ a)) in Hs.
        injection Hs as -> ->. simpl.
        specialize (IH b0 eq_refl b a eq_refl). lia.
Qed.

End SplitFacts.

(** X5. With an action marker in the response, [_parse_raw_response] cuts at
    the first occurrence of the marker: the thinking is the text before
    it, stripped, and the action string is everything from the marker on,
    untouched.  The finish marker is looked for first and wins wherever a
    [do] marker stands; the [do] marker is used when there is no finish
    marker. *)
Theorem parse_splits_at_first_marker (marker content : string) :
  StreamLogic.splits_at marker content ->
  exists before after,
    content = before +:+ marker +:+ after /\
    (forall b a, content = b +:+ marker +:+ a ->
       (String.length before <= String.length b)%nat) /\
    GLMParse._parse_raw_response content
    = (Text.strip before, marker +:+ after).
Proof.
  intros [[-> Hf]|(-> & Hf & Hd)].
  - destruct (split_once_contains _ _ Hf) as (before & after & Hs).
    exists before, after. split; [now apply split_once_app|].
    split; [now apply split_once_first with (after := after)|].
    unfold GLMParse._parse_raw_response. now rewrite Hf, Hs.
  - destruct (split_once_contains _ _ Hd) as (before & after & Hs).
    exists before, after. split; [now apply split_once_app|].
    split; [now apply split_once_first with (after := after)|].
    unfold GLMParse._parse_raw_response. now rewrite Hf, Hd, Hs.
Qed.

(** On a response that holds a [do] marker before its finish marker. *)
Lemma parse_splits_at_first_marker_witness :
  exists before after,
    "ok do(action=Back) finish(message=done)"
    = before +:+ GLMParse.finish_marker +:+ after /\
    (forall b a,
       "ok do(action=Back) finish(message=done)"
       = b +:+ GLMParse.finish_marker +:+ a ->
       (String.length before <= String.length b)%nat) /\
    GLMParse._parse_raw_response "ok do(action=Back) finish(message=done)"
    = (Text.strip before, GLMParse.finish_marker +:+ after).
Proof.
  exact (parse_splits_at_first_marker GLMParse.finish_marker
           "ok do(action=Back) finish(message=done)"
           (or_introl (conj eq_refl eq_refl))).
Defined.

(** ** The thinking text of a streamed response *)

Section ThinkingFacts.
Import Text GLMParse GLM StreamLogic StreamInvariant.

Context (client : nat -> suspension -> bool)
  (Hpassive : never_cancels client).

Lemma concat_app_one (parts : list string) (x : string) :
  String.concat EmptyString (parts ++ [x])
  = String.concat EmptyString parts +:+ x.
Proof.
  induction parts as [|p parts IH]; [reflexivity|].
  destruct parts as [|q parts].
  - simpl. reflexivity.
  - change (p +:+ EmptyString +:+ String.concat EmptyString ((q :: parts) ++ [x])
            = (p +:+ EmptyString +:+ String.concat EmptyString (q :: parts)) +:+ x).
    rewrite IH. now rewrite !str_app_assoc.
Qed.

Lemma starts_with_app_l (m s t : string) :
  starts_with m s = true -> starts_with m (s +:+ t) = true.
Proof.
  revert s. induction m as [|c m IH]; intros s H; [reflexivity|].
  destruct s as [|d s]; [discriminate|].
  simpl in H. apply andb_prop in H as [Hc Hm].
  change (Ascii.eqb c d && starts_with m (s +:+ t) = true).
  rewrite Hc, (IH _ Hm). reflexivity.
Qed.

Lemma starts_with_marker_app (rest t : string) :
  starts_with_marker rest = true -> starts_with_marker (rest +:+ t) = true.
Proof.
  unfold starts_with_marker, action_markers. cbn [existsb].
  rewrite !orb_false_r. intros H. apply orb_prop in H as [H|H];
    rewrite (starts_with_app_l _ _ t H); [reflexivity|apply orb_true_r].
Qed.

Lemma find_marker_found (buffer marker : string) :
  find_marker buffer = Some marker ->
  contains marker buffer = true /\
  forall after, starts_with_marker (marker +:+ after) = true.
Proof.
  unfold find_marker, action_markers. cbn [List.find].
  destruct (contains finish_marker buffer) eqn:Ef.
  - intros [= <-]. split; [exact Ef|]. intros after.
    unfold starts_with_marker, action_markers. cbn [existsb].
    now rewrite starts_with_app.
  - destruct (contains do_marker buffer) eqn:Ed; [|discriminate].
    intros [= <-]. split; [exact Ed|]. intros after.
    unfold starts_with_marker, action_markers. cbn [existsb].
    rewrite (starts_with_app do_marker). now rewrite orb_true_r.
Qed.

Lemma withheld_empty : withheld EmptyString.
Proof. split; [reflexivity|now left]. Qed.

Lemma length_zero_empty (s : string) :
  (0 <? String.length s)%nat = false -> s = EmptyString.
Proof. destruct s; [reflexivity|discriminate]. Qed.

Lemma run_glm_chunks_split (chunks : list chunk) :
  forall (buffer : string) (phase : bool) (parts : list string) (raw : string)
         (w : world),
    _cancel_event (agent_of w) = false ->
    tracks phase parts buffer raw ->
    exists parts' w',
      run client
        (for_each
           (try_finally (stream_chunks chunks None buffer phase)
              (Await (Ret tt)))
           (parts, raw) collect_chunk) w
      = (Returned (parts', raw +:+ raw_text chunks), w') /\
      exists rest,
        raw +:+ raw_text chunks = String.concat EmptyString parts' +:+ rest /\
        (starts_with_marker rest = true \/ withheld rest).
Proof.
  induction chunks as [|c rest IH]; intros buffer phase parts raw w Hc Htr.
  - simpl. rewrite str_app_nil_r.
    exists parts, (suspend client AtAwait (suspend client AtAwait w)).
    split; [reflexivity|].
    destruct phase; simpl in Htr.
    + destruct Htr as (r & Hr & Hm). eauto.
    + destruct Htr as [Hr Hw]. eauto.
  - assert (Hnext : forall buffer phase parts raw0 w0,
              agent_of w0 = agent_of w ->
              tracks phase parts buffer raw0 ->
              raw0 +:+ raw_text rest = raw +:+ raw_text (c :: rest) ->
              exists parts' w',
                run client
                  (for_each
                     (try_finally (stream_chunks rest None buffer phase)
                        (Await (Ret tt)))
                     (parts, raw0) collect_chunk) w0
                = (Returned (parts', raw +:+ raw_text (c :: rest)), w') /\
                exists rest0,
                  raw +:+ raw_text (c :: rest)
                  = String.concat EmptyString parts' +:+ rest0 /\
                  (starts_with_marker rest0 = true \/ withheld rest0)).
    { intros b ph ps raw0 w0 Ha Ht Hraw.
      destruct (IH b ph ps raw0 w0) as (p' & w' & Hr & Hrest);
        [now rewrite Ha|exact Ht|].
      exists p', w'. rewrite <- Hraw. split; [exact Hr|exact Hrest]. }
    simpl. rewrite agent_suspend_passive by assumption. rewrite Hc.
    destruct c as [|[text|]].
    + apply Hnext;
        [ now rewrite ?agent_suspend_passive by assumption
        | exact Htr | reflexivity ].
    + simpl. rewrite ?agent_suspend_passive by assumption. rewrite Hc.
      destruct phase.
      * apply Hnext;
          [ now rewrite ?agent_suspend_passive by assumption
          | | simpl; apply str_app_assoc ].
        simpl in Htr |- *. destruct Htr as (r & -> & Hm).
        exists (r +:+ text). split; [now rewrite str_app_assoc|].
        now apply starts_with_marker_app.
      * simpl in Htr. destruct Htr as [-> Hw].
        destruct (find_marker (buffer +:+ text)) as [marker|] eqn:Em.
        -- simpl. rewrite ?agent_suspend_passive by assumption. rewrite Hc.
           simpl.
           destruct (find_marker_found _ _ Em) as [Hin Hstart].
           destruct (split_once_contains _ _ Hin) as (before & after & Hs).
           rewrite Hs.
           apply Hnext;
             [ now rewrite ?agent_suspend_passive by assumption
             | | simpl; apply str_app_assoc ].
           simpl. exists (marker +:+ after). split; [|apply Hstart].
           rewrite concat_app_one, !str_app_assoc. f_equal.
           now apply split_once_app.
        -- destruct (negb (is_potential_marker (buffer +:+ text))
                     && (0 <? String.length (buffer +:+ text))%nat) eqn:Eflush.
           ++ simpl. rewrite ?agent_suspend_passive by assumption. rewrite Hc.
              simpl.
              apply Hnext;
                [ now rewrite ?agent_suspend_passive by assumption
                | | simpl; apply str_app_assoc ].
              simpl. split; [|apply withheld_empty].
              now rewrite concat_app_one, !str_app_assoc, str_app_nil_r.
           ++ simpl.
              apply Hnext;
                [ now rewrite ?agent_suspend_passive by assumption
                | | simpl; apply str_app_assoc ].
              simpl. split; [now rewrite str_app_assoc|].
              split; [exact Em|].
              apply andb_false_iff in Eflush as [E|E].
              ** right. now apply negb_false_iff in E.
              ** left. now apply length_zero_empty.
    + apply Hnext;
        [ now rewrite ?agent_suspend_passive by assumption
        | exact Htr | reflexivity ].
Qed.

End ThinkingFacts.

(** X6. The thinking text a step of the DSL agent collects is a prefix of the
    raw response, and what it leaves out is told by the markers: for a
    stream that ends normally and a consumer that never cancels, the raw
    content is the joined thinking chunks followed by a rest that either
    begins with an action marker, or holds no marker and is empty or ends
    like the start of one.  Text that ends like the start of a marker is
    thus never shown as thinking when the stream ends there. *)
Theorem thinking_is_prefix_of_raw (env : Env)
    (client : nat -> suspension -> bool) (k : nat) (messages : list turn)
    (chunks : list chunk) (w : world) :
  never_cancels client ->
  _cancel_event (agent_of w) = false ->
  openai_stream env k messages = Ok (chunks, None) ->
  exists parts w',
    run client
      (for_each (GLM._stream_openai env k messages) (@nil string, EmptyString)
         GLM.collect_chunk) w
    = (Returned (parts, raw_text chunks), w') /\
    exists rest,
      raw_text chunks = String.concat EmptyString parts +:+ rest /\
      (StreamLogic.starts_with_marker rest = true \/ StreamLogic.withheld rest).
Proof.
  intros Hpassive Hc Hstream.
  unfold GLM._stream_openai. rewrite Hstream.
  destruct (run_glm_chunks_split client Hpassive chunks EmptyString false []
              EmptyString (suspend client AtAwait w))
    as (parts & w' & Hr & Hrest).
  { now rewrite agent_suspend_passive. }
  { split; [reflexivity|apply withheld_empty]. }
  exists parts, w'. split; [exact Hr|exact Hrest].
Qed.

(** On the scripted stream [go back], [do(act], [ion=Back)]. *)
Lemma thinking_is_prefix_of_raw_witness :
  exists parts w',
    run Scenario.passive
      (for_each (GLM._stream_openai Scenario.never_finishing 1 [])
         (@nil string, EmptyString) GLM.collect_chunk)
      (start (init_agent "system prompt"))
    = (Returned
         (parts,
          raw_text [Delta (Some "go back"); Delta (Some "do(act");
                    Delta (Some "ion=Back)")]), w') /\
    exists rest,
      raw_text [Delta (Some "go back"); Delta (Some "do(act");
                Delta (Some "ion=Back)")]
      = String.concat EmptyString parts +:+ rest /\
      (StreamLogic.starts_with_marker rest = true \/ StreamLogic.withheld rest).
Proof.
  exact (thinking_is_prefix_of_raw Scenario.never_finishing Scenario.passive 1
           [] [Delta (Some "go back"); Delta (Some "do(act");
               Delta (Some "ion=Back)")]
           (start (init_agent "system prompt"))
           (fun _ _ => eq_refl) eq_refl eq_refl).
Defined.

(** ** Invariants of the agent's state along a generator *)

Section KeepsRules.
Import StepLogic.

Context {Y : Type} (Inv : agent -> Prop) (P : Y -> Prop).

Lemma keeps_bind {A B} (Q : A -> Prop) (R : B -> Prop) (g : Gen Y A)
    (f : A -> Gen Y B) :
  keeps Inv P Q g -> (forall a, Q a -> keeps Inv P R (f a)) ->
  keeps Inv P R (g ≫= f).
Proof.
  intros Hg Hf. unfold mbind, gen_bind.
  induction g as [a|e|y k IH|k IH|k IH|s k IH|]; simpl in *; auto.
  - destruct Hg. split; auto.
  - destruct Hg. split; auto.
Qed.

Lemma keeps_weaken {A} (Q Q' : A -> Prop) (g : Gen Y A) :
  keeps Inv P Q g -> (forall a, Q a -> Q' a) -> keeps Inv P Q' g.
Proof.
  intros Hg HQ. induction g as [a|e|y k IH|k IH|k IH|s k IH|]; simpl in *; auto.
  - destruct Hg. split; auto.
  - destruct Hg. split; auto.
Qed.

Lemma keeps_attempt {A} (Q : A -> Prop) (g : Gen Y A) :
  keeps Inv P Q g ->
  keeps Inv P (fun r => match r with Ok a => Q a | Raise _ => True end)
    (attempt g).
Proof.
  intros Hg. induction g as [a|e|y k IH|k IH|k IH|s k IH|]; simpl in *; auto.
  - destruct Hg. split; auto.
  - destruct Hg. split; auto.
Qed.

Lemma keeps_for_each {Y1 B} (g : Gen Y1 unit) (acc : B)
    (body : B -> Y1 -> Gen Y B) :
  keeps Inv (fun _ => True) (fun _ => True) g ->
  (forall acc y, keeps Inv P (fun _ => True) (body acc y)) ->
  keeps Inv P (fun _ => True) (for_each g acc body).
Proof.
  intros Hg Hbody. revert acc.
  induction g as [a|e|y k IH|k IH|k IH|s k IH|]; intros acc; simpl in *; auto.
  - destruct Hg as [_ Hk].
    apply (keeps_bind (fun _ => True)); auto.
  - destruct Hg. split; auto.
Qed.

Lemma keeps_get : keeps Inv P Inv get.
Proof. simpl. auto. Qed.

Lemma keeps_modify (f : agent -> agent) :
  (forall s, Inv s -> Inv (f s)) -> keeps Inv P (fun _ => True) (modify f).
Proof. simpl. auto. Qed.

Lemma keeps_yield (y : Y) : P y -> keeps Inv P (fun _ => True) (yield y).
Proof. simpl. auto. Qed.

Lemma keeps_await {A} (r : res A) : keeps Inv P (fun _ => True) (await r).
Proof. destruct r; simpl; auto. Qed.

Lemma keeps_try_finally {A} (g : Gen Y A) (fin : Gen Y unit) :
  keeps Inv P (fun _ => True) g -> keeps Inv P (fun _ => True) fin ->
  keeps Inv P (fun _ => True) (try_finally g fin).
Proof.
  intros Hg Hfin. unfold try_finally.
  eapply keeps_bind; [apply keeps_attempt, Hg|]. intros r _.
  eapply keeps_bind; [apply Hfin|]. intros _ _. destruct r; simpl; auto.
Qed.

End KeepsRules.

Section KeepsStep.
Import StepLogic.

Context {Y : Type} (k : nat) (P : Y -> Prop).

Lemma keeps_append_turn (t : turn) :
  keeps (at_step k) P (fun _ => True) (GLM.append_turn t).
Proof. apply keeps_modify. auto. Qed.

Lemma keeps_strip_last_image :
  keeps (at_step k) P (fun _ => True) GLM.strip_last_image.
Proof.
  simpl. intros s Hs. destruct (_context s); simpl; auto.
Qed.

Lemma keeps_observe (R : event -> Prop) (env : Env) (i : nat) :
  keeps (at_step k) R (fun _ => True) (observe env i).
Proof.
  unfold observe.
  eapply keeps_bind; [apply keeps_await|]. intros shot _.
  eapply keeps_bind; [apply keeps_await|]. intros app _. exact I.
Qed.

Lemma keeps_stream_chunks (Inv : agent -> Prop) (chunks : list chunk)
    (ending : option exn) :
  forall buffer phase,
    keeps Inv (fun _ : GLM.chunk_data => True) (fun _ => True)
      (GLM.stream_chunks chunks ending buffer phase).
Proof.
  induction chunks as [|c rest IH]; intros buffer phase; simpl.
  - destruct ending; exact I.
  - intros s _. destruct (_cancel_event s); [exact I|].
    destruct c as [|[text|]]; try apply IH.
    simpl. split; [exact I|].
    destruct phase; [apply IH|].
    destruct (GLM.find_marker _).
    + simpl. split; [exact I|]. apply IH.
    + destruct (negb _ && _); [simpl; split; [exact I|]|]; apply IH.
Qed.

Lemma keeps_stream_openai (Inv : agent -> Prop) (env : Env) (i : nat)
    (messages : list turn) :
  keeps Inv (fun _ : GLM.chunk_data => True) (fun _ => True)
    (GLM._stream_openai env i messages).
Proof.
  unfold GLM._stream_openai.
  eapply keeps_bind; [apply keeps_await|]. intros [chunks ending] _.
  apply keeps_try_finally; [apply keeps_stream_chunks|exact I].
Qed.

End KeepsStep.

(** ** The events of one step *)

Section NumberedRules.
Import StepLogic.

Context (k : nat).

Lemma numbered_bind {A B} (Q : A -> bool -> Prop) (R : B -> bool -> Prop)
    (stepped : bool) (g : Gen event A) (f : A -> Gen event B) :
  numbered k Q stepped g ->
  (forall a b, Q a b -> numbered k R b (f a)) ->
  numbered k R stepped (g ≫= f).
Proof.
  intros Hg Hf. unfold mbind, gen_bind. revert stepped Hg.
  induction g as [a|e|y c IH|c IH|c IH|s c IH|]; intros stepped Hg;
    simpl in *; auto.
  - destruct y; auto.
    destruct Hg as (Hd & Hs & Hc). auto.
  - destruct Hg. split; auto.
Qed.

Lemma numbered_weaken {A} (Q Q' : A -> bool -> Prop) (stepped : bool)
    (g : Gen event A) :
  numbered k Q stepped g -> (forall a b, Q a b -> Q' a b) ->
  numbered k Q' stepped g.
Proof.
  intros Hg HQ. revert stepped Hg.
  induction g as [a|e|y c IH|c IH|c IH|s c IH|]; intros stepped Hg;
    simpl in *; auto.
  - destruct y; auto.
    destruct Hg as (Hd & Hs & Hc). auto.
  - destruct Hg. split; auto.
Qed.

Lemma numbered_of_keeps {A} (Q : A -> Prop) (stepped : bool)
    (g : Gen event A) :
  keeps (at_step k) silent Q g ->
  numbered k (fun a b => Q a /\ b = stepped) stepped g.
Proof.
  intros Hg. induction g as [a|e|y c IH|c IH|c IH|s c IH|]; simpl in *; auto.
  - destruct Hg as [Hy Hc]. destruct y; simpl in Hy; try contradiction; auto.
  - destruct Hg. split; auto.
Qed.

Lemma numbered_step_event (d : step_data) :
  ev_step d = k ->
  numbered k (fun (_ : unit) b => b = true) false (yield (EvStep d)).
Proof. simpl. auto. Qed.

Lemma numbered_failure (what : string) (e : exn) :
  numbered k (fun (_ : unit) b => b = true) false
    (if is_Exception e
     then yield (EvError (what +:+ exn_msg e)) ;;
          yield (GLM.failed_step k (what +:+ exn_msg e))
     else Throw e).
Proof. destruct (is_Exception e); simpl; auto. Qed.

Lemma enters_step_intro (rest : Gen event unit) :
  (forall i, numbered i (fun _ b => b = true) false rest) ->
  enters_step (modify (fun s => set_step_count (S (_step_count s)) s) ;; rest).
Proof. intros H s. simpl. split; [reflexivity|apply H]. Qed.

End NumberedRules.

Section AgentSteps.
Import StepLogic.

Context (env : Env).

Lemma glm_enters_step : enters_step (GLM.execute_step env).
Proof.
  unfold GLM.execute_step. apply enters_step_intro. intros k.
  eapply numbered_bind; [apply numbered_of_keeps, keeps_get|].
  intros s b [Hs ->]. unfold at_step in Hs. cbv zeta. rewrite Hs. clear s Hs.
  eapply numbered_bind;
    [apply numbered_of_keeps, keeps_attempt, keeps_observe|].
  intros [[shot app]|e] b [_ ->]; [|apply numbered_failure].
  eapply numbered_bind; [apply numbered_of_keeps, keeps_append_turn|].
  intros _ b [_ ->].
  eapply numbered_bind; [apply numbered_of_keeps, keeps_get|].
  intros s1 b [_ ->].
  eapply numbered_bind.
  { apply numbered_of_keeps, keeps_attempt, keeps_for_each.
    - apply keeps_stream_openai.
    - intros [parts raw] cd. unfold GLM.collect_chunk.
      eapply keeps_bind; [apply keeps_get|]. intros s2 _.
      destruct (_cancel_event s2); [exact I|].
      destruct cd; simpl; auto. }
  intros [[parts raw]|e] b [_ ->]; [|apply numbered_failure].
  eapply numbered_bind with (Q := fun _ b => b = false).
  { destruct (parse env _) as [a0|e]; [reflexivity|].
    destruct (exn_cls e); simpl; auto. }
  intros action b ->.
  eapply numbered_bind;
    [apply numbered_of_keeps, keeps_attempt, keeps_await|].
  intros x b [_ ->].
  eapply numbered_bind with (Q := fun _ b => b = false).
  { destruct x as [r|e]; [reflexivity|]. destruct (is_Exception e); simpl; auto. }
  intros result b ->.
  eapply numbered_bind; [apply numbered_of_keeps, keeps_strip_last_image|].
  intros _ b [_ ->].
  eapply numbered_bind; [apply numbered_of_keeps, keeps_append_turn|].
  intros _ b [_ ->].
  apply numbered_step_event. reflexivity.
Qed.

Lemma gemini_enters_step : enters_step (Gemini.execute_step env).
Proof.
  unfold Gemini.execute_step. apply enters_step_intro. intros k.
  eapply numbered_bind; [apply numbered_of_keeps, keeps_get|].
  intros s b [Hs ->]. unfold at_step in Hs. cbv zeta. rewrite Hs. clear s Hs.
  eapply numbered_bind with (Q := fun observed b => b = negb observed).
  { destruct (1 <? k)%nat; [|reflexivity].
    eapply numbered_bind;
      [apply numbered_of_keeps, keeps_attempt, keeps_observe|].
    intros [[shot app]|e] b [_ ->]; [simpl; auto|].
    destruct (is_Exception e); simpl; auto. }
  intros observed b ->. destruct observed; simpl negb; cbv iota; [|reflexivity].
  eapply numbered_bind.
  { apply numbered_of_keeps, keeps_attempt with (Q := fun _ => True).
    unfold Gemini._call_llm_with_tools.
    eapply keeps_bind; [apply keeps_get|]. intros s1 _.
    destruct (_cancel_event s1); [exact I|].
    eapply keeps_bind; [apply keeps_await|]. intros [|c cs] _; exact I. }
  intros [[[thinking tool_name] tool_args]|e] b [_ ->];
    [|apply numbered_failure].
  eapply numbered_bind with (Q := fun _ b => b = false).
  { destruct (negb _); simpl; auto. }
  intros _ b ->.
  eapply numbered_bind with (Q := fun _ b => b = false).
  { destruct (ActionMapper.tool_call_to_action _ _ _); simpl; auto. }
  intros action b ->.
  eapply numbered_bind.
  { apply numbered_of_keeps, keeps_attempt with (Q := fun _ => True).
    eapply keeps_bind; [apply keeps_await|]. intros shot _. apply keeps_await. }
  intros x b [_ ->].
  eapply numbered_bind with (Q := fun _ b => b = false).
  { destruct x as [r|e]; [reflexivity|]. destruct (is_Exception e); simpl; auto. }
  intros result b ->.
  eapply numbered_bind; [apply numbered_of_keeps, keeps_get|].
  intros s1 b [_ ->].
  eapply numbered_bind with (Q := fun _ b => b = false).
  { destruct (1 <? _)%nat; [|reflexivity].
    eapply numbered_weaken; [apply numbered_of_keeps, keeps_strip_last_image|].
    intros _ b [_ ->]. reflexivity. }
  intros _ b ->.
  eapply numbered_bind; [apply numbered_of_keeps, keeps_append_turn|].
  intros _ b [_ ->].
  eapply numbered_bind; [apply numbered_of_keeps, keeps_append_turn|].
  intros _ b [_ ->].
  apply numbered_step_event. reflexivity.
Qed.

End AgentSteps.

(** ** What a whole run leaves in the trace *)

Section ShapeSoundness.
Import StepLogic.

Context (client : nat -> suspension -> bool).

Lemma run_keeps_quiet {A} (k : nat) (Q : A -> Prop) (g : Gen event A) :
  keeps (at_step k) (fun _ => False) Q g ->
  forall w o w', _step_count (agent_of w) = k ->
    run client g w = (o, w') ->
    _step_count (agent_of w') = k /\ trace w' = trace w.
Proof.
  induction g as [a|e|y c IH|c IH|c IH|s c IH|]; simpl; intros Hg w o w' Hk Hr.
  - injection Hr as <- <-. auto.
  - injection Hr as <- <-. auto.
  - now destruct Hg.
  - destruct (IH Hg _ _ _ (eq_trans (step_count_suspend client _ w) Hk) Hr)
      as [Hk' Ht].
    split; [exact Hk'|]. now rewrite Ht, trace_suspend, app_nil_r.
  - exact (IH _ (Hg _ Hk) _ _ _ Hk Hr).
  - destruct Hg as [Hs Hc].
    exact (IH Hc {| agent_of := s; trace := trace w; clock := clock w |}
             o w' Hs Hr).
  - injection Hr as <- <-. auto.
Qed.

Lemma ordinary_step (d : step_data) : ordinary (EvStep d).
Proof. split; reflexivity. Qed.

(** One step under [forward_events]. *)
Lemma run_forward_numbered (k : nat) (g : Gen event unit) :
  forall stepped w o w',
    numbered k (fun _ b => b = true) stepped g ->
    _step_count (agent_of w) = k ->
    run client (forward_events g) w = (o, w') ->
    exists evs tail stepped',
      trace w' = trace w ++ evs ++ tail /\
      _step_count (agent_of w') = k /\
      Forall ordinary evs /\
      step_numbers evs = (if negb stepped && stepped' then [k] else []) /\
      (stepped = true -> stepped' = true) /\
      match o with
      | Returned true =>
          stepped = false /\ stepped' = true /\
          exists evs0 d,
            evs = evs0 ++ [EvStep d] /\ ev_finished d = true /\
            ev_step d = k /\
            tail = [EvDone (ev_message d) k (ev_success d)]
      | Returned false => stepped' = true /\ tail = []
      | _ => tail = []
      end.
Proof.
  induction g as [a|e|y c IH|c IH|c IH|s c IH|]; simpl;
    intros stepped w o w' Hg Hk Hr.
  - injection Hr as <- <-. subst stepped.
    exists [], [], true. rewrite app_nil_r. repeat split; auto.
  - injection Hr as <- <-.
    exists [], [], stepped. rewrite app_nil_r, andb_negb_l. repeat split; auto.
  - destruct y as [chunk|d|msg n ok|msg|msg]; simpl in Hr; try contradiction.
    + destruct (IH _ _ _ _ Hg
                  (eq_trans (step_count_suspend client _ w) Hk) Hr)
        as (evs & tail & b' & Ht & Hk' & Ho & Hn & Hb & Hout).
      exists (EvThinking chunk :: evs), tail, b'.
      rewrite Ht, trace_suspend, <- app_assoc. split; [reflexivity|].
      split; [exact Hk'|]. split; [constructor; [split; reflexivity|exact Ho]|].
      split; [exact Hn|]. split; [exact Hb|].
      destruct o as [[|]| |]; auto.
      destruct Hout as (Hs & Hb' & evs0 & d & -> & Hd).
      split; [exact Hs|]. split; [exact Hb'|].
      exists (EvThinking chunk :: evs0), d. auto.
    + destruct Hg as (Hd & Hs & Hc). subst stepped.
      destruct (ev_finished d) eqn:Hfin.
      * simpl in Hr. injection Hr as <- <-.
        exists [EvStep d],
          [EvDone (ev_message d)
             (_step_count (agent_of (suspend client (AtYield (EvStep d)) w)))
             (ev_success d)], true.
        rewrite !trace_suspend, !step_count_suspend, <- app_assoc.
        split; [reflexivity|]. split; [exact Hk|].
        split; [repeat constructor|]. simpl. rewrite Hd, Hk.
        split; [reflexivity|]. split; [auto|]. split; [reflexivity|].
        split; [reflexivity|]. exists [], d. auto.
      * destruct (IH _ _ _ _ Hc
                    (eq_trans (step_count_suspend client _ w) Hk) Hr)
          as (evs & tail & b' & Ht & Hk' & Ho & Hn & Hb & Hout).
        specialize (Hb eq_refl). subst b'. simpl in Hn.
        exists (EvStep d :: evs), tail, true.
        rewrite Ht, trace_suspend, <- app_assoc. split; [reflexivity|].
        split; [exact Hk'|].
        split; [constructor; [apply ordinary_step|exact Ho]|].
        simpl. rewrite Hn, Hd. split; [reflexivity|]. split; [auto|].
        destruct o as [[|]| |]; auto. destruct Hout as [Hs _]. discriminate.
    + destruct (IH _ _ _ _ Hg
                  (eq_trans (step_count_suspend client _ w) Hk) Hr)
        as (evs & tail & b' & Ht & Hk' & Ho & Hn & Hb & Hout).
      exists (EvError msg :: evs), tail, b'.
      rewrite Ht, trace_suspend, <- app_assoc. split; [reflexivity|].
      split; [exact Hk'|]. split; [constructor; [split; reflexivity|exact Ho]|].
      split; [exact Hn|]. split; [exact Hb|].
      destruct o as [[|]| |]; auto.
      destruct Hout as (Hs & Hb' & evs0 & d & -> & Hd).
      split; [exact Hs|]. split; [exact Hb'|].
      exists (EvError msg :: evs0), d. auto.
  - destruct (IH _ _ _ _ Hg
                (eq_trans (step_count_suspend client _ w) Hk) Hr)
      as (evs & tail & b' & Ht & Hrest).
    exists evs, tail, b'. rewrite Ht, trace_suspend, app_nil_r. auto.
  - exact (IH _ _ _ _ _ (Hg _ Hk) Hk Hr).
  - destruct Hg as [Hs Hc].
    exact (IH stepped {| agent_of := s; trace := trace w; clock := clock w |}
             o w' Hc Hs Hr).
  - injection Hr as <- <-.
    exists [], [], stepped. rewrite app_nil_r, andb_negb_l. repeat split; auto.
Qed.

End ShapeSoundness.

Section LoopShape.
Import StepLogic.

Context (max_steps : Z) {impl : AsyncAgentImpl}
  (client : nat -> suspension -> bool).
Hypothesis Hstep : enters_step _execute_step.

Lemma run_step_numbered (w : world) (o : outcome bool) (w' : world) :
  run client (forward_events _execute_step) w = (o, w') ->
  exists evs tail (stepped' : bool),
    trace w' = trace w ++ evs ++ tail /\
    _step_count (agent_of w') = S (_step_count (agent_of w)) /\
    Forall ordinary evs /\
    step_numbers evs
    = (if stepped' then [S (_step_count (agent_of w))] else []) /\
    match o with
    | Returned true =>
        stepped' = true /\
        exists evs0 d,
          evs = evs0 ++ [EvStep d] /\ ev_finished d = true /\
          ev_step d = S (_step_count (agent_of w)) /\
          tail = [EvDone (ev_message d) (S (_step_count (agent_of w)))
                    (ev_success d)]
    | Returned false => stepped' = true /\ tail = []
    | _ => tail = []
    end.
Proof.
  unfold enters_step in Hstep.
  destruct _execute_step as [a|e|y c|c|f|s c|]; try contradiction.
  specialize (Hstep (agent_of w)). simpl.
  destruct (f (agent_of w)) as [a|e|y c|c|f'|s' c|]; try contradiction.
  destruct Hstep as [Hs' Hnum]. simpl. intros Hr.
  destruct (run_forward_numbered client _ c false
              {| agent_of := s'; trace := trace w; clock := clock w |}
              o w' Hnum Hs' Hr)
    as (evs & tail & b' & Ht & Hk & Ho & Hn & _ & Hout).
  exists evs, tail, b'. simpl in Ht, Hn.
  split; [exact Ht|]. split; [exact Hk|]. split; [exact Ho|].
  split; [exact Hn|].
  destruct o as [[|]| |]; auto.
  destruct Hout as (_ & Hb & Hrest). auto.
Qed.

Lemma run_step_loop_cases (fuel : nat) (w : world) :
  run client (step_loop max_steps fuel) w
  = if (Z.of_nat (_step_count (agent_of w)) <? max_steps)%Z
       && _is_running (agent_of w)
    then
      match fuel with
      | O => (OutOfFuel, w)
      | S fuel' =>
          if _cancel_event (agent_of w) then (Raised cancelled_error, w)
          else
            match run client (forward_events _execute_step) w with
            | (Returned true, w') => (Returned tt, w')
            | (Returned false, w') => run client (step_loop max_steps fuel') w'
            | (Raised e, w') => (Raised e, w')
            | (OutOfFuel, w') => (OutOfFuel, w')
            end
      end
    else
      (Returned tt,
       suspend client
         (AtYield (EvDone (PStr "Max steps reached")
                     (_step_count (agent_of w)) false)) w).
Proof.
  destruct (Z.of_nat (_step_count (agent_of w)) <? max_steps)%Z eqn:Hlt.
  - destruct (_is_running (agent_of w)) eqn:Hrun; simpl andb; cbv iota.
    + destruct fuel as [|fuel].
      * simpl. now rewrite Hlt, Hrun.
      * apply Z.ltb_lt in Hlt.
        destruct (_cancel_event (agent_of w)) eqn:Hc.
        -- now apply cancel_event_alone_is_observed.
        -- now apply run_step_loop_S.
    + now apply stopped_loop_reports_max_steps.
  - apply Z.ltb_ge in Hlt. now apply run_step_loop_exit.
Qed.

Lemma step_loop_shape (fuel : nat) :
  forall w o w',
    run client (step_loop max_steps fuel) w = (o, w') ->
    exists j evs tail,
      trace w' = trace w ++ evs ++ tail /\
      Forall ordinary evs /\
      step_numbers evs = seq (S (_step_count (agent_of w))) j /\
      success_is_earned evs tail /\
      match o with
      | Returned _ =>
          _step_count (agent_of w') = (_step_count (agent_of w) + j)%nat /\
          exists msg ok,
            tail = [EvDone msg (_step_count (agent_of w) + j) ok]
      | _ =>
          tail = [] /\
          (_step_count (agent_of w) + j <= _step_count (agent_of w')
           <= _step_count (agent_of w) + j + 1)%nat
      end.
Proof.
  induction fuel as [|fuel IH]; intros w o w' Hr;
    rewrite run_step_loop_cases in Hr.
  - destruct (_ && _).
    + injection Hr as <- <-.
      exists 0%nat, [], []. rewrite app_nil_r.
      repeat split; auto; try lia. intros msg steps [=].
    + injection Hr as <- <-.
      exists 0%nat, [], [EvDone (PStr "Max steps reached")
                           (_step_count (agent_of w)) false].
      rewrite trace_suspend, step_count_suspend, Nat.add_0_r.
      repeat split; auto. { intros msg steps [=]. } eauto.
  - destruct (_ && _).
    2:{ injection Hr as <- <-.
        exists 0%nat, [], [EvDone (PStr "Max steps reached")
                             (_step_count (agent_of w)) false].
        rewrite trace_suspend, step_count_suspend, Nat.add_0_r.
        repeat split; auto. { intros msg steps [=]. } eauto. }
    destruct (_cancel_event (agent_of w)).
    { injection Hr as <- <-.
      exists 0%nat, [], []. rewrite app_nil_r.
      repeat split; auto; try lia. intros msg steps [=]. }
    destruct (run client (forward_events _execute_step) w) as [o1 w1] eqn:Hf.
    destruct (run_step_numbered w o1 w1 Hf)
      as (evs & tail & b' & Ht & Hk & Ho & Hn & Hout).
    destruct o1 as [[|]|e|].
    + injection Hr as <- <-.
      destruct Hout as (-> & evs0 & d & -> & Hfin & Hd & ->).
      exists 1%nat, (evs0 ++ [EvStep d]), [EvDone (ev_message d)
                                             (S (_step_count (agent_of w)))
                                             (ev_success d)].
      split; [exact Ht|]. split; [exact Ho|]. split; [exact Hn|].
      split.
      { intros msg steps [= <- <- Hok]. exists evs0, d. auto. }
      split; [lia|].
      exists (ev_message d), (ev_success d).
      now rewrite Nat.add_1_r.
    + destruct Hout as [-> ->].
      destruct (IH w1 o w' Hr) as (j & evs2 & tail2 & Ht2 & Ho2 & Hn2 & He2 & Hout2).
      exists (S j), (evs ++ evs2), tail2.
      split; [rewrite Ht2, Ht, app_nil_r, <- !app_assoc; reflexivity|].
      split; [now apply Forall_app_2|].
      split; [rewrite step_numbers_app, Hn, Hn2, Hk; reflexivity|].
      split.
      { intros msg steps Htail. destruct (He2 msg steps Htail)
          as (evs0 & d & -> & Hd).
        exists (evs ++ evs0), d. rewrite <- app_assoc. auto. }
      rewrite Hk in Hout2.
      replace (_step_count (agent_of w) + S j)%nat
        with (S (_step_count (agent_of w)) + j)%nat by lia.
      exact Hout2.
    + injection Hr as <- <-. subst tail.
      exists (if b' then 1%nat else 0%nat), evs, [].
      split; [exact Ht|]. split; [exact Ho|].
      split; [rewrite Hn; destruct b'; reflexivity|].
      split; [intros msg steps [=]|].
      split; [reflexivity|]. destruct b'; lia.
    + injection Hr as <- <-. subst tail.
      exists (if b' then 1%nat else 0%nat), evs, [].
      split; [exact Ht|]. split; [exact Ho|].
      split; [rewrite Hn; destruct b'; reflexivity|].
      split; [intros msg steps [=]|].
      split; [reflexivity|]. destruct b'; lia.
Qed.

End LoopShape.

Section StreamShape.
Import StepLogic.

Context (env : Env) (max_steps : Z) {impl : AsyncAgentImpl}
  (client : nat -> suspension -> bool).
Hypothesis Hstep : enters_step _execute_step.
Hypothesis Hprep :
  forall k task b64 app,
    keeps (at_step k) (fun _ : event => False) (fun _ => True)
      (_prepare_initial_context task b64 app).

(** The [try] body of [stream], after the flags are set. *)
Lemma stream_try_shape (fuel : nat) (task : string) (w : world)
    (o : outcome unit) (w' : world) :
  run client
    (o ← attempt (observe env 0);
     match o with
     | Raise e =>
         if is_Exception e then
           yield (EvError ("Device error: " +:+ exn_msg e)) ;;
           yield (EvDone (PStr ("Device error: " +:+ exn_msg e)) 0 false)
         else Throw e
     | Ok (screenshot, current_app) =>
         _prepare_initial_context task (base64_data screenshot) current_app ;;
         step_loop max_steps fuel
     end) w = (o, w') ->
  exists j evs tail,
    trace w' = trace w ++ evs ++ tail /\
    Forall ordinary evs /\
    step_numbers evs = seq (S (_step_count (agent_of w))) j /\
    success_is_earned evs tail /\
    match o with
    | Returned _ =>
        _step_count (agent_of w') = (_step_count (agent_of w) + j)%nat /\
        exists msg steps ok, tail = [EvDone msg steps ok]
    | _ =>
        tail = [] /\
        (_step_count (agent_of w) + j <= _step_count (agent_of w')
         <= _step_count (agent_of w) + j + 1)%nat
    end.
Proof.
  rewrite run_mbind, run_attempt.
  destruct (run client (observe env 0) w) as [oo wo] eqn:Eo.
  destruct (run_keeps_quiet client (_step_count (agent_of w)) _ _
              (keeps_observe _ _ env 0) w oo wo eq_refl Eo) as [Hko Hto].
  assert (Hnone : forall wx,
            _step_count (agent_of wx) = _step_count (agent_of w) ->
            trace wx = trace w ->
            exists j evs tail,
              trace wx = trace w ++ evs ++ tail /\
              Forall ordinary evs /\
              step_numbers evs = seq (S (_step_count (agent_of w))) j /\
              success_is_earned evs tail /\
              tail = [] /\
              (_step_count (agent_of w) + j <= _step_count (agent_of wx)
               <= _step_count (agent_of w) + j + 1)%nat).
  { intros wx Hkx Htx. exists 0%nat, [], []. rewrite Htx, Hkx, app_nil_r.
    repeat split; auto; try lia. intros msg steps [=]. }
  destruct oo as [[shot app]|e|].
  - rewrite run_mbind.
    destruct (run client (_prepare_initial_context task (base64_data shot) app)
                wo) as [op wp] eqn:Ep.
    destruct (run_keeps_quiet client (_step_count (agent_of w)) _ _
                (Hprep _ task (base64_data shot) app) wo op wp Hko Ep)
      as [Hkp Htp].
    destruct op as [[]|e|].
    + intros Hr.
      destruct (step_loop_shape max_steps client Hstep fuel wp o w' Hr)
        as (j & evs & tail & Ht & Ho & Hn & He & Hout).
      exists j, evs, tail. rewrite Htp, Hto in Ht. rewrite Hkp in Hn, Hout.
      repeat split; auto.
      destruct o as [[]|e|]; auto. destruct Hout as [Hk (msg & ok & ->)].
      split; [exact Hk|]. eauto.
    + intros [= <- <-].
      destruct (Hnone wp Hkp (eq_trans Htp Hto))
        as (j & evs & tail & Ht & Ho & Hn & He & Htl & Hb).
      exists j, evs, tail. auto 10.
    + intros [= <- <-].
      destruct (Hnone wp Hkp (eq_trans Htp Hto))
        as (j & evs & tail & Ht & Ho & Hn & He & Htl & Hb).
      exists j, evs, tail. auto 10.
  - destruct (is_Exception e).
    + simpl. intros [= <- <-].
      exists 0%nat, [EvError ("Device error: " +:+ exn_msg e)],
        [EvDone (PStr ("Device error: " +:+ exn_msg e)) 0 false].
      rewrite !trace_suspend, !step_count_suspend, Hto, Hko, <- app_assoc.
      split; [reflexivity|].
      split; [repeat constructor|]. split; [reflexivity|].
      split; [intros msg steps [=]|]. split; [lia|]. eauto.
    + simpl. intros [= <- <-].
      destruct (Hnone wo Hko Hto)
        as (j & evs & tail & Ht & Ho & Hn & He & Htl & Hb).
      exists j, evs, tail. auto 10.
  - intros [= <- <-].
    destruct (Hnone wo Hko Hto)
      as (j & evs & tail & Ht & Ho & Hn & He & Htl & Hb).
    exists j, evs, tail. auto 10.
Qed.

Lemma stream_shape (fuel : nat) (task : string) (s0 : agent)
    (o : outcome unit) (w' : world) :
  run client (stream env max_steps fuel task) (start s0) = (o, w') ->
  exists j evs tail,
    trace w' = evs ++ tail /\
    Forall ordinary evs /\
    step_numbers evs = seq (S (_step_count s0)) j /\
    success_is_earned evs tail /\
    closing o tail /\
    match o with
    | Returned _ => _step_count (agent_of w') = (_step_count s0 + j)%nat
    | _ =>
        (_step_count s0 + j <= _step_count (agent_of w')
         <= _step_count s0 + j + 1)%nat
    end /\
    (o <> OutOfFuel -> _is_running (agent_of w') = false).
Proof.
  unfold stream, try_finally.
  rewrite run_mbind, run_attempt.
  rewrite run_mbind. simpl (run client (modify _) _). cbv beta iota.
  rewrite run_mbind, run_attempt.
  match goal with
  | |- context [run client ?body ?W] =>
      lazymatch body with
      | mbind _ (attempt (observe env 0)) =>
          destruct (run client body W) as [o1 w1] eqn:E1;
          destruct (stream_try_shape fuel task W o1 w1 E1)
            as (j & evs & tail & Ht & Ho & Hn & He & Hout)
      end
  end.
  simpl in Ht, Hn, Hout.
  destruct o1 as [[]|e|].
  - destruct Hout as (Hk & msg & steps & ok & ->).
    simpl. intros [= <- <-].
    exists j, evs, [EvDone msg steps ok]. simpl.
    repeat split; auto. eauto.
  - destruct Hout as [-> Hb]. cbv beta iota.
    destruct (exn_cls e) eqn:Ecls; simpl; intros [= <- <-];
      try (exists j, evs, []; simpl; unfold is_cancel; rewrite Ecls;
           repeat split; auto; lia).
    exists j, evs, [EvCancelled "Task cancelled by user"]. simpl.
    rewrite trace_suspend, step_count_suspend, Ht, app_nil_r.
    unfold is_cancel. rewrite Ecls.
    repeat split; auto; try lia. intros msg steps [=].
  - destruct Hout as [-> Hb]. intros [= <- <-].
    exists j, evs, []. simpl. repeat split; auto; try lia. congruence.
Qed.

End StreamShape.

(** ** The two agents under [stream] *)

Section AgentShapes.
Import StepLogic.

Context (env : Env) (max_steps : Z) (client : nat -> suspension -> bool).

Lemma glm_prepare_keeps (k : nat) (task b64 app : string) :
  keeps (at_step k) (fun _ : event => False) (fun _ => True)
    (GLM.prepare_initial_context env task b64 app).
Proof. apply keeps_append_turn. Qed.

Lemma gemini_prepare_keeps (k : nat) (task b64 app : string) :
  keeps (at_step k) (fun _ : event => False) (fun _ => True)
    (Gemini.prepare_initial_context task b64 app).
Proof. apply keeps_append_turn. Qed.

Lemma glm_stream_shape (fuel : nat) (task : string) (s0 : agent)
    (o : outcome unit) (w' : world) :
  run client (stream env max_steps (impl := GLM.glm_agent env) fuel task)
    (start s0) = (o, w') ->
  exists j evs tail,
    trace w' = evs ++ tail /\
    Forall ordinary evs /\
    step_numbers evs = seq (S (_step_count s0)) j /\
    success_is_earned evs tail /\
    closing o tail /\
    match o with
    | Returned _ => _step_count (agent_of w') = (_step_count s0 + j)%nat
    | _ =>
        (_step_count s0 + j <= _step_count (agent_of w')
         <= _step_count s0 + j + 1)%nat
    end /\
    (o <> OutOfFuel -> _is_running (agent_of w') = false).
Proof.
  apply (stream_shape env max_steps (impl := GLM.glm_agent env) client).
  - apply glm_enters_step.
  - apply glm_prepare_keeps.
Qed.

Lemma gemini_stream_shape (fuel : nat) (task : string) (s0 : agent)
    (o : outcome unit) (w' : world) :
  run client (stream env max_steps (impl := Gemini.gemini_agent env) fuel task)
    (start s0) = (o, w') ->
  exists j evs tail,
    trace w' = evs ++ tail /\
    Forall ordinary evs /\
    step_numbers evs = seq (S (_step_count s0)) j /\
    success_is_earned evs tail /\
    closing o tail /\
    match o with
    | Returned _ => _step_count (agent_of w') = (_step_count s0 + j)%nat
    | _ =>
        (_step_count s0 + j <= _step_count (agent_of w')
         <= _step_count s0 + j + 1)%nat
    end /\
    (o <> OutOfFuel -> _is_running (agent_of w') = false).
Proof.
  apply (stream_shape env max_steps (impl := Gemini.gemini_agent env) client).
  - apply gemini_enters_step.
  - apply gemini_prepare_keeps.
Qed.

Lemma closing_no_steps (o : outcome unit) (tail : list event) :
  closing o tail -> step_numbers tail = [].
Proof.
  destruct o as [a|e|]; simpl.
  - intros (msg & steps & ok & ->). reflexivity.
  - intros ->. destruct (is_cancel e); reflexivity.
  - intros ->. reflexivity.
Qed.

Lemma earned_from_trace (o : outcome unit) (evs tail before : list event)
    (msg : pyval) (steps : nat) :
  Forall ordinary evs -> closing o tail -> success_is_earned evs tail ->
  evs ++ tail = before ++ [EvDone msg steps true] ->
  exists evs0 d,
    before = evs0 ++ [EvStep d] /\ ev_finished d = true /\
    ev_success d = true /\ ev_message d = msg /\ ev_step d = steps.
Proof.
  intros Ho Hc He Heq.
  assert (Hnot : tail = [] -> False).
  { intros ->. rewrite app_nil_r in Heq. subst evs.
    apply Forall_app in Ho as [_ Ho]. inversion Ho as [|? ? [Hd _] _]; subst.
    discriminate. }
  destruct o as [a|e|]; simpl in Hc.
  - destruct Hc as (m & n & ok & ->).
    apply app_inj_tail in Heq as [-> [= -> -> ->]]. now apply He.
  - destruct (is_cancel e); subst tail; [|now destruct Hnot].
    apply app_inj_tail in Heq as [_ [=]].
  - now destruct Hnot.
Qed.

End AgentShapes.

(** X7. Every run closes in one way.  Whatever the device, the model, the
    executor and the consumer do, the trace of a run of either agent is a
    sequence of thinking, error and step events followed by its closing
    event: exactly one [done] when [stream] returns, exactly one
    [cancelled] when it raises [CancelledError], and none when another
    exception escapes; no [done] or [cancelled] event stands anywhere but
    last. *)
Theorem run_closes_once (env : Env) (max_steps : Z)
    (client : nat -> suspension -> bool) (fuel : nat) (task : string)
    (s0 : agent) :
  let glm :=
    run client (stream env max_steps (impl := GLM.glm_agent env) fuel task)
      (start s0) in
  let gemini :=
    run client (stream env max_steps (impl := Gemini.gemini_agent env) fuel task)
      (start s0) in
  (exists evs tail,
     trace (snd glm) = evs ++ tail /\ Forall ordinary evs /\
     StepLogic.closing (fst glm) tail) /\
  (exists evs tail,
     trace (snd gemini) = evs ++ tail /\ Forall ordinary evs /\
     StepLogic.closing (fst gemini) tail).
Proof.
  cbv zeta. split.
  - destruct (run client _ (start s0)) as [o w'] eqn:E.
    destruct (glm_stream_shape env max_steps client fuel task s0 o w' E)
      as (j & evs & tail & Ht & Ho & _ & _ & Hc & _).
    exists evs, tail. auto.
  - destruct (run client _ (start s0)) as [o w'] eqn:E.
    destruct (gemini_stream_shape env max_steps client fuel task s0 o w' E)
      as (j & evs & tail & Ht & Ho & _ & _ & Hc & _).
    exists evs, tail. auto.
Qed.

(** X8. Step events are numbered without gaps.  In every run of either agent,
    from an agent whose step count is [c], the step events carry the
    numbers [c+1], [c+2], ... in order, each once; when the run returns,
    the step count is the number of the last one, and otherwise at most
    one counted step is without its step event. *)
Theorem step_events_are_consecutive (env : Env) (max_steps : Z)
    (client : nat -> suspension -> bool) (fuel : nat) (task : string)
    (s0 : agent) :
  let glm :=
    run client (stream env max_steps (impl := GLM.glm_agent env) fuel task)
      (start s0) in
  let gemini :=
    run client (stream env max_steps (impl := Gemini.gemini_agent env) fuel task)
      (start s0) in
  (exists j,
     step_numbers (trace (snd glm)) = seq (S (_step_count s0)) j /\
     match fst glm with
     | Returned _ => _step_count (agent_of (snd glm)) = (_step_count s0 + j)%nat
     | _ =>
         (_step_count s0 + j <= _step_count (agent_of (snd glm))
          <= _step_count s0 + j + 1)%nat
     end) /\
  (exists j,
     step_numbers (trace (snd gemini)) = seq (S (_step_count s0)) j /\
     match fst gemini with
     | Returned _ =>
         _step_count (agent_of (snd gemini)) = (_step_count s0 + j)%nat
     | _ =>
         (_step_count s0 + j <= _step_count (agent_of (snd gemini))
          <= _step_count s0 + j + 1)%nat
     end).
Proof.
  cbv zeta. split.
  - destruct (run client _ (start s0)) as [o w'] eqn:E.
    destruct (glm_stream_shape env max_steps client fuel task s0 o w' E)
      as (j & evs & tail & Ht & _ & Hn & _ & Hc & Hk & _).
    exists j. simpl fst. simpl snd.
    rewrite Ht, step_numbers_app, Hn, (closing_no_steps _ _ Hc), app_nil_r.
    auto.
  - destruct (run client _ (start s0)) as [o w'] eqn:E.
    destruct (gemini_stream_shape env max_steps client fuel task s0 o w' E)
      as (j & evs & tail & Ht & _ & Hn & _ & Hc & Hk & _).
    exists j. simpl fst. simpl snd.
    rewrite Ht, step_numbers_app, Hn, (closing_no_steps _ _ Hc), app_nil_r.
    auto.
Qed.

(** X9. A [done] event that reports success is always earned: in every run of
    either agent, a trace that ends with [done] and [success] set has,
    right before it, a step event with [finished] and [success] set, the
    same message and the step number that [done] reports.  Running out of
    steps, device errors and model errors never end in a successful
    [done]. *)
Theorem reported_success_is_earned (env : Env) (max_steps : Z)
    (client : nat -> suspension -> bool) (fuel : nat) (task : string)
    (s0 : agent) (impl : AsyncAgentImpl) (before : list event) (msg : pyval)
    (steps : nat) :
  impl = GLM.glm_agent env \/ impl = Gemini.gemini_agent env ->
  trace (snd (run client (stream env max_steps (impl := impl) fuel task)
                (start s0)))
  = before ++ [EvDone msg steps true] ->
  exists evs0 d,
    before = evs0 ++ [EvStep d] /\ ev_finished d = true /\
    ev_success d = true /\ ev_message d = msg /\ ev_step d = steps.
Proof.
  intros Himpl.
  destruct (run client _ (start s0)) as [o w'] eqn:E. simpl snd. intros Htr.
  destruct Himpl as [-> | ->].
  - destruct (glm_stream_shape env max_steps client fuel task s0 o w' E)
      as (j & evs & tail & Ht & Ho & _ & He & Hc & _).
    rewrite Ht in Htr. exact (earned_from_trace o evs tail before msg steps
                                Ho Hc He Htr).
  - destruct (gemini_stream_shape env max_steps client fuel task s0 o w' E)
      as (j & evs & tail & Ht & Ho & _ & He & Hc & _).
    rewrite Ht in Htr. exact (earned_from_trace o evs tail before msg steps
                                Ho Hc He Htr).
Qed.

(** On an executor that succeeds and asks to finish in step 1. *)
Lemma reported_success_is_earned_witness :
  exists evs0 d,
    removelast
      (trace (snd (run Scenario.passive
                     (stream StepScenario.executor_finishing 5
                        (impl := GLM.glm_agent StepScenario.executor_finishing)
                        5 "open settings")
                     (start (init_agent "system prompt")))))
    = evs0 ++ [EvStep d] /\
    ev_finished d = true /\ ev_success d = true /\
    ev_message d = PStr "stop here" /\ ev_step d = 1%nat.
Proof.
  apply (reported_success_is_earned StepScenario.executor_finishing 5
           Scenario.passive 5 "open settings" (init_agent "system prompt")
           (GLM.glm_agent StepScenario.executor_finishing) _
           (PStr "stop here") 1 (or_introl eq_refl)).
  vm_compute. reflexivity.
Defined.

(** ** The end of a run, for every agent *)

(** X10. [finally]: a run of [stream] that is driven to its end, by returning
    or by raising, leaves the agent marked as not running, whatever the
    implementation of the step, the device, the model and the consumer. *)
Theorem stream_always_clears_running (env : Env) (max_steps : Z)
    (impl : AsyncAgentImpl) (client : nat -> suspension -> bool) (fuel : nat)
    (task : string) (w : world) (o : outcome unit) (w' : world) :
  run client (stream env max_steps fuel task) w = (o, w') ->
  o <> OutOfFuel ->
  _is_running (agent_of w') = false.
Proof.
  unfold stream, try_finally. rewrite run_mbind, run_attempt.
  match goal with
  | |- context [run client ?body w] => destruct (run client body w) as [[a|e|] w1]
  end; simpl; intros [= <- <-] Hfuel; try reflexivity.
  now destruct Hfuel.
Qed.

(** On a run that is cancelled while the model streams. *)
Lemma stream_always_clears_running_witness :
  _is_running
    (agent_of
       (snd (run Scenario.cancel_on_thinking
               (stream Scenario.never_finishing 5
                  (impl := GLM.glm_agent Scenario.never_finishing) 5
                  "open settings")
               (start (init_agent "system prompt")))))
  = false.
Proof.
  apply (stream_always_clears_running Scenario.never_finishing 5
           (GLM.glm_agent Scenario.never_finishing)
           Scenario.cancel_on_thinking 5 "open settings"
           (start (init_agent "system prompt")) (Raised cancelled_error)).
  - vm_compute. reflexivity.
  - discriminate.
Defined.

(** ** A run that starts at the step bound *)

Section AtBound.

Context (env : Env) (max_steps : Z) (client : nat -> suspension -> bool).

Lemma stream_at_bound_for (impl : AsyncAgentImpl) (fuel : nat) (task : string)
    (s0 : agent) (o : Screenshot * string) :
  (forall task b64 app w, exists t,
      run client (_prepare_initial_context task b64 app) w
      = (Returned tt,
         {| agent_of := set_context (_context (agent_of w) ++ [t]) (agent_of w);
            trace := trace w; clock := clock w |})) ->
  (max_steps <= Z.of_nat (_step_count s0))%Z ->
  device_observation env 0 = Ok o ->
  exists w',
    run client (stream env max_steps fuel task) (start s0) = (Returned tt, w') /\
    trace w' = [EvDone (PStr "Max steps reached") (_step_count s0) false] /\
    _step_count (agent_of w') = _step_count s0 /\
    _is_running (agent_of w') = false /\
    length (_context (agent_of w')) = S (length (_context s0)).
Proof.
  intros Hprep Hmax Hobs. unfold stream, try_finally.
  rewrite run_mbind, run_attempt.
  rewrite run_mbind. simpl (run client (modify _) _). cbv beta iota.
  rewrite run_mbind, run_attempt.
  rewrite run_mbind, (run_observe_ok env client 0 _ _ Hobs). cbv beta iota.
  destruct o as [shot app]. rewrite run_mbind.
  match goal with
  | |- context [run client (_prepare_initial_context ?t ?b ?a) ?W] =>
      destruct (Hprep t b a W) as [t1 Hr1]; rewrite Hr1; clear Hr1
  end.
  cbv beta iota.
  rewrite run_step_loop_exit
    by (cbn [agent_of _step_count set_context];
        rewrite !step_count_suspend; simpl; exact Hmax).
  simpl. eexists. split; [reflexivity|].
  do 3 (cbn [agent_of trace _step_count _is_running _context set_is_running
              set_context set_cancel_event];
        rewrite ?trace_suspend, ?step_count_suspend, ?context_suspend).
  simpl. rewrite length_app. simpl. repeat split; lia.
Qed.

End AtBound.

(** X11. A run that starts at the step bound takes no step.  When the step
    count has already reached [max_steps] (an agent that is run again
    without [reset], or a bound of zero), and the device can be observed,
    a run of either agent returns with [done] ("Max steps reached", the
    old step count, no success) as its only event, whatever the consumer
    does; the model is not called, the step count stays, and the context
    still grows by the initial user turn. *)
Theorem stream_at_bound_takes_no_step (env : Env) (max_steps : Z)
    (client : nat -> suspension -> bool) (fuel : nat) (task : string)
    (s0 : agent) (o : Screenshot * string) :
  (max_steps <= Z.of_nat (_step_count s0))%Z ->
  device_observation env 0 = Ok o ->
  (exists w',
     run client (stream env max_steps (impl := GLM.glm_agent env) fuel task)
       (start s0) = (Returned tt, w') /\
     trace w' = [EvDone (PStr "Max steps reached") (_step_count s0) false] /\
     _step_count (agent_of w') = _step_count s0 /\
     _is_running (agent_of w') = false /\
     length (_context (agent_of w')) = S (length (_context s0))) /\
  (exists w',
     run client (stream env max_steps (impl := Gemini.gemini_agent env) fuel task)
       (start s0) = (Returned tt, w') /\
     trace w' = [EvDone (PStr "Max steps reached") (_step_count s0) false] /\
     _step_count (agent_of w') = _step_count s0 /\
     _is_running (agent_of w') = false /\
     length (_context (agent_of w')) = S (length (_context s0))).
Proof.
  intros Hmax Hobs. split.
  - apply (stream_at_bound_for env max_steps client (GLM.glm_agent env) fuel
             task s0 o); auto.
    intros. eexists. reflexivity.
  - apply (stream_at_bound_for env max_steps client (Gemini.gemini_agent env)
             fuel task s0 o); auto.
    intros. eexists. reflexivity.
Qed.

(** On an agent that has used its 3 steps and is run again, with a
    consumer that cancels whenever it can. *)
Lemma stream_at_bound_takes_no_step_witness :
  (exists w',
     run MoreScenarios.always_cancelling
       (stream Scenario.never_finishing 3
          (impl := GLM.glm_agent Scenario.never_finishing) 3 "again")
       (start (MoreScenarios.used_agent 3)) = (Returned tt, w') /\
     trace w' = [EvDone (PStr "Max steps reached") 3 false] /\
     _step_count (agent_of w') = 3%nat /\
     _is_running (agent_of w') = false /\
     length (_context (agent_of w')) = 2%nat) /\
  (exists w',
     run MoreScenarios.always_cancelling
       (stream Scenario.never_finishing 3
          (impl := Gemini.gemini_agent Scenario.never_finishing) 3 "again")
       (start (MoreScenarios.used_agent 3)) = (Returned tt, w') /\
     trace w' = [EvDone (PStr "Max steps reached") 3 false] /\
     _step_count (agent_of w') = 3%nat /\
     _is_running (agent_of w') = false /\
     length (_context (agent_of w')) = 2%nat).
Proof.
  apply (stream_at_bound_takes_no_step Scenario.never_finishing 3
           MoreScenarios.always_cancelling 3 "again" (MoreScenarios.used_agent 3)
           (Scenario.shot 0, "launcher")).
  - simpl. lia.
  - reflexivity.
Defined.

(** ** A model call that fails *)

Section ModelFailure.
Import RunLogic.

Context (env : Env) (client : nat -> suspension -> bool).

Ltac settle_model :=
  eexists; split; [reflexivity|];
  rewrite ?trace_suspend, ?step_count_suspend; simpl;
  rewrite ?trace_suspend, ?step_count_suspend; simpl;
  rewrite <- ?app_assoc; reflexivity.

Lemma glm_step_model_failure (w : world) (o : Screenshot * string) (e : exn) :
  device_observation env (S (_step_count (agent_of w))) = Ok o ->
  (forall messages,
     openai_stream env (S (_step_count (agent_of w))) messages = Raise e) ->
  is_Exception e = true ->
  exists w',
    run client (forward_events (GLM.execute_step env)) w = (Returned true, w') /\
    trace w' = trace w ++ model_failure (S (_step_count (agent_of w))) e.
Proof.
  intros Hdev Hmodel He. unfold device_observation in Hdev.
  unfold GLM.execute_step, GLM._stream_openai. simpl.
  destruct (get_screenshot env _) as [shot|e1] eqn:E1; simpl in *;
    [|discriminate].
  destruct (get_current_app env _) as [app|e2] eqn:E2; simpl in *;
    [|discriminate].
  rewrite Hmodel. simpl. rewrite He. simpl. settle_model.
Qed.

Lemma gemini_step_model_failure (w : world) (e : exn) :
  never_cancels client -> device_ok env ->
  _cancel_event (agent_of w) = false ->
  (forall messages,
     model_answer env (S (_step_count (agent_of w))) messages = Raise e) ->
  is_Exception e = true ->
  exists w',
    run client (forward_events (Gemini.execute_step env)) w = (Returned true, w') /\
    trace w' = trace w ++ model_failure (S (_step_count (agent_of w))) e.
Proof.
  intros Hpassive Hdev Hc Hmodel He.
  unfold Gemini.execute_step, Gemini._call_llm_with_tools. simpl.
  destruct (1 <? S (_step_count (agent_of w)))%nat.
  - destruct (Hdev (S (_step_count (agent_of w)))) as [[shot app] Hobs].
    unfold device_observation in Hobs.
    destruct (get_screenshot env _) as [shot1|e1] eqn:E1; simpl in *;
      [|discriminate].
    destruct (get_current_app env _) as [app1|e2] eqn:E2; simpl in *;
      [|discriminate].
    rewrite !agent_suspend_passive by assumption. simpl. rewrite Hc.
    match goal with
    | |- context [openai_complete env ?k ?m] =>
        specialize (Hmodel m); unfold model_answer in Hmodel;
        destruct (openai_complete env k m) as [[|c cs]|e1'] eqn:Ec;
        simpl in Hmodel; try discriminate; injection Hmodel as <-
    end; simpl; rewrite ?He; simpl; settle_model.
  - simpl. rewrite Hc.
    match goal with
    | |- context [openai_complete env ?k ?m] =>
        specialize (Hmodel m); unfold model_answer in Hmodel;
        destruct (openai_complete env k m) as [[|c cs]|e1'] eqn:Ec;
        simpl in Hmodel; try discriminate; injection Hmodel as <-
    end; simpl; rewrite ?He; simpl; settle_model.
Qed.

End ModelFailure.

(** X12. A failed model call is step- and run-fatal, like a failed
    observation.  When the model call of a step raises (for the tool-call
    agent also when it answers with no choice at all), the loop adds an
    [error] event, a [step] event with [finished] set, [success] unset and
    the model error as message, and the [done] event that ends the run,
    and returns; nothing is executed on the device.  For the DSL agent
    this holds whatever the consumer does; the tool-call agent looks at
    the cancel flag before it calls the model, so there the consumer must
    not have cancelled. *)
Theorem model_failure_is_fatal (env : Env) (max_steps : Z)
    (client : nat -> suspension -> bool) (fuel : nat) (w : world) (e : exn) :
  (Z.of_nat (_step_count (agent_of w)) < max_steps)%Z ->
  _is_running (agent_of w) = true ->
  _cancel_event (agent_of w) = false ->
  device_ok env ->
  is_Exception e = true ->
  ((forall messages,
      openai_stream env (S (_step_count (agent_of w))) messages = Raise e) ->
   exists w',
     run client (step_loop max_steps (impl := GLM.glm_agent env) (S fuel)) w
     = (Returned tt, w') /\
     trace w'
     = trace w ++ RunLogic.model_failure (S (_step_count (agent_of w))) e) /\
  (never_cancels client ->
   (forall messages,
      RunLogic.model_answer env (S (_step_count (agent_of w))) messages
      = Raise e) ->
   exists w',
     run client (step_loop max_steps (impl := Gemini.gemini_agent env) (S fuel)) w
     = (Returned tt, w') /\
     trace w'
     = trace w ++ RunLogic.model_failure (S (_step_count (agent_of w))) e).
Proof.
  intros Hlt Hrun Hc Hdev He. split.
  - intros Hmodel.
    destruct (Hdev (S (_step_count (agent_of w)))) as [o Hobs].
    destruct (glm_step_model_failure env client w o e Hobs Hmodel He)
      as (w' & Hr & Ht).
    exists w'. split; [|exact Ht].
    rewrite run_step_loop_S by assumption.
    change (@_execute_step (GLM.glm_agent env)) with (GLM.execute_step env).
    now rewrite Hr.
  - intros Hpassive Hmodel.
    destruct (gemini_step_model_failure env client w e Hpassive Hdev Hc Hmodel He)
      as (w' & Hr & Ht).
    exists w'. split; [|exact Ht].
    rewrite run_step_loop_S by assumption.
    change (@_execute_step (Gemini.gemini_agent env))
      with (Gemini.execute_step env).
    now rewrite Hr.
Qed.

(** On an endpoint that refuses the connection, in step 2 of a run. *)
Lemma model_failure_is_fatal_witness :
  (exists w',
     run Scenario.passive
       (step_loop 5 (impl := GLM.glm_agent MoreScenarios.model_down) 1)
       (StepScenario.running_after 1)
     = (Returned tt, w') /\
     trace w'
     = trace (StepScenario.running_after 1) ++
         RunLogic.model_failure
           (S (_step_count (agent_of (StepScenario.running_after 1))))
           (Exn OtherError "connection refused")) /\
  (exists w',
     run Scenario.passive
       (step_loop 5 (impl := Gemini.gemini_agent MoreScenarios.model_down) 1)
       (StepScenario.running_after 1)
     = (Returned tt, w') /\
     trace w'
     = trace (StepScenario.running_after 1) ++
         RunLogic.model_failure
           (S (_step_count (agent_of (StepScenario.running_after 1))))
           (Exn OtherError "connection refused")).
Proof.
  destruct (model_failure_is_fatal MoreScenarios.model_down 5
              Scenario.passive 0 (StepScenario.running_after 1)
              (Exn OtherError "connection refused"))
    as [Hglm Hgemini]; try reflexivity.
  - intros k. eexists. reflexivity.
  - split.
    + apply Hglm. reflexivity.
    + apply Hgemini; [intros n p|intros messages]; reflexivity.
Defined.

(** ** A model that calls no tool *)

Section NoToolCall.
Import RunLogic ActionMapper.

Context (env : Env).
Hypothesis Hnever : never_calls_a_tool env.

Lemma finishes_failed (k : nat) (msg : string) :
  finishes_with_text (GLM.failed_step k msg).
Proof. intros d [= <-]. split; [reflexivity|]. intros a [=]. Qed.

Lemma finishes_other (ev : event) :
  (forall d, ev <> EvStep d) -> finishes_with_text ev.
Proof. intros H d ->. now destruct (H d). Qed.

Lemma gemini_step_finishes_with_text :
  gen_spec finishes_with_text (fun _ => True) (Gemini.execute_step env).
Proof.
  unfold Gemini.execute_step.
  eapply gen_spec_bind; [apply gen_spec_modify|]; intros _ _.
  eapply gen_spec_bind; [apply gen_spec_get|]; intros s _.
  eapply gen_spec_bind with (Q := fun _ => True).
  { destruct (1 <? _step_count s)%nat; [|exact I].
    eapply gen_spec_bind; [apply gen_spec_attempt, gen_spec_observe|].
    intros [[shot app]|e] Ho; [simpl; auto|].
    destruct (is_Exception e); simpl; auto.
    split; [apply finishes_other; discriminate|].
    split; [apply finishes_failed|exact I]. }
  intros observed _. destruct observed; simpl negb; cbv iota; [|exact I].
  eapply gen_spec_bind.
  { apply gen_spec_attempt with
      (Q := fun r : string * string * gmap string pyval =>
              snd (fst r) = "finish" /\
              snd r = {[ "message" :=
                           PStr (Gemini.text_or (Some (fst (fst r)))
                                   "No action returned") ]}).
    unfold Gemini._call_llm_with_tools.
    eapply gen_spec_bind; [apply gen_spec_get|]; intros s1 _.
    destruct (_cancel_event s1); [exact I|].
    destruct (openai_complete env _ _) as [choices|e] eqn:Ec; simpl; [|exact I].
    destruct (Hnever _ _ _ Ec) as (c & rest & -> & Hcalls). simpl.
    unfold Gemini.read_choice. rewrite Hcalls. simpl. auto. }
  intros [[[thinking tool_name] tool_args]|e] Hq.
  2:{ apply gen_spec_failure;
        [apply finishes_other; discriminate|apply finishes_failed]. }
  simpl in Hq. destruct Hq as [-> ->].
  eapply gen_spec_bind with (Q := fun _ => True).
  { destruct (negb _); simpl; auto. split; auto.
    apply finishes_other; discriminate. }
  intros _ _.
  eapply gen_spec_bind with
    (Q := fun a =>
            a = finish_action
                  (PStr (Gemini.text_or (Some thinking) "No action returned"))).
  { unfold tool_call_to_action. simpl. unfold get_default.
    rewrite lookup_singleton_eq. reflexivity. }
  intros action ->.
  eapply gen_spec_bind; [apply gen_spec_await2_result|].
  intros x ->.
  eapply gen_spec_bind with (Q := fun _ => True).
  { destruct (rbind _ _) as [r|e]; simpl; [exact I|].
    destruct (is_Exception e); simpl; auto. }
  intros result _.
  eapply gen_spec_bind; [apply gen_spec_get|]; intros s1 _.
  eapply gen_spec_bind with (Q := fun _ => True).
  { destruct (1 <? _)%nat; [apply gen_spec_strip_last_image|exact I]. }
  intros _ _.
  eapply gen_spec_bind; [apply gen_spec_append_turn|]; intros _ _.
  eapply gen_spec_bind; [apply gen_spec_append_turn|]; intros _ _.
  apply gen_spec_yield.
  intros d [= <-]. simpl. split; [reflexivity|]. now intros a [= <-].
Qed.

End NoToolCall.

(** X13. A completion without a tool call ends the run.  When the model of the
    tool-call agent answers without calling a tool, the answer is read as
    a call of [finish] whose message is the model's text, or
    "No action returned" when the text is empty: every step event of such
    a step has [finished] set, whatever the executor returns and whatever
    the consumer does, so the run ends with the step in which it
    happens. *)
Theorem no_tool_call_finishes (env : Env) (client : nat -> suspension -> bool)
    (w : world) (d : step_data) :
  RunLogic.never_calls_a_tool env ->
  EvStep d ∈ emitted client (Gemini.execute_step env) w ->
  ev_finished d = true /\
  forall a, ev_action d = Some a ->
    a = ActionMapper.finish_action
          (PStr (Gemini.text_or (Some (ev_thinking d)) "No action returned")).
Proof.
  intros Hnever Hin.
  pose proof (emitted_gen_spec client _ _ _ w
                (gemini_step_finishes_with_text env Hnever)) as H.
  rewrite Forall_forall in H. exact (H _ Hin d eq_refl).
Qed.

(** On a model that answers [all done] in plain text. *)
Lemma no_tool_call_finishes_witness :
  ev_finished ChattyScenario.first_step = true /\
  forall a, ev_action ChattyScenario.first_step = Some a ->
    a = ActionMapper.finish_action
          (PStr (Gemini.text_or (Some (ev_thinking ChattyScenario.first_step))
                   "No action returned")).
Proof.
  apply (no_tool_call_finishes MoreScenarios.chatty Scenario.passive
           (StepScenario.running_after 0) ChattyScenario.first_step).
  - intros k messages choices [= <-]. eauto.
  - vm_compute. apply list_elem_of_In. right. left. reflexivity.
Defined.

(** ** Consumers that only read the events *)

Section ReadOnlyConsumers.

Context (client : nat -> suspension -> bool)
  (Hpassive : never_cancels client).

Lemma emitted_nil {A} (g : Gen event A) (w : world) :
  trace (snd (run client g w)) = trace w -> emitted client g w = [].
Proof. unfold emitted. intros ->. apply drop_all. Qed.

(** A loop over a generator whose body computes without effects amounts
    to a fold over the events the generator yields. *)
Lemma run_for_each_fold {B} (upd : B -> event -> B) (g : Gen event unit) :
  forall (acc : B) (w1 w2 : world),
    agent_of w1 = agent_of w2 ->
    fst (run client (for_each g acc (fun a ev => mret (upd a ev))) w1)
    = match fst (run client g w2) with
      | Returned _ => Returned (fold_left upd (emitted client g w2) acc)
      | Raised e => Raised e
      | OutOfFuel => OutOfFuel
      end.
Proof.
  induction g as [a|e|y c IH|c IH|c IH|s c IH|]; intros acc w1 w2 Ha.
  - simpl. now rewrite emitted_nil.
  - reflexivity.
  - rewrite emitted_yield. simpl.
    apply (IH (upd acc y) w1 (suspend client (AtYield y) w2)).
    now rewrite agent_suspend_passive.
  - rewrite emitted_await. simpl.
    apply (IH acc (suspend client AtAwait w1) (suspend client AtAwait w2)).
    now rewrite !agent_suspend_passive.
  - simpl. rewrite Ha. unfold emitted. simpl. now apply IH.
  - simpl. unfold emitted. simpl.
    apply (IH acc {| agent_of := s; trace := trace w1; clock := clock w1 |}
             {| agent_of := s; trace := trace w2; clock := clock w2 |}).
    reflexivity.
  - reflexivity.
Qed.

End ReadOnlyConsumers.

(** X14. [run] returns what the run ended with.  With a caller that never
    cancels, whenever [stream] returns, [run] returns the message of the
    [done] event that closes the trace, for either agent: the text of the
    finished step, "Max steps reached", or the device error. *)
Theorem run_returns_closing_message (env : Env) (max_steps : Z)
    (client : nat -> suspension -> bool) (fuel : nat) (task : string)
    (s0 : agent) (impl : AsyncAgentImpl) (w' : world) :
  impl = GLM.glm_agent env \/ impl = Gemini.gemini_agent env ->
  never_cancels client ->
  run client (stream env max_steps (impl := impl) fuel task) (start s0)
  = (Returned tt, w') ->
  exists msg steps ok,
    last (trace w') = Some (EvDone msg steps ok) /\
    fst (run client (AgentRun.run env max_steps (impl := impl) fuel task)
           (start s0))
    = Returned msg.
Proof.
  intros Himpl Hpassive Hr.
  assert (Hshape : exists evs msg steps ok,
            trace w' = evs ++ [EvDone msg steps ok]).
  { destruct Himpl as [-> | ->].
    - destruct (glm_stream_shape env max_steps client fuel task s0 _ w' Hr)
        as (j & evs & tail & Ht & _ & _ & _ & (msg & steps & ok & ->) & _).
      eauto.
    - destruct (gemini_stream_shape env max_steps client fuel task s0 _ w' Hr)
        as (j & evs & tail & Ht & _ & _ & _ & (msg & steps & ok & ->) & _).
      eauto. }
  destruct Hshape as (evs & msg & steps & ok & Ht).
  exists msg, steps, ok. split; [rewrite Ht; apply last_snoc|].
  unfold AgentRun.run.
  rewrite (run_for_each_fold client Hpassive AgentRun.keep_done _ _
             (start s0) (start s0) eq_refl).
  rewrite Hr. simpl fst. unfold emitted. rewrite Hr. simpl.
  rewrite drop_0, Ht, fold_left_app. reflexivity.
Qed.

(** On the scripted model that never finishes, with 3 steps. *)
Lemma run_returns_closing_message_witness :
  exists msg steps ok,
    last (trace (snd (run Scenario.passive
                        (stream Scenario.never_finishing 3
                           (impl := GLM.glm_agent Scenario.never_finishing)
                           3 "open settings")
                        (start (init_agent "system prompt")))))
    = Some (EvDone msg steps ok) /\
    fst (run Scenario.passive
           (AgentRun.run Scenario.never_finishing 3
              (impl := GLM.glm_agent Scenario.never_finishing) 3
              "open settings")
           (start (init_agent "system prompt")))
    = Returned msg.
Proof.
  apply (run_returns_closing_message Scenario.never_finishing 3
           Scenario.passive 3 "open settings" (init_agent "system prompt")
           (GLM.glm_agent Scenario.never_finishing)).
  - left. reflexivity.
  - intros n p. reflexivity.
  - vm_compute. reflexivity.
Defined.

(** ** The scheduler's reading of a run *)

Section SchedulerFacts.
Import Scheduler.

Context {MessageRecord : Type}
  (record : string -> option (gmap string pyval) -> nat -> MessageRecord)
  (client : nat -> suspension -> bool)
  (Hpassive : never_cancels client).

Lemma run_async_scan (g : Gen event unit) :
  forall (l : locals) (w1 w2 : world),
    agent_of w1 = agent_of w2 ->
    fst (run client (run_async record g l) w1)
    = (let '(l', stop) := scan record (emitted client g w2) l in
       if stop : bool then Returned l'
       else match fst (run client g w2) with
            | Returned _ => Returned l'
            | Raised e => Raised e
            | OutOfFuel => OutOfFuel
            end).
Proof.
  induction g as [a|e|y c IH|c IH|c IH|s c IH|]; intros l w1 w2 Ha.
  - simpl. now rewrite emitted_nil.
  - simpl. now rewrite emitted_nil.
  - rewrite emitted_yield. simpl.
    destruct (on_event record l y) as [l' [|]]; [reflexivity|].
    apply (IH l' w1 (suspend client (AtYield y) w2)).
    now rewrite agent_suspend_passive.
  - rewrite emitted_await. simpl.
    apply (IH l (suspend client AtAwait w1) (suspend client AtAwait w2)).
    now rewrite !agent_suspend_passive.
  - simpl. rewrite Ha. unfold emitted. simpl. now apply IH.
  - simpl. unfold emitted. simpl.
    apply (IH l {| agent_of := s; trace := trace w1; clock := clock w1 |}
             {| agent_of := s; trace := trace w2; clock := clock w2 |}).
    reflexivity.
  - simpl. now rewrite emitted_nil.
Qed.

Lemma scan_success (evs : list event) :
  forall (l l' : locals) (stop : bool),
    scan record evs l = (l', stop) ->
    task_success l = false -> task_success l' = true ->
    exists before msg steps rest,
      evs = before ++ EvDone msg steps true :: rest /\
      Forall (fun ev => is_done ev = false) before /\
      result_message l' = msg /\
      messages l' = messages l ++ step_records record before.
Proof.
  induction evs as [|ev evs IH]; intros l l' stop Hs Hl Hl'.
  - injection Hs as <- <-. congruence.
  - simpl in Hs. destruct ev as [chunk|d|msg n ok|msg|msg]; simpl in Hs.
    + destruct (IH _ _ _ Hs Hl Hl') as (b & m & n & r & -> & Hb & Hm & Hmsgs).
      exists (EvThinking chunk :: b), m, n, r. auto.
    + destruct (IH _ _ _ Hs Hl Hl') as (b & m & n & r & -> & Hb & Hm & Hmsgs).
      exists (EvStep d :: b), m, n, r. simpl in Hmsgs.
      rewrite Hmsgs, <- app_assoc. auto.
    + injection Hs as <- <-. simpl in Hl'. subst ok.
      exists [], msg, n, evs. simpl. rewrite app_nil_r. auto.
    + injection Hs as <- <-. discriminate.
    + destruct (IH _ _ _ Hs Hl Hl') as (b & m & n & r & -> & Hb & Hm & Hmsgs).
      exists (EvCancelled msg :: b), m, n, r. auto.
Qed.

Lemma first_done_unique (l1 l2 r1 r2 : list event) (x y : event) :
  Forall (fun ev => is_done ev = false) l1 ->
  Forall (fun ev => is_done ev = false) l2 ->
  is_done x = true -> is_done y = true ->
  l1 ++ x :: r1 = l2 ++ y :: r2 ->
  l1 = l2 /\ x = y /\ r1 = r2.
Proof.
  revert l2. induction l1 as [|a l1 IH]; intros l2 H1 H2 Hx Hy Heq.
  - destruct l2 as [|b l2]; simpl in Heq.
    + injection Heq as -> ->. auto.
    + injection Heq as -> _. inversion H2; subst. congruence.
  - destruct l2 as [|b l2]; simpl in Heq.
    + injection Heq as -> _. inversion H1; subst. congruence.
    + injection Heq as -> Heq. inversion H1; inversion H2; subst.
      destruct (IH l2) as (-> & -> & ->); auto.
Qed.

Lemma step_records_app (a b : list event) :
  step_records record (a ++ b) = step_records record a ++ step_records record b.
Proof.
  induction a as [|ev a IH]; [reflexivity|].
  destruct ev; simpl; rewrite IH; reflexivity.
Qed.

Lemma ordinary_not_done (evs : list event) :
  Forall ordinary evs -> Forall (fun ev => is_done ev = false) evs.
Proof. intros H. eapply Forall_impl; [exact H|]. now intros ev [Hd _]. Qed.

Lemma scheduler_earned (g : Gen event unit) (s0 : agent) (l0 l : locals)
    (o : outcome unit) (w' : world) (evs tail : list event) :
  run client g (start s0) = (o, w') ->
  trace w' = evs ++ tail -> Forall ordinary evs ->
  StepLogic.closing o tail -> StepLogic.success_is_earned evs tail ->
  fst (run client (run_async record g l0) (start s0)) = Returned l ->
  task_success l0 = false -> task_success l = true ->
  exists evs0 d steps,
    trace w' = evs0 ++ [EvStep d; EvDone (ev_message d) steps true] /\
    ev_finished d = true /\ ev_success d = true /\
    result_message l = ev_message d /\
    messages l = messages l0 ++ step_records record (evs0 ++ [EvStep d]) /\
    last (messages l)
    = Some (record (ev_thinking d) (ev_action d) (ev_step d)).
Proof.
  intros Hr Ht Ho Hc He Hrun Hl0 Hl.
  rewrite (run_async_scan g l0 (start s0) (start s0) eq_refl) in Hrun.
  unfold emitted in Hrun. rewrite Hr in Hrun. simpl in Hrun.
  rewrite drop_0, Ht in Hrun.
  destruct (scan record (evs ++ tail) l0) as [l1 stop] eqn:Es.
  assert (l1 = l) as ->.
  { destruct stop; [congruence|]. destruct o; congruence. }
  destruct (scan_success _ _ _ _ Es Hl0 Hl)
    as (before & msg & steps & rest & Heq & Hb & Hm & Hmsgs).
  assert (Htail : tail = [EvDone msg steps true] /\ before = evs).
  { destruct o as [a|e|]; simpl in Hc.
    - destruct Hc as (m & n & ok & ->).
      destruct (first_done_unique evs before [] rest (EvDone m n ok)
                  (EvDone msg steps true)) as (-> & -> & _);
        auto using ordinary_not_done.
    - assert (Hall : Forall (fun ev => is_done ev = false) (evs ++ tail)).
      { apply Forall_app_2; [now apply ordinary_not_done|].
        subst tail. destruct (StepLogic.is_cancel e); repeat constructor. }
      rewrite Heq in Hall. apply Forall_app in Hall as [_ Hall].
      inversion Hall; subst. discriminate.
    - subst tail. rewrite app_nil_r in Heq. subst evs.
      apply Forall_app in Ho as [_ Ho]. inversion Ho as [|? ? [Hd _] _]; subst.
      discriminate. }
  destruct Htail as [-> ->].
  destruct (He msg steps eq_refl) as (evs0 & d & -> & Hfin & Hsucc & Hmsg & _).
  assert (Hd : msg = ev_message d) by congruence.
  exists evs0, d, steps. rewrite Ht, <- Hd, <- app_assoc.
  split; [reflexivity|]. split; [exact Hfin|]. split; [exact Hsucc|].
  split; [exact Hm|]. split; [exact Hmsgs|].
  rewrite Hmsgs, step_records_app. simpl. rewrite app_assoc. apply last_snoc.
Qed.

End SchedulerFacts.

(** X15. The scheduler records success only for a run that earned it.  When
    [run_async] consumes a run of either agent and ends with
    [task_success] set, the events of the run end with a step event with
    [finished] and [success] set and the [done] event that repeats its
    message and reports success; [result_message] is the message of that
    step, and the records kept are one for each step event of the run, in
    order, so that the record of that step is the last.  A run that ends
    at the step bound, or with a device or model error, is never recorded
    as a success. *)
Theorem scheduler_success_is_earned {MessageRecord : Type}
    (record : string -> option (gmap string pyval) -> nat -> MessageRecord)
    (env : Env) (max_steps : Z) (client : nat -> suspension -> bool)
    (fuel : nat) (task : string) (s0 : agent) (impl : AsyncAgentImpl)
    (l0 l : Scheduler.locals) :
  impl = GLM.glm_agent env \/ impl = Gemini.gemini_agent env ->
  never_cancels client ->
  Scheduler.task_success l0 = false ->
  fst (run client
         (Scheduler.run_async record
            (stream env max_steps (impl := impl) fuel task) l0)
         (start s0)) = Returned l ->
  Scheduler.task_success l = true ->
  exists evs0 d steps,
    trace (snd (run client (stream env max_steps (impl := impl) fuel task)
                  (start s0)))
    = evs0 ++ [EvStep d; EvDone (ev_message d) steps true] /\
    ev_finished d = true /\ ev_success d = true /\
    Scheduler.result_message l = ev_message d /\
    Scheduler.messages l
    = Scheduler.messages l0
      ++ Scheduler.step_records record (evs0 ++ [EvStep d]) /\
    last (Scheduler.messages l)
    = Some (record (ev_thinking d) (ev_action d) (ev_step d)).
Proof.
  intros Himpl Hpassive Hl0 Hrun Hl.
  destruct (run client (stream env max_steps (impl := impl) fuel task)
              (start s0)) as [o w'] eqn:Hr.
  destruct Himpl as [-> | ->].
  - destruct (glm_stream_shape env max_steps client fuel task s0 o w' Hr)
      as (j & evs & tail & Ht & Ho & _ & He & Hc & _).
    exact (scheduler_earned record client Hpassive _ s0 l0 l o w' evs tail
             Hr Ht Ho Hc He Hrun Hl0 Hl).
  - destruct (gemini_stream_shape env max_steps client fuel task s0 o w' Hr)
      as (j & evs & tail & Ht & Ho & _ & He & Hc & _).
    exact (scheduler_earned record client Hpassive _ s0 l0 l o w' evs tail
             Hr Ht Ho Hc He Hrun Hl0 Hl).
Qed.

(** On an executor that succeeds and asks to finish in step 1, with the
    step number as record. *)
Lemma scheduler_success_is_earned_witness :
  exists evs0 d steps,
    trace (snd (run Scenario.passive
                  (stream StepScenario.executor_finishing 5
                     (impl := GLM.glm_agent StepScenario.executor_finishing)
                     5 "open settings")
                  (start (init_agent "system prompt"))))
    = evs0 ++ [EvStep d; EvDone (ev_message d) steps true] /\
    ev_finished d = true /\ ev_success d = true /\
    PStr "stop here" = ev_message d /\
    [1%nat] = [] ++ Scheduler.step_records (fun _ _ k => k)
                      (evs0 ++ [EvStep d]) /\
    last [1%nat] = Some (ev_step d).
Proof.
  exact (scheduler_success_is_earned (fun _ _ k => k)
           StepScenario.executor_finishing 5 Scenario.passive 5
           "open settings" (init_agent "system prompt")
           (GLM.glm_agent StepScenario.executor_finishing)
           {| Scheduler.messages := []; Scheduler.result_message := PStr EmptyString;
              Scheduler.task_success := false |}
           {| Scheduler.messages := [1%nat];
              Scheduler.result_message := PStr "stop here";
              Scheduler.task_success := true |}
           (or_introl eq_refl) (fun _ _ => eq_refl) eq_refl
           ltac:(vm_compute; reflexivity) eq_refl).
Defined.

(** ** The coordinator: whole runs *)

Section DualRuns.
Import DualModel DualRunLogic.

Context (env : DualEnv) (max_steps : Z).

Lemma callback_runs {A} (cb : option (A -> res unit)) (a : A) (w : dworld) :
  callback_ok cb -> callback cb a w = (Ok tt, w).
Proof.
  intros H. specialize (H a). destruct cb as [f|]; simpl; [|reflexivity].
  unfold lift. now rewrite H.
Qed.

Lemma untouched_refl w : untouched w w.
Proof. repeat split. Qed.

Lemma untouched_trans a b c : untouched a b -> untouched b c -> untouched a c.
Proof. intros (H1 & H2 & H3) (H4 & H5 & H6). repeat split; congruence. Qed.

Lemma untouched_update_state f : preserves untouched (_update_state f).
Proof. intros w. repeat split. Qed.

Lemma untouched_emit t d m :
  t <> TASK_COMPLETE -> preserves untouched (_emit_event t d m).
Proof.
  intros Ht w. split; [reflexivity|]. split; [reflexivity|]. simpl.
  rewrite List.filter_app. simpl. unfold is_task_complete at 2. simpl.
  rewrite bool_decide_eq_false_2 by assumption. apply app_nil_r.
Qed.

Lemma untouched_thinking_chunks chunks :
  preserves untouched (thinking_chunks env chunks).
Proof.
  induction chunks as [|c rest IH]; simpl.
  - apply preserves_ret, untouched_refl.
  - apply preserves_bind;
      [apply untouched_trans|apply untouched_emit; discriminate|].
    intros _.
    apply preserves_bind;
      [apply untouched_trans|apply preserves_callback, untouched_refl|].
    intros _. exact IH.
Qed.

Ltac tidy_queue :=
  cbn [step_count vision_log event_queue set_state set_count];
  rewrite ?List.filter_app; cbn [List.filter];
  unfold is_task_complete; cbn [type];
  rewrite ?bool_decide_eq_false_2 by discriminate;
  rewrite ?app_nil_r.

Ltac tidy_queue_in H :=
  cbn [step_count vision_log event_queue set_state set_count] in H;
  rewrite ?List.filter_app in H; cbn [List.filter] in H;
  unfold is_task_complete in H; cbn [type] in H;
  rewrite ?bool_decide_eq_false_2 in H by discriminate;
  rewrite ?app_nil_r in H.

Ltac untouched_from Hu :=
  let H1 := fresh "Hu1" in
  let H2 := fresh "Hu2" in
  let H3 := fresh "Hu3" in
  destruct Hu as (H1 & H2 & H3);
  tidy_queue_in H1; tidy_queue_in H2; tidy_queue_in H3;
  unfold untouched; tidy_queue;
  rewrite ?H1, ?H2, ?H3; repeat split.

Lemma thinking_chunks_runs (chunks : list string) (w : dworld) :
  callback_ok (on_decision_thinking (callbacks env)) ->
  exists w1, thinking_chunks env chunks w = (Ok tt, w1) /\ untouched w w1.
Proof.
  intros Hcb. revert w. induction chunks as [|c rest IH]; intros w.
  - exists w. split; [reflexivity|apply untouched_refl].
  - simpl. rewrite !D_bind_run. unfold _emit_event at 1. cbv beta iota.
    rewrite D_bind_run, callback_runs by assumption. cbv beta iota.
    match goal with
    | |- context [thinking_chunks env rest ?W] => destruct (IH W) as (w1 & Hr & Hu)
    end.
    exists w1. split; [exact Hr|]. untouched_from Hu.
Qed.

(** The part of [run] before the loop, when the task cannot be analysed. *)
Lemma run_body_analysis_raises (fuel : nat) (task : string) (w : dworld)
    (chunks : list string) (e : exn) :
  analyze_task env task = (chunks, Raise e) ->
  callback_ok (on_decision_start (callbacks env)) ->
  callback_ok (on_decision_thinking (callbacks env)) ->
  exists w1, run_body env max_steps fuel task w = (Raise e, w1) /\ untouched w w1.
Proof.
  intros Ha Hcb1 Hcb2. unfold run_body.
  rewrite D_bind_run. unfold _update_state at 1. cbv beta iota zeta.
  rewrite D_bind_run. unfold _emit_event at 1. cbv beta iota.
  rewrite D_bind_run, callback_runs by assumption. cbv beta iota.
  rewrite D_bind_run. unfold deciding. rewrite D_bind_run, Ha. cbn [fst snd].
  match goal with
  | |- context [thinking_chunks env chunks ?W] =>
      destruct (thinking_chunks_runs chunks W Hcb2) as (w1 & Hr & Hu)
  end.
  rewrite Hr. cbv beta iota. unfold lift at 1. cbv beta iota.
  exists w1. split; [reflexivity|]. untouched_from Hu.
Qed.

(** The part of [run] before the loop, when the analysis goes through. *)
Lemma run_body_reaches_loop (fuel : nat) (task : string) (w : dworld)
    (chunks : list string) (plan : TaskPlan) :
  analyze_task env task = (chunks, Ok plan) ->
  callback_ok (on_decision_start (callbacks env)) ->
  callback_ok (on_decision_thinking (callbacks env)) ->
  callback_ok (on_task_plan (callbacks env)) ->
  exists w1,
    untouched w w1 /\
    run_body env max_steps fuel task w
    = match run_loop env max_steps fuel false EmptyString w1 with
      | (Ok NoFuel, w2) => (Ok None, w2)
      | (Ok (EarlyReturn r), w2) => (Ok (Some r), w2)
      | (Ok (LoopDone finished last_message), w2) =>
          let message :=
            if finished then last_message
            else "达到最大步数限制(" +:+ pretty max_steps +:+ ")" in
          (_emit_event TASK_COMPLETE
             {[ "success" := PBool finished; "message" := PStr message;
                "steps" := PInt (Z.of_nat (step_count w2)) ]} None ;;
           callback (on_task_complete (callbacks env)) (finished, message) ;;
           mret (Some {| rr_success := finished; rr_message := message;
                         rr_steps := step_count w2 |})) w2
      | (Raise e, w2) => (Raise e, w2)
      end.
Proof.
  intros Ha Hcb1 Hcb2 Hcb3. unfold run_body.
  rewrite D_bind_run. unfold _update_state at 1. cbv beta iota zeta.
  rewrite D_bind_run. unfold _emit_event at 1. cbv beta iota.
  rewrite D_bind_run, callback_runs by assumption. cbv beta iota.
  rewrite D_bind_run. unfold deciding. rewrite D_bind_run, Ha. cbn [fst snd].
  match goal with
  | |- context [thinking_chunks env chunks ?W] =>
      destruct (thinking_chunks_runs chunks W Hcb2) as (w1 & Hr & Hu)
  end.
  rewrite Hr. cbv beta iota. unfold lift at 1. cbv beta iota.
  rewrite D_bind_run. unfold _emit_event at 1. cbv beta iota.
  rewrite D_bind_run, callback_runs by assumption. cbv beta iota.
  rewrite D_bind_run. cbv beta iota. rewrite D_bind_run.
  match goal with
  | |- context [run_loop env max_steps fuel false EmptyString ?W] =>
      exists W; split
  end.
  - untouched_from Hu.
  - destruct (run_loop env max_steps fuel false EmptyString _)
      as [[[fin msg|r|]|e] w2]; reflexivity.
Qed.

End DualRuns.

(** X16. The task cannot be analysed: the run ends before its first step, with
    the failure as its result.  The result reports no success, zero steps
    and the text of the exception; an [error] event closes the queue; the
    vision model is never called. *)
Theorem dual_analysis_failure_ends_run (env : DualModel.DualEnv)
    (max_steps : Z) (fuel : nat) (task : string) (w0 : DualModel.dworld)
    (chunks : list string) (e : exn) :
  DualModel.analyze_task env task = (chunks, Raise e) ->
  is_Exception e = true ->
  callback_ok (DualModel.on_decision_start (DualModel.callbacks env)) ->
  callback_ok (DualModel.on_decision_thinking (DualModel.callbacks env)) ->
  exists w',
    DualModel.run env max_steps fuel task w0
    = (Ok (Some {| DualModel.rr_success := false;
                   DualModel.rr_message := "执行异常: " +:+ exn_msg e;
                   DualModel.rr_steps := 0 |}), w') /\
    DualModel.vision_log w' = DualModel.vision_log w0 /\
    last (DualModel.event_queue w')
    = Some {| DualModel.type := DualModel.ERROR;
              DualModel.data := {[ "message" := PStr (exn_msg e) ]};
              DualModel.model := None; DualModel.step := 0 |}.
Proof.
  intros Ha He Hcb1 Hcb2. unfold DualModel.run.
  destruct (run_body_analysis_raises env max_steps fuel task
              (DualModel.set_count 0 w0) chunks e Ha Hcb1 Hcb2)
    as (w1 & Hr & Hk & Hv & _).
  rewrite Hr, He. simpl in Hk, Hv.
  rewrite D_bind_run. unfold DualModel._emit_event at 1. cbv beta iota.
  unfold mret, DualModel.D_ret. cbn [DualModel.step_count]. rewrite Hk.
  eexists. split; [reflexivity|]. split; [exact Hv|].
  simpl. apply last_snoc.
Qed.

(** On a decision model that is offline. *)
Lemma dual_analysis_failure_ends_run_witness :
  exists w',
    DualModel.run DualScenario2.no_plan 5 5 "open settings" DualModel.fresh
    = (Ok (Some {| DualModel.rr_success := false;
                   DualModel.rr_message :=
                     "执行异常: "
                       +:+ exn_msg (Exn OtherError "model offline");
                   DualModel.rr_steps := 0 |}), w') /\
    DualModel.vision_log w' = DualModel.vision_log DualModel.fresh /\
    last (DualModel.event_queue w')
    = Some {| DualModel.type := DualModel.ERROR;
              DualModel.data :=
                {[ "message" := PStr (exn_msg (Exn OtherError "model offline")) ]};
              DualModel.model := None; DualModel.step := 0 |}.
Proof.
  refine (dual_analysis_failure_ends_run DualScenario2.no_plan 5 5
            "open settings" DualModel.fresh ["hm"]
            (Exn OtherError "model offline") _ _ _ _).
  - reflexivity.
  - reflexivity.
  - intros a. exact I.
  - intros a. exact I.
Defined.

(** X17. A stop that is requested while the task is analysed ends the run
    before its first step: the result says the user interrupted the task,
    with zero steps; the vision model is never called, and no
    [task_complete] event is queued for this run. *)
Theorem dual_stop_before_first_step (env : DualModel.DualEnv)
    (max_steps : Z) (fuel : nat) (task : string) (w0 : DualModel.dworld)
    (chunks : list string) (plan : DualModel.TaskPlan) :
  DualModel.analyze_task env task = (chunks, Ok plan) ->
  DualModel.stop_is_set env 0 = true ->
  (0 < max_steps)%Z ->
  callback_ok (DualModel.on_decision_start (DualModel.callbacks env)) ->
  callback_ok (DualModel.on_decision_thinking (DualModel.callbacks env)) ->
  callback_ok (DualModel.on_task_plan (DualModel.callbacks env)) ->
  exists w',
    DualModel.run env max_steps (S fuel) task w0
    = (Ok (Some {| DualModel.rr_success := false;
                   DualModel.rr_message := "任务被用户中断";
                   DualModel.rr_steps := 0 |}), w') /\
    DualModel.vision_log w' = DualModel.vision_log w0 /\
    List.filter DualRunLogic.is_task_complete (DualModel.event_queue w')
    = List.filter DualRunLogic.is_task_complete (DualModel.event_queue w0).
Proof.
  intros Ha Hstop Hmax Hcb1 Hcb2 Hcb3. unfold DualModel.run.
  destruct (run_body_reaches_loop env max_steps (S fuel) task
              (DualModel.set_count 0 w0) chunks plan Ha Hcb1 Hcb2 Hcb3)
    as (w1 & (Hk & Hv & Hq) & Hr).
  rewrite Hr. clear Hr. simpl in Hk, Hv, Hq.
  rewrite run_loop_S, D_bind_run. unfold DualModel.read at 1. cbv beta iota.
  rewrite Hk. apply Z.ltb_lt in Hmax. change (Z.of_nat 0) with 0%Z.
  rewrite Hmax, Hstop.
  cbn [negb andb]. cbv beta iota.
  exists w1. auto.
Qed.

(** On a user who stops the task at once. *)
Lemma dual_stop_before_first_step_witness :
  exists w',
    DualModel.run DualScenario2.stopped_early 5 1 "open settings"
      DualModel.fresh
    = (Ok (Some {| DualModel.rr_success := false;
                   DualModel.rr_message := "任务被用户中断";
                   DualModel.rr_steps := 0 |}), w') /\
    DualModel.vision_log w' = DualModel.vision_log DualModel.fresh /\
    List.filter DualRunLogic.is_task_complete (DualModel.event_queue w')
    = List.filter DualRunLogic.is_task_complete
        (DualModel.event_queue DualModel.fresh).
Proof.
  refine (dual_stop_before_first_step DualScenario2.stopped_early 5 0
            "open settings" DualModel.fresh []
            {| DualModel.plan_dict := PDict ∅; DualModel.steps := [];
               DualModel.estimated_actions := 1 |} _ _ _ _ _ _).
  - reflexivity.
  - reflexivity.
  - lia.
  - intros a. exact I.
  - intros a. exact I.
  - intros a. exact I.
Defined.

(** ** The coordinator: the step bound *)

Section DualBound.
Import DualModel DualRunLogic DualInvariant.

Context (env : DualEnv) (max_steps : Z).

Lemma maintains_bind {A B} (I : dworld -> Prop) (Q : A -> dworld -> Prop)
    (R : B -> dworld -> Prop) (m : D A) (f : A -> D B) :
  maintains I Q m ->
  (forall a w, I w -> Q a w ->
     I (snd (f a w)) /\ forall b, fst (f a w) = Ok b -> R b (snd (f a w))) ->
  maintains I R (m ≫= f).
Proof.
  intros Hm Hf w Hw. rewrite D_bind_run.
  destruct (Hm w Hw) as [Hi Hq].
  destruct (m w) as [[a|e] w1]; simpl in *.
  - apply Hf; auto.
  - split; [exact Hi|]. discriminate.
Qed.

Lemma maintains_same {A} (m : D A) :
  preserves same_step m -> maintains (within max_steps) (fun _ _ => True) m.
Proof.
  intros Hm w Hw. split; [|auto].
  unfold within in *. now rewrite (Hm w).
Qed.

Lemma maintains_seq {A B} (R : B -> dworld -> Prop) (m : D A) (f : A -> D B) :
  preserves same_step m ->
  (forall a, maintains (within max_steps) R (f a)) ->
  maintains (within max_steps) R (m ≫= f).
Proof.
  intros Hm Hf. eapply maintains_bind; [apply maintains_same, Hm|].
  intros a w Hw _. apply Hf, Hw.
Qed.

Lemma same_execute_step : preserves same_step (_execute_step env).
Proof.
  intros w. unfold _execute_step.
  pose proof (same_step_body env w) as H.
  destruct (step_body env w) as [[r|e] w1]; simpl in *; [exact H|].
  destruct (is_Exception e); exact H.
Qed.

Lemma same_callback {A} (cb : option (A -> res unit)) (a : A) :
  preserves same_step (callback cb a).
Proof. apply preserves_callback, same_refl. Qed.

Lemma maintains_intro {A} (I : dworld -> Prop) (Q : A -> dworld -> Prop)
    (m : D A) :
  (forall w r w', I w -> m w = (r, w') ->
     I w' /\ forall a, r = Ok a -> Q a w') ->
  maintains I Q m.
Proof.
  intros H w Hw. destruct (m w) as [r w'] eqn:E. exact (H w r w' Hw E).
Qed.

Lemma maintains_elim {A} (I : dworld -> Prop) (Q : A -> dworld -> Prop)
    (m : D A) (w : dworld) (r : res A) (w' : dworld) :
  maintains I Q m -> I w -> m w = (r, w') ->
  I w' /\ forall a, r = Ok a -> Q a w'.
Proof. intros H Hw E. specialize (H w Hw). now rewrite E in H. Qed.

Lemma run_loop_within (fuel : nat) :
  forall finished last_message,
    maintains (within max_steps) early_steps
      (run_loop env max_steps fuel finished last_message).
Proof.
  induction fuel as [|fuel IH]; intros finished last_message;
    apply maintains_intro; intros w r w' Hw Hr.
  - simpl in Hr. rewrite D_bind_run in Hr. unfold read in Hr.
    cbv beta iota in Hr.
    destruct (negb finished && _); injection Hr as <- <-;
      (split; [exact Hw|]); intros a [= <-] x [=].
  - rewrite run_loop_S, D_bind_run in Hr. unfold read at 1 in Hr.
    cbv beta iota in Hr.
    destruct (negb finished && (Z.of_nat (step_count w) <? max_steps)%Z)
      eqn:Hcond.
    2:{ injection Hr as <- <-. split; [exact Hw|]. intros a [= <-] x [=]. }
    destruct (stop_is_set env (step_count w)).
    { injection Hr as <- <-. split; [exact Hw|].
      intros a [= <-] x [= <-]. reflexivity. }
    apply andb_prop in Hcond as [_ Hlt]. apply Z.ltb_lt in Hlt.
    rewrite D_bind_run in Hr. cbv beta iota in Hr.
    assert (Hw1 : within max_steps (set_count (S (step_count w)) w)).
    { unfold within. simpl. lia. }
    revert Hr. apply maintains_elim; [|exact Hw1].
    apply maintains_seq; [apply same_execute_step|].
    intros step_result. destruct (error_set (sr_error step_result)).
    + apply maintains_seq; [apply same_callback|]. intros _. apply IH.
    + apply maintains_seq; [apply preserves_read, same_refl|]. intros w2.
      apply maintains_seq; [apply same_callback|]. intros _. apply IH.
Qed.

Lemma run_body_within (fuel : nat) (task : string) :
  maintains (within max_steps) reports_steps (run_body env max_steps fuel task).
Proof.
  unfold run_body.
  apply maintains_seq; [apply same_update_state|]. intros _.
  apply maintains_seq; [apply same_emit|]. intros _.
  apply maintains_seq; [apply same_callback|]. intros _.
  apply maintains_seq; [apply same_deciding|]. intros plan.
  apply maintains_seq; [apply same_emit|]. intros _.
  apply maintains_seq; [apply same_callback|]. intros _.
  apply maintains_seq; [intros w; reflexivity|]. intros _.
  eapply maintains_bind; [apply run_loop_within|].
  intros l w Hw Hl.
  destruct ((match l with
             | LoopDone finished last_message =>
                 let message :=
                   if finished then last_message
                   else "达到最大步数限制(" +:+ pretty max_steps +:+ ")" in
                 w ← read;
                 _emit_event TASK_COMPLETE
                   {[ "success" := PBool finished; "message" := PStr message;
                      "steps" := PInt (Z.of_nat (step_count w)) ]} None ;;
                 callback (on_task_complete (callbacks env)) (finished, message) ;;
                 mret (Some {| rr_success := finished; rr_message := message;
                               rr_steps := step_count w |})
             | EarlyReturn r => mret (Some r)
             | NoFuel => mret None
             end) w) as [r w'] eqn:Hr.
  cbn [fst snd]. destruct l as [finished last_message|x|].
  - cbv zeta in Hr. rewrite D_bind_run in Hr. unfold read at 1 in Hr.
    cbv beta iota in Hr.
    rewrite D_bind_run in Hr. unfold _emit_event at 1 in Hr.
    cbv beta iota in Hr. rewrite D_bind_run in Hr.
    match type of Hr with
    | context [callback ?cb ?a ?W] =>
        pose proof (same_callback cb a W) as Hs;
        destruct (callback cb a W) as [[[]|e] w2]
    end; unfold same_step in Hs; simpl in Hs; injection Hr as <- <-.
    + split; [unfold within in *; now rewrite Hs|].
      intros a [= <-] y [= <-]. simpl. now rewrite Hs.
    + split; [unfold within in *; now rewrite Hs|]. discriminate.
  - injection Hr as <- <-. split; [exact Hw|].
    intros a [= <-] y [= <-]. now apply Hl.
  - injection Hr as <- <-. split; [exact Hw|]. intros a [= <-] y [=].
Qed.

End DualBound.

(** X18. The coordinator never runs past its bound.  Whatever the models, the
    callbacks and the stop flag do, a result that [run] returns reports a
    number of steps that is at most [max_steps] (for a bound that is not
    negative), and that number is the step count the coordinator is left
    with. *)
Theorem dual_steps_within_bound (env : DualModel.DualEnv) (max_steps : Z)
    (fuel : nat) (task : string) (w0 w' : DualModel.dworld)
    (r : DualModel.RunResult) :
  (0 <= max_steps)%Z ->
  DualModel.run env max_steps fuel task w0 = (Ok (Some r), w') ->
  (Z.of_nat (DualModel.rr_steps r) <= max_steps)%Z /\
  DualModel.rr_steps r = DualModel.step_count w'.
Proof.
  intros Hmax. unfold DualModel.run.
  destruct (run_body_within env max_steps fuel task (DualModel.set_count 0 w0))
    as [Hin Hrep].
  { unfold DualRunLogic.within. simpl. lia. }
  destruct (DualModel.run_body env max_steps fuel task
              (DualModel.set_count 0 w0)) as [[x|e] w1]; simpl in *.
  - intros [= -> ->]. specialize (Hrep _ eq_refl r eq_refl).
    unfold DualRunLogic.within in Hin. split; [lia|exact Hrep].
  - destruct (is_Exception e); [|discriminate].
    rewrite D_bind_run. unfold DualModel._emit_event at 1. cbv beta iota.
    intros [= <- <-]. simpl. unfold DualRunLogic.within in Hin. auto.
Qed.

(** On a device that cannot be captured, with a bound of 3 steps. *)
Lemma dual_steps_within_bound_witness :
  (Z.of_nat
     (DualModel.rr_steps
        {| DualModel.rr_success := false;
           DualModel.rr_message := "达到最大步数限制(3)";
           DualModel.rr_steps := 3 |}) <= 3)%Z /\
  DualModel.rr_steps
    {| DualModel.rr_success := false;
       DualModel.rr_message := "达到最大步数限制(3)";
       DualModel.rr_steps := 3 |}
  = DualModel.step_count
      (snd (DualModel.run DualScenario.offline 3 3 "open settings"
              DualModel.fresh)).
Proof.
  refine (dual_steps_within_bound DualScenario.offline 3 3 "open settings"
            DualModel.fresh
            (snd (DualModel.run DualScenario.offline 3 3 "open settings"
                    DualModel.fresh))
            {| DualModel.rr_success := false;
               DualModel.rr_message := "达到最大步数限制(3)";
               DualModel.rr_steps := 3 |} _ _).
  - lia.
  - vm_compute. reflexivity.
Defined.

(** ** The coordinator: how the loop ends *)

Section DualEndings.
Import DualModel.

Context (env : DualEnv) (max_steps : Z).

Lemma run_loop_finished (fuel : nat) (last_message : string) (w : dworld) :
  run_loop env max_steps fuel true last_message w
  = (Ok (LoopDone true last_message), w).
Proof. destruct fuel; reflexivity. Qed.

End DualEndings.

(** X19. A finished decision ends the loop there.  When the decision model
    declares the task finished in a step, the loop of [run] is left after
    that step, with nothing executed: its outcome is success, and the
    message of the run is the reasoning of that decision. *)
Theorem dual_finished_decision_ends_loop (env : DualModel.DualEnv)
    (max_steps : Z) (fuel : nat) (last_message : string)
    (w w1 : DualModel.dworld) (screenshot_base64 : string)
    (screen_desc : DualModel.ScreenDescription) (d : DualModel.Decision) :
  (Z.of_nat (DualModel.step_count w) < max_steps)%Z ->
  DualModel.stop_is_set env (DualModel.step_count w) = false ->
  DualModel.perceive_and_decide env
    (DualModel.set_count (S (DualModel.step_count w)) w)
  = (Ok (screenshot_base64, screen_desc, d), w1) ->
  DualModel.finished d = true ->
  callback_ok (DualModel.on_step_complete (DualModel.callbacks env)) ->
  DualModel.run_loop env max_steps (S fuel) false last_message w
  = (Ok (DualModel.LoopDone true (DualModel.reasoning d)), w1) /\
  nothing_dispatched w w1.
Proof.
  intros Hlt Hstop Hp Hf Hcb.
  destruct (finished_skips env _ _ _ _ _ Hp Hf) as [Hstep Hn].
  split; [|exact Hn].
  apply Z.ltb_lt in Hlt.
  rewrite run_loop_S, D_bind_run. unfold DualModel.read at 1. cbv beta iota.
  rewrite Hlt, Hstop. cbn [negb andb].
  rewrite D_bind_run. cbv beta iota.
  rewrite D_bind_run, Hstep. cbv beta iota.
  cbn [DualModel.sr_error DualModel.sr_finished DualModel.sr_decision
       DualModel.sr_success DualModel.error_set].
  rewrite D_bind_run. unfold DualModel.read at 1. cbv beta iota.
  rewrite D_bind_run, callback_runs by assumption. cbv beta iota.
  apply run_loop_finished.
Qed.

(** On a decision model that declares the task finished in step 1. *)
Lemma dual_finished_decision_ends_loop_witness :
  DualModel.run_loop DualScenario.finishing 5 1 false EmptyString
    DualModel.fresh
  = (Ok (DualModel.LoopDone true
           (DualModel.reasoning DualScenario.done_decision)),
     snd (DualModel.perceive_and_decide DualScenario.finishing
            (DualModel.set_count 1 DualModel.fresh))) /\
  nothing_dispatched DualModel.fresh
    (snd (DualModel.perceive_and_decide DualScenario.finishing
            (DualModel.set_count 1 DualModel.fresh))).
Proof.
  refine (dual_finished_decision_ends_loop DualScenario.finishing 5 0
            EmptyString DualModel.fresh
            (snd (DualModel.perceive_and_decide DualScenario.finishing
                    (DualModel.set_count 1 DualModel.fresh)))
            "IMG" DualScenario.screen DualScenario.done_decision _ _ _ _ _).
  - reflexivity.
  - reflexivity.
  - vm_compute. reflexivity.
  - reflexivity.
  - intros a. exact I.
Defined.

(** X20. A run in which every step fails uses up its steps and says so.  With
    a task that can be analysed, steps that all raise, no stop request and
    callbacks that return, [run] returns after exactly [max_steps] steps,
    without success, and its message names the bound. *)
Theorem dual_failing_run_reports_bound (env : DualModel.DualEnv) (n : nat)
    (task : string) (w0 : DualModel.dworld) (chunks : list string)
    (plan : DualModel.TaskPlan) :
  DualModel.analyze_task env task = (chunks, Ok plan) ->
  (forall w, exists e w1,
      DualModel.step_body env w = (Raise e, w1) /\ is_Exception e = true) ->
  (forall k, DualModel.stop_is_set env k = false) ->
  callback_ok (DualModel.on_decision_start (DualModel.callbacks env)) ->
  callback_ok (DualModel.on_decision_thinking (DualModel.callbacks env)) ->
  callback_ok (DualModel.on_task_plan (DualModel.callbacks env)) ->
  callback_ok (DualModel.on_error (DualModel.callbacks env)) ->
  callback_ok (DualModel.on_step_complete (DualModel.callbacks env)) ->
  callback_ok (DualModel.on_task_complete (DualModel.callbacks env)) ->
  exists w',
    DualModel.run env (Z.of_nat n) n task w0
    = (Ok (Some {| DualModel.rr_success := false;
                   DualModel.rr_message :=
                     "达到最大步数限制(" +:+ pretty (Z.of_nat n) +:+ ")";
                   DualModel.rr_steps := n |}), w').
Proof.
  intros Ha Hfail Hstop Hcb1 Hcb2 Hcb3 Hcb4 Hcb5 Hcb6. unfold DualModel.run.
  destruct (run_body_reaches_loop env (Z.of_nat n) n task
              (DualModel.set_count 0 w0) chunks plan Ha Hcb1 Hcb2 Hcb3)
    as (w1 & (Hk & _) & Hr).
  rewrite Hr. clear Hr. simpl in Hk.
  destruct (dual_failing_steps_reach_bound env (Z.of_nat n) EmptyString n
              Hfail Hstop Hcb4 Hcb5 w1) as (w2 & Hloop & Hk2); [lia|].
  rewrite Hloop. cbv beta iota zeta.
  rewrite D_bind_run. unfold DualModel._emit_event at 1. cbv beta iota.
  rewrite D_bind_run, callback_runs by assumption. cbv beta iota.
  unfold mret, DualModel.D_ret. rewrite Hk2, Hk. simpl Nat.add.
  eexists. reflexivity.
Qed.

(** On a device that cannot be captured, with 3 steps. *)
Lemma dual_failing_run_reports_bound_witness :
  exists w',
    DualModel.run DualScenario.offline (Z.of_nat 3) 3 "open settings"
      DualModel.fresh
    = (Ok (Some {| DualModel.rr_success := false;
                   DualModel.rr_message :=
                     "达到最大步数限制(" +:+ pretty (Z.of_nat 3) +:+ ")";
                   DualModel.rr_steps := 3 |}), w').
Proof.
  refine (dual_failing_run_reports_bound DualScenario.offline 3
            "open settings" DualModel.fresh []
            {| DualModel.plan_dict := PDict ∅; DualModel.steps := [];
               DualModel.estimated_actions := 1 |} _ _ _ _ _ _ _ _ _).
  - reflexivity.
  - intros w. exists (Exn OtherError "device offline"). eexists.
    split; reflexivity.
  - intros k. reflexivity.
  - intros a. exact I.
  - intros a. exact I.
  - intros a. exact I.
  - intros a. exact I.
  - intros a. exact I.
  - intros a. exact I.
Defined.

(** ** The coordinator: the events of a step *)

Section DualTagged.
Import DualModel DualRunLogic.

Context (env : DualEnv).

Lemma tagged_refl w : tagged w w.
Proof. split; [reflexivity|]. exists []. now rewrite app_nil_r. Qed.

Lemma tagged_trans a b c : tagged a b -> tagged b c -> tagged a c.
Proof.
  intros [Hk1 (e1 & Hq1 & Hf1)] [Hk2 (e2 & Hq2 & Hf2)].
  split; [congruence|]. exists (e1 ++ e2).
  split; [rewrite Hq2, Hq1; apply eq_sym, app_assoc|].
  apply Forall_app_2; [exact Hf1|]. now rewrite Hk1 in Hf2.
Qed.

Lemma tagged_update_state f : preserves tagged (_update_state f).
Proof.
  intros w. split; [reflexivity|]. exists []. simpl. now rewrite app_nil_r.
Qed.

Lemma tagged_emit t d m : preserves tagged (_emit_event t d m).
Proof.
  intros w. split; [reflexivity|]. eexists. split; [reflexivity|].
  repeat constructor.
Qed.

Lemma tagged_vision {A} c (r : res A) : preserves tagged (vision c r).
Proof. intros w. split; [reflexivity|]. exists []. simpl. now rewrite app_nil_r. Qed.

Lemma tagged_thinking_chunks chunks :
  preserves tagged (thinking_chunks env chunks).
Proof.
  induction chunks as [|c rest IH]; simpl.
  - apply preserves_ret, tagged_refl.
  - apply preserves_bind; [apply tagged_trans|apply tagged_emit|]. intros _.
    apply preserves_bind;
      [apply tagged_trans|apply preserves_callback, tagged_refl|].
    intros _. exact IH.
Qed.

Lemma tagged_deciding {A} (call : list string * res A) :
  preserves tagged (deciding env call).
Proof.
  apply preserves_bind; [apply tagged_trans|apply tagged_thinking_chunks|].
  intros _. apply preserves_lift, tagged_refl.
Qed.

Ltac tagged_tac :=
  first
    [ apply tagged_update_state
    | apply tagged_emit
    | apply preserves_callback, tagged_refl
    | apply preserves_read, tagged_refl
    | apply tagged_vision
    | apply tagged_deciding
    | apply preserves_ret, tagged_refl
    | apply preserves_bind; [apply tagged_trans| |intros] ].

Lemma tagged_step_body : preserves tagged (step_body env).
Proof.
  unfold step_body, perceive_and_decide, act.
  repeat (tagged_tac ||
          match goal with
          | |- preserves _ (match ?p with _ => _ end) => destruct p
          end).
Qed.

End DualTagged.

(** X21. Every event a step queues carries the number of that step.  Whatever
    the models and the callbacks do, also when the step fails, a call of
    [_execute_step] leaves the step count as it was and only appends to
    the event queue, and each event it appends has the current step count
    in its [step] field. *)
Theorem dual_step_events_carry_step (env : DualModel.DualEnv)
    (w : DualModel.dworld) :
  DualModel.step_count (snd (DualModel._execute_step env w))
  = DualModel.step_count w /\
  exists evs,
    DualModel.event_queue (snd (DualModel._execute_step env w))
    = DualModel.event_queue w ++ evs /\
    Forall (fun ev => DualModel.step ev = DualModel.step_count w) evs.
Proof.
  pose proof (tagged_step_body env w) as H.
  unfold DualModel._execute_step.
  destruct (DualModel.step_body env w) as [[r|e] w1]; simpl in *; [exact H|].
  destruct (is_Exception e); exact H.
Qed.

(** ** Characters and white space *)

Section CharFacts.
Import Text TextLogic.

Lemma join_chars (s : string) : join (chars s) = s.
Proof.
  induction s as [|c s IH]; [reflexivity|].
  cbn [chars]. destruct (starts_with_continuation s).
  - destruct (chars s) as [|t ts].
    + cbn [join] in *. now rewrite <- IH.
    + cbn [join] in *. rewrite <- IH. reflexivity.
  - cbn [join]. now rewrite IH.
Qed.

Lemma character_piece (t : string) : character t -> piece t.
Proof. destruct t; [exact id|]. now intros [_ H]. Qed.

Lemma characters_well_cut (l : list string) :
  Forall character l -> well_cut l.
Proof.
  intros H. destruct l as [|t ts]; [exact I|].
  inversion H; subst. split; [now apply character_piece|assumption].
Qed.

Lemma chars_cut (s : string) :
  well_cut (chars s) /\
  (starts_with_continuation s = false -> Forall character (chars s)) /\
  match s with
  | EmptyString => chars s = []
  | String c _ => exists r ts, chars s = String c r :: ts
  end.
Proof.
  induction s as [|c s (Hw & Hc & Hh)]; [repeat split; constructor|].
  cbn [chars]. destruct (starts_with_continuation s) eqn:Es.
  - destruct s as [|d s']; [discriminate|]. cbn in Es.
    destruct Hh as (r & ts & Hch). rewrite Hch in *.
    destruct Hw as [Hp Hts]. cbn in Hp.
    assert (Hall : all_continuation (String d r) = true).
    { cbn. now rewrite Es, Hp. }
    split; [split; [exact Hall|exact Hts]|].
    split; [|eauto].
    intros Hcont. cbn in Hcont. constructor; [|exact Hts].
    split; [exact Hcont|exact Hall].
  - split; [split; [reflexivity|now apply Hc]|].
    split; [|eauto].
    intros Hcont. cbn in Hcont. constructor; [|now apply Hc].
    split; [exact Hcont|reflexivity].
Qed.

Lemma chars_piece (r : string) :
  forall (c : ascii) (b : string),
    all_continuation r = true -> starts_with_continuation b = false ->
    chars (String c (r +:+ b)) = String c r :: chars b.
Proof.
  induction r as [|d r IH]; intros c b Hr Hb.
  - change (EmptyString +:+ b) with b. cbn [chars]. now rewrite Hb.
  - cbn in Hr. apply andb_prop in Hr as [Hd Hr].
    change (String d r +:+ b) with (String d (r +:+ b)).
    cbn [chars]. cbn [starts_with_continuation]. rewrite Hd.
    change (match chars (String d (r +:+ b)) with
            | [] => [String c EmptyString]
            | t :: ts => String c t :: ts
            end = String c (String d r) :: chars b).
    now rewrite (IH d b Hr Hb).
Qed.

Lemma join_characters_head (ts : list string) :
  Forall character ts -> starts_with_continuation (join ts) = false.
Proof.
  intros H. destruct ts as [|t ts]; [reflexivity|].
  inversion H as [|? ? Ht _]; subst.
  destruct t as [|c r]; [destruct Ht|]. destruct Ht as [Hc _].
  cbn [join]. change (String c r +:+ join ts) with (String c (r +:+ join ts)).
  exact Hc.
Qed.

Lemma chars_join_characters (ts : list string) :
  Forall character ts -> chars (join ts) = ts.
Proof.
  induction ts as [|t ts IH]; intros H; [reflexivity|].
  inversion H as [|? ? Ht Hts]; subst.
  destruct t as [|c r]; [destruct Ht|]. destruct Ht as [_ Hr].
  cbn [join]. change (String c r +:+ join ts) with (String c (r +:+ join ts)).
  rewrite chars_piece; [now rewrite IH|exact Hr|].
  now apply join_characters_head.
Qed.

Lemma chars_join (l : list string) : well_cut l -> chars (join l) = l.
Proof.
  destruct l as [|t ts]; [reflexivity|]. intros [Ht Hts].
  destruct t as [|c r]; [destruct Ht|]. cbn in Ht.
  cbn [join]. change (String c r +:+ join ts) with (String c (r +:+ join ts)).
  rewrite chars_piece; [now rewrite chars_join_characters|exact Ht|].
  now apply join_characters_head.
Qed.

Lemma lstrip_characters (l : list string) :
  Forall character l -> Forall character (lstrip l).
Proof.
  induction l as [|t ts IH]; intros H; [constructor|].
  cbn [lstrip]. inversion H; subst.
  destruct (is_space t); [now apply IH|exact H].
Qed.

Lemma lstrip_well_cut (l : list string) : well_cut l -> well_cut (lstrip l).
Proof.
  destruct l as [|t ts]; [exact id|]. intros [Ht Hts].
  cbn [lstrip]. destruct (is_space t); [|now split].
  now apply characters_well_cut, lstrip_characters.
Qed.

Lemma rstrip_characters (l : list string) :
  Forall character l -> Forall character (rstrip l).
Proof.
  induction l as [|t ts IH]; intros H; [constructor|].
  inversion H; subst. cbn [rstrip].
  destruct (rstrip ts) as [|t' r] eqn:Er.
  - destruct (is_space t); constructor; [assumption|constructor].
  - constructor; [assumption|now apply IH].
Qed.

Lemma rstrip_well_cut (l : list string) : well_cut l -> well_cut (rstrip l).
Proof.
  destruct l as [|t ts]; [exact id|]. intros [Ht Hts].
  cbn [rstrip]. pose proof (rstrip_characters ts Hts) as Hr.
  destruct (rstrip ts) as [|t' r].
  - destruct (is_space t); [exact I|]. split; [exact Ht|constructor].
  - split; [exact Ht|exact Hr].
Qed.

Lemma rstrip_head (c : string) (l : list string) :
  is_space c = false -> exists r, rstrip (c :: l) = c :: r.
Proof.
  intros Hc. cbn [rstrip]. destruct (rstrip l); rewrite ?Hc; eauto.
Qed.

Lemma lstrip_head (l : list string) :
  lstrip l = [] \/ exists c r, lstrip l = c :: r /\ is_space c = false.
Proof.
  induction l as [|c l IH]; cbn [lstrip]; [now left|].
  destruct (is_space c) eqn:Hc; [exact IH|]. right. eauto.
Qed.

Lemma lstrip_fixed (c : string) (l : list string) :
  is_space c = false -> lstrip (c :: l) = c :: l.
Proof. intros Hc. cbn [lstrip]. now rewrite Hc. Qed.

Lemma rstrip_idem (l : list string) : rstrip (rstrip l) = rstrip l.
Proof.
  induction l as [|c l IH]; [reflexivity|].
  cbn [rstrip]. destruct (rstrip l) as [|d r] eqn:Er.
  - destruct (is_space c) eqn:Hc; [reflexivity|]. cbn [rstrip]. now rewrite Hc.
  - change (match rstrip (d :: r) with
            | [] => if is_space c then [] else [c]
            | a :: b => c :: a :: b
            end = c :: d :: r).
    now rewrite IH.
Qed.

Lemma trim_idem (l : list string) :
  rstrip (lstrip (rstrip (lstrip l))) = rstrip (lstrip l).
Proof.
  destruct (lstrip_head l) as [->|(c & r & -> & Hc)]; [reflexivity|].
  destruct (rstrip_head c r Hc) as [r' Hr]. rewrite Hr.
  rewrite (lstrip_fixed c r' Hc), <- Hr. apply rstrip_idem.
Qed.

Lemma strip_idem (s : string) : strip (strip s) = strip s.
Proof.
  unfold strip. rewrite chars_join.
  - now rewrite trim_idem.
  - apply rstrip_well_cut, lstrip_well_cut, chars_cut.
Qed.

(** The ideographic space U+3000 and the no-break space U+00A0 are white
    space to [strip], and [s[:n]] counts characters: the two bytes of
    [é] are one. *)
Lemma strip_unicode_space :
  strip (String "227" (String "128" (String "128" "abc"))
         ++ String "194" (String "160" EmptyString)) = "abc".
Proof. reflexivity. Qed.

Lemma take_chars_counts_characters :
  take_chars 2 (String "195" (String "169" "tat"))
  = String "195" (String "169" "t") /\
  char_length (String "195" (String "169" "tat")) = 4%nat.
Proof. split; reflexivity. Qed.

End CharFacts.

(** ** The devices of a scheduled task *)

Section NormalizeFacts.
Import Text ScheduledTasks.

Lemma eqb_empty_false (s : string) :
  String.eqb s EmptyString = false <-> s <> EmptyString.
Proof. apply String.eqb_neq. Qed.

Lemma normalize_loop_spec (l : list pyval) :
  forall (normalized : list string) (seen : gset string),
    NoDup normalized ->
    (forall s, s ∈ seen <-> s ∈ normalized) ->
    NoDup (normalize_loop l normalized seen) /\
    forall s,
      s ∈ normalize_loop l normalized seen <->
      s ∈ normalized \/
      (s <> EmptyString /\ exists raw, PStr raw ∈ l /\ s = strip raw).
Proof.
  induction l as [|v l IH]; intros normalized seen Hnd Hseen.
  - simpl. split; [exact Hnd|]. intros s. split; [auto|].
    intros [H|(_ & raw & Hin & _)]; [exact H|]. now apply elem_of_nil in Hin.
  - assert (Hskip :
      (forall raw, v = PStr raw ->
         strip raw = EmptyString \/ strip raw ∈ normalized) ->
      NoDup (normalize_loop l normalized seen) /\
      forall s,
        s ∈ normalize_loop l normalized seen <->
        s ∈ normalized \/
        (s <> EmptyString /\ exists raw, PStr raw ∈ v :: l /\ s = strip raw)).
    { intros Hv. destruct (IH normalized seen Hnd Hseen) as [Hnd' Hin'].
      split; [exact Hnd'|]. intros s. rewrite Hin'. split.
      - intros [H|(Hne & raw & Hraw & Hs)]; [now left|].
        right. split; [exact Hne|]. exists raw. split; [now right|exact Hs].
      - intros [H|(Hne & raw & Hraw & Hs)]; [now left|].
        apply elem_of_cons in Hraw as [Heq|Hraw].
        + destruct (Hv raw (eq_sym Heq)) as [He|Hn]; [congruence|].
          left. now rewrite Hs.
        + right. eauto. }
    destruct v as [| | | |raw| |]; try (apply Hskip; discriminate).
    simpl.
    destruct (String.eqb (strip raw) EmptyString) eqn:He.
    { apply Hskip. intros r [= <-]. left. now apply String.eqb_eq. }
    simpl. destruct (bool_decide (strip raw ∈ seen)) eqn:Hs.
    { apply Hskip. intros r [= <-]. right.
      apply bool_decide_eq_true in Hs. now apply Hseen. }
    apply bool_decide_eq_false in Hs. apply String.eqb_neq in He.
    destruct (IH (normalized ++ [strip raw]) (seen ∪ {[ strip raw ]}))
      as [Hnd' Hin'].
    + apply NoDup_app. split; [exact Hnd|]. split; [|apply NoDup_singleton].
      intros x Hx Hx'. apply list_elem_of_singleton in Hx' as ->.
      apply Hs. now apply Hseen.
    + intros s. rewrite elem_of_union, elem_of_singleton, elem_of_app,
        list_elem_of_singleton. now rewrite Hseen.
    + split; [exact Hnd'|]. intros s. rewrite Hin', elem_of_app,
        list_elem_of_singleton. split.
      * intros [[H| ->]|(Hne & r & Hr & Hsr)].
        -- now left.
        -- right. split; [exact He|]. exists raw. split; [now left|reflexivity].
        -- right. split; [exact Hne|]. exists r. split; [now right|exact Hsr].
      * intros [H|(Hne & r & Hr & Hsr)]; [now left; left|].
        apply elem_of_cons in Hr as [[= ->]|Hr]; [left; now right|].
        right. eauto.
Qed.

Lemma candidates_list (l : list pyval) (raw : string) :
  raw ∈ candidates (PList l) <-> PStr raw ∈ l.
Proof.
  unfold candidates. rewrite list_elem_of_omap. split.
  - intros (v & Hv & Hs). destruct v; try discriminate. now injection Hs as ->.
  - intros H. exists (PStr raw). auto.
Qed.

Lemma normalize_loop_clean (l : list string) :
  forall (normalized : list string) (seen : gset string),
    (forall s, s ∈ seen <-> s ∈ normalized) ->
    NoDup (normalized ++ l) ->
    Forall (fun s => s <> EmptyString /\ strip s = s) l ->
    normalize_loop (PStr <$> l) normalized seen = normalized ++ l.
Proof.
  induction l as [|x l IH]; intros normalized seen Hseen Hnd Hall.
  - simpl. now rewrite app_nil_r.
  - inversion Hall as [|? ? [Hne Hfix] Hrest]; subst.
    simpl. rewrite Hfix.
    apply String.eqb_neq in Hne. rewrite Hne. simpl.
    apply NoDup_app in Hnd as (Hn1 & Hdis & Hn2).
    rewrite bool_decide_eq_false_2.
    2:{ intros Hin. apply Hseen in Hin. apply (Hdis x Hin). now left. }
    rewrite IH; [now rewrite <- app_assoc| | |exact Hrest].
    + intros s. rewrite elem_of_union, elem_of_singleton, elem_of_app,
        list_elem_of_singleton. now rewrite Hseen.
    + rewrite <- app_assoc. simpl. apply NoDup_app. auto.
Qed.

End NormalizeFacts.

Lemma normalized_list_spec (l : list pyval) :
  NoDup (ScheduledTasks.normalize_loop l [] ∅) /\
  forall s,
    s ∈ ScheduledTasks.normalize_loop l [] ∅ <->
    s <> EmptyString /\
    exists raw, raw ∈ ScheduledTasks.candidates (PList l) /\ s = Text.strip raw.
Proof.
  destruct (normalize_loop_spec l [] ∅ NoDup_nil_2) as [Hnd Hin].
  { intros s. rewrite elem_of_empty, elem_of_nil. tauto. }
  split; [exact Hnd|]. intros s. rewrite Hin. split.
  - intros [H|(Hne & raw & Hraw & Hs)]; [now apply elem_of_nil in H|].
    split; [exact Hne|]. exists raw. now rewrite candidates_list.
  - intros (Hne & raw & Hraw & Hs). right. split; [exact Hne|].
    exists raw. now rewrite <- candidates_list.
Qed.

Lemma normalized_serialnos_fixed (serialnos : pyval) :
  NoDup (ScheduledTasks._normalize_device_serialnos serialnos) /\
  Forall (fun s => s <> EmptyString /\ Text.strip s = s)
    (ScheduledTasks._normalize_device_serialnos serialnos).
Proof.
  assert (Hlist : forall l,
    NoDup (ScheduledTasks.normalize_loop l [] ∅) /\
    Forall (fun s => s <> EmptyString /\ Text.strip s = s)
      (ScheduledTasks.normalize_loop l [] ∅)).
  { intros l. destruct (normalized_list_spec l) as [Hnd Hin].
    split; [exact Hnd|]. apply Forall_forall. intros s Hs.
    apply Hin in Hs as (Hne & raw & _ & ->).
    split; [exact Hne|apply strip_idem]. }
  destruct serialnos as [| | | |raw|l|]; simpl;
    try (split; [apply NoDup_nil_2|constructor]); apply Hlist.
Qed.

(** X22. The devices of a scheduled task are clean after normalisation.
    Whatever value is stored under [device_serialnos], the list
    [_normalize_device_serialnos] returns holds no entry twice, and its
    entries are exactly the non-empty results of stripping the strings of
    the value: blank entries and entries that are no strings are dropped,
    and a value that is neither a string nor a list gives the empty
    list. *)
Theorem normalized_serialnos_are_clean (serialnos : pyval) :
  NoDup (ScheduledTasks._normalize_device_serialnos serialnos) /\
  forall s,
    s ∈ ScheduledTasks._normalize_device_serialnos serialnos <->
    s <> EmptyString /\
    exists raw, raw ∈ ScheduledTasks.candidates serialnos /\ s = Text.strip raw.
Proof.
  destruct serialnos as [| | | |raw|l|]; simpl;
    try (split; [apply NoDup_nil_2|]; intros s; split;
         [intros H; now apply elem_of_nil in H
         |intros (_ & raw & H & _); now apply elem_of_nil in H]).
  - destruct (normalized_list_spec [PStr raw]) as [Hnd Hin].
    split; [exact Hnd|]. intros s. rewrite Hin. simpl. reflexivity.
  - apply normalized_list_spec.
Qed.

(** X23. Normalising is idempotent: a list that [_normalize_device_serialnos]
    returned comes back unchanged, in the same order, when it is
    normalised again (as it is each time a stored task is loaded). *)
Theorem normalize_serialnos_idempotent (serialnos : pyval) :
  ScheduledTasks._normalize_device_serialnos
    (PList (PStr <$> ScheduledTasks._normalize_device_serialnos serialnos))
  = ScheduledTasks._normalize_device_serialnos serialnos.
Proof.
  destruct (normalized_serialnos_fixed serialnos) as [Hnd Hall].
  change (ScheduledTasks.normalize_loop
            (PStr <$> ScheduledTasks._normalize_device_serialnos serialnos)
            [] ∅
          = [] ++ ScheduledTasks._normalize_device_serialnos serialnos).
  apply normalize_loop_clean.
  - intros s. rewrite elem_of_empty, elem_of_nil. tauto.
  - exact Hnd.
  - exact Hall.
Qed.

(** ** Storing a scheduled task and reading it back *)

Section RoundTrip.
Import Text ScheduledTasks.

Lemma to_dict_entries (t : ScheduledTask) :
  to_dict t !! "id" = Some (PStr (id t)) /\
  to_dict t !! "name" = Some (PStr (name t)) /\
  to_dict t !! "workflow_uuid" = Some (PStr (workflow_uuid t)) /\
  to_dict t !! "device_serialnos"
    = Some (PList (PStr <$> device_serialnos t)) /\
  to_dict t !! "device_serialno" = None /\
  to_dict t !! "device_group_id" = Some (or_none PStr (device_group_id t)) /\
  to_dict t !! "cron_expression" = Some (PStr (cron_expression t)) /\
  to_dict t !! "enabled" = Some (PBool (enabled t)) /\
  to_dict t !! "last_run_success"
    = Some (or_none PBool (last_run_success t)) /\
  to_dict t !! "last_run_status" = Some (or_none PStr (last_run_status t)) /\
  to_dict t !! "last_run_success_count"
    = Some (or_none PInt (last_run_success_count t)) /\
  to_dict t !! "last_run_total_count"
    = Some (or_none PInt (last_run_total_count t)) /\
  to_dict t !! "last_run_message" = Some (or_none PStr (last_run_message t)).
Proof.
  unfold to_dict.
  repeat split;
    repeat first
      [ rewrite lookup_insert_eq; reflexivity
      | rewrite lookup_singleton_eq; reflexivity
      | rewrite lookup_insert_ne by discriminate
      | rewrite lookup_singleton_ne by discriminate; reflexivity ].
Qed.

Lemma normalize_blank :
  _normalize_device_serialnos (PStr EmptyString) = [].
Proof. reflexivity. Qed.

Lemma from_to_dict (uuid : string) (t : ScheduledTask) :
  from_dict uuid (to_dict t)
  = Some (with_devices
            (_normalize_device_serialnos
               (PList (PStr <$> device_serialnos t))) t).
Proof.
  destruct (to_dict_entries t)
    as (E1 & E2 & E3 & E4 & E5 & E6 & E7 & E8 & E9 & E10 & E11 & E12 & E13).
  unfold from_dict, get.
  rewrite E1, E2, E3, E4, E5, E6, E7, E8, E9, E10, E11, E12, E13.
  destruct t as [i n w ds g c e s st sc tc msg].
  unfold with_devices. simpl.
  rewrite normalize_blank.
  generalize (_normalize_device_serialnos (PList (PStr <$> ds))).
  intros l. destruct g, s, st, sc, tc, msg; simpl; destruct l; reflexivity.
Qed.

Lemma clean_is_fixed (l : list string) :
  clean l <-> _normalize_device_serialnos (PList (PStr <$> l)) = l.
Proof.
  split.
  - intros [Hnd Hall].
    change (normalize_loop (PStr <$> l) [] ∅ = [] ++ l).
    apply normalize_loop_clean; [|exact Hnd|exact Hall].
    intros s. rewrite elem_of_empty, elem_of_nil. tauto.
  - intros <-. apply normalized_serialnos_fixed.
Qed.

End RoundTrip.

(** X24. A stored task is read back as it was, up to its devices.  For every
    task, [from_dict] on the dict [to_dict] made of it gives the same task
    with its device list normalised; the task itself comes back exactly
    when its device list is clean: no entry twice, none blank, none with
    white space around it. *)
Theorem stored_task_is_read_back (uuid : string)
    (t : ScheduledTasks.ScheduledTask) :
  ScheduledTasks.from_dict uuid (ScheduledTasks.to_dict t)
  = Some (ScheduledTasks.with_devices
            (ScheduledTasks._normalize_device_serialnos
               (PList (PStr <$> ScheduledTasks.device_serialnos t))) t) /\
  (ScheduledTasks.from_dict uuid (ScheduledTasks.to_dict t) = Some t <->
   ScheduledTasks.clean (ScheduledTasks.device_serialnos t)).
Proof.
  split; [apply from_to_dict|].
  rewrite from_to_dict, clean_is_fixed. split.
  - intros [= H]. destruct t. simpl in *.
    unfold ScheduledTasks.with_devices in H. simpl in H.
    now injection H.
  - intros H. rewrite H. now destruct t.
Qed.

(** ** The jobs of the scheduler follow the tasks *)

Section JobFacts.
Import Text SchedulerManager.
Context (trigger_ok : list string -> bool).

#[local] Abbreviation job_of := (SchedulerManager.job_of trigger_ok).
#[local] Abbreviation _add_job := (SchedulerManager._add_job trigger_ok).
#[local] Abbreviation jobs_follow_tasks := (SchedulerManager.jobs_follow_tasks trigger_ok).

Lemma job_of_disabled (t : ScheduledTask) :
  enabled t = false -> job_of t = None.
Proof. intros H. unfold SchedulerManager.job_of. now rewrite H. Qed.

Lemma job_of_ext (t t' : ScheduledTask) :
  enabled t' = enabled t -> cron_expression t' = cron_expression t ->
  job_of t' = job_of t.
Proof. intros He Hc. unfold SchedulerManager.job_of. now rewrite He, Hc. Qed.

Lemma add_job_tasks (task : ScheduledTask) (m : manager) :
  _tasks (_add_job task m) = _tasks m.
Proof.
  unfold SchedulerManager._add_job.
  destruct (negb _); [reflexivity|]. now destruct (trigger_ok _).
Qed.

Lemma add_job_jobs (task : ScheduledTask) (m : manager) :
  enabled task = true ->
  jobs (_add_job task m)
  = match job_of task with
    | Some parts => <[id task := parts]> (jobs m)
    | None => jobs m
    end.
Proof.
  intros He. unfold SchedulerManager._add_job, SchedulerManager.job_of.
  rewrite He. simpl.
  destruct (length (split (cron_expression task)) =? 5)%nat; simpl;
    [|reflexivity].
  now destruct (trigger_ok _).
Qed.

Lemma add_job_lookup (task : ScheduledTask) (m : manager) (j : string) :
  enabled task = true -> jobs m !! id task = None ->
  jobs (_add_job task m) !! j
  = if decide (j = id task) then job_of task else jobs m !! j.
Proof.
  intros He Hno. rewrite (add_job_jobs _ _ He).
  destruct (job_of task) as [parts|]; destruct (decide (j = id task)) as [->|Hj].
  - apply lookup_insert_eq.
  - now apply lookup_insert_ne.
  - exact Hno.
  - reflexivity.
Qed.

(** Storing [t] under [i] with the jobs [J], which hold the job of [t]
    under [i] and are the old ones elsewhere. *)
Lemma follows_after_put (m : manager) (i : string) (t : ScheduledTask)
    (J : gmap string (list string)) :
  jobs_follow_tasks m -> id t = i ->
  (forall j, J !! j = if decide (j = i) then job_of t else jobs m !! j) ->
  jobs_follow_tasks {| _tasks := <[i := t]> (_tasks m); jobs := J |}.
Proof.
  intros [Hk Hj] Hid HJ. split.
  - intros j t'. simpl. destruct (decide (j = i)) as [->|Hne].
    + rewrite lookup_insert_eq. now intros [= <-].
    + rewrite lookup_insert_ne by congruence. apply Hk.
  - intros j. simpl. rewrite HJ. destruct (decide (j = i)) as [->|Hne].
    + now rewrite lookup_insert_eq.
    + rewrite lookup_insert_ne by congruence. apply Hj.
Qed.

Lemma follows_empty : jobs_follow_tasks empty_manager.
Proof.
  split.
  - intros i t. simpl. now rewrite lookup_empty.
  - intros i. simpl. now rewrite !lookup_empty.
Qed.

Lemma manager_eta (m : manager) :
  m = {| _tasks := _tasks m; jobs := jobs m |}.
Proof. now destruct m. Qed.

Lemma follows_create (m : manager) (uuid name workflow_uuid : string)
    (device_serialnos : list string) (cron_expression : string)
    (enabled : bool) :
  jobs_follow_tasks m -> _tasks m !! uuid = None ->
  jobs_follow_tasks
    (create_task trigger_ok uuid name workflow_uuid device_serialnos
       cron_expression enabled m).2.
Proof.
  intros Hinv Hfresh. pose proof Hinv as [_ Hj].
  assert (Hno : jobs m !! uuid = None) by (now rewrite Hj, Hfresh).
  unfold create_task. cbn [snd id].
  set (task := {| id := uuid; name := name |}).
  set (m1 := set_tasks (<[uuid := task]> (_tasks m)) m).
  assert (Hgoal : forall m2,
    _tasks m2 = _tasks m1 ->
    (forall j, jobs m2 !! j = if decide (j = uuid) then job_of task
                              else jobs m !! j) ->
    jobs_follow_tasks m2).
  { intros m2 Ht HJ. rewrite (manager_eta m2), Ht.
    now apply follows_after_put. }
  destruct enabled eqn:He.
  - apply Hgoal; [rewrite add_job_tasks; reflexivity|]. intros j.
    now rewrite add_job_lookup.
  - apply Hgoal; [reflexivity|]. intros j.
    destruct (decide (j = uuid)) as [->|]; [|reflexivity].
    transitivity (@None (list string));
      [exact Hno|symmetry; now apply job_of_disabled].
Qed.

Lemma follows_update (m : manager) (task_id : string) (kwargs : task_update) :
  jobs_follow_tasks m ->
  (forall j, new_id kwargs = Some j -> j = task_id) ->
  jobs_follow_tasks (update_task trigger_ok task_id kwargs m).2.
Proof.
  intros Hinv Hid. pose proof Hinv as [Hk Hj].
  unfold update_task. destruct (_tasks m !! task_id) as [old|] eqn:Hold;
    [|exact Hinv].
  cbn [snd].
  set (task := apply_update kwargs old).
  assert (Htask : id task = task_id).
  { unfold task, apply_update. cbn [id].
    destruct (new_id kwargs) as [j|] eqn:Hn; simpl; [now apply Hid|].
    now apply Hk. }
  assert (Hjob : jobs m !! task_id = job_of old) by (now rewrite Hj, Hold).
  set (m1 := set_tasks (<[task_id := task]> (_tasks m)) m).
  assert (Hgoal : forall m2,
    _tasks m2 = _tasks m1 ->
    (forall j, jobs m2 !! j = if decide (j = task_id) then job_of task
                              else jobs m !! j) ->
    jobs_follow_tasks m2).
  { intros m2 Ht HJ. rewrite (manager_eta m2), Ht.
    now apply follows_after_put. }
  destruct (enabled old) eqn:Eo; destruct (enabled task) eqn:Et; cbn [andb negb].
  - (* enabled before and after *)
    destruct (String.eqb (cron_expression old) (cron_expression task)) eqn:Ec;
      cbn [negb].
    + apply String.eqb_eq in Ec. apply Hgoal; [reflexivity|]. intros j.
      destruct (decide (j = task_id)) as [->|]; [|reflexivity].
      cbn [m1 set_tasks jobs]. rewrite Hjob. symmetry.
      apply job_of_ext; congruence.
    + apply Hgoal; [rewrite add_job_tasks; reflexivity|]. intros j.
      rewrite add_job_lookup; [|exact Et|].
      * rewrite Htask. destruct (decide (j = task_id)) as [->|Hne];
          [reflexivity|].
        cbn. now rewrite lookup_delete_ne by congruence.
      * rewrite Htask. cbn. apply lookup_delete_eq.
  - (* disabled by the update *)
    apply Hgoal; [reflexivity|]. intros j. cbn.
    destruct (decide (j = task_id)) as [->|Hne].
    + rewrite lookup_delete_eq.
      first [reflexivity|symmetry; now apply job_of_disabled].
    + now rewrite lookup_delete_ne by congruence.
  - (* enabled by the update *)
    apply Hgoal; [rewrite add_job_tasks; reflexivity|]. intros j.
    rewrite add_job_lookup; [|exact Et|].
    + now rewrite Htask.
    + rewrite Htask. cbn. rewrite Hjob. now apply job_of_disabled.
  - (* disabled before and after *)
    apply Hgoal; [reflexivity|]. intros j.
    destruct (decide (j = task_id)) as [->|]; [|reflexivity].
    cbn. rewrite Hjob, !job_of_disabled; auto.
Qed.

Lemma follows_delete (m : manager) (task_id : string) :
  jobs_follow_tasks m -> jobs_follow_tasks (delete_task task_id m).2.
Proof.
  intros Hinv. pose proof Hinv as [Hk Hj]. unfold delete_task.
  destruct (_tasks m !! task_id) as [old|] eqn:Hold; [|exact Hinv].
  cbn. split.
  - intros j t. cbn. rewrite lookup_delete_Some. intros [_ H]. now apply Hk.
  - intros j. cbn. destruct (decide (j = task_id)) as [->|Hne].
    + now rewrite !lookup_delete_eq.
    + rewrite !lookup_delete_ne by congruence. apply Hj.
Qed.

Lemma follows_set_enabled (m : manager) (task_id : string) (enabled' : bool) :
  jobs_follow_tasks m ->
  jobs_follow_tasks (set_enabled trigger_ok task_id enabled' m).2.
Proof.
  intros Hinv. pose proof Hinv as [Hk Hj]. unfold set_enabled.
  destruct (_tasks m !! task_id) as [old|] eqn:Hold; [|exact Hinv].
  destruct (Bool.eqb (enabled old) enabled') eqn:Eb; [exact Hinv|].
  cbn [snd].
  set (task := set_enabled_field enabled' old).
  assert (Htask : id task = task_id) by exact (Hk _ _ Hold).
  assert (Hjob : jobs m !! task_id = job_of old) by (now rewrite Hj, Hold).
  set (m1 := set_tasks (<[task_id := task]> (_tasks m)) m).
  assert (Hgoal : forall m2,
    _tasks m2 = _tasks m1 ->
    (forall j, jobs m2 !! j = if decide (j = task_id) then job_of task
                              else jobs m !! j) ->
    jobs_follow_tasks m2).
  { intros m2 Ht HJ. rewrite (manager_eta m2), Ht.
    now apply follows_after_put. }
  destruct enabled'.
  - apply Hgoal; [rewrite add_job_tasks; reflexivity|]. intros j.
    rewrite add_job_lookup; [now rewrite Htask|reflexivity|].
    rewrite Htask. cbn. rewrite Hjob. apply job_of_disabled.
    now destruct (enabled old).
  - apply Hgoal; [reflexivity|]. intros j. cbn.
    destruct (decide (j = task_id)) as [->|Hne].
    + rewrite lookup_delete_eq.
      first [reflexivity|symmetry; now apply job_of_disabled].
    + now rewrite lookup_delete_ne by congruence.
Qed.

Lemma follows_record_run (m : manager) (task_id status message : string)
    (success_count total_count : Z) :
  jobs_follow_tasks m ->
  jobs_follow_tasks
    (_record_run task_id status message success_count total_count m).
Proof.
  intros Hinv. pose proof Hinv as [Hk Hj]. unfold _record_run.
  destruct (_tasks m !! task_id) as [old|] eqn:Hold; [|exact Hinv].
  apply follows_after_put; [exact Hinv|exact (Hk _ _ Hold)|].
  intros j. destruct (decide (j = task_id)) as [->|]; [|reflexivity].
  rewrite Hj, Hold. reflexivity.
Qed.

Lemma follows_execute {Workflow : Type}
    (str : pyval -> string) (dict_slice_error : exn)
    (get_workflow : string -> option Workflow)
    (execute_single_device :
       Workflow -> nat -> string -> res DeviceExecutionResult)
    (m : manager) (task_id : string) :
  jobs_follow_tasks m ->
  jobs_follow_tasks
    (_execute_task str dict_slice_error get_workflow execute_single_device
       task_id m).2.
Proof.
  intros Hinv. unfold _execute_task.
  destruct (_tasks m !! task_id) as [task|]; [|exact Hinv].
  destruct (get_workflow _) as [w|]; [|now apply follows_record_run].
  destruct (length (device_serialnos task) =? 0)%nat;
    [now apply follows_record_run|].
  destruct (run_devices _ _ _ _ _); [|exact Hinv].
  destruct (summary_parts _ _ _); [|exact Hinv].
  now apply follows_record_run.
Qed.

(** [start] on tasks with distinct ids. *)
Lemma start_tasks (values : list ScheduledTask) (m : manager) :
  _tasks (SchedulerManager.start trigger_ok values m) = _tasks m.
Proof.
  revert m. induction values as [|t values IH]; intros m; [reflexivity|].
  simpl. rewrite IH. destruct (enabled t); [apply add_job_tasks|reflexivity].
Qed.

Lemma start_jobs (values : list ScheduledTask) :
  forall m : manager,
    NoDup (id <$> values) ->
    (forall t, t ∈ values -> jobs m !! id t = None) ->
    forall j,
      jobs (SchedulerManager.start trigger_ok values m) !! j
      = match list_find (fun t => j = id t) values with
        | Some (_, t) => job_of t
        | None => jobs m !! j
        end.
Proof.
  induction values as [|t values IH]; intros m Hnd Hno j; [reflexivity|].
  apply NoDup_cons in Hnd as [Hnotin Hnd].
  change (SchedulerManager.start trigger_ok (t :: values) m)
    with (SchedulerManager.start trigger_ok values
            (if enabled t then _add_job t m else m)).
  assert (Hstep : forall i,
    jobs (if enabled t then _add_job t m else m) !! i
    = if decide (i = id t) then job_of t else jobs m !! i).
  { intros i. destruct (enabled t) eqn:He.
    - apply add_job_lookup; [exact He|]. apply Hno. now left.
    - destruct (decide (i = id t)) as [->|]; [|reflexivity].
      rewrite job_of_disabled by exact He. apply Hno. now left. }
  rewrite IH; [|exact Hnd|].
  - cbn [list_find]. destruct (decide (j = id t)) as [->|Hne].
    + destruct (list_find _ values) as [[k t']|] eqn:Hf.
      * apply list_find_Some in Hf as (Hk & Heq & _).
        exfalso. apply Hnotin. rewrite Heq. apply list_elem_of_fmap.
        exists t'. split; [reflexivity|]. eapply list_elem_of_lookup_2, Hk.
      * simpl. rewrite Hstep. now destruct (decide (id t = id t)).
    + destruct (list_find _ values) as [[k t']|] eqn:Hf; simpl; [reflexivity|].
      rewrite Hstep. now destruct (decide (j = id t)).
  - intros t' Hin. rewrite Hstep.
    destruct (decide (id t' = id t)) as [Heq|]; [|apply Hno; now right].
    exfalso. apply Hnotin. rewrite <- Heq. apply list_elem_of_fmap. eauto.
Qed.

Lemma follows_start (values : list ScheduledTask) (m : manager) :
  keyed_by_id m -> jobs m = ∅ ->
  values ≡ₚ (map_to_list (_tasks m)).*2 ->
  jobs_follow_tasks (SchedulerManager.start trigger_ok values m).
Proof.
  intros Hk Hempty Hperm.
  assert (Hin : forall t, t ∈ values <-> _tasks m !! id t = Some t).
  { intros t. rewrite Hperm, list_elem_of_fmap. split.
    - intros ([i t'] & -> & Hi). apply elem_of_map_to_list in Hi.
      simpl. now rewrite (Hk _ _ Hi).
    - intros H. exists (id t, t). split; [reflexivity|].
      now apply elem_of_map_to_list. }
  assert (Heq : id <$> (map_to_list (_tasks m)).*2
               = (map_to_list (_tasks m)).*1).
  { rewrite <- list_fmap_compose. apply list_fmap_ext.
    intros k [i t] Hl. simpl.
    apply list_elem_of_lookup_2, elem_of_map_to_list in Hl. now apply Hk. }
  assert (Hnd : NoDup (id <$> values)).
  { rewrite Hperm, Heq. apply NoDup_fst_map_to_list. }
  split.
  - intros i t. rewrite start_tasks. apply Hk.
  - intros j. rewrite start_tasks, start_jobs; [|exact Hnd|].
    2:{ intros t _. rewrite Hempty. apply lookup_empty. }
    destruct (list_find _ values) as [[k t]|] eqn:Hf.
    + apply list_find_Some in Hf as (Hl & -> & _).
      apply list_elem_of_lookup_2, Hin in Hl. now rewrite Hl.
    + rewrite Hempty, lookup_empty.
      destruct (_tasks m !! j) as [t|] eqn:Ht; [|reflexivity].
      exfalso. apply list_find_None in Hf.
      assert (Ht' : t ∈ values).
      { apply Hin. now rewrite (Hk _ _ Ht). }
      rewrite Forall_forall in Hf. apply (Hf t Ht'). symmetry. now apply Hk.
Qed.

End JobFacts.

(** A cron expression whose first two fields are separated by the
    ideographic space U+3000 has five fields. *)
Lemma split_unicode_space :
  SchedulerManager.split
    ("0" ++ String "227" (String "128" (String "128" "8 * * *")))
  = ["0"; "8"; "*"; "*"; "*"].
Proof. reflexivity. Qed.

(** ** The status of a scheduled run *)

Section RunFacts.
Import Text SchedulerManager.

Lemma count_all {A : Type} (f : A -> bool) (l : list A) :
  (length (List.filter f l) <= length l)%nat /\
  (length (List.filter f l) = length l <-> Forall (fun x => f x = true) l) /\
  (length (List.filter f l) = 0%nat <-> Forall (fun x => f x = false) l).
Proof.
  induction l as [|x l (Hle & Hall & Hnone)]; simpl.
  - repeat split; auto.
  - destruct (f x) eqn:Hx; simpl.
    + split; [lia|]. split.
      * split.
        -- intros H. constructor; [exact Hx|]. apply Hall. lia.
        -- intros H. inversion H; subst. f_equal. now apply Hall.
      * split; [discriminate|]. intros H. inversion H; subst. congruence.
    + split; [lia|]. split.
      * split; [lia|]. intros H. inversion H; subst. congruence.
      * split.
        -- intros H. constructor; [exact Hx|]. now apply Hnone.
        -- intros H. inversion H; subst. now apply Hnone.
Qed.

Context (str : pyval -> string) (dict_slice_error : exn).

#[local] Abbreviation slice := (SchedulerManager.slice dict_slice_error).
#[local] Abbreviation logged := (SchedulerManager.logged dict_slice_error).
#[local] Abbreviation run_devices :=
  (SchedulerManager.run_devices dict_slice_error).
#[local] Abbreviation summary_parts :=
  (SchedulerManager.summary_parts str dict_slice_error).

(** A value that one slice accepts is accepted by every slice. *)
Lemma slice_any (n n' : nat) (v : pyval) :
  (exists c, slice n v = Ok c) -> exists c, slice n' v = Ok c.
Proof.
  intros [c H]. destruct v; simpl in *; try discriminate; eauto.
Qed.

Lemma logged_returns (o : res DeviceExecutionResult)
    (r : DeviceExecutionResult) :
  logged o = Ok r <-> o = Ok r /\ exists c, slice 50 (message r) = Ok c.
Proof.
  unfold SchedulerManager.logged. destruct o as [r'|e]; simpl.
  - destruct (slice 50 (message r')) as [c|e] eqn:Hc; simpl.
    + split.
      * intros [= <-]. split; [reflexivity|]. now exists c.
      * now intros [[= <-] _].
    + split; [discriminate|].
      intros [[= <-] [c Hc']]. rewrite Hc in Hc'. discriminate.
  - split; [discriminate|]. now intros [? _].
Qed.

Lemma logged_raises (o : res DeviceExecutionResult) :
  (exists e, logged o = Raise e) <->
  (exists e, o = Raise e) \/
  (exists r e, o = Ok r /\ slice 50 (message r) = Raise e).
Proof.
  unfold SchedulerManager.logged. destruct o as [r|e]; simpl.
  - destruct (slice 50 (message r)) as [c|e] eqn:Hc; simpl.
    + split; [intros [e H]; discriminate|].
      intros [[e H]|(r' & e & [= <-] & H)]; [discriminate|].
      rewrite Hc in H. discriminate.
    + split; [|intros _; now exists e].
      intros _. right. now exists r, e.
  - split; intros _; [left|]; now exists e.
Qed.

Lemma summary_parts_return (rs : list DeviceExecutionResult) :
  Forall (fun r => exists c, slice 50 (message r) = Ok c) rs ->
  exists parts, summary_parts rs = Ok parts.
Proof.
  induction 1 as [|r rs Hr _ [parts IH]]; simpl; [now eexists|].
  apply (slice_any 50 30) in Hr as [c Hc].
  unfold SchedulerManager.summary_part. rewrite Hc. simpl.
  rewrite IH. simpl. now eexists.
Qed.

Lemma run_devices_returns
    (ex : nat -> string -> res DeviceExecutionResult)
    (serialnos : list string) :
  forall (k : nat) (acc results : list DeviceExecutionResult),
    run_devices ex k serialnos acc = Ok results <->
    exists rs,
      results = acc ++ rs /\
      imap (fun j s => logged (ex (k + j)%nat s)) serialnos = Ok <$> rs.
Proof.
  induction serialnos as [|s rest IH]; intros k acc results; simpl.
  - split.
    + intros [= <-]. exists []. now rewrite app_nil_r.
    + intros (rs & -> & Hrs). destruct rs; [|discriminate].
      now rewrite app_nil_r.
  - assert (Hshift :
      imap ((fun j s => logged (ex (k + j)%nat s)) ∘ S) rest
      = imap (fun j s => logged (ex (S k + j)%nat s)) rest).
    { apply imap_ext. intros j x _. simpl. do 2 f_equal. lia. }
    rewrite Hshift, Nat.add_0_r.
    destruct (logged (ex k s)) as [r|e] eqn:Hex.
    + rewrite IH. split.
      * intros (rs & -> & Hrs). exists (r :: rs).
        rewrite <- app_assoc. split; [reflexivity|]. rewrite Hrs. reflexivity.
      * intros (rs & -> & Hrs). destruct rs as [|r' rs]; [discriminate|].
        simpl in Hrs. injection Hrs as Hr Hrs. subst r'.
        exists rs. now rewrite <- app_assoc.
    + split; [discriminate|].
      intros (rs & _ & Hrs). destruct rs; discriminate.
Qed.

Lemma run_devices_raises
    (ex : nat -> string -> res DeviceExecutionResult)
    (serialnos : list string) :
  forall (k : nat) (acc : list DeviceExecutionResult),
    (exists e, run_devices ex k serialnos acc = Raise e) <->
    (exists e,
       Raise e ∈ imap (fun j s => logged (ex (k + j)%nat s)) serialnos).
Proof.
  induction serialnos as [|s rest IH]; intros k acc; simpl.
  - split; intros [e H]; [discriminate|]. now apply elem_of_nil in H.
  - assert (Hshift :
      imap ((fun j s => logged (ex (k + j)%nat s)) ∘ S) rest
      = imap (fun j s => logged (ex (S k + j)%nat s)) rest).
    { apply imap_ext. intros j x _. simpl. do 2 f_equal. lia. }
    rewrite Hshift, Nat.add_0_r.
    destruct (logged (ex k s)) as [r|e] eqn:Hex.
    + rewrite IH. split; intros [e H].
      * exists e. now right.
      * apply elem_of_cons in H as [H|H]; [discriminate|]. eauto.
    + split; intros _; exists e; [now left|reflexivity].
Qed.

(** The rounds of the loop, from the calls. *)
Lemma logged_rounds (ex : nat -> string -> res DeviceExecutionResult)
    (serialnos : list string) :
  imap (fun j s => logged (ex (0 + j)%nat s)) serialnos
  = logged <$> imap ex serialnos.
Proof. rewrite fmap_imap. now apply imap_ext. Qed.

Lemma logged_all_return (l : list (res DeviceExecutionResult)) :
  forall rs,
    logged <$> l = Ok <$> rs ->
    l = Ok <$> rs /\
    Forall (fun r => exists c, slice 50 (message r) = Ok c) rs.
Proof.
  induction l as [|o l IH]; intros [|r rs] H; try discriminate.
  - split; [reflexivity|constructor].
  - simpl in H. injection H as Ho Hl.
    apply logged_returns in Ho as [-> Hc].
    destruct (IH _ Hl) as [-> Hall]. split; [reflexivity|].
    now constructor.
Qed.

(** A round breaks when the call raises, or when the message of its
    result cannot be sliced for the log. *)
Lemma logged_some_raise (l : list (res DeviceExecutionResult)) :
  (exists e, Raise e ∈ logged <$> l) <->
  Exists (fun o =>
            (exists e, o = Raise e) \/
            (exists r e, o = Ok r /\ slice 50 (message r) = Raise e)) l.
Proof.
  rewrite Exists_exists. split.
  - intros [e H]. apply list_elem_of_fmap in H as (o & Ho & Hin).
    exists o. split; [exact Hin|]. apply logged_raises. now exists e.
  - intros (o & Hin & Ho). apply logged_raises in Ho as [e He].
    exists e. rewrite <- He. now apply list_elem_of_fmap_2.
Qed.

Lemma outcomes_of_results (rs : list DeviceExecutionResult) :
  (Forall succeeded (Ok <$> rs) <-> Forall (fun r => success r = true) rs) /\
  (Forall failed (Ok <$> rs) <-> Forall (fun r => success r = false) rs) /\
  (Exists succeeded (Ok <$> rs) <-> ~ Forall (fun r => success r = false) rs) /\
  (Exists failed (Ok <$> rs) <-> ~ Forall (fun r => success r = true) rs).
Proof.
  assert (Hs : forall r, succeeded (Ok r) <-> success r = true).
  { intros r. split; [intros (r' & [= <-] & H); exact H|]. intros H. now exists r. }
  assert (Hf : forall r, failed (Ok r) <-> success r = false).
  { intros r. split; [intros (r' & [= <-] & H); exact H|]. intros H. now exists r. }
  assert (Hflip : forall r, success r = false <-> ~ success r = true).
  { intros r. destruct (success r); split; congruence. }
  assert (Hflip' : forall r, success r = true <-> ~ success r = false).
  { intros r. destruct (success r); split; congruence. }
  assert (HF : forall (P : res DeviceExecutionResult -> Prop)
                     (Q : DeviceExecutionResult -> Prop),
             (forall r, P (Ok r) <-> Q r) ->
             Forall P (Ok <$> rs) <-> Forall Q rs).
  { intros P Q HPQ. rewrite Forall_fmap, !Forall_forall.
    split; intros H r Hin; apply HPQ, H, Hin. }
  assert (HE : forall (P : res DeviceExecutionResult -> Prop)
                     (Q : DeviceExecutionResult -> Prop),
             (forall r, P (Ok r) <-> Q r) ->
             Exists P (Ok <$> rs) <-> Exists Q rs).
  { intros P Q HPQ. rewrite Exists_fmap, !Exists_exists.
    split; intros (r & Hin & H); exists r; (split; [exact Hin|]);
      apply HPQ, H. }
  assert (HN : forall b,
    Exists (fun r => success r = b) rs
    <-> ~ Forall (fun r => success r = negb b) rs).
  { clear. intros b. rewrite Exists_exists, Forall_forall. split.
    - intros (r & Hin & Hr) Hall. specialize (Hall r Hin).
      rewrite Hr in Hall. now destruct b.
    - intros Hn. induction rs as [|r rs' IH].
      + exfalso. apply Hn. intros r Hin. now apply elem_of_nil in Hin.
      + destruct (Bool.bool_dec (success r) b) as [Hr|Hr].
        * exists r. split; [now left|exact Hr].
        * destruct IH as (r' & Hin & Hr').
          -- intros Hall. apply Hn. intros x Hx.
             apply elem_of_cons in Hx as [->|Hx]; [|now apply Hall].
             destruct (success r), b; simpl; congruence.
          -- exists r'. split; [now right|exact Hr']. }
  split; [now apply HF|]. split; [now apply HF|]. split.
  - rewrite (HE _ (fun r => success r = true) Hs). apply (HN true).
  - rewrite (HE _ (fun r => success r = false) Hf). apply (HN false).
Qed.

Lemma recorded_same (status message : string) (sc tc : Z)
    (t : ScheduledTask) :
  same_definition t (recorded status message sc tc t) /\
  status_of (recorded status message sc tc t) = status /\
  last_run_success (recorded status message sc tc t)
  = Some (String.eqb status "success") /\
  last_run_success_count (recorded status message sc tc t) = Some sc /\
  last_run_total_count (recorded status message sc tc t) = Some tc.
Proof. unfold same_definition. now repeat split. Qed.

End RunFacts.

Section StatusFacts.
Import Text SchedulerManager.

Lemma status_cases (rs : list DeviceExecutionResult) :
  let c := success_count_of rs in
  let status :=
    if (c =? length rs)%nat then "success"
    else if (0 <? c)%nat then "partial" else "failure" in
  length rs <> 0%nat ->
  (c <= length rs)%nat /\
  (status = "success" <-> Forall succeeded (Ok <$> rs)) /\
  (status = "partial" <->
   Exists succeeded (Ok <$> rs) /\ Exists failed (Ok <$> rs)) /\
  (status = "failure" <-> Forall failed (Ok <$> rs)).
Proof.
  intros c status Hn. subst status c. unfold success_count_of.
  destruct (count_all success rs) as (Hle & Hall & Hnone).
  destruct (outcomes_of_results rs) as (A & B & C & D).
  rewrite A, B, C, D, <- Hall, <- Hnone.
  split; [exact Hle|].
  destruct (Nat.eqb_spec (length (List.filter success rs)) (length rs));
    [|destruct (Nat.ltb_spec 0 (length (List.filter success rs)))];
    repeat split; intros; try discriminate; try lia; try tauto.
Qed.

Lemma record_run_stored (task_id status message : string) (sc tc : Z)
    (m : manager) (t : ScheduledTask) :
  _tasks m !! task_id = Some t ->
  _record_run task_id status message sc tc m
  = set_tasks (<[task_id := recorded status message sc tc t]> (_tasks m)) m.
Proof. intros H. unfold _record_run. now rewrite H. Qed.

End StatusFacts.

(** X25. New and changed tasks keep the jobs in step.  When every task is
    stored under its own id and the scheduler holds, under each id,
    exactly the job of the task stored there (a job for an enabled task
    whose cron expression has five fields that make a trigger, and none
    otherwise), the same holds after [create_task] with an id not yet in
    use, and after [update_task] with keywords that do not change the id:
    whichever of enabling, disabling and rescheduling the update amounts
    to, no job is left behind and none is missing. *)
Theorem scheduler_jobs_follow_tasks (trigger_ok : list string -> bool)
    (m : SchedulerManager.manager) :
  SchedulerManager.jobs_follow_tasks trigger_ok m ->
  (forall uuid name workflow_uuid device_serialnos cron_expression enabled,
     SchedulerManager._tasks m !! uuid = None ->
     SchedulerManager.jobs_follow_tasks trigger_ok
       (SchedulerManager.create_task trigger_ok uuid name workflow_uuid
          device_serialnos cron_expression enabled m).2) /\
  (forall task_id kwargs,
     (forall j, SchedulerManager.new_id kwargs = Some j -> j = task_id) ->
     SchedulerManager.jobs_follow_tasks trigger_ok
       (SchedulerManager.update_task trigger_ok task_id kwargs m).2).
Proof.
  intros Hinv. split.
  - intros. now apply follows_create.
  - intros. now apply follows_update.
Qed.

Lemma scheduler_jobs_follow_tasks_witness :
  SchedulerManager.jobs_follow_tasks SchedulerScenario.any_trigger
    (SchedulerManager.create_task SchedulerScenario.any_trigger
       "task-2" "evening check" "wf-1" ["emulator-5554"] "30 20 * * 1-5" true
       SchedulerManager.empty_manager).2.
Proof.
  exact (proj1 (scheduler_jobs_follow_tasks SchedulerScenario.any_trigger
                  SchedulerManager.empty_manager
                  (follows_empty SchedulerScenario.any_trigger))
           "task-2" "evening check" "wf-1" ["emulator-5554"] "30 20 * * 1-5"
           true (lookup_empty "task-2")).
Defined.

Lemma loaded_is_keyed : SchedulerManager.keyed_by_id SchedulerScenario.loaded.
Proof.
  intros i t H. unfold SchedulerScenario.loaded in H.
  cbn [SchedulerManager._tasks] in H.
  apply lookup_singleton_Some in H as [<- <-]. reflexivity.
Qed.

Lemma loaded_values :
  [SchedulerScenario.morning_task]
  ≡ₚ (map_to_list (SchedulerManager._tasks SchedulerScenario.loaded)).*2.
Proof.
  unfold SchedulerScenario.loaded. simpl.
  now rewrite map_to_list_singleton.
Qed.

Lemma started_follows :
  SchedulerManager.jobs_follow_tasks SchedulerScenario.any_trigger
    SchedulerScenario.started.
Proof.
  apply follows_start;
    [exact loaded_is_keyed|reflexivity|exact loaded_values].
Qed.

(** X26. Deleting, switching and running tasks keep the jobs in step.  When
    the jobs follow the tasks, they still do after [delete_task] (the task
    and its job go together), after [set_enabled] (the job is added or
    removed with the switch, and nothing changes when the task already is
    as asked), and after a run of [_execute_task], which touches no
    job. *)
Theorem scheduler_jobs_follow_switches (trigger_ok : list string -> bool)
    (m : SchedulerManager.manager) :
  SchedulerManager.jobs_follow_tasks trigger_ok m ->
  (forall task_id,
     SchedulerManager.jobs_follow_tasks trigger_ok
       (SchedulerManager.delete_task task_id m).2) /\
  (forall task_id enabled,
     SchedulerManager.jobs_follow_tasks trigger_ok
       (SchedulerManager.set_enabled trigger_ok task_id enabled m).2) /\
  (forall (Workflow : Type) str dict_slice_error
          (get_workflow : string -> option Workflow)
          execute_single_device task_id,
     SchedulerManager.jobs_follow_tasks trigger_ok
       (SchedulerManager._execute_task str dict_slice_error get_workflow
          execute_single_device task_id m).2).
Proof.
  intros Hinv. split; [|split].
  - intros. now apply follows_delete.
  - intros. now apply follows_set_enabled.
  - intros. now apply follows_execute.
Qed.

Lemma scheduler_jobs_follow_switches_witness :
  SchedulerManager.jobs_follow_tasks SchedulerScenario.any_trigger
    (SchedulerManager.set_enabled SchedulerScenario.any_trigger
       "task-1" false SchedulerScenario.started).2.
Proof.
  exact (proj1 (proj2 (scheduler_jobs_follow_switches
                         SchedulerScenario.any_trigger
                         SchedulerScenario.started started_follows))
           "task-1" false).
Defined.

(** X27. [start] schedules the enabled tasks.  On a manager whose tasks are
    stored under their own ids (as [_load_tasks] stores them) and whose
    scheduler has no job yet, [start] leaves the tasks as they are and the
    scheduler with exactly the jobs of the tasks, in whatever order the
    dict yields its values. *)
Theorem start_schedules_enabled_tasks (trigger_ok : list string -> bool)
    (values : list ScheduledTasks.ScheduledTask)
    (m : SchedulerManager.manager) :
  SchedulerManager.keyed_by_id m ->
  SchedulerManager.jobs m = ∅ ->
  values ≡ₚ (map_to_list (SchedulerManager._tasks m)).*2 ->
  SchedulerManager._tasks (SchedulerManager.start trigger_ok values m)
  = SchedulerManager._tasks m /\
  SchedulerManager.jobs_follow_tasks trigger_ok
    (SchedulerManager.start trigger_ok values m).
Proof.
  intros Hk He Hp. split; [apply start_tasks|now apply follows_start].
Qed.

Lemma start_schedules_enabled_tasks_witness :
  SchedulerManager.jobs
    (SchedulerManager.start SchedulerScenario.any_trigger
       [SchedulerScenario.morning_task] SchedulerScenario.loaded)
  !! "task-1" = Some ["0"; "8"; "*"; "*"; "*"].
Proof.
  destruct (start_schedules_enabled_tasks SchedulerScenario.any_trigger
              [SchedulerScenario.morning_task] SchedulerScenario.loaded
              loaded_is_keyed eq_refl loaded_values) as [Ht [_ Hj]].
  rewrite Hj, Ht. vm_compute. reflexivity.
Defined.

(** X28. The status of a scheduled run.  For a stored task, [_execute_task]
    raises exactly when the workflow exists and, for some device, the call
    of [_execute_single_device] raises or the message of its result cannot
    be sliced for the line that is logged (it is [None], say), and then
    nothing is recorded.
    Otherwise it stores the run in the task, and changes nothing else of
    the manager or of the task's definition: the status is "success"
    exactly when the workflow exists, the task has a device and every
    device succeeded, "partial" exactly when the workflow exists and some
    device succeeded and some failed, and "failure" exactly when no
    workflow exists or no device succeeded; [last_run_success] says whether
    the status is "success", the total is the number of devices of the
    task and the number of successes does not exceed it. *)
Theorem scheduled_run_status {Workflow : Type}
    (str : pyval -> string) (dict_slice_error : exn)
    (get_workflow : string -> option Workflow)
    (execute_single_device :
       Workflow -> nat -> string ->
       res SchedulerManager.DeviceExecutionResult)
    (task_id : string) (m : SchedulerManager.manager)
    (t : ScheduledTasks.ScheduledTask) :
  SchedulerManager._tasks m !! task_id = Some t ->
  let outcomes := fun w =>
    imap (execute_single_device w) (ScheduledTasks.device_serialnos t) in
  let found := fun w =>
    get_workflow (ScheduledTasks.workflow_uuid t) = Some w in
  let breaks := fun o =>
    (exists e, o = Raise e) \/
    (exists r e,
       o = Ok r /\
       SchedulerManager.slice dict_slice_error 50
         (SchedulerManager.message r) = Raise e) in
  let run :=
    SchedulerManager._execute_task str dict_slice_error get_workflow
      execute_single_device task_id m in
  ((exists e, run.1 = Raise e) <->
   exists w, found w /\ Exists breaks (outcomes w)) /\
  ((exists e, run.1 = Raise e) -> run.2 = m) /\
  (run.1 = Ok tt ->
   exists t' n,
     run.2 = SchedulerManager.set_tasks
               (<[task_id := t']> (SchedulerManager._tasks m)) m /\
     SchedulerManager.same_definition t t' /\
     ScheduledTasks.last_run_success t'
     = Some (String.eqb (SchedulerManager.status_of t') "success") /\
     ScheduledTasks.last_run_total_count t'
     = Some (Z.of_nat (length (ScheduledTasks.device_serialnos t))) /\
     ScheduledTasks.last_run_success_count t' = Some (Z.of_nat n) /\
     (n <= length (ScheduledTasks.device_serialnos t))%nat /\
     (SchedulerManager.status_of t' = "success" <->
      exists w, found w /\ ScheduledTasks.device_serialnos t <> [] /\
                Forall SchedulerManager.succeeded (outcomes w)) /\
     (SchedulerManager.status_of t' = "partial" <->
      exists w, found w /\ Exists SchedulerManager.succeeded (outcomes w) /\
                Exists SchedulerManager.failed (outcomes w)) /\
     (SchedulerManager.status_of t' = "failure" <->
      forall w, found w -> Forall SchedulerManager.failed (outcomes w))).
Proof.
  intros Ht outcomes found breaks run. subst run found.
  unfold SchedulerManager._execute_task. rewrite Ht.
  destruct (get_workflow (ScheduledTasks.workflow_uuid t)) as [w|] eqn:Hw.
  2:{ cbn [fst snd]. split; [|split].
      - split; [intros [e H]; discriminate|].
        intros (w & H & _). discriminate.
      - intros [e H]. discriminate.
      - intros _. rewrite (record_run_stored _ _ _ _ _ _ _ Ht).
        eexists _, 0%nat. split; [reflexivity|].
        destruct (recorded_same "failure" "Workflow not found" 0
                    (Z.of_nat (length (ScheduledTasks.device_serialnos t)))
                    t) as (Hs & Hst & Hls & Hsc & Htc).
        split; [exact Hs|]. rewrite Hst.
        split; [exact Hls|]. split; [exact Htc|]. split; [exact Hsc|].
        split; [lia|].
        split; [|split].
        + split; [discriminate|]. intros (w & H & _). discriminate.
        + split; [discriminate|]. intros (w & H & _). discriminate.
        + split; [|reflexivity]. intros _ w H. discriminate. }
  destruct (Nat.eqb_spec (length (ScheduledTasks.device_serialnos t)) 0)
    as [Hlen|Hlen].
  { apply nil_length_inv in Hlen. subst outcomes. rewrite Hlen in *.
    cbn [fst snd]. split; [|split].
    - split; [intros [e H]; discriminate|].
      intros (w' & _ & H). now apply Exists_nil in H.
    - intros [e H]. discriminate.
    - intros _. rewrite (record_run_stored _ _ _ _ _ _ _ Ht).
      eexists _, 0%nat. split; [reflexivity|].
      destruct (recorded_same "failure" "No devices selected" 0 0 t)
        as (Hs & Hst & Hls & Hsc & Htc).
      split; [exact Hs|]. rewrite Hst.
      split; [exact Hls|]. split; [exact Htc|]. split; [exact Hsc|].
      split; [simpl; lia|].
      split; [|split].
      + split; [discriminate|]. intros (w' & _ & H & _). now destruct H.
      + split; [discriminate|]. intros (w' & _ & H & _).
        now apply Exists_nil in H.
      + split; [|reflexivity]. intros _ w' _. constructor. }
  assert (Hfound : forall w', Some w = Some w' -> w' = w) by congruence.
  destruct (SchedulerManager.run_devices dict_slice_error
              (execute_single_device w) 0
              (ScheduledTasks.device_serialnos t) []) as [results|e] eqn:Hrun.
  - apply run_devices_returns in Hrun as (rs & -> & Hrs).
    rewrite logged_rounds in Hrs.
    apply logged_all_return in Hrs as [Hrs Hsl].
    change (outcomes w = Ok <$> rs) in Hrs. simpl app.
    destruct (summary_parts_return str dict_slice_error rs Hsl)
      as [parts Hparts].
    rewrite Hparts.
    assert (Hlrs : length rs = length (ScheduledTasks.device_serialnos t)).
    { apply (f_equal length) in Hrs. unfold outcomes in Hrs.
      now rewrite length_imap, length_fmap in Hrs. }
    cbn [fst snd]. split; [|split].
    + split; [intros [e H]; discriminate|].
      intros (w' & Hw' & H). apply Hfound in Hw' as ->.
      rewrite Hrs in H. apply Exists_exists in H as (o & Hin & Ho).
      apply list_elem_of_fmap in Hin as (r & -> & Hin).
      destruct Ho as [[e Ho]|(r' & e & [= <-] & Ho)]; [discriminate|].
      rewrite Forall_forall in Hsl. destruct (Hsl r Hin) as [c Hc].
      rewrite Hc in Ho. discriminate.
    + intros [e H]. discriminate.
    + intros _. rewrite (record_run_stored _ _ _ _ _ _ _ Ht).
      eexists _, (SchedulerManager.success_count_of rs).
      split; [reflexivity|].
      match goal with
      | |- context [SchedulerManager.recorded ?s ?msg ?a ?b t] =>
          destruct (recorded_same s msg a b t) as (Hs & Hst & Hls & Hsc & Htc)
      end.
      split; [exact Hs|]. rewrite Hst.
      split; [exact Hls|]. split; [exact Htc|]. split; [exact Hsc|].
      rewrite <- Hlrs in *.
      destruct (status_cases rs Hlen) as (Hle & Hsu & Hpa & Hfa).
      split; [exact Hle|].
      split; [|split].
      * rewrite Hsu, <- Hrs. split.
        -- intros H. exists w. split; [reflexivity|]. split; [|exact H].
           intros Hnil. apply Hlen. rewrite Hlrs, Hnil. reflexivity.
        -- intros (w' & Hw' & _ & H). now apply Hfound in Hw' as ->.
      * rewrite Hpa, <- Hrs. split.
        -- intros H. exists w. split; [reflexivity|exact H].
        -- intros (w' & Hw' & H). now apply Hfound in Hw' as ->.
      * rewrite Hfa, <- Hrs. split.
        -- intros H w' Hw'. now apply Hfound in Hw' as ->.
        -- intros H. now apply H.
  - cbn [fst snd]. split; [|split].
    + split; [|intros _; now exists e].
      intros _.
      assert (Hex : exists e',
        SchedulerManager.run_devices dict_slice_error
          (execute_single_device w) 0
          (ScheduledTasks.device_serialnos t) [] = Raise e') by eauto.
      apply run_devices_raises in Hex. rewrite logged_rounds in Hex.
      apply logged_some_raise in Hex. exists w.
      split; [reflexivity|exact Hex].
    + reflexivity.
    + discriminate.
Qed.

Lemma loaded_task :
  SchedulerManager._tasks SchedulerScenario.loaded !! "task-1"
  = Some SchedulerScenario.morning_task.
Proof. apply lookup_singleton_eq. Qed.

Lemma scheduled_run_status_witness :
  exists t',
    (SchedulerManager._execute_task SchedulerScenario.plain_str
       SchedulerScenario.slice_error SchedulerScenario.get_workflow
       SchedulerScenario.first_device_only "task-1" SchedulerScenario.loaded).2
    = SchedulerManager.set_tasks
        (<["task-1" := t']>
           (SchedulerManager._tasks SchedulerScenario.loaded))
        SchedulerScenario.loaded /\
    SchedulerManager.status_of t' = "partial".
Proof.
  destruct (scheduled_run_status SchedulerScenario.plain_str
              SchedulerScenario.slice_error SchedulerScenario.get_workflow
              SchedulerScenario.first_device_only "task-1"
              SchedulerScenario.loaded SchedulerScenario.morning_task
              loaded_task) as (_ & _ & H).
  destruct H as (t' & n & Hrun & _ & _ & _ & _ & _ & _ & Hpartial & _).
  { vm_compute. reflexivity. }
  exists t'. split; [exact Hrun|]. apply Hpartial.
  exists "open settings". split; [reflexivity|]. split.
  - apply Exists_cons_hd. eexists. split; reflexivity.
  - apply Exists_cons_tl, Exists_cons_hd. eexists. split; reflexivity.
Defined.

(** A result whose message is [None] makes the run of the task raise at
    the line that is logged for the first device, and nothing is
    recorded. *)
Lemma none_message_breaks_run :
  SchedulerManager._execute_task SchedulerScenario.plain_str
    SchedulerScenario.slice_error SchedulerScenario.get_workflow
    SchedulerScenario.no_message "task-1" SchedulerScenario.loaded
  = (Raise (Exn OtherError "'NoneType' object is not subscriptable"),
     SchedulerScenario.loaded).
Proof. vm_compute. reflexivity. Qed.

(** ** The chat route *)

Section ChatFacts.

Context (client : nat -> suspension -> bool)
  (Hpassive : never_cancels client).

(** The agent after a loop whose body computes without effects is the
    agent after the generator. *)
Lemma run_for_each_agent {B} (upd : B -> event -> B) (g : Gen event unit) :
  forall (acc : B) (w1 w2 : world),
    agent_of w1 = agent_of w2 ->
    agent_of (snd (run client (for_each g acc (fun a ev => mret (upd a ev))) w1))
    = agent_of (snd (run client g w2)).
Proof.
  induction g as [a|e|y c IH|c IH|c IH|s c IH|]; intros acc w1 w2 Ha;
    simpl; try exact Ha.
  - apply (IH (upd acc y) w1 (suspend client (AtYield y) w2)).
    now rewrite agent_suspend_passive.
  - apply (IH acc (suspend client AtAwait w1) (suspend client AtAwait w2)).
    now rewrite !agent_suspend_passive.
  - rewrite Ha. now apply IH.
  - now apply IH.
Qed.

Lemma chat_runs (env : Env) (max_steps : Z) (impl : AsyncAgentImpl)
    {ChatResponse : Type} (response : pyval -> nat -> bool -> ChatResponse)
    (fuel : nat) (message : string) (w : world) :
  fst (run client (ChatApi.chat env max_steps (impl := impl) response fuel
                     message) w)
  = let r := run client (stream env max_steps (impl := impl) fuel message) w in
    match fst r with
    | Returned _ =>
        Returned
          (response
             (fold_left AgentRun.keep_done
                (emitted client (stream env max_steps (impl := impl) fuel
                                   message) w)
                (PStr EmptyString))
             (_step_count (agent_of (snd r))) true)
    | Raised e =>
        if is_Exception e
        then Returned (response (PStr (exn_msg e)) 0 false)
        else Raised e
    | OutOfFuel => OutOfFuel
    end.
Proof.
  cbv zeta. unfold ChatApi.chat, AgentRun.run.
  set (g := stream env max_steps fuel message). clearbody g.
  rewrite run_mbind, run_attempt, run_mbind.
  pose proof (run_for_each_fold client Hpassive AgentRun.keep_done g
                (PStr EmptyString) w w eq_refl) as Hf.
  pose proof (run_for_each_agent AgentRun.keep_done g
                (PStr EmptyString) w w eq_refl) as Hg.
  unfold emitted in *.
  destruct (run client (for_each _ _ _) w) as [o1 w1].
  cbn [fst snd] in Hf, Hg. subst o1.
  destruct (run client g w) as [o w2].
  cbn [fst snd] in *. destruct o as [[]|e|].
  - cbn. now rewrite Hg.
  - cbn. now destruct (is_Exception e).
  - reflexivity.
Qed.

End ChatFacts.

(** X29. The chat route answers success whenever the run returns.  With a
    caller that never cancels (the route registers no abort handler), for
    either agent: when [stream] returns, [chat] answers with the message
    of the [done] event that closes the run, the agent's step count, and
    success true, whatever the success flag of that event says (so also
    for "Max steps reached" and for a device error); when an [Exception]
    escapes [stream], it answers with the text of the exception, 0 steps
    and success false; a [CancelledError] is passed on. *)
Theorem chat_answers_success_when_run_returns (env : Env) (max_steps : Z)
    (client : nat -> suspension -> bool) (fuel : nat) (message : string)
    (s0 : agent) (impl : AsyncAgentImpl)
    {ChatResponse : Type} (response : pyval -> nat -> bool -> ChatResponse) :
  impl = GLM.glm_agent env \/ impl = Gemini.gemini_agent env ->
  never_cancels client ->
  let streamed :=
    run client (stream env max_steps (impl := impl) fuel message) (start s0) in
  let answer :=
    fst (run client (ChatApi.chat env max_steps (impl := impl) response fuel
                       message) (start s0)) in
  match fst streamed with
  | Returned _ =>
      exists msg steps ok,
        last (trace (snd streamed)) = Some (EvDone msg steps ok) /\
        answer
        = Returned (response msg (_step_count (agent_of (snd streamed))) true)
  | Raised e =>
      answer = if is_Exception e
               then Returned (response (PStr (exn_msg e)) 0 false)
               else Raised e
  | OutOfFuel => answer = OutOfFuel
  end.
Proof.
  intros Himpl Hpassive streamed answer. subst answer.
  rewrite (chat_runs client Hpassive). cbv zeta. fold streamed.
  destruct streamed as [o w'] eqn:Hr. simpl fst. simpl snd.
  destruct o as [[]|e|]; [|reflexivity|reflexivity].
  assert (Hshape : exists evs msg steps ok,
            trace w' = evs ++ [EvDone msg steps ok]).
  { destruct Himpl as [-> | ->].
    - destruct (glm_stream_shape env max_steps client fuel message s0 _ w' Hr)
        as (j & evs & tail & Ht & _ & _ & _ & (msg & steps & ok & ->) & _).
      eauto.
    - destruct (gemini_stream_shape env max_steps client fuel message s0 _ w'
                  Hr)
        as (j & evs & tail & Ht & _ & _ & _ & (msg & steps & ok & ->) & _).
      eauto. }
  destruct Hshape as (evs & msg & steps & ok & Ht).
  exists msg, steps, ok. split; [rewrite Ht; apply last_snoc|].
  unfold emitted. fold streamed. rewrite Hr. simpl.
  rewrite drop_0, Ht, fold_left_app. reflexivity.
Qed.

(** On the scripted model that never finishes, with 3 steps: the run ends
    with a [done] event that reports no success, and the answer says
    success. *)
Lemma chat_answers_success_when_run_returns_witness :
  exists msg steps,
    last (trace (snd (run Scenario.passive
                        (stream Scenario.never_finishing 3
                           (impl := GLM.glm_agent Scenario.never_finishing)
                           3 "open settings")
                        (start (init_agent "system prompt")))))
    = Some (EvDone msg steps false) /\
    fst (run Scenario.passive
           (ChatApi.chat Scenario.never_finishing 3
              (impl := GLM.glm_agent Scenario.never_finishing)
              (fun result steps ok => (result, steps, ok)) 3 "open settings")
           (start (init_agent "system prompt")))
    = Returned (msg, 3%nat, true).
Proof.
  pose proof (chat_answers_success_when_run_returns
                Scenario.never_finishing 3 Scenario.passive 3 "open settings"
                (init_agent "system prompt")
                (GLM.glm_agent Scenario.never_finishing)
                (fun result steps ok => (result, steps, ok))
                (or_introl eq_refl) (fun n p => eq_refl)) as H.
  cbv zeta in H.
  destruct (run Scenario.passive
              (stream Scenario.never_finishing 3
                 (impl := GLM.glm_agent Scenario.never_finishing)
                 3 "open settings")
              (start (init_agent "system prompt"))) as [o w'] eqn:Hr.
  assert (Ho : o = Returned tt /\ _step_count (agent_of w') = 3%nat /\
               exists msg, last (trace w') = Some (EvDone msg 3 false)).
  { apply (f_equal (fun r => (fst r, _step_count (agent_of (snd r)),
                              last (trace (snd r))))) in Hr.
    vm_compute in Hr. injection Hr as Ho Hc Hl.
    split; [exact (eq_sym Ho)|]. split; [exact (eq_sym Hc)|].
    eexists. exact (eq_sym Hl). }
  destruct Ho as (-> & Hc & msg' & Hl). cbn [fst snd] in H.
  destruct H as (msg & steps & ok & Hlast & Hans).
  rewrite Hl in Hlast. injection Hlast as <- <- <-.
  exists msg', 3%nat. split; [exact Hl|]. rewrite Hans, Hc. reflexivity.
Defined.

(** ** The streaming chat route *)

Section DriveFacts.
Import ChatStream.

Context (client : nat -> bool).

Lemma drive_gbind {A B} (g : Gen string A) (f : A -> Gen string B)
    (c : channel) :
  drive client (gbind g f) c
  = match drive client g c with
    | (Returned a, c') => drive client (f a) c'
    | (Raised e, c') => (Raised e, c')
    | (OutOfFuel, c') => (OutOfFuel, c')
    end.
Proof.
  revert c. induction g as [a|e|y k IH|k IH|k IH|s k IH|]; intros c; simpl;
    try reflexivity; auto.
Qed.

Lemma drive_mbind {A B} (g : Gen string A) (f : A -> Gen string B)
    (c : channel) :
  drive client (g ≫= f) c
  = match drive client g c with
    | (Returned a, c') => drive client (f a) c'
    | (Raised e, c') => (Raised e, c')
    | (OutOfFuel, c') => (OutOfFuel, c')
    end.
Proof. apply drive_gbind. Qed.

Lemma drive_yield_all (lines : list string) :
  forall c : channel,
    exists c',
      drive client (yield_all lines) c = (Returned tt, c') /\
      sent c' = sent c ++ lines.
Proof.
  induction lines as [|line rest IH]; intros c; simpl.
  - exists c. now rewrite app_nil_r.
  - destruct (IH (pause client [line] c)) as (c' & Hd & Hs).
    exists c'. split; [exact Hd|]. rewrite Hs. simpl.
    now rewrite <- app_assoc.
Qed.

Lemma cancel_twice (s : agent) : cancel (cancel s) = cancel s.
Proof. reflexivity. Qed.

End DriveFacts.

Section Simulation.
Import ChatStream.

Context {MessageRecord : Type}
  (assistant_record :
     string -> option (gmap string pyval) -> nat -> MessageRecord)
  (dumps : gmap string pyval -> string)
  (client : nat -> bool).

#[local] Abbreviation note := (ChatStream.note assistant_record).
#[local] Abbreviation frame := (ChatStream.frame dumps).
#[local] Abbreviation forward := (ChatStream.forward assistant_record dumps).

Lemma suspend_eq (inner : nat -> suspension -> bool) (p : suspension)
    (w : world) :
  suspend inner p w
  = {| agent_of := if inner (clock w) p then cancel (agent_of w)
                   else agent_of w;
       trace := match p with
                | AtYield ev => trace w ++ [ev]
                | AtAwait => trace w
                end;
       clock := S (clock w) |}.
Proof. with_strategy transparent [suspend] reflexivity. Qed.

(** What the loop of [event_generator] sends is what the agent yields.
    Whenever the other tasks call [cancel()] while the route is
    suspended, the agent's generator sees those calls at its own
    suspensions: there is a caller of [stream] alone under which it yields
    the events whose frames the route sends, and ends as the loop ends. *)
Lemma drive_forward (g : Gen event unit) :
  forall (l : locals) (c : channel) (w : world),
    agent_of w = agent_at c ->
    exists inner : nat -> suspension -> bool,
      forall inner' : nat -> suspension -> bool,
        (forall n p, (clock w <= n)%nat -> inner' n p = inner n p) ->
        exists c',
          drive client (forward g l) c
          = (match fst (run inner' g w) with
             | Returned _ =>
                 Returned (fold_left note (emitted inner' g w) l, Ok tt)
             | Raised e =>
                 Returned (fold_left note (emitted inner' g w) l, Raise e)
             | OutOfFuel => OutOfFuel
             end, c') /\
          sent c' = sent c ++ flat_map frame (emitted inner' g w) /\
          agent_at c' = agent_of (snd (run inner' g w)).
Proof.
  induction g as [a|e|ev k IH|k IH|k IH|s k IH|]; intros l c w Ha.
  - exists (fun _ _ => false). intros inner' _. exists c.
    unfold emitted. simpl. rewrite drop_all. simpl.
    now rewrite app_nil_r.
  - exists (fun _ _ => false). intros inner' _. exists c.
    unfold emitted. simpl. rewrite drop_all. simpl.
    now rewrite app_nil_r.
  - set (b := client (ticks c) || client (S (ticks c))).
    set (w2 := {| agent_of := if b then cancel (agent_of w) else agent_of w;
                  trace := trace w ++ [ev]; clock := S (clock w) |}).
    set (c2 := pause client
                 [data_line (dumps (_create_sse_event (Scenario.event_type ev)
                                      (event_data ev) "assistant"))]
                 (pause client [event_line (Scenario.event_type ev)] c)).
    assert (Ha2 : agent_of w2 = agent_at c2).
    { unfold w2, c2, b, pause. simpl. rewrite Ha.
      destruct (client (ticks c)), (client (S (ticks c))); reflexivity. }
    destruct (IH (note l ev) c2 w2 Ha2) as [ik Hik].
    exists (fun n p => if (n =? clock w)%nat then b else ik n p).
    intros inner' Hagree.
    assert (Hw2 : suspend inner' (AtYield ev) w = w2).
    { rewrite suspend_eq, Hagree by lia. now rewrite Nat.eqb_refl. }
    destruct (Hik inner') as (c' & Hd & Hs & Hag).
    { intros n p Hn. rewrite Hagree by (simpl in Hn; lia).
      destruct (Nat.eqb_spec n (clock w)); [simpl in Hn; lia|reflexivity]. }
    exists c'. rewrite emitted_yield. simpl run. rewrite Hw2.
    split; [exact Hd|]. split; [|exact Hag].
    rewrite Hs. unfold c2, pause. simpl. now rewrite <- !app_assoc.
  - set (b := client (ticks c)).
    set (w2 := {| agent_of := if b then cancel (agent_of w) else agent_of w;
                  trace := trace w; clock := S (clock w) |}).
    set (c2 := pause client [] c).
    assert (Ha2 : agent_of w2 = agent_at c2).
    { unfold w2, c2, b, pause. simpl. now rewrite Ha. }
    destruct (IH l c2 w2 Ha2) as [ik Hik].
    exists (fun n p => if (n =? clock w)%nat then b else ik n p).
    intros inner' Hagree.
    assert (Hw2 : suspend inner' AtAwait w = w2).
    { rewrite suspend_eq, Hagree by lia. now rewrite Nat.eqb_refl. }
    destruct (Hik inner') as (c' & Hd & Hs & Hag).
    { intros n p Hn. rewrite Hagree by (simpl in Hn; lia).
      destruct (Nat.eqb_spec n (clock w)); [simpl in Hn; lia|reflexivity]. }
    exists c'. rewrite emitted_await. simpl run. rewrite Hw2.
    split; [exact Hd|]. split; [|exact Hag].
    rewrite Hs. unfold c2, pause. simpl. now rewrite app_nil_r.
  - destruct (IH (agent_of w) l c w Ha) as [ik Hik].
    exists ik. intros inner' Hagree.
    destruct (Hik inner' Hagree) as (c' & Hd & Hs & Hag).
    exists c'. simpl drive. rewrite <- Ha.
    change (emitted inner' (Get k) w) with (emitted inner' (k (agent_of w)) w).
    simpl run. auto.
  - set (w2 := {| agent_of := s; trace := trace w; clock := clock w |}).
    set (c2 := {| agent_at := s; sent := sent c; ticks := ticks c |}).
    destruct (IH l c2 w2 eq_refl) as [ik Hik].
    exists ik. intros inner' Hagree.
    destruct (Hik inner' Hagree) as (c' & Hd & Hs & Hag).
    exists c'. simpl drive.
    change (emitted inner' (Put s k) w) with (emitted inner' k w2).
    simpl run. auto.
  - exists (fun _ _ => false). intros inner' _. exists c.
    unfold emitted. simpl. rewrite drop_all. simpl.
    now rewrite app_nil_r.
Qed.

Lemma fold_note_ordinary (evs : list event) :
  forall l : locals,
    Forall ordinary evs ->
    fold_left note evs l
    = {| final_message := final_message l;
         final_success := final_success l;
         final_steps := final_steps l;
         messages := messages l ++ step_records assistant_record evs |}.
Proof.
  induction evs as [|ev evs IH]; intros l Hall.
  - simpl. rewrite app_nil_r. now destruct l.
  - inversion Hall as [|? ? [Hd Hc] Hrest]; subst. simpl fold_left.
    rewrite IH by exact Hrest.
    destruct ev; try discriminate; simpl; try reflexivity.
    now rewrite <- app_assoc.
Qed.

End Simulation.

(** X30. The streaming chat route closes every run once, except a cancelled
    one.  Once the agent is obtained and the abort handler registered,
    whatever the device, the model and the other tasks (which may call
    [cancel()] at any suspension) do, [event_generator] never raises, and
    what it sends is the frames of events that are neither [done] nor
    [cancelled], followed by: the frame of one [done] event when [stream]
    returns; the frame of the agent's [cancelled] event and then a second
    [cancelled] frame of the route's own when the run is cancelled; one
    [error] frame when another exception escapes [stream].  A conversation
    is handed to the history only in the first case, and only when the
    serial number is known and the message of the [done] event is not
    empty; it then holds that event's message, success flag and steps and
    the records of the step events in order. *)
Theorem sse_frames_close_the_run (env : Env) (max_steps : Z)
    (impl : AsyncAgentImpl) {MessageRecord ConversationRecord : Type}
    (user_record : string -> MessageRecord)
    (assistant_record :
       string -> option (gmap string pyval) -> nat -> MessageRecord)
    (conversation_record :
       string -> pyval -> bool -> nat -> option pyval ->
       list MessageRecord -> ConversationRecord)
    (dumps dumps_ascii : gmap string pyval -> string)
    (is_initialization_error : exn -> bool) (serialno : option string)
    (client : nat -> bool) (fuel : nat) (message : string) (s0 : agent) :
  impl = GLM.glm_agent env \/ impl = Gemini.gemini_agent env ->
  let out :=
    ChatStream.drive client
      (ChatStream.event_generator env max_steps (impl := impl) user_record
         assistant_record conversation_record dumps dumps_ascii
         (Ok tt) (Ok tt) is_initialization_error serialno fuel message)
      (ChatStream.connect s0) in
  exists evs closing,
    ChatStream.sent (snd out)
    = flat_map (ChatStream.frame dumps) evs ++ closing /\
    Forall ordinary evs /\
    match fst out with
    | Returned saved =>
        (exists msg steps ok,
           closing = ChatStream.frame dumps (EvDone msg steps ok) /\
           saved
           = if ChatStream.known serialno && ChatStream.truthy msg
             then Some (conversation_record message msg ok steps
                          (if ok then None else Some msg)
                          (user_record message
                             :: ChatStream.step_records assistant_record evs))
             else None) \/
        (closing
         = ChatStream.frame dumps (EvCancelled "Task cancelled by user")
             ++ ChatStream.cancelled_frame dumps_ascii /\
         saved = None) \/
        (exists e,
           is_Exception e = true /\
           closing
           = (if is_initialization_error e
              then ChatStream.initialization_error_frame dumps e
              else ChatStream.error_frame dumps e) /\
           saved = None)
    | Raised _ => False
    | OutOfFuel => closing = []
    end.
Proof.
  intros Himpl out. subst out.
  unfold ChatStream.event_generator, ChatStream.try_block.
  remember (stream env max_steps (impl := impl) fuel message) as g eqn:Hg.
  set (l0 := {| ChatStream.final_message := PStr EmptyString;
                ChatStream.final_success := false;
                ChatStream.final_steps := 0;
                ChatStream.messages := [user_record message] |}).
  set (c2 := ChatStream.pause client []
               (ChatStream.pause client [] (ChatStream.connect s0))).
  rewrite drive_mbind.
  match goal with
  | |- context [ChatStream.drive client (mbind ?f (attempt ?a))
                  (ChatStream.connect s0)] =>
      change (ChatStream.drive client (mbind f (attempt a))
                (ChatStream.connect s0))
        with (ChatStream.drive client
                (ChatStream.forward assistant_record dumps g l0) c2)
  end.
  destruct (drive_forward assistant_record dumps client g l0 c2
              (start (ChatStream.agent_at c2)) eq_refl) as [inner Hin].
  destruct (Hin inner (fun _ _ _ => eq_refl)) as (c' & Hd & Hs & Hag).
  rewrite Hd. clear Hd Hin.
  destruct (run inner g (start (ChatStream.agent_at c2))) as [o w'] eqn:Hr.
  assert (Hshape : exists evs tail,
            trace w' = evs ++ tail /\ Forall ordinary evs /\
            StepLogic.closing o tail).
  { subst g. destruct Himpl as [-> | ->].
    - destruct (glm_stream_shape env max_steps inner fuel message _ o w' Hr)
        as (j & evs & tail & Ht & Ho & _ & _ & Hc & _). eauto.
    - destruct (gemini_stream_shape env max_steps inner fuel message _ o w' Hr)
        as (j & evs & tail & Ht & Ho & _ & _ & Hc & _). eauto. }
  destruct Hshape as (evs & tail & Ht & Hord & Hclose).
  assert (Hem : emitted inner g (start (ChatStream.agent_at c2)) = evs ++ tail).
  { unfold emitted. rewrite Hr. simpl. now rewrite drop_0. }
  rewrite Hem in *. clear Hem.
  assert (Hs0 : ChatStream.sent c2 = []) by reflexivity.
  rewrite Hs0, app_nil_l, flat_map_app in Hs.
  rewrite fold_left_app, (fold_note_ordinary assistant_record evs l0 Hord).
  cbn [fst snd]. 
  destruct o as [[]|e|]; cbn [StepLogic.closing] in Hclose.
  - destruct Hclose as (msg & steps & ok & ->).
    rewrite drive_mbind.
    cbn [ChatStream.drive fold_left ChatStream.note ChatStream.final_message
         ChatStream.final_success ChatStream.final_steps ChatStream.messages].
    unfold ChatStream.to_be_saved, ChatStream.record_of.
    cbn [ChatStream.final_message ChatStream.final_success
         ChatStream.final_steps ChatStream.messages l0 app].
    exists evs, (ChatStream.frame dumps (EvDone msg steps ok)).
    assert (Hsent : ChatStream.sent c'
                    = flat_map (ChatStream.frame dumps) evs
                      ++ ChatStream.frame dumps (EvDone msg steps ok)).
    { rewrite Hs. cbn [flat_map]. now rewrite app_nil_r. }
    destruct (ChatStream.known serialno && ChatStream.truthy msg) eqn:Ek;
      cbn [ChatStream.drive fst snd];
      (split; [exact Hsent|]); (split; [exact Hord|]);
      left; exists msg, steps, ok; rewrite Ek; split; reflexivity.
  - destruct (drive_yield_all client
                (ChatStream.except_frame dumps dumps_ascii
                   is_initialization_error e) c') as (c'' & Hy & Hs').
    rewrite drive_mbind, Hy. cbn [ChatStream.drive].
    match goal with
    | |- context [ChatStream.to_be_saved serialno ?l] =>
        assert (Hl : ChatStream.to_be_saved serialno l = false)
    end.
    { unfold ChatStream.to_be_saved. rewrite Hclose.
      destruct (StepLogic.is_cancel e); cbn; apply andb_false_r. }
    rewrite Hl. cbn [ChatStream.drive fst snd].
    exists evs.
    exists (flat_map (ChatStream.frame dumps) tail
            ++ ChatStream.except_frame dumps dumps_ascii
                 is_initialization_error e).
    split; [rewrite Hs', Hs; now rewrite app_assoc|].
    split; [exact Hord|].
    unfold StepLogic.is_cancel in Hclose. unfold ChatStream.except_frame.
    destruct (exn_cls e) eqn:Hcls; subst tail; cbn [flat_map app];
      try (right; right; exists e;
           split; [unfold is_Exception; now rewrite Hcls|];
           split; reflexivity).
    right. left. split; [|reflexivity]. now rewrite app_nil_r.
  - subst tail. exists evs, []. cbn. split; [now rewrite Hs|].
    split; [exact Hord|reflexivity].
Qed.

(** On the scripted model that never finishes, aborted at the tenth
    suspension of the route. *)
Lemma sse_frames_close_the_run_witness :
  exists evs closing,
    ChatStream.sent
      (snd (ChatStream.drive (ChatScenario.cancel_at 9)
              (ChatStream.event_generator Scenario.never_finishing 3
                 (impl := GLM.glm_agent Scenario.never_finishing)
                 (fun message => message) (fun thinking _ _ => thinking)
                 (fun task msg ok steps err msgs => (msg, ok, steps, msgs))
                 ChatScenario.dumps ChatScenario.dumps
                 (Ok tt) (Ok tt) (fun _ => false) (Some "emulator-5554") 3
                 "open settings")
              (ChatStream.connect (init_agent "system prompt"))))
    = flat_map (ChatStream.frame ChatScenario.dumps) evs ++ closing /\
    Forall ordinary evs.
Proof.
  destruct (sse_frames_close_the_run Scenario.never_finishing 3
              (GLM.glm_agent Scenario.never_finishing)
              (fun message => message) (fun thinking _ _ => thinking)
              (fun task msg ok steps err msgs => (msg, ok, steps, msgs))
              ChatScenario.dumps ChatScenario.dumps
              (fun _ => false) (Some "emulator-5554")
              (ChatScenario.cancel_at 9) 3 "open settings"
              (init_agent "system prompt") (or_introl eq_refl))
    as (evs & closing & Hs & Hord & _).
  exists evs, closing. split; [exact Hs|exact Hord].
Defined.

(** ** A device that cannot be observed *)

Section CaptureFacts.
Import StepOutcome.

Context (env : Env) (max_steps : Z) (client : nat -> suspension -> bool).

Lemma initial_capture_failure (impl : AsyncAgentImpl) (fuel : nat)
    (task : string) (s0 : agent) (e : exn) :
  device_observation env 0 = Raise e -> is_Exception e = true ->
  exists w',
    run client (stream env max_steps (impl := impl) fuel task) (start s0)
    = (Returned tt, w') /\
    trace w' = initial_failure e.
Proof.
  intros Hdev He. unfold device_observation in Hdev.
  unfold stream, try_finally, observe.
  destruct (get_screenshot env 0) as [shot|e1] eqn:E1; simpl in Hdev.
  - destruct (get_current_app env 0) as [app|e2] eqn:E2; simpl in Hdev;
      [discriminate|].
    injection Hdev as ->. simpl. rewrite He. simpl.
    eexists. split; [reflexivity|]. simpl. now rewrite !trace_suspend.
  - injection Hdev as ->. simpl. rewrite He. simpl.
    eexists. split; [reflexivity|]. simpl. now rewrite !trace_suspend.
Qed.

Lemma gemini_first_step_blind (w : world)
    (get_screenshot' : nat -> res Screenshot)
    (get_current_app' : nat -> res string) :
  _step_count (agent_of w) = 0%nat ->
  run client
    (Gemini.execute_step (with_device get_screenshot' get_current_app' env)) w
  = run client (Gemini.execute_step env) w.
Proof.
  intros Hk. unfold Gemini.execute_step.
  rewrite !run_mbind. simpl (run client (modify _) w). cbv beta iota.
  rewrite !run_mbind. simpl (run client get _). cbv beta iota zeta.
  cbn [agent_of _step_count set_step_count]. rewrite Hk.
  change (1 <? 1)%nat with false. cbv iota.
  reflexivity.
Qed.

End CaptureFacts.

(** C6. Device observation failure is run-fatal.  When the screenshot or
    the current app cannot be captured in the observe phase of a step (any
    step of the DSL agent, any step after the first of the tool-call
    agent), the loop adds to the trace an [error] event, a [step] event
    with [finished] set, [success] unset and the device error as message,
    and the [done] event that ends the run, and it returns, whatever the
    consumer does.  When the capture that [stream] makes before the first
    step fails, which is the only observation the first step of the
    tool-call agent has, the run of either agent adds an [error] event and
    a [done] event with no steps and no success, no [step] event, and
    returns.  The first step of the tool-call agent runs the same
    whatever the device would answer in an observe phase. *)
Theorem device_failure_is_fatal (env : Env) (max_steps : Z)
    (client : nat -> suspension -> bool) (fuel : nat) (e : exn) :
  is_Exception e = true ->
  (forall w,
     (Z.of_nat (_step_count (agent_of w)) < max_steps)%Z ->
     _is_running (agent_of w) = true ->
     _cancel_event (agent_of w) = false ->
     device_observation env (S (_step_count (agent_of w))) = Raise e ->
     (exists w',
        run client (step_loop max_steps (impl := GLM.glm_agent env) (S fuel)) w
        = (Returned tt, w') /\
        trace w'
        = trace w ++ device_failure (S (_step_count (agent_of w))) e) /\
     ((1 <= _step_count (agent_of w))%nat ->
      exists w',
        run client
          (step_loop max_steps (impl := Gemini.gemini_agent env) (S fuel)) w
        = (Returned tt, w') /\
        trace w'
        = trace w ++ device_failure (S (_step_count (agent_of w))) e)) /\
  (forall (impl : AsyncAgentImpl) (task : string) (s0 : agent),
     device_observation env 0 = Raise e ->
     exists w',
       run client (stream env max_steps (impl := impl) fuel task) (start s0)
       = (Returned tt, w') /\
       trace w' = StepOutcome.initial_failure e /\
       List.filter StepOutcome.is_step (trace w') = []) /\
  (forall w get_screenshot' get_current_app',
     _step_count (agent_of w) = 0%nat ->
     run client
       (Gemini.execute_step
          (StepOutcome.with_device get_screenshot' get_current_app' env)) w
     = run client (Gemini.execute_step env) w).
Proof.
  intros He. split; [|split].
  - intros w Hlt Hrun Hc Hdev. split; [|intros Hk].
    + destruct (glm_step_device_failure env client w e Hdev He)
        as (w' & Hr & Ht).
      exists w'. split; [|exact Ht].
      rewrite run_step_loop_S by assumption.
      change (@_execute_step (GLM.glm_agent env)) with (GLM.execute_step env).
      now rewrite Hr.
    + destruct (gemini_step_device_failure env client w e Hk Hdev He)
        as (w' & Hr & Ht).
      exists w'. split; [|exact Ht].
      rewrite run_step_loop_S by assumption.
      change (@_execute_step (Gemini.gemini_agent env))
        with (Gemini.execute_step env).
      now rewrite Hr.
  - intros impl task s0 Hdev.
    destruct (initial_capture_failure env max_steps client impl fuel task s0 e
                Hdev He) as (w' & Hr & Ht).
    exists w'. split; [exact Hr|]. split; [exact Ht|]. now rewrite Ht.
  - intros. now apply gemini_first_step_blind.
Qed.

(** The device goes offline before step 2 of a 5-step run. *)
Lemma device_failure_is_fatal_witness :
  (exists w',
     run Scenario.passive
       (step_loop 5 (impl := GLM.glm_agent (Scenario.unreachable_from 2)) 1)
       (StepScenario.running_after 1)
     = (Returned tt, w') /\
     trace w'
     = trace (StepScenario.running_after 1) ++
         device_failure
           (S (_step_count (agent_of (StepScenario.running_after 1))))
           (Exn OtherError "device offline")) /\
  (exists w',
     run Scenario.passive
       (step_loop 5 (impl := Gemini.gemini_agent (Scenario.unreachable_from 2)) 1)
       (StepScenario.running_after 1)
     = (Returned tt, w') /\
     trace w'
     = trace (StepScenario.running_after 1) ++
         device_failure
           (S (_step_count (agent_of (StepScenario.running_after 1))))
           (Exn OtherError "device offline")).
Proof.
  destruct (device_failure_is_fatal (Scenario.unreachable_from 2) 5
              Scenario.passive 0 (Exn OtherError "device offline") eq_refl)
    as [Hstep _].
  destruct (Hstep (StepScenario.running_after 1)) as [Hglm Hgemini];
    try reflexivity.
  split; [exact Hglm|]. apply Hgemini. simpl. lia.
Defined.

(** C6, as the claim states it, fails on a device that is offline from the
    start: the capture of the first observation fails, and the run of the
    tool-call agent ends with an [error] and a [done] event and without any
    [step] event. *)
Lemma initial_capture_failure_has_no_step_event :
  device_observation (Scenario.unreachable_from 0) 0
  = Raise (Exn OtherError "device offline") /\
  exists w',
    run Scenario.passive
      (stream (Scenario.unreachable_from 0) 5
         (impl := Gemini.gemini_agent (Scenario.unreachable_from 0)) 5
         "open settings")
      (start (init_agent "system prompt"))
    = (Returned tt, w') /\
    trace w'
    = [EvError "Device error: device offline";
       EvDone (PStr "Device error: device offline") 0 false] /\
    forall d, EvStep d ∉ trace w'.
Proof.
  split; [reflexivity|]. eexists. split; [vm_compute; reflexivity|].
  split; [reflexivity|].
  intros d Hin. repeat (apply elem_of_cons in Hin as [Hin|Hin]; [discriminate|]).
  now apply elem_of_nil in Hin.
Qed.

(** ** The finish check *)

Section ForwardFinish.
Context (client : nat -> suspension -> bool).

Lemma nothing_emitted (evs : list event) (ev : event) (w : world) :
  drop (length (trace w)) (trace w) = evs ++ [ev] -> False.
Proof.
  rewrite drop_all. intros H. now apply app_cons_not_nil in H.
Qed.

(** [stream] answers a finished step event with [done] and returns. *)
Lemma run_forward_finishing (g : Gen event unit) :
  forall (w : world) (evs : list event) (ev : event),
    emitted client g w = evs ++ [ev] ->
    Forall (fun x => finished_step x = false) evs ->
    finished_step ev = true ->
    exists w',
      run client (forward_events g) w = (Returned true, w') /\
      trace w'
      = trace w ++ evs ++ [ev; done_of ev (_step_count (agent_of w'))].
Proof.
  induction g as [a|e|y c IH|c IH|c IH|s c IH|]; intros w evs ev He Hall Hfin.
  - exfalso. exact (nothing_emitted _ _ _ He).
  - exfalso. exact (nothing_emitted _ _ _ He).
  - rewrite emitted_yield in He.
    destruct evs as [|x evs]; simpl in He; injection He as -> He.
    + simpl. rewrite Hfin. simpl. eexists. split; [reflexivity|].
      now rewrite !trace_suspend, !step_count_suspend, <- app_assoc.
    + inversion Hall as [|? ? Hx Hrest]; subst. simpl. rewrite Hx.
      destruct (IH _ _ _ He Hrest Hfin) as (w' & Hr & Ht).
      exists w'. split; [exact Hr|].
      now rewrite Ht, trace_suspend, <- app_assoc.
  - rewrite emitted_await in He. simpl.
    destruct (IH _ _ _ He Hall Hfin) as (w' & Hr & Ht).
    exists w'. split; [exact Hr|].
    now rewrite Ht, trace_suspend, app_nil_r.
  - simpl. exact (IH (agent_of w) w evs ev He Hall Hfin).
  - simpl.
    exact (IH {| agent_of := s; trace := trace w; clock := clock w |}
             evs ev He Hall Hfin).
  - exfalso. exact (nothing_emitted _ _ _ He).
Qed.

End ForwardFinish.

Section CheckedLoop.
Import StepOutcome StepLogic.

Context (max_steps : Z) {impl : AsyncAgentImpl}
  (client : nat -> suspension -> bool).
Hypothesis Hstep : enters_step _execute_step.

Lemma quiet_unfinished (evs : list event) :
  quiet evs -> Forall (fun x => finished_step x = false) evs.
Proof.
  intros H. eapply Forall_impl; [exact H|]. now intros ev [chunk ->].
Qed.

Lemma loop_obeys_check_intro (fuel : nat) (w w1 : world) (evs : list event)
    (d : step_data) (action : gmap string pyval) (result : ActionResult) :
  (Z.of_nat (_step_count (agent_of w)) < max_steps)%Z ->
  _is_running (agent_of w) = true ->
  _cancel_event (agent_of w) = false ->
  run client _execute_step w = (Returned tt, w1) ->
  trace w1 = trace w ++ evs ++ [EvStep d] ->
  quiet evs ->
  checked_step (S (_step_count (agent_of w))) action result d ->
  loop_obeys_check max_steps impl client fuel w action result.
Proof.
  intros Hlt Hrun Hc Hr Ht Hq Hd.
  exists evs, d, w1. split; [exact Hq|]. split; [exact Hd|].
  split; [exact Hr|]. split; [exact Ht|].
  destruct Hd as (_ & _ & _ & Hfin & _). rewrite <- Hfin.
  assert (He : emitted client _execute_step w = evs ++ [EvStep d]).
  { unfold emitted. rewrite Hr. simpl. now rewrite Ht, drop_app_length. }
  rewrite run_step_loop_S by assumption.
  destruct (ev_finished d) eqn:Hf.
  - destruct (run_forward_finishing client _ w evs (EvStep d) He
                (quiet_unfinished _ Hq) Hf) as (w' & Hr' & Ht').
    destruct (run_step_numbered client Hstep w _ _ Hr')
      as (_ & _ & _ & _ & Hk & _).
    rewrite Hr'. exists w'. split; [reflexivity|].
    rewrite Ht', Hk. reflexivity.
  - rewrite run_forward_unfinished.
    + now rewrite Hr.
    + rewrite He. apply Forall_app_2; [now apply quiet_unfinished|].
      repeat constructor. exact Hf.
Qed.

End CheckedLoop.

Section CheckedSteps.
Import StepOutcome.

Context (env : Env) (client : nat -> suspension -> bool)
  (Hpassive : never_cancels client).

Lemma glm_step_reaches_check (w : world) (action : gmap string pyval)
    (result : ActionResult) :
  glm_reaches_check env (S (_step_count (agent_of w))) action result ->
  _cancel_event (agent_of w) = false ->
  exists w' evs d,
    run client (GLM.execute_step env) w = (Returned tt, w') /\
    trace w' = trace w ++ evs ++ [EvStep d] /\ quiet evs /\
    checked_step (S (_step_count (agent_of w))) action result d.
Proof.
  intros (shot & app & chunks & Hobs & Hstream & Hact & Hres) Hc.
  unfold GLM.execute_step.
  rewrite run_mbind. simpl (run client (modify _) w). cbv beta iota.
  rewrite run_mbind. simpl (run client get _). cbv beta iota zeta.
  set (k := S (_step_count (agent_of w))) in *.
  rewrite run_mbind, (run_observe_ok env client k _ _ Hobs). cbv beta iota.
  rewrite run_mbind. simpl (run client (GLM.append_turn _) _). cbv beta iota.
  rewrite run_mbind. simpl (run client get _). cbv beta iota.
  rewrite !agent_suspend_passive by assumption.
  cbn [agent_of trace clock _step_count set_step_count set_context _context].
  match goal with |- context [run client _ ?W] => set (w2 := W) end.
  assert (Hw2 : agent_of w2
                = set_context
                    (_context (agent_of w) ++
                     [create_user_message
                        ("** Screen Info **" +:+
                           String "010" (String "010" (build_screen_info env app)))
                        (base64_data shot)])
                    (set_step_count k (agent_of w))) by reflexivity.
  assert (Ht2 : trace w2 = trace w).
  { subst w2. cbn [trace]. now rewrite !trace_suspend, !app_nil_r. }
  clearbody w2.
  rewrite run_mbind, run_attempt.
  unfold GLM._stream_openai.
  rewrite Hstream.
  destruct (run_glm_chunks client Hpassive chunks EmptyString false []
              EmptyString (suspend client AtAwait w2))
    as (parts' & w3 & evs & Hr & Ha3 & Ht3 & Hq).
  { rewrite agent_suspend_passive by assumption. now rewrite Hw2. }
  match goal with
  | |- context [run client (for_each ?g ?acc ?b) w2] =>
      change (run client (for_each g acc b) w2)
        with (run client
                (for_each
                   (try_finally (GLM.stream_chunks chunks None EmptyString false)
                      (Await (Ret tt))) acc b)
                (suspend client AtAwait w2))
  end.
  rewrite Hr. cbv beta iota.
  change (EmptyString +:+ raw_text chunks) with (raw_text chunks).
  rewrite agent_suspend_passive in Ha3 by assumption.
  rewrite trace_suspend, app_nil_r, Ht2 in Ht3.
  rewrite Hw2 in Ha3. clear Hr Hw2 Ht2 w2.
  unfold glm_action in Hact. cbv zeta in Hact.
  assert (Haction :
    run client
      (match parse env (snd (GLMParse._parse_raw_response (raw_text chunks))) with
       | Ok a => mret a
       | Raise e =>
           match exn_cls e with
           | ValueError =>
               mret (ActionMapper.finish_action
                       (PStr (snd (GLMParse._parse_raw_response
                                     (raw_text chunks)))))
           | _ => Throw e
           end
       end) w3 = (Returned action, w3)).
  { destruct (parse env _) as [a|pe]; [now injection Hact as ->|].
    destruct (exn_cls pe); try discriminate. now injection Hact as <-. }
  rewrite run_mbind, Haction. cbv beta iota.
  assert (Htail : forall w4,
    agent_of w4 = agent_of w3 -> trace w4 = trace w3 ->
    exists w' evs0 d,
      run client
        (GLM.strip_last_image ;;
         GLM.append_turn
           (create_assistant_message
              ("<think>" +:+ String.concat EmptyString parts' +:+
               "</think><answer>" +:+
               snd (GLMParse._parse_raw_response (raw_text chunks)) +:+
               "</answer>")) ;;
         yield
           (EvStep
              {| ev_step := k;
                 ev_thinking := String.concat EmptyString parts';
                 ev_action := Some action;
                 ev_success := Agent.success result;
                 ev_finished :=
                   ActionMapper.is_finish action || should_finish result;
                 ev_message :=
                   GLM.message_or (Agent.message result)
                     (action !! "message") |})) w4
      = (Returned tt, w') /\
      trace w' = trace w ++ evs0 ++ [EvStep d] /\ quiet evs0 /\
      checked_step k action result d).
  { intros w4 Ha4 Ht4.
    rewrite run_mbind, run_strip_last_image.
    2:{ rewrite Ha4, Ha3. simpl. destruct (_context (agent_of w)); discriminate. }
    cbv beta iota.
    rewrite run_mbind. simpl (run client (GLM.append_turn _) _). cbv beta iota.
    simpl (run client (yield _) _).
    do 3 eexists. split; [reflexivity|].
    rewrite trace_suspend. cbn [trace agent_of].
    rewrite Ht4, Ht3, <- app_assoc.
    split; [reflexivity|]. split; [exact Hq|]. repeat split. }
  rewrite run_mbind.
  destruct (execute env k action (width shot) (height shot)) as [r|xe] eqn:Hex;
    simpl in Hres.
  - injection Hres as ->.
    simpl (run client (attempt _) w3). cbv beta iota.
    rewrite run_mbind. simpl (run client (mret _) _). cbv beta iota.
    apply Htail.
    + now rewrite agent_suspend_passive.
    + now rewrite trace_suspend, app_nil_r.
  - destruct (is_Exception xe) eqn:Hxe; [|discriminate]. injection Hres as <-.
    simpl (run client (attempt _) w3). cbv beta iota. rewrite Hxe.
    rewrite run_mbind. simpl (run client (mret _) _). cbv beta iota.
    apply Htail.
    + now rewrite agent_suspend_passive.
    + now rewrite trace_suspend, app_nil_r.
Qed.

Lemma run_guarded_calls {A B} (r1 : res A) (r2 : A -> res B) (w : world) :
  exists w',
    run client (attempt (a ← await r1; await (r2 a))) w
    = (Returned (rbind r1 r2), w') /\
    agent_of w' = agent_of w /\ trace w' = trace w.
Proof.
  destruct r1 as [a|e]; simpl.
  - destruct (r2 a) as [b|e]; simpl; eexists; (split; [reflexivity|]);
      rewrite !agent_suspend_passive, !trace_suspend, !app_nil_r by assumption;
      auto.
  - eexists. split; [reflexivity|].
    rewrite !agent_suspend_passive, !trace_suspend, !app_nil_r by assumption.
    auto.
Qed.

Lemma gemini_step_reaches_check (w : world) (action : gmap string pyval)
    (result : ActionResult) :
  gemini_reaches_check env (S (_step_count (agent_of w))) action result ->
  _cancel_event (agent_of w) = false ->
  exists w' evs d,
    run client (Gemini.execute_step env) w = (Returned tt, w') /\
    trace w' = trace w ++ evs ++ [EvStep d] /\ quiet evs /\
    checked_step (S (_step_count (agent_of w))) action result d.
Proof.
  intros (Hdev & c & cs & Hcomplete & Hmap & Hres) Hc.
  unfold Gemini.execute_step.
  rewrite run_mbind. simpl (run client (modify _) w). cbv beta iota.
  rewrite run_mbind. simpl (run client get _). cbv beta iota zeta.
  cbn [agent_of trace clock _step_count set_step_count].
  set (k := S (_step_count (agent_of w))) in *.
  rewrite run_mbind.
  assert (Hobs : exists w2,
    run client
      (if (1 <? k)%nat
       then
         o ← attempt (observe env k);
         match o with
         | Ok (screenshot, current_app) =>
             GLM.append_turn
               (create_user_message ("Current app: " +:+ current_app)
                  (base64_data screenshot)) ;; mret true
         | Raise e =>
             if is_Exception e
             then
               yield (EvError ("Device error: " +:+ exn_msg e)) ;;
               yield (GLM.failed_step k ("Device error: " +:+ exn_msg e)) ;;
               mret false
             else Throw e
         end
       else mret true)
      {| agent_of := set_step_count k (agent_of w); trace := trace w;
         clock := clock w |}
    = (Returned true, w2) /\
    trace w2 = trace w /\
    _cancel_event (agent_of w2) = false).
  { destruct (Nat.ltb_spec 1 k) as [Hk|Hk].
    - destruct (Hdev Hk) as [[shot app] Hobs].
      rewrite run_mbind, (run_observe_ok env client k _ _ Hobs).
      cbv beta iota.
      simpl. eexists. split; [reflexivity|]. cbn [agent_of trace].
      rewrite !trace_suspend, !app_nil_r.
      rewrite !agent_suspend_passive by assumption. simpl. auto.
    - eexists. split; [reflexivity|]. simpl. auto. }
  destruct Hobs as (w2 & Hr2 & Ht2 & Hc2).
  rewrite Hr2. clear Hr2. cbv beta iota. simpl negb. cbv iota.
  rewrite run_mbind, run_attempt. unfold Gemini._call_llm_with_tools.
  rewrite run_mbind. simpl (run client get _). cbv beta iota. rewrite Hc2.
  rewrite Hcomplete. simpl (run client (await _ ≫= _) _). cbv beta iota.
  destruct (Gemini.read_choice c) as [[thinking tool_name] tool_args] eqn:Hchoice.
  simpl in Hmap.
  rewrite run_mbind.
  assert (Hthink : exists w3 evs,
    run client
      (if negb (String.eqb thinking EmptyString)
       then yield (EvThinking thinking) else Ret tt)
      (suspend client AtAwait w2) = (Returned tt, w3) /\
    agent_of w3 = agent_of w2 /\ trace w3 = trace w ++ evs /\ quiet evs).
  { destruct (negb _).
    - simpl. do 2 eexists. split; [reflexivity|].
      rewrite !agent_suspend_passive by assumption.
      rewrite !trace_suspend, app_nil_r, Ht2. repeat split.
      repeat constructor. eexists; reflexivity.
    - exists (suspend client AtAwait w2), []. split; [reflexivity|].
      rewrite !agent_suspend_passive by assumption.
      rewrite !trace_suspend, !app_nil_r, Ht2. repeat split. constructor. }
  destruct Hthink as (w3 & evs & Hr3 & Ha3 & Ht3 & Hq).
  rewrite Hr3. clear Hr3. cbv beta iota.
  rewrite run_mbind, Hmap. simpl (run client (mret action) w3). cbv beta iota.
  destruct (run_guarded_calls (exec_screenshot env k)
              (fun screenshot =>
                 execute env k action (width screenshot) (height screenshot))
              w3) as (w4 & Hr4 & Ha4 & Ht4).
  rewrite run_mbind, Hr4. clear Hr4. cbv beta iota.
  rewrite run_mbind.
  assert (Hresult :
    run client
      (match
         rbind (exec_screenshot env k)
           (fun screenshot =>
              execute env k action (width screenshot) (height screenshot))
       with
       | Ok r => mret r
       | Raise e =>
           if is_Exception e
           then mret {| Agent.success := false; should_finish := true;
                        Agent.message := Some (exn_msg e) |}
           else Throw e
       end) w4 = (Returned result, w4)).
  { destruct (rbind _ _) as [r|xe]; simpl in Hres.
    - now injection Hres as ->.
    - destruct (is_Exception xe); [|discriminate]. now injection Hres as <-. }
  rewrite Hresult. clear Hresult. cbv beta iota.
  rewrite run_mbind. simpl (run client get _). cbv beta iota.
  rewrite run_mbind.
  assert (Hstrip : exists s5,
    run client
      (if (1 <? length (_context (agent_of w4)))%nat
       then GLM.strip_last_image else Ret tt) w4
    = (Returned tt,
       {| agent_of := s5; trace := trace w4; clock := clock w4 |})).
  { destruct (1 <? length (_context (agent_of w4)))%nat eqn:Hlen.
    - rewrite run_strip_last_image.
      + eexists. reflexivity.
      + intros Hnil. rewrite Hnil in Hlen. discriminate.
    - exists (agent_of w4). now destruct w4. }
  destruct Hstrip as (s5 & Hr5).
  rewrite Hr5. clear Hr5. cbv beta iota.
  simpl. do 3 eexists. split; [reflexivity|].
  rewrite trace_suspend. cbn [trace agent_of].
  rewrite Ht4, Ht3, <- app_assoc.
  split; [reflexivity|]. split; [exact Hq|]. repeat split.
Qed.

End CheckedSteps.

(** C7. Finish check.  Every step event that carries an action, in any
    run of a step of the DSL agent or of the tool-call agent and whatever
    the consumer does, has [finished] equal to (the action is a finish
    action) or (the executor's result, or the synthetic failure standing
    for its exception, has [should_finish]).  And a step that gets as far
    as the check does emit that event: under a consumer that does not
    cancel, when the device is observed, the model answers, the answer
    gives [action] and the executor leaves [result], the step of the run
    loop emits its thinking chunks and then the step event of [action] and
    [result], whose [finished] is that disjunction.  When it is set, the
    loop answers with [done], repeating the message and the success of the
    step, and returns; so an executor whose result has [should_finish]
    ends the run also when the action was not a finish action.  When it is
    not set, the loop goes on to its next turn. *)
Theorem finish_check (env : Env) (max_steps : Z)
    (client : nat -> suspension -> bool) (fuel : nat) (w : world) :
  (forall d a,
     ev_action d = Some a ->
     (EvStep d ∈ emitted client (GLM.execute_step env) w ->
      exists screenshot result,
        get_screenshot env (ev_step d) = Ok screenshot /\
        effective_result
          (execute env (ev_step d) a (width screenshot) (height screenshot))
        = Some result /\
        ev_finished d = ActionMapper.is_finish a || should_finish result) /\
     (EvStep d ∈ emitted client (Gemini.execute_step env) w ->
      exists result,
        effective_result
          (rbind (exec_screenshot env (ev_step d)) (fun screenshot =>
             execute env (ev_step d) a (width screenshot) (height screenshot)))
        = Some result /\
        ev_finished d = ActionMapper.is_finish a || should_finish result)) /\
  (never_cancels client ->
   (Z.of_nat (_step_count (agent_of w)) < max_steps)%Z ->
   _is_running (agent_of w) = true ->
   _cancel_event (agent_of w) = false ->
   forall action result,
     (StepOutcome.glm_reaches_check env (S (_step_count (agent_of w)))
        action result ->
      StepOutcome.loop_obeys_check max_steps (GLM.glm_agent env) client fuel w
        action result) /\
     (StepOutcome.gemini_reaches_check env (S (_step_count (agent_of w)))
        action result ->
      StepOutcome.loop_obeys_check max_steps (Gemini.gemini_agent env) client
        fuel w action result)).
Proof.
  split.
  - intros d a Ha. split; intros Hin.
    + pose proof (emitted_gen_spec client _ _ _ w (glm_step_finish_rule env))
        as H.
      rewrite Forall_forall in H. exact (H _ Hin d a eq_refl Ha).
    + pose proof (emitted_gen_spec client _ _ _ w
                    (gemini_step_finish_rule env)) as H.
      rewrite Forall_forall in H. exact (H _ Hin d a eq_refl Ha).
  - intros Hpassive Hlt Hrun Hc action result. split; intros Hreach.
    + destruct (glm_step_reaches_check env client Hpassive w action result
                  Hreach Hc) as (w1 & evs & d & Hr & Ht & Hq & Hd).
      exact (loop_obeys_check_intro max_steps (impl := GLM.glm_agent env)
               client (glm_enters_step env) fuel w w1 evs d action result
               Hlt Hrun Hc Hr Ht Hq Hd).
    + destruct (gemini_step_reaches_check env client Hpassive w action result
                  Hreach Hc) as (w1 & evs & d & Hr & Ht & Hq & Hd).
      exact (loop_obeys_check_intro max_steps (impl := Gemini.gemini_agent env)
               client (gemini_enters_step env) fuel w w1 evs d action result
               Hlt Hrun Hc Hr Ht Hq Hd).
Qed.

(** The finish check on an executor that asks to finish after a [Back]
    action, in the first step of a 5-step run of the DSL agent: the step
    event is finished and carries the [Back] action, and the run ends
    there with the executor's message. *)
Lemma finish_check_witness :
  ActionMapper.is_finish (ActionMapper.do_action "Back" []) = false /\
  exists w' evs d,
    run Scenario.passive
      (step_loop 5 (impl := GLM.glm_agent StepScenario.executor_finishing) 1)
      (StepScenario.running_after 0)
    = (Returned tt, w') /\
    trace w' = evs ++ [EvStep d; EvDone (PStr "stop here") 1 true] /\
    ev_action d = Some (ActionMapper.do_action "Back" []) /\
    ev_finished d = true.
Proof.
  split; [vm_compute; reflexivity|].
  destruct (finish_check StepScenario.executor_finishing 5 Scenario.passive 0
              (StepScenario.running_after 0)) as [_ Hlive].
  destruct (Hlive (fun _ _ => eq_refl) eq_refl eq_refl eq_refl
              (ActionMapper.do_action "Back" [])
              {| Agent.success := true; should_finish := true;
                 Agent.message := Some "stop here" |}) as [Hglm _].
  destruct Hglm as (evs & d & w1 & _ & Hd & _ & _ & Hloop).
  { exists (Scenario.shot 1), "launcher",
      [Delta (Some "go back"); Delta (Some "do(act");
       Delta (Some "ion=Back)")].
    split; [reflexivity|]. split; [reflexivity|].
    split; [vm_compute; reflexivity|reflexivity]. }
  destruct Hd as (_ & Ha & Hs & Hf & Hm).
  assert (Hb : ActionMapper.is_finish (ActionMapper.do_action "Back" [])
               || should_finish
                    {| Agent.success := true; should_finish := true;
                       Agent.message := Some "stop here" |} = true)
    by (vm_compute; reflexivity).
  rewrite Hb in Hloop, Hf. destruct Hloop as (w' & Hr & Ht).
  exists w', evs, d. split; [exact Hr|].
  split; [|split; [exact Ha|exact Hf]].
  rewrite Ht, Hm, Hs. reflexivity.
Defined.

(** ** The coordinator after a step that failed *)

Section AfterError.
Import DualModel DualRecovery.

Context (env : DualEnv) (max_steps : Z).






End AfterError.



